(* ===== verification/_CoqProject ===== *)
-Q . S2P
Prelude.v
Core.v
BytesCrate.v
Utf8.v
Str.v
Words.v
BTree.v
Rtp.v
RtpExt.v
Nack.v
Rtcp.v
RtcpFacts.v
Rtx.v
Twcc.v
Frame.v
Jitter.v
Stun.v
Srtp.v
SrtpFacts.v
Per.v
Ifp.v
T38Wire.v
Udptl.v
UdptlFacts.v
StateRes.v
RecordSet.v
DtlsRecord.v
DtlsRecordFacts.v
DtlsCrypto.v
DtlsCryptoFacts.v
Dtls.v
DtlsData.v
DtlsExample.v
DtlsAuth.v
DtlsComplete.v
DtlsRobust.v
Spsc.v
Packetizer.v
Depacketizer.v
PacketizerFacts.v
Vp9Facts.v
MediaRobust.v
Float64.v
DataChannel.v
Crc32c.v
SctpQueues.v
Sctp.v
SctpWire.v
SctpRecv.v
SctpSend.v
SctpEnd.v
SctpMessage.v
SctpSystem.v
SctpSetup.v
SctpExample.v
SctpFaults.v
Sdp.v
SdpFacts.v
SdpCaps.v
SdpCapsFacts.v
SdpSecurity.v
Parsers.v
