(* ===== verification/Prelude.v ===== *)
(** * rustrtc: a verification development

    rustrtc is a WebRTC, SIP and T.38 fax media stack in Rust ([src/src/]).
    This library models the parts of it that decide what goes over the wire
    and what is handed to the application, as executable functions, and proves
    them correct.

    ** The program and the files

    An application sends and receives media samples.  A sample becomes RTP
    packets, which are protected by SRTP and sent over a path that ICE found
    with STUN messages; on the way in, packets are unprotected, parsed, put in
    order by a jitter buffer and handed out as samples through lock-free
    rings.  The keys of SRTP and the channel for data come from a DTLS
    handshake on the same path.  RTCP packets report on the stream
    (transport-wide feedback among them) and ask for retransmission, which RTX
    carries.  Fax sessions exchange IFP packets over UDPTL instead of RTP.

    - [Prelude] (this file): results with errors and aborts, fixed-width
      integers, big-endian fields, tactics.  [StateRes]: stateful code that
      can fail, what it preserves, and loops.  [RecordSet]: field update.
      [Core]: [errors.rs] and socket addresses.  [Str], [Utf8], [BTree]: the
      parts of the Rust standard library the sources use (strings, UTF-8,
      ordered maps).
    - [BytesCrate]: the third-party crate [bytes] as a class of operations and
      a class of laws, with an instance.
    - [Rtp], [RtpExt]: [RtpHeader], [RtpPacket] and header extensions of
      [rtp.rs].  [Nack], [Rtcp], [RtcpFacts]: the RTCP half of [rtp.rs].
    - [Rtx]: [rtx.rs].  [Twcc]: [media/twcc_feedback.rs] and
      [decode_twcc_feedback].  [Frame]: [media/frame.rs].  [Jitter]:
      [media/jitter_buffer.rs].  [Spsc]: [media/spsc.rs].
    - [Stun]: [transports/ice/stun.rs].  [Srtp], [SrtpFacts]: [srtp.rs].
    - [DtlsRecord], [DtlsRecordFacts]: [transports/dtls/record.rs] and
      [handshake.rs].  [DtlsCrypto], [DtlsCryptoFacts]: certificates, key
      schedule and record protection of [transports/dtls/mod.rs] and
      [x509_min.rs].  [Dtls]: the handshake task and the transport of
      [mod.rs].  [DtlsData], [DtlsAuth], [DtlsComplete], [DtlsRobust]: what
      is shown of it; [DtlsExample]: concrete runs.
    - [Per], [Ifp], [T38Wire]: [t38/per.rs], [t38/ifp.rs], [t38/wire.rs].
      [Udptl], [UdptlFacts]: [transports/udptl.rs].
    - [Parsers]: the parsers of received bytes together.

    A Rust struct is a [Record] with the fields of the source, an enum an
    [Inductive], a method a [Definition] or [Fixpoint] of the same name
    (prefixed by the type where names clash) that takes the state and returns
    the new one.  A long function is cut into definitions along its branches
    and loops.  [usize] is [nat]; other integers are [Z] with casts and
    wrapping operations written out; bytes are [Z] below 256.  [Result] is
    [res], whose third constructor [Panic] is an abort: an index or slice out
    of range, or an arithmetic overflow, as a build with overflow checks
    reports it.  The DTLS task, which mutates its context and may fail in the
    middle, is written in the monad of [StateRes]; what wakes it (a close
    request, the deadline, the retransmission timer, a datagram) is a list of
    events.  The two sides of the ring in [Spsc] are a step relation that
    interleaves their atomic accesses.

    Third-party code is a parameter: the [bytes] crate ([BytesCrate]), HMAC
    and CRC-32 in [Stun], AES, AES-GCM and HMAC in [Srtp], the hashes, ciphers,
    signatures and key agreement of DTLS in [DtlsCrypto].  Its documented
    behaviour is stated as laws, each with an instance that satisfies them.
    Clocks, random values and sockets are arguments.

    ** What is shown

    - Codecs: what is serialised is read back, for RTP, RTCP, STUN, SRTP,
      SRTCP, DTLS records and handshake messages, PER, IFP, T.38 wire packets,
      NACK pairs, RTX and transport-wide feedback; parsed RTP packets without
      padding serialise to the same bytes; the STUN integrity and fingerprint
      attributes cover what the standard says; REMB rounds down by less than
      one part in 2^17; the public point is found in DER certificates.
    - Safety: the parsers of received bytes never abort, whatever the bytes.
    - SRTP: the rollover counter follows the sender through loss and
      reordering; initialisation vectors do not repeat; only packets with a
      right tag are accepted.
    - DTLS: a connected client holds keys agreed with the owner of the expected
      certificate; client and server complete the handshake; data arrives
      unchanged; fragments in any order are reassembled; the key schedule is
      that of RFC 5246; the loops of the task end.
    - Ordering: the jitter buffer and the UDPTL receiver hand packets out in
      order, once each; the T.38 receiver classifies every sequence number;
      the lock-free ring refines a bounded queue.
    - Defects: theorems that exhibit aborts on received data
      ([set_extension], the UDPTL parity trailer, DTLS hellos of 34 bytes), a
      UDPTL receiver that stops after one loss, replayed SRTP packets that are
      accepted, reused SRTCP indices and DTLS nonces, unencrypted DTLS records
      that are accepted, a rollover counter that underflows, a jitter buffer
      that reorders at start-up, truncated IFP packets that are accepted, T.38
      packets that the decoder rejects or miscounts, and a ring that loses
      samples when its counters wrap.

    ** Bounds and fuel

    Loops over a buffer recurse on what is left of it, by structure or by its
    length.  Fuel occurs where a loop is bounded by the width of an integer:
    46 halvings bring a [u64] bit rate into the 18 bits of REMB, 20 digits
    print a [u64], 64 halvings count the bits of a [u64] range, 4 steps pad to
    a multiple of four.  [Udptl.deliver_loop] takes one step per buffered
    packet and one more.  The loops of the DTLS task take at most one turn per
    byte of the datagram or record and per buffered message
    ([DtlsRobust.dtls_loops_terminate]); dropping a ring visits at most its
    capacity.

    ** What is not modelled

    The asynchronous parts: [peer_connection.rs], the ICE agent and sockets,
    the SCTP association, tracks and tasks.  [gcc.rs]
    computes with floating-point numbers.  [platform/] and [config.rs] are
    glue.  Concurrent calls on one object are taken one after the other,
    except in [Spsc], where atomic accesses are sequentially consistent.
    Planned next, in this order: SDP, data channels and SCTP chunks,
    packetizers and depacketizers, T.4 and T.30, candidate priorities and
    pairing in ICE, the signalling states of the peer connection. *)
From stdpp Require Export base tactics list numbers option strings.
From Stdlib Require Export ZArith Lia ZifyBool ZifyNat.

#[global] Open Scope Z_scope.

(** ** Results of Rust code

    A fallible Rust function returns [Ok v] or [Err e]; a function that
    indexes out of bounds, slices past the end, or overflows an arithmetic
    operation aborts, which is the third constructor. *)

Inductive res (E A : Type) : Type :=
| Ok (a : A)
| Err (e : E)
| Panic.
Arguments Ok {_ _} _.
Arguments Err {_ _} _.
Arguments Panic {_ _}.

#[export] Instance res_ret {E} : MRet (res E) := fun A a => Ok a.
#[export] Instance res_bind {E} : MBind (res E) := fun A B f m =>
  match m with Ok a => f a | Err e => Err e | Panic => Panic end.

(** [x?] on an [Option] turned into a result by [ok_or]. *)
Definition ok_or {E A} (o : option A) (e : E) : res E A :=
  match o with Some a => Ok a | None => Err e end.

(** An indexing or slicing operation: out of bounds aborts. *)
Definition or_panic {E A} (o : option A) : res E A :=
  match o with Some a => Ok a | None => Panic end.

Definition is_panic {E A} (r : res E A) : bool :=
  match r with Panic => true | _ => false end.

Lemma bind_Ok {E A B} (m : res E A) (f : A → res E B) (b : B) :
  (m ≫= f) = Ok b ↔ ∃ a, m = Ok a ∧ f a = Ok b.
Proof. destruct m; cbn; split; [eauto|by intros (?&[= ->]&?)|done|by intros (?&?&?)..|done|by intros (?&?&?)]. Qed.

Lemma bind_not_panic {E A B} (m : res E A) (f : A → res E B) :
  m ≠ Panic → (∀ a, m = Ok a → f a ≠ Panic) → (m ≫= f) ≠ Panic.
Proof. destruct m; cbn; naive_solver. Qed.

Lemma or_panic_Ok {E A} (o : option A) (a : A) :
  @or_panic E A o = Ok a ↔ o = Some a.
Proof. destruct o; cbn; naive_solver. Qed.

Lemma ok_or_Ok {E A} (o : option A) (e : E) (a : A) : ok_or o e = Ok a ↔ o = Some a.
Proof. destruct o; cbn; naive_solver. Qed.

(** Boolean tests on sizes, as propositions. *)
Ltac nat_tests :=
  repeat match goal with
    | H : (_ <? _)%nat = false |- _ => apply Nat.ltb_ge in H
    | H : (_ <? _)%nat = true |- _ => apply Nat.ltb_lt in H
    | H : (_ <=? _)%nat = false |- _ => apply Nat.leb_gt in H
    | H : (_ <=? _)%nat = true |- _ => apply Nat.leb_le in H
    | H : (_ =? _)%nat = true |- _ => apply Nat.eqb_eq in H
    | H : (_ =? _)%nat = false |- _ => apply Nat.eqb_neq in H
    end.

(** Destructing a monadic computation known to succeed. *)
Ltac res_inv :=
  repeat match goal with
    | H : Ok _ = Ok _ |- _ => injection H; clear H; intros; subst
    | H : (_ ≫= _) = Ok _ |- _ => apply bind_Ok in H as (? & ? & ?)
    | H : or_panic _ = Ok _ |- _ => apply or_panic_Ok in H
    | H : ok_or _ _ = Ok _ |- _ => apply ok_or_Ok in H
    | H : (let '(_, _) := ?p in _) = Ok _ |- _ => destruct p
    | H : (if ?b then Err _ else _) = Ok _ |- _ => destruct b eqn:?; [discriminate H|]
    | H : (if ?b then Panic else _) = Ok _ |- _ => destruct b eqn:?; [discriminate H|]
    | H : Err _ = Ok _ |- _ => discriminate H
    | H : Panic = Ok _ |- _ => discriminate H
    end; nat_tests.

(** Running a bind whose first computation is known. *)
Ltac run := cbn [mbind res_bind option_bind or_panic ok_or negb fst snd].
Tactic Notation "run" "in" hyp(H) :=
  cbn [mbind res_bind option_bind or_panic ok_or negb fst snd] in H.

(** ** Machine integers

    An unsigned integer of the source is a [Z] in its range; the wrapping and
    truncating operations are written with [mod]. *)

Definition u8 (x : Z) : Prop := 0 ≤ x < 256.
Definition u16 (x : Z) : Prop := 0 ≤ x < 65536.
Definition u24 (x : Z) : Prop := 0 ≤ x < 16777216.
Definition u32 (x : Z) : Prop := 0 ≤ x < 4294967296.
Definition u48 (x : Z) : Prop := 0 ≤ x < 281474976710656.
Definition u64 (x : Z) : Prop := 0 ≤ x < 18446744073709551616.
Definition i32 (x : Z) : Prop := -2147483648 ≤ x < 2147483648.

(** [x as u8], [x as u16], [x as u32], [x as u64] *)
Definition as_u8 (x : Z) : Z := x mod 256.
Definition as_u16 (x : Z) : Z := x mod 65536.
Definition as_u32 (x : Z) : Z := x mod 4294967296.
Definition as_u64 (x : Z) : Z := x mod 18446744073709551616.
(** [x as i16], [x as i32], [x as i64]: two's complement reinterpretation *)
Definition as_i16 (x : Z) : Z := (x + 32768) mod 65536 - 32768.
Definition as_i32 (x : Z) : Z := (x + 2147483648) mod 4294967296 - 2147483648.
Definition as_i64 (x : Z) : Z :=
  (x + 9223372036854775808) mod 18446744073709551616 - 9223372036854775808.

(** [a.wrapping_add(b)] and [a.wrapping_sub(b)] on [u16] and [u32] *)
Definition wadd16 (a b : Z) : Z := as_u16 (a + b).
Definition wsub16 (a b : Z) : Z := as_u16 (a - b).
Definition wadd32 (a b : Z) : Z := as_u32 (a + b).
Definition wsub32 (a b : Z) : Z := as_u32 (a - b).

(** [now.duration_since(t)], which saturates at zero *)
Definition duration_since (now t : Z) : Z := Z.max 0 (now - t).

Ltac unfold_ints :=
  unfold wadd16, wsub16, wadd32, wsub32, as_u8, as_u16, as_u32, as_u64,
    as_i16, as_i32, as_i64, u8, u16, u24, u32, u48, u64, i32 in *.

(** Linear arithmetic over the integer ranges; [mlia] also knows division and
    remainder by constants. *)
Ltac ulia := unfold_ints; lia.
Ltac mlia := unfold_ints; zify; Z.to_euclidean_division_equations; lia.

(** The byte strings of the source ([&[u8]], [Vec<u8>], [Bytes]). *)
Abbreviation bytes := (Forall u8).

Lemma bytes_lookup l i b : bytes l → l !! i = Some b → u8 b.
Proof. intros Hl Hi. by eapply Forall_lookup_1. Qed.

(** A property of all bytes, checked by running it on the 256 of them. *)
Lemma byte_forall (P : Z → bool) :
  forallb P (seqZ 0 256) = true → ∀ x, u8 x → P x = true.
Proof.
  intros HP x Hx. rewrite forallb_forall in HP. apply HP.
  apply list_elem_of_In, elem_of_seqZ. ulia.
Qed.

Ltac byte_check x :=
  match goal with
  | |- ?b = true =>
      let f := eval pattern x in b in
      match f with ?P _ => apply (byte_forall P) end
  end.

(** ** Big-endian encoding *)

(** [x.to_be_bytes()] for an integer of [n] bytes *)
Fixpoint to_be (n : nat) (x : Z) : list Z :=
  match n with
  | O => []
  | S n' => (x / 256 ^ Z.of_nat n') mod 256 :: to_be n' x
  end.

(** [uN::from_be_bytes] *)
Fixpoint of_be (l : list Z) : Z :=
  match l with
  | [] => 0
  | b :: r => b * 256 ^ Z.of_nat (length r) + of_be r
  end.

Lemma length_to_be n x : length (to_be n x) = n.
Proof. induction n; cbn; congruence. Qed.

Lemma to_be_bytes n x : bytes (to_be n x).
Proof.
  induction n; cbn; constructor; [|done].
  unfold u8. apply Z.mod_pos_bound. lia.
Qed.

Lemma pow256_pos n : 0 < 256 ^ Z.of_nat n.
Proof. apply Z.pow_pos_nonneg; lia. Qed.

Lemma of_be_to_be n x : of_be (to_be n x) = x mod 256 ^ Z.of_nat n.
Proof.
  induction n as [|n IH]; cbn [to_be of_be].
  - by rewrite Z.mod_1_r.
  - rewrite IH, length_to_be, Nat2Z.inj_succ, Z.pow_succ_r by lia.
    pose proof (pow256_pos n).
    rewrite (Z.mul_comm 256), Z.rem_mul_r by lia. lia.
Qed.

Lemma of_be_bound l : bytes l → 0 ≤ of_be l < 256 ^ Z.of_nat (length l).
Proof.
  induction 1 as [|b l Hb _ IH]; cbn [of_be length]; [done|].
  rewrite Nat2Z.inj_succ, Z.pow_succ_r by lia. unfold u8 in Hb. nia.
Qed.

Lemma to_be_mod n x : to_be n (x mod 256 ^ Z.of_nat n) = to_be n x.
Proof.
  assert (∀ m, (n ≤ m)%nat → to_be n (x mod 256 ^ Z.of_nat m) = to_be n x)
    as Haux; [|by apply Haux].
  induction n as [|n IH]; intros m Hm; cbn [to_be]; [done|].
  f_equal; [|apply IH; lia].
  pose proof (pow256_pos n). pose proof (pow256_pos (m - n - 1)).
  replace (256 ^ Z.of_nat m)
    with (256 ^ Z.of_nat n * (256 * 256 ^ Z.of_nat (m - n - 1))).
  2:{ rewrite <- Z.pow_succ_r, <- Z.pow_add_r by lia. f_equal. lia. }
  rewrite Z.rem_mul_r by lia.
  rewrite Z.mul_comm, Z.div_add by lia.
  rewrite Z.div_small by (by apply Z.mod_pos_bound). rewrite Z.add_0_l.
  rewrite Z.rem_mul_r by lia.
  rewrite Z.mul_comm, Z.mod_add by lia. by rewrite Z.mod_mod by lia.
Qed.

Lemma to_be_of_be l : bytes l → to_be (length l) (of_be l) = l.
Proof.
  induction 1 as [|b l Hb Hl IH]; cbn [of_be length to_be]; [done|].
  pose proof (of_be_bound l Hl) as Hbd. pose proof (pow256_pos (length l)).
  f_equal.
  - rewrite Z.add_comm, Z.div_add, Z.div_small by lia.
    apply Z.mod_small. ulia.
  - trans (to_be (length l) (of_be l)); [|done].
    rewrite <- (to_be_mod _ (b * _ + _)), (Z.add_comm (b * _)), Z.mod_add by lia.
    apply to_be_mod.
Qed.

Lemma of_be_to_be_8 x : u8 x → of_be (to_be 1 x) = x.
Proof. intros. rewrite of_be_to_be. apply Z.mod_small. ulia. Qed.
Lemma of_be_to_be_16 x : u16 x → of_be (to_be 2 x) = x.
Proof. intros. rewrite of_be_to_be. apply Z.mod_small. ulia. Qed.
Lemma of_be_to_be_24 x : u24 x → of_be (to_be 3 x) = x.
Proof. intros. rewrite of_be_to_be. apply Z.mod_small. ulia. Qed.
Lemma of_be_to_be_32 x : u32 x → of_be (to_be 4 x) = x.
Proof. intros. rewrite of_be_to_be. apply Z.mod_small. ulia. Qed.
Lemma of_be_to_be_48 x : u48 x → of_be (to_be 6 x) = x.
Proof. intros. rewrite of_be_to_be. apply Z.mod_small. ulia. Qed.
Lemma of_be_to_be_64 x : u64 x → of_be (to_be 8 x) = x.
Proof. intros. rewrite of_be_to_be. apply Z.mod_small. ulia. Qed.

Lemma of_be_8 l : bytes l → length l = 1%nat → u8 (of_be l).
Proof. intros H E. apply of_be_bound in H. rewrite E in H. ulia. Qed.
Lemma of_be_16 l : bytes l → length l = 2%nat → u16 (of_be l).
Proof. intros H E. apply of_be_bound in H. rewrite E in H. ulia. Qed.
Lemma of_be_32 l : bytes l → length l = 4%nat → u32 (of_be l).
Proof. intros H E. apply of_be_bound in H. rewrite E in H. ulia. Qed.

Lemma of_be_1 x : of_be [x] = x.
Proof. cbn -[Z.mul Z.pow]. lia. Qed.
Lemma of_be_2 a b : of_be [a; b] = a * 256 + b.
Proof. cbn -[Z.mul Z.pow]. lia. Qed.
Lemma to_be_1 x : u8 x → to_be 1 x = [x].
Proof. intros. cbn -[Z.mul Z.pow]. f_equal. rewrite Z.div_1_r. apply Z.mod_small. ulia. Qed.

#[global] Opaque to_be of_be.

Create HintDb wire.
Create Rewrite HintDb wire.
#[export] Hint Resolve to_be_bytes Forall_app_2 : wire.
#[export] Hint Rewrite @length_to_be @length_app @length_cons @length_nil
  @length_take @length_drop @length_replicate : wire.

(** ** Slices and indexing *)

(** [l[i]] *)
Definition idx {E} (l : list Z) (i : nat) : res E Z := or_panic (l !! i).

(** [&l[a..b]] *)
Definition slice {E A} (l : list A) (a b : nat) : res E (list A) :=
  if decide (a ≤ b ∧ b ≤ length l)%nat
  then Ok (take (b - a) (drop a l)) else Panic.

(** [uN::from_be_bytes([l[i], ..., l[i+n-1]])] *)
Definition be_at {E} (n : nat) (l : list Z) (i : nat) : res E Z :=
  s ← slice l i (i + n); Ok (of_be s).

Lemma idx_lt {E} l i : (i < length l)%nat → ∃ b, @idx E l i = Ok b ∧ l !! i = Some b.
Proof.
  intros [b Hb]%lookup_lt_is_Some_2. exists b. unfold idx. by rewrite Hb.
Qed.

Lemma slice_ok {E A} (l : list A) a b :
  (a ≤ b)%nat → (b ≤ length l)%nat →
  @slice E A l a b = Ok (take (b - a) (drop a l)).
Proof. intros. unfold slice. by rewrite decide_True by lia. Qed.

Lemma be_at_ok {E} n l i :
  (i + n ≤ length l)%nat →
  @be_at E n l i = Ok (of_be (take n (drop i l))).
Proof.
  intros. unfold be_at. rewrite slice_ok by lia. cbn. do 3 f_equal. lia.
Qed.

(** The number of zero bytes that aligns a length to 32 bits. *)
Definition pad4 (n : nat) : nat := ((4 - n mod 4) mod 4)%nat.

Lemma pad4_mult n : ((n + pad4 n) mod 4 = 0)%nat.
Proof.
  unfold pad4. rewrite Nat.Div0.add_mod.
  pose proof (Nat.mod_upper_bound n 4).
  by destruct (n mod 4)%nat as [|[|[|[|]]]]; [..|lia].
Qed.

Lemma pad4_lt n : (pad4 n < 4)%nat.
Proof. apply Nat.mod_upper_bound. lia. Qed.

Lemma pad4_aligned n : (n mod 4 = 0)%nat → pad4 n = 0%nat.
Proof. unfold pad4. intros ->. done. Qed.

Lemma pad4_add n m : (n mod 4 = 0)%nat → pad4 (n + m) = pad4 m.
Proof. intros Hn. unfold pad4. by rewrite Nat.Div0.add_mod, Hn, Nat.add_0_l, Nat.Div0.mod_mod. Qed.

Lemma last_replicate_S {A} n (x : A) : last (replicate (S n) x) = Some x.
Proof. by rewrite replicate_S_end, last_snoc. Qed.

(** Induction on the length of a list, for loops that skip several elements. *)
Lemma list_len_ind {A} (P : list A → Prop) :
  (∀ l, (∀ l', (length l' < length l)%nat → P l') → P l) → ∀ l, P l.
Proof.
  intros IH l. remember (length l) as n eqn:Hn. revert l Hn.
  induction n as [n IHn] using lt_wf_ind. intros l ->. apply IH. eauto.
Qed.

Lemma filter_ext_in {A} (P Q : A → Prop) `{∀ x, Decision (P x), ∀ x, Decision (Q x)} (l : list A) :
  (∀ x, x ∈ l → P x ↔ Q x) → filter P l = filter Q l.
Proof.
  induction l as [|x l IH]; intros Hl; [done|]. rewrite !filter_cons.
  rewrite (decide_ext (P x) (Q x)) by (apply Hl; left).
  rewrite IH; [done|]. intros y Hy. apply Hl. by right.
Qed.

Lemma filter_none {A} (P : A → Prop) `{∀ x, Decision (P x)} (l : list A) :
  (∀ x, x ∈ l → ¬ P x) → filter P l = [].
Proof.
  induction l as [|x l IH]; intros Hl; [done|].
  rewrite filter_cons_False by (apply Hl; left). apply IH. intros y Hy. apply Hl. by right.
Qed.

(** A bitwise or stays within the width of its operands. *)
Lemma lxor_bound n a b :
  0 ≤ n → 0 ≤ a < 2 ^ n → 0 ≤ b < 2 ^ n → 0 ≤ Z.lxor a b < 2 ^ n.
Proof.
  intros Hn Ha Hb. assert (0 ≤ Z.lxor a b) as H0 by (apply Z.lxor_nonneg; lia).
  split; [done|]. pose proof (Z.pow_pos_nonneg 2 n).
  destruct (decide (Z.lxor a b = 0)) as [->|]; [lia|].
  assert (∀ x, 0 ≤ x < 2 ^ n → x = 0 ∨ Z.log2 x < n) as Hlog.
  { intros x Hx. destruct (decide (x = 0)); [by left|right]. apply Z.log2_lt_pow2; lia. }
  destruct (Hlog a Ha) as [->|?]; [rewrite Z.lxor_0_l; lia|].
  destruct (Hlog b Hb) as [->|?]; [rewrite Z.lxor_0_r; lia|].
  apply Z.log2_lt_pow2; [lia|]. pose proof (Z.log2_lxor a b). lia.
Qed.

Lemma lor_bound n a b :
  0 ≤ n → 0 ≤ a < 2 ^ n → 0 ≤ b < 2 ^ n → 0 ≤ Z.lor a b < 2 ^ n.
Proof.
  intros Hn Ha Hb. assert (0 ≤ Z.lor a b) as H0 by (apply Z.lor_nonneg; lia).
  split; [done|]. destruct (decide (n = 0)) as [->|].
  { by replace a with 0 by lia; replace b with 0 by lia. }
  assert (∀ x, 0 ≤ x < 2 ^ n → Z.log2 x < n) as Hlog.
  { intros x Hx. destruct (decide (x = 0)) as [->|]; [cbn; lia|]. apply Z.log2_lt_pow2; lia. }
  destruct (decide (Z.lor a b = 0)) as [->|]; [lia|].
  apply Z.log2_lt_pow2; [lia|]. rewrite Z.log2_lor by lia.
  apply Z.max_lub_lt; by apply Hlog.
Qed.

(** ** Fields of a concatenation *)

Lemma slice_app_skip {E A} (a r : list A) i j :
  (length a ≤ i)%nat →
  @slice E A (a ++ r) i j = if decide (i ≤ j)%nat then slice r (i - length a) (j - length a) else Panic.
Proof.
  intros Hi. unfold slice. rewrite length_app, drop_app_ge by lia.
  repeat case_decide; try lia; try done. do 2 f_equal. lia.
Qed.

Lemma slice_app_hd {E A} (a r : list A) n :
  length a = n → @slice E A (a ++ r) 0 n = Ok a.
Proof.
  intros <-. rewrite slice_ok by (rewrite ?length_app; lia).
  by rewrite drop_0, Nat.sub_0_r, take_app_length.
Qed.

Lemma be_at_hd {E} n a r : length a = n → @be_at E n (a ++ r) 0 = Ok (of_be a).
Proof. intros Ha. unfold be_at. by rewrite slice_app_hd. Qed.

Lemma be_at_skip {E} n a r i :
  (length a ≤ i)%nat → @be_at E n (a ++ r) i = be_at n r (i - length a).
Proof.
  intros Hi. unfold be_at. rewrite slice_app_skip, decide_True by lia.
  by replace (i + n - length a)%nat with (i - length a + n)%nat by lia.
Qed.

Lemma idx_skip {E} a r i : (length a ≤ i)%nat → @idx E (a ++ r) i = idx r (i - length a).
Proof. intros. unfold idx. by rewrite lookup_app_r. Qed.

Lemma idx_hd {E} x r : @idx E (x :: r) 0 = Ok x.
Proof. done. Qed.

Lemma be_at_all {E} n a : length a = n → @be_at E n a 0 = Ok (of_be a).
Proof. intros. by rewrite <- (app_nil_r a), be_at_hd, app_nil_r. Qed.

Lemma be_at_next {E} n a r i j : i = (length a + j)%nat → @be_at E n (a ++ r) i = be_at n r j.
Proof. intros ->. rewrite be_at_skip by lia. f_equal. lia. Qed.

Lemma idx_next {E} a r i j : i = (length a + j)%nat → @idx E (a ++ r) i = idx r j.
Proof. intros ->. rewrite idx_skip by lia. f_equal. lia. Qed.

Lemma slice_next {E A} (a r : list A) i j i' j' :
  i = (length a + i')%nat → j = (length a + j')%nat →
  @slice E A (a ++ r) i j = slice r i' j'.
Proof.
  intros -> ->. unfold slice. rewrite length_app, drop_app_ge by lia.
  repeat case_decide; try lia; try done. do 2 f_equal; [lia|]. f_equal. lia.
Qed.

Lemma idx_tl {E} x r i : @idx E (x :: r) (S i) = idx r i.
Proof. done. Qed.

Lemma be_at_tl {E} n x r i : @be_at E n (x :: r) (S i) = be_at n r i.
Proof. apply (be_at_next n [x] r (S i) i). done. Qed.

Lemma slice_tl {E A} (x : A) r i j : @slice E A (x :: r) (S i) (S j) = slice r i j.
Proof. by apply (slice_next [x] r (S i) (S j)). Qed.

(** Reads at constant offsets of a concatenation of fields, front to back. *)
Ltac flen := rewrite ?length_to_be; reflexivity.
Ltac field_step :=
  lazymatch goal with
  | |- (_ ((?x :: ?l) ++ ?r) _ ≫= _) = _ => change ((x :: l) ++ r) with (x :: (l ++ r))
  | |- (_ ([] ++ ?r) _ ≫= _) = _ => change ([] ++ r) with r
  | |- (_ ((?x :: ?l) ++ ?r) _ _ ≫= _) = _ => change ((x :: l) ++ r) with (x :: (l ++ r))
  | |- (_ ([] ++ ?r) _ _ ≫= _) = _ => change ([] ++ r) with r
  | |- (be_at ?n (?x :: ?r) (S ?i) ≫= _) = _ => rewrite (be_at_tl n x r i)
  | |- (slice (?x :: ?r) (S ?i) (S ?j) ≫= _) = _ => rewrite (slice_tl x r i j)
  | |- (be_at ?n (?a ++ ?r) 0 ≫= _) = _ => rewrite (be_at_hd n a r) by flen
  | |- (be_at ?n (?a ++ ?r) ?i ≫= _) = _ => erewrite (be_at_next n a r i) by flen
  | |- (be_at ?n ?a 0 ≫= _) = _ => rewrite (be_at_all n a) by flen
  | |- (idx (?x :: ?r) 0 ≫= _) = _ => rewrite (idx_hd x r)
  | |- (idx (?x :: ?r) (S ?i) ≫= _) = _ => rewrite (idx_tl x r i)
  | |- (idx (?a ++ ?r) ?i ≫= _) = _ => erewrite (idx_next a r i) by flen
  | |- (slice (?a ++ ?r) 0 ?n ≫= _) = _ => rewrite (slice_app_hd a r n) by flen
  | |- (slice (?a ++ ?r) ?i ?j ≫= _) = _ => erewrite (slice_next a r i j) by flen
  end; run.
Ltac fields := repeat field_step.

Lemma drop_next {A} (a r : list A) n m : n = (length a + m)%nat → drop n (a ++ r) = drop m r.
Proof. intros ->. rewrite drop_app_ge by lia. f_equal. lia. Qed.

Ltac drops :=
  repeat match goal with
    | |- context [drop ?n (?a ++ ?r)] =>
        lazymatch n with O => fail | _ => erewrite (drop_next a r n) by flen end
    end;
  rewrite ?drop_0.

Lemma to_be_3 x : to_be 3 x = [(x / 65536) mod 256; (x / 256) mod 256; x mod 256].
Proof. Transparent to_be. cbn. Opaque to_be. by rewrite Z.div_1_r. Qed.

Lemma u32_mod4 x : u32 x → x mod 256 ^ Z.of_nat 4 = x.
Proof. intros. apply Z.mod_small. ulia. Qed.

(** ** Bit fields put side by side *)

Lemma lor_shiftl_add k a x :
  0 ≤ k → 0 ≤ x < 2 ^ k → Z.lor (Z.shiftl a k) x = a * 2 ^ k + x.
Proof.
  intros Hk Hx.
  assert (Z.land (Z.shiftl a k) x = 0) as Hland.
  { apply Z.bits_inj'. intros i Hi. rewrite Z.land_spec, Z.bits_0.
    destruct (Z.ltb_spec i k).
    - by rewrite Z.shiftl_spec_low.
    - rewrite andb_comm. rewrite <- (Z.mod_small x (2 ^ k)) by done.
      by rewrite Z.mod_pow2_bits_high by lia. }
  by rewrite <- Z.shiftl_mul_pow2, Z.add_nocarry_lxor, Z.lxor_lor.
Qed.

Lemma lor_bytes2 a b : u8 b → Z.lor (Z.shiftl a 8) b = a * 256 + b.
Proof. intros. rewrite lor_shiftl_add by ulia. lia. Qed.

Lemma lor_bytes3 a b c :
  u8 b → u8 c → Z.lor (Z.lor (Z.shiftl a 16) (Z.shiftl b 8)) c = a * 65536 + b * 256 + c.
Proof.
  intros. change 16 with (8 + 8). rewrite <- (Z.shiftl_shiftl a 8 8), <- Z.shiftl_lor by lia.
  rewrite lor_bytes2, lor_bytes2 by done. lia.
Qed.

(** ** Aborts *)

(** One step of a no-abort proof: resolve a size test, a bounded read or a
    nested parser. *)
Ltac np_step :=
  match goal with
  | |- (if (?a <? ?b)%nat then _ else _) ≠ Panic => destruct (Nat.ltb_spec a b)
  | |- (if (?a <=? ?b)%nat then _ else _) ≠ Panic => destruct (Nat.leb_spec a b)
  | |- (if ?b then _ else _) ≠ Panic => destruct b eqn:?
  | |- (be_at _ _ _ ≫= _) ≠ Panic => rewrite be_at_ok by (autorewrite with wire; lia); run
  | |- (slice _ _ _ ≫= _) ≠ Panic => rewrite slice_ok by (autorewrite with wire; lia); run
  | |- (@idx ?E ?l ?i ≫= _) ≠ Panic =>
      let H := fresh in
      destruct (@idx_lt E l i) as (? & H & ?);
      [autorewrite with wire; lia|rewrite H; run]
  | |- (Ok _ ≫= _) ≠ Panic => run
  | |- (_ ≫= _) ≠ Panic => apply bind_not_panic; [|intros ? ?]
  | |- (let '(_, _) := ?p in _) ≠ Panic => destruct p
  | _ => done
  end.
Ltac np := repeat np_step.

(** ** Chunks of a list *)

(** [data.chunks(n)] *)
Fixpoint chunks {A} (fuel n : nat) (data : list A) : list (list A) :=
  match fuel, data with
  | _, [] => []
  | O, _ => []
  | S fuel, _ => take n data :: chunks fuel n (drop n data)
  end.

Lemma concat_chunks {A} fuel n (data : list A) :
  (0 < n)%nat → (length data ≤ fuel)%nat → concat (chunks fuel n data) = data.
Proof.
  intros Hn. revert data. induction fuel as [|fuel IH]; intros [|x data] Hl; cbn in *; try done; [lia|].
  rewrite IH by (rewrite length_drop; cbn; lia). apply (take_drop n (x :: data)).
Qed.

Lemma chunks_small {A} fuel n (data : list A) : Forall (fun d => (length d ≤ n)%nat) (chunks fuel n data).
Proof.
  revert data. induction fuel as [|fuel IH]; intros [|x data]; cbn [chunks]; try constructor; [|apply IH].
  rewrite length_take. lia.
Qed.
