(* ===== verification/Core.v ===== *)
(** * Types shared by the components

    The crate-wide error type ([src/errors.rs]) and socket addresses.  Where
    the source formats values into the text of an error, the models keep the
    fixed part of the text, unless the values matter. *)
From S2P Require Import Prelude.

Inductive RtcError :=
| InvalidConfiguration (s : string)
| InvalidState (s : string)
| NotImplemented (s : string)
| Protocol (s : string)
| Transport (s : string)
| Internal (s : string)
| Timeout (s : string)
| AddrInUse.

Definition is_addr_in_use (e : RtcError) : bool := match e with AddrInUse => true | _ => false end.
Definition is_timeout (e : RtcError) : bool := match e with Timeout _ => true | _ => false end.

(** [core::net::SocketAddr]: the octets of the address and the port *)
Inductive SocketAddr :=
| AddrV4 (octets : list Z) (port : Z)
| AddrV6 (octets : list Z) (port : Z).

Definition wf_addr (a : SocketAddr) : Prop :=
  match a with
  | AddrV4 o p => bytes o ∧ length o = 4%nat ∧ u16 p
  | AddrV6 o p => bytes o ∧ length o = 16%nat ∧ u16 p
  end.
