(* ===== verification/BytesCrate.v ===== *)
(** * The [bytes] crate, as an interface

    The sources read and write packets through the third-party crate [bytes]
    ([Buf], [BufMut], [Bytes], [BytesMut]).  Its code is not part of the
    repository, so it is a parameter here: [BytesCrate] lists the operations
    the sources call and [BytesLaws] states their documented behaviour
    (big-endian reads that advance the cursor, and abort when the data is
    too short).  A cursor is represented by the bytes it still has to read,
    a growing
    output buffer by the bytes written so far, and a [&mut [u8]] being filled by
    the bytes written and the rest of the slice.  Every component that uses
    the crate is verified against [BytesLaws]; [vec_crate] is an instance,
    which shows that the laws are consistent and lets the models run. *)
From S2P Require Import Prelude.

(** [None] stands for an abort of the crate. *)
Class BytesCrate := {
  remaining : list Z → nat;
  get_u8 : list Z → option (Z * list Z);
  get_u16 : list Z → option (Z * list Z);
  get_u32 : list Z → option (Z * list Z);
  get_u32_le : list Z → option (Z * list Z);
  copy_to_bytes : nat → list Z → option (list Z * list Z);
  split_to : nat → list Z → option (list Z * list Z);
  advance : nat → list Z → option (list Z);
  bytes_slice : list Z → nat → nat → option (list Z);
  put_u8 : list Z → Z → list Z;
  put_u16 : list Z → Z → list Z;
  put_u32 : list Z → Z → list Z;
  put_u64 : list Z → Z → list Z;
  put_uint : list Z → Z → nat → list Z;
  put_slice : list Z → list Z → list Z;
  cput_u8 : list Z * list Z → Z → option (list Z * list Z);
  cput_u16 : list Z * list Z → Z → option (list Z * list Z);
  cput_u32 : list Z * list Z → Z → option (list Z * list Z);
  cput_slice : list Z * list Z → list Z → option (list Z * list Z);
}.

(** Reading [n] bytes off the front of a cursor. *)
Definition split_front (n : nat) (l : list Z) : option (list Z * list Z) :=
  if decide (n ≤ length l)%nat then Some (take n l, drop n l) else None.

Definition read_be (n : nat) (l : list Z) : option (Z * list Z) :=
  '(a, r) ← split_front n l; Some (of_be a, r).

(** [x.to_le_bytes()] and little-endian reads *)
Definition to_le (n : nat) (x : Z) : list Z := reverse (to_be n x).
Definition read_le (n : nat) (l : list Z) : option (Z * list Z) :=
  '(a, r) ← split_front n l; Some (of_be (reverse a), r).

(** Writing through a [&mut [u8]]: the bytes written so far and what is left
    of the slice, which is overwritten from its front. *)
Definition put_front (c : list Z * list Z) (d : list Z) : option (list Z * list Z) :=
  if decide (length d ≤ length c.2)%nat
  then Some (c.1 ++ d, drop (length d) c.2) else None.

Class BytesLaws `{BytesCrate} : Prop := {
  remaining_spec l : remaining l = length l;
  get_u8_spec l : get_u8 l = read_be 1 l;
  get_u16_spec l : get_u16 l = read_be 2 l;
  get_u32_spec l : get_u32 l = read_be 4 l;
  get_u32_le_spec l : get_u32_le l = read_le 4 l;
  copy_to_bytes_spec n l : copy_to_bytes n l = split_front n l;
  split_to_spec n l : split_to n l = split_front n l;
  advance_spec n l : advance n l = snd <$> split_front n l;
  bytes_slice_spec l a b :
    bytes_slice l a b =
      if decide (a ≤ b ∧ b ≤ length l)%nat then Some (take (b - a) (drop a l)) else None;
  put_u8_spec l x : put_u8 l x = l ++ to_be 1 x;
  put_u16_spec l x : put_u16 l x = l ++ to_be 2 x;
  put_u32_spec l x : put_u32 l x = l ++ to_be 4 x;
  put_u64_spec l x : put_u64 l x = l ++ to_be 8 x;
  put_uint_spec l x n : (n ≤ 8)%nat → put_uint l x n = l ++ to_be n x;
  put_slice_spec l d : put_slice l d = l ++ d;
  cput_u8_spec c x : cput_u8 c x = put_front c (to_be 1 x);
  cput_u16_spec c x : cput_u16 c x = put_front c (to_be 2 x);
  cput_u32_spec c x : cput_u32 c x = put_front c (to_be 4 x);
  cput_slice_spec c d : cput_slice c d = put_front c d;
}.

(** The contents-only implementation of the interface. *)
Definition vec_crate : BytesCrate := {|
  remaining l := length l;
  get_u8 := read_be 1;
  get_u16 := read_be 2;
  get_u32 := read_be 4;
  get_u32_le := read_le 4;
  copy_to_bytes := split_front;
  split_to := split_front;
  advance n l := snd <$> split_front n l;
  bytes_slice l a b :=
    if decide (a ≤ b ∧ b ≤ length l)%nat then Some (take (b - a) (drop a l)) else None;
  put_u8 l x := l ++ to_be 1 x;
  put_u16 l x := l ++ to_be 2 x;
  put_u32 l x := l ++ to_be 4 x;
  put_u64 l x := l ++ to_be 8 x;
  put_uint l x n := l ++ to_be n x;
  put_slice l d := l ++ d;
  cput_u8 c x := put_front c (to_be 1 x);
  cput_u16 c x := put_front c (to_be 2 x);
  cput_u32 c x := put_front c (to_be 4 x);
  cput_slice c d := put_front c d;
|}.

Lemma vec_laws : @BytesLaws vec_crate.
Proof. by split. Qed.

Create Rewrite HintDb crate.
#[export] Hint Rewrite @remaining_spec @get_u8_spec @get_u16_spec @get_u32_spec @get_u32_le_spec
  @copy_to_bytes_spec @split_to_spec @advance_spec @bytes_slice_spec
  @put_u8_spec @put_u16_spec @put_u32_spec @put_u64_spec @put_slice_spec
  @cput_u8_spec @cput_u16_spec @cput_u32_spec @cput_slice_spec
  using typeclasses eauto : crate.

(** ** Reading what was written *)

Lemma split_front_app n (a r : list Z) :
  length a = n → split_front n (a ++ r) = Some (a, r).
Proof.
  intros <-. unfold split_front. rewrite decide_True by (rewrite length_app; lia).
  by rewrite take_app_length, drop_app_length.
Qed.

Lemma split_front_ge n (l : list Z) :
  (n ≤ length l)%nat → split_front n l = Some (take n l, drop n l).
Proof. intros. unfold split_front. by rewrite decide_True. Qed.

Lemma read_be_ge n l :
  (n ≤ length l)%nat → read_be n l = Some (of_be (take n l), drop n l).
Proof. intros. unfold read_be. by rewrite split_front_ge. Qed.

Lemma read_be_to_be n x r :
  read_be n (to_be n x ++ r) = Some (x mod 256 ^ Z.of_nat n, r).
Proof.
  unfold read_be. rewrite split_front_app by apply length_to_be.
  cbn. by rewrite of_be_to_be.
Qed.

Lemma read_be_8 x r : u8 x → read_be 1 (to_be 1 x ++ r) = Some (x, r).
Proof. intros. rewrite read_be_to_be, Z.mod_small by ulia. done. Qed.
Lemma read_be_16 x r : u16 x → read_be 2 (to_be 2 x ++ r) = Some (x, r).
Proof. intros. rewrite read_be_to_be, Z.mod_small by ulia. done. Qed.
Lemma read_be_32 x r : u32 x → read_be 4 (to_be 4 x ++ r) = Some (x, r).
Proof. intros. rewrite read_be_to_be, Z.mod_small by ulia. done. Qed.

Lemma read_be_1_cons x r : read_be 1 (x :: r) = Some (x, r).
Proof.
  rewrite read_be_ge by (cbn; lia). cbn -[Z.mul Z.pow]. rewrite take_0, drop_0.
  rewrite of_be_1. done.
Qed.

(** What a successful read says about the input. *)
Lemma split_front_inv n l a r :
  split_front n l = Some (a, r) → l = a ++ r ∧ length a = n.
Proof.
  unfold split_front. case_decide; intros; simplify_eq.
  rewrite take_drop, length_take. split; [done|lia].
Qed.

Lemma read_be_inv n l x r :
  bytes l → read_be n l = Some (x, r) →
  l = to_be n x ++ r ∧ bytes r ∧ 0 ≤ x < 256 ^ Z.of_nat n.
Proof.
  unfold read_be. intros Hl H.
  destruct (split_front n l) as [[a r']|] eqn:Hs; simplify_eq/=.
  apply split_front_inv in Hs as [-> <-]. apply Forall_app in Hl as [Ha Hr].
  rewrite to_be_of_be by done. auto using of_be_bound.
Qed.

Lemma read_be_length n l x r :
  read_be n l = Some (x, r) → length l = (n + length r)%nat.
Proof.
  unfold read_be. destruct (split_front n l) as [[a r']|] eqn:Hs; intros; simplify_eq/=.
  apply split_front_inv in Hs as [-> <-]. by rewrite length_app.
Qed.

Lemma put_front_ok w r d :
  (length d ≤ length r)%nat → put_front (w, r) d = Some (w ++ d, drop (length d) r).
Proof. intros. unfold put_front. by rewrite decide_True. Qed.

Lemma put_front_bind {E A} (k : list Z * list Z → res E A) w r d :
  (length d ≤ length r)%nat →
  (or_panic (put_front (w, r) d) ≫= k) = k (w ++ d, drop (length d) r).
Proof. intros. by rewrite put_front_ok. Qed.

Lemma read_be_bind {E A} (k : Z * list Z → res E A) n l :
  (n ≤ length l)%nat →
  (or_panic (read_be n l) ≫= k) = k (of_be (take n l), drop n l).
Proof. intros. by rewrite read_be_ge. Qed.

(** Turning successful reads of a byte string into equations on it. *)
Ltac read_inv :=
  autorewrite with crate in *;
  repeat match goal with
    | H : read_be _ ?l = Some _, Hl : bytes ?l |- _ =>
        apply read_be_inv in H as (-> & ? & ?); [|exact Hl]
    | H : split_front _ _ = Some _ |- _ => apply split_front_inv in H as [-> ?]
    | H : bytes (_ ++ _) |- _ => apply Forall_app in H as [??]
    end.

Ltac pow256 :=
  change (256 ^ Z.of_nat 1) with 256 in *;
  change (256 ^ Z.of_nat 2) with 65536 in *;
  change (256 ^ Z.of_nat 3) with 16777216 in *;
  change (256 ^ Z.of_nat 4) with 4294967296 in *.
