(* ===== verification/Utf8.v ===== *)
(** * UTF-8 strings of the Rust standard library

    A Rust [String] is represented by its UTF-8 bytes.  [from_utf8] and
    [String::from_utf8_lossy] follow the standard library: a character is
    recognised by the ranges of Unicode Table 3-7, and a lossy conversion
    replaces every maximal ill-formed prefix by U+FFFD. *)
From Equations Require Import Equations.
From S2P Require Import Prelude.

Definition in_range (lo hi b : Z) : bool := (lo <=? b) && (b <=? hi).
Definition is_cont (b : Z) : bool := in_range 0x80 0xBF b.

(** The second byte a lead byte of three or four bytes admits. *)
Definition second_ok (b0 b1 : Z) : bool :=
  if b0 =? 0xE0 then in_range 0xA0 0xBF b1 else
  if b0 =? 0xED then in_range 0x80 0x9F b1 else
  if b0 =? 0xF0 then in_range 0x90 0xBF b1 else
  if b0 =? 0xF4 then in_range 0x80 0x8F b1 else is_cont b1.

(** [(true, n)]: a character of [n] bytes starts here; [(false, n)]: the
    longest ill-formed prefix has [n] bytes.  Past the end a read gives 0. *)
Definition utf8_head (b : Z) (r : list Z) : bool * nat :=
  let r0 := nth 0 r 0 in
  let r1 := nth 1 r 0 in
  let r2 := nth 2 r 0 in
  if b <? 0x80 then (true, 1%nat) else
  if in_range 0xC2 0xDF b then if is_cont r0 then (true, 2%nat) else (false, 1%nat) else
  if in_range 0xE0 0xEF b then
    if second_ok b r0 then if is_cont r1 then (true, 3%nat) else (false, 2%nat)
    else (false, 1%nat) else
  if in_range 0xF0 0xF4 b then
    if second_ok b r0 then
      if is_cont r1 then if is_cont r2 then (true, 4%nat) else (false, 3%nat)
      else (false, 2%nat)
    else (false, 1%nat) else
  (false, 1%nat).

Equations? valid_utf8 (l : list Z) : bool by wf (length l) lt :=
valid_utf8 [] := true;
valid_utf8 (b :: r) :=
  if (utf8_head b r).1 then valid_utf8 (drop ((utf8_head b r).2 - 1) r) else false.
Proof. all: cbn; rewrite length_drop; lia. Qed.

Equations? from_utf8_lossy (l : list Z) : list Z by wf (length l) lt :=
from_utf8_lossy [] := [];
from_utf8_lossy (b :: r) :=
  let n := ((utf8_head b r).2 - 1)%nat in
  (if (utf8_head b r).1 then b :: take n r else [0xEF; 0xBF; 0xBD])
  ++ from_utf8_lossy (drop n r).
Proof. all: cbn; rewrite length_drop; lia. Qed.

(** [core::str::from_utf8(v).ok()] *)
Definition from_utf8 (l : list Z) : option (list Z) :=
  if valid_utf8 l then Some l else None.

(** A well-formed string is not changed by the lossy conversion. *)
Lemma from_utf8_lossy_valid l : valid_utf8 l = true → from_utf8_lossy l = l.
Proof.
  induction l as [[|b r] IH] using list_len_ind; simp valid_utf8 from_utf8_lossy; [done|].
  cbn zeta. destruct (utf8_head b r).1; [|done].
  intros Hv. rewrite IH by (cbn; rewrite ?length_drop; done || lia).
  cbn. by rewrite take_drop.
Qed.

Lemma from_utf8_valid l : valid_utf8 l = true → from_utf8 l = Some l.
Proof. unfold from_utf8. by intros ->. Qed.

(** ASCII text is well formed. *)
Lemma valid_utf8_ascii l : Forall (λ b, 0 ≤ b < 0x80) l → valid_utf8 l = true.
Proof.
  induction 1 as [|b l Hb _ IH]; simp valid_utf8; [done|].
  unfold utf8_head. by rewrite (proj2 (Z.ltb_lt b _)) by lia.
Qed.

Example lossy_truncated : from_utf8_lossy [0x41; 0xE2; 0x82; 0x42] = [0x41; 0xEF; 0xBF; 0xBD; 0x42].
Proof. vm_compute. reflexivity. Qed.
