(* ===== verification/Str.v ===== *)
(** * Strings

    A Rust [&str] is a sequence of Unicode scalar values, here a list of code
    points.  The operations of [core::str] and of integer parsing and printing
    that the source uses. *)
From Stdlib Require Import Ascii.
From S2P Require Import Prelude.

Abbreviation str := (list Z).

(** A string literal of the source *)
Fixpoint lit (s : string) : str :=
  match s with
  | EmptyString => []
  | String c s => Z.of_nat (nat_of_ascii c) :: lit s
  end.

(** [char::is_whitespace]: the code points with the Unicode property White_Space *)
Definition is_whitespace (c : Z) : bool :=
  (9 <=? c) && (c <=? 13) || (c =? 0x20) || (c =? 0x85) || (c =? 0xA0) || (c =? 0x1680)
  || (0x2000 <=? c) && (c <=? 0x200A) || (c =? 0x2028) || (c =? 0x2029) || (c =? 0x202F)
  || (c =? 0x205F) || (c =? 0x3000).

Fixpoint trim_start (s : str) : str :=
  match s with
  | c :: r => if is_whitespace c then trim_start r else s
  | [] => []
  end.

(** [s.trim()] *)
Definition trim (s : str) : str := rev (trim_start (rev (trim_start s))).

(** [s.split(sep)] for a character: the pieces between separators, at least one *)
Fixpoint split_char (sep : Z) (s : str) : list str :=
  match s with
  | [] => [[]]
  | c :: r =>
      if c =? sep then [] :: split_char sep r else
      match split_char sep r with
      | p :: ps => (c :: p) :: ps
      | [] => [[c]]
      end
  end.

(** [s.split_once(sep)], which is [s.splitn(2, sep)] when there is a separator *)
Fixpoint split_once (sep : Z) (s : str) : option (str * str) :=
  match s with
  | [] => None
  | c :: r =>
      if c =? sep then Some ([], r) else
      '(a, b) ← split_once sep r; Some (c :: a, b)
  end.

(** [s.strip_prefix(p)] *)
Fixpoint strip_prefix (p s : str) : option str :=
  match p, s with
  | [], _ => Some s
  | a :: p, b :: s => if a =? b then strip_prefix p s else None
  | _ :: _, [] => None
  end.

(** The digits of an unsigned number, with [checked_mul] and [checked_add]
    against the bound of the type. *)
Fixpoint parse_digits (bound acc : Z) (s : str) : option Z :=
  match s with
  | [] => Some acc
  | c :: r =>
      if (48 <=? c) && (c <=? 57) then
        let acc := acc * 10 + (c - 48) in
        if acc <? bound then parse_digits bound acc r else None
      else None
  end.

(** [s.parse::<uN>()] with [bound] = 2^N: a plus sign is accepted, an empty
    digit sequence is not. *)
Definition parse_uint (bound : Z) (s : str) : option Z :=
  let digits := match s with c :: r => if c =? 43 then r else s | [] => [] end in
  match digits with
  | [] => None
  | _ => parse_digits bound 0 digits
  end.

(** [n.to_string()]: decimal digits, most significant first.  [fuel] bounds the
    number of digits. *)
Fixpoint show_digits (fuel : nat) (n : Z) (acc : str) : str :=
  match fuel with
  | O => acc
  | S fuel =>
      let acc := 48 + n mod 10 :: acc in
      if n / 10 =? 0 then acc else show_digits fuel (n / 10) acc
  end.

(** Twenty digits are enough for a [u64]. *)
Definition show_uint (n : Z) : str := show_digits 20 n [].

Definition digit (c : Z) : Prop := 48 ≤ c ≤ 57.

Lemma parse_digits_app bound acc s t :
  parse_digits bound acc (s ++ t) = acc' ← parse_digits bound acc s; parse_digits bound acc' t.
Proof.
  revert acc. induction s as [|c s IH]; intros acc; cbn [app parse_digits]; [done|].
  destruct ((48 <=? c) && (c <=? 57)); [|done].
  destruct (_ <? bound); [apply IH|done].
Qed.

Lemma show_digits_app fuel n acc : show_digits fuel n acc = show_digits fuel n [] ++ acc.
Proof.
  revert n acc. induction fuel as [|fuel IH]; intros n acc; cbn [show_digits]; [done|].
  destruct (n / 10 =? 0); [done|]. rewrite IH, (IH _ [_]), <- app_assoc. done.
Qed.

Lemma show_digits_digits fuel n acc : 0 ≤ n → Forall digit acc → Forall digit (show_digits fuel n acc).
Proof.
  revert n acc. induction fuel as [|fuel IH]; intros n acc Hn Hacc; cbn [show_digits]; [done|].
  assert (digit (48 + n mod 10)) by (unfold digit; pose proof (Z.mod_pos_bound n 10); lia).
  destruct (n / 10 =? 0); [by constructor|]. apply IH; [apply Z.div_pos; lia|by constructor].
Qed.

Lemma parse_show_digits bound fuel n :
  (0 < fuel)%nat → 0 ≤ n < 10 ^ Z.of_nat fuel → n < bound →
  parse_digits bound 0 (show_digits fuel n []) = Some n.
Proof.
  revert n. induction fuel as [|fuel IH]; intros n Hf Hn Hb; [lia|]. cbn [show_digits].
  pose proof (Z.mod_pos_bound n 10). pose proof (Z.div_mod n 10).
  rewrite Nat2Z.inj_succ, Z.pow_succ_r in Hn by lia.
  assert (∀ acc, acc * 10 + n mod 10 = n →
    parse_digits bound acc [48 + n mod 10] = Some n) as Hlast.
  { intros acc Hacc. cbn [parse_digits].
    rewrite (proj2 (Z.leb_le _ _)), (proj2 (Z.leb_le _ _)) by lia. cbn [andb].
    replace (acc * 10 + (48 + n mod 10 - 48)) with n by lia.
    by rewrite (proj2 (Z.ltb_lt _ _)) by lia. }
  destruct (Z.eqb_spec (n / 10) 0) as [Hz|Hz]; [apply Hlast; lia|].
  assert (fuel ≠ 0%nat) by (intros ->; change (10 ^ Z.of_nat 0) with 1 in Hn; lia).
  rewrite show_digits_app, parse_digits_app, IH by lia. cbn [mbind option_bind].
  apply Hlast. lia.
Qed.

Lemma show_uint_digits n : 0 ≤ n → Forall digit (show_uint n).
Proof. intros. by apply show_digits_digits. Qed.

Lemma show_digits_ne fuel n : show_digits (S fuel) n [] ≠ [].
Proof. cbn [show_digits]. case_match; [done|]. rewrite show_digits_app. by intros []%app_nil. Qed.

Lemma show_uint_ne n : show_uint n ≠ [].
Proof. apply show_digits_ne. Qed.

(** Printing then parsing an unsigned integer below its bound *)
Lemma parse_show_uint bound n :
  0 ≤ n < 10 ^ 20 → n < bound → parse_uint bound (show_uint n) = Some n.
Proof.
  intros Hn Hb. unfold parse_uint.
  pose proof (show_uint_digits n ltac:(lia)) as Hd. pose proof (show_uint_ne n) as Hne.
  pose proof (parse_show_digits bound 20 n ltac:(lia) ltac:(lia) Hb) as Hp.
  fold (show_uint n) in Hp. destruct (show_uint n) as [|c r]; [done|].
  apply Forall_cons in Hd as [Hc _]. unfold digit in Hc.
  by rewrite (proj2 (Z.eqb_neq _ _)) by lia.
Qed.

(** ** Pieces without separators or blanks *)

Lemma split_char_none sep s : Forall (λ c, c ≠ sep) s → split_char sep s = [s].
Proof.
  induction 1 as [|c s Hc _ IH]; cbn; [done|].
  by rewrite (proj2 (Z.eqb_neq _ _)), IH.
Qed.

Lemma split_once_app sep a b :
  Forall (λ c, c ≠ sep) a → split_once sep (a ++ sep :: b) = Some (a, b).
Proof.
  induction 1 as [|c s Hc _ IH]; cbn; [by rewrite Z.eqb_refl|].
  by rewrite (proj2 (Z.eqb_neq _ _)), IH.
Qed.

Lemma strip_prefix_app p s : strip_prefix p (p ++ s) = Some s.
Proof. induction p as [|c p IH]; cbn; [done|]. by rewrite Z.eqb_refl. Qed.

Lemma trim_start_none s : Forall (λ c, is_whitespace c = false) s → trim_start s = s.
Proof. destruct 1 as [|c s Hc]; [done|]. cbn. by rewrite Hc. Qed.

Lemma trim_none s : Forall (λ c, is_whitespace c = false) s → trim s = s.
Proof.
  intros Hs. unfold trim. rewrite (trim_start_none s) by done.
  rewrite trim_start_none, rev_involutive; [done|]. by apply Forall_rev.
Qed.

Lemma digit_not_blank c : digit c → is_whitespace c = false.
Proof. unfold digit, is_whitespace. intros. lia. Qed.
