(* ===== verification/Words.v ===== *)
(** * Lines and words of strings

    More of [core::str]: the operations that text protocols are read and
    written with. *)
From S2P Require Import Prelude Str.

(** [s.lines()]: the pieces that end in LF or CR LF, and the rest if it is not
    empty *)
Definition starts_lf (s : str) : bool := match s with c :: _ => c =? 10 | [] => false end.
Fixpoint lines (s : str) : list str :=
  match s with
  | [] => []
  | c :: r =>
      if c =? 10 then [] :: lines r else
      if (c =? 13) && starts_lf r then lines r else
      match lines r with
      | [] => [[c]]
      | l :: ls => (c :: l) :: ls
      end
  end.

(** [s.split(p)] for a set of characters *)
Fixpoint split_by (p : Z → bool) (s : str) : list str :=
  match s with
  | [] => [[]]
  | c :: r =>
      if p c then [] :: split_by p r else
      match split_by p r with
      | w :: ws => (c :: w) :: ws
      | [] => [[c]]
      end
  end.

(** [s.split_whitespace()] *)
Definition split_whitespace (s : str) : list str := filter (λ w, w ≠ []) (split_by is_whitespace s).

(** [s.trim_end_matches(c)] *)
Fixpoint trim_start_matches (c : Z) (s : str) : str :=
  match s with
  | d :: r => if d =? c then trim_start_matches c r else s
  | [] => []
  end.
Definition trim_end_matches (c : Z) (s : str) : str := rev (trim_start_matches c (rev s)).

(** [s.starts_with(p)], [s.contains(p)] *)
Definition starts_with (p s : str) : bool := match strip_prefix p s with Some _ => true | None => false end.
Fixpoint has_substring (p s : str) : bool :=
  starts_with p s || match s with [] => false | _ :: r => has_substring p r end.

(** [to_ascii_lowercase], [to_ascii_uppercase], [eq_ignore_ascii_case] *)
Definition lower (c : Z) : Z := if (65 <=? c) && (c <=? 90) then c + 32 else c.
Definition upper (c : Z) : Z := if (97 <=? c) && (c <=? 122) then c - 32 else c.
Definition to_ascii_lowercase (s : str) : str := lower <$> s.
Definition to_ascii_uppercase (s : str) : str := upper <$> s.
Definition eq_ignore_ascii_case (s t : str) : bool := bool_decide (to_ascii_lowercase s = to_ascii_lowercase t).

(** [char::is_ascii_whitespace], [char::is_ascii_hexdigit] *)
Definition is_ascii_whitespace (c : Z) : bool := (c =? 32) || (c =? 9) || (c =? 10) || (c =? 12) || (c =? 13).
Definition is_ascii_hexdigit (c : Z) : bool :=
  (48 <=? c) && (c <=? 57) || (65 <=? c) && (c <=? 70) || (97 <=? c) && (c <=? 102).

(** [s.len()]: the bytes of its UTF-8 encoding *)
Definition char_len (c : Z) : Z := if c <? 0x80 then 1 else if c <? 0x800 then 2 else if c <? 0x10000 then 3 else 4.
Definition str_len (s : str) : Z := foldr (λ c n, char_len c + n) 0 s.

(** [l.join(sep)] *)
Fixpoint join (sep : str) (l : list str) : str :=
  match l with
  | [] => []
  | [s] => s
  | s :: l => s ++ sep ++ join sep l
  end.

(** [s.to_uppercase()] follows the tables of Unicode, of which only this is
    relied on. *)
Class Unicode := { to_uppercase : str → str }.
Definition ascii (s : str) : Prop := Forall (λ c, 0 ≤ c < 128) s.
Class UnicodeLaws `{Unicode} := { to_uppercase_ascii s : ascii s → to_uppercase s = to_ascii_uppercase s }.
Definition ascii_unicode : Unicode := {| to_uppercase := to_ascii_uppercase |}.
Lemma ascii_unicode_laws : UnicodeLaws (H := ascii_unicode).
Proof. by split. Qed.

Lemma split_once_none sep s : Forall (λ c, c ≠ sep) s → split_once sep s = None.
Proof. induction 1 as [|c s Hc _ IH]; cbn; [done|]. by rewrite (proj2 (Z.eqb_neq _ _)), IH. Qed.

Lemma split_once_inv sep s a b : split_once sep s = Some (a, b) → s = a ++ sep :: b ∧ Forall (λ c, c ≠ sep) a.
Proof.
  revert a. induction s as [|c s IH]; intros a; cbn [split_once]; [done|].
  destruct (Z.eqb_spec c sep) as [->|Hne]; [by intros [= <- <-]|].
  destruct (split_once sep s) as [[a' b']|]; [|done]. intros [= <- <-]. destruct (IH a' eq_refl) as [-> Ha]. split; [done|by constructor].
Qed.

Lemma split_once_none_inv sep s : split_once sep s = None → Forall (λ c, c ≠ sep) s.
Proof.
  induction s as [|c s IH]; cbn [split_once]; [constructor|]. destruct (Z.eqb_spec c sep) as [->|Hne]; [done|].
  destruct (split_once sep s) as [[a b]|]; [done|]. intros _. constructor; [done|by apply IH].
Qed.

Lemma parse_digits_bound bound s : ∀ acc n, 0 ≤ acc < bound → parse_digits bound acc s = Some n → 0 ≤ n < bound.
Proof.
  induction s as [|c s IH]; intros acc n Ha; cbn [parse_digits]; [by intros [= <-]|].
  destruct ((48 <=? c) && (c <=? 57)) eqn:Ec; [|done]. destruct (Z.ltb_spec (acc * 10 + (c - 48)) bound); [|done].
  apply IH. apply andb_true_iff in Ec as [Ec%Z.leb_le _]. lia.
Qed.

Lemma parse_uint_bound bound s n : 0 < bound → parse_uint bound s = Some n → 0 ≤ n < bound.
Proof.
  intros Hb. unfold parse_uint. destruct (match s with [] => _ | _ :: _ => _ end); [done|]. apply parse_digits_bound. lia.
Qed.

(** ** Lines *)

(** What a line that was read, or is to be printed, looks like: no line break,
    and no blank at the end *)
Definition no_lf (s : str) : Prop := Forall (λ c, c ≠ 10) s.
Definition clean (s : str) : Prop := no_lf s ∧ ∀ c, last s = Some c → is_whitespace c = false.

Lemma lines_crlf l r : no_lf l → lines (l ++ 13 :: 10 :: r) = l :: lines r.
Proof.
  induction 1 as [|c l Hc _ IH]; [done|]. cbn [app lines].
  rewrite (proj2 (Z.eqb_neq _ _)) by done. rewrite IH.
  destruct (Z.eqb_spec c 13) as [->|]; [|done]. destruct l as [|d l]; [done|]. cbn [app starts_lf].
  destruct (Z.eqb_spec d 10) as [->|]; [|done]. exfalso. cbn in IH. by destruct (lines _).
Qed.

Lemma lines_no_lf s : Forall no_lf (lines s).
Proof.
  induction s as [|c r IH]; cbn [lines]; [constructor|]. destruct (Z.eqb_spec c 10); [by repeat constructor|].
  destruct (_ && _); [done|]. destruct IH as [|l ls Hl Hls]; repeat constructor; done.
Qed.

Lemma trim_start_suffix s : ∃ p, s = p ++ trim_start s ∧ Forall (λ c, is_whitespace c = true) p.
Proof.
  induction s as [|c r (p & E & Hp)]; [by exists []|]. cbn [trim_start]. destruct (is_whitespace c) eqn:Ec.
  - exists (c :: p). split; [cbn; by f_equal|by constructor].
  - exists []. done.
Qed.

Lemma trim_start_head s c r : trim_start s = c :: r → is_whitespace c = false.
Proof.
  induction s as [|d s IH]; cbn [trim_start]; [done|]. destruct (is_whitespace d) eqn:E; [done|]. by intros [= <- _].
Qed.

(** A trimmed line is a piece of the line, without blanks at its ends. *)
Lemma trim_clean s : no_lf s → clean (trim s).
Proof.
  intros Hs. unfold trim.
  destruct (trim_start_suffix s) as (p & Ep & _). destruct (trim_start_suffix (rev (trim_start s))) as (q & Eq & _). split.
  - unfold no_lf in *. rewrite Ep in Hs. apply Forall_app in Hs as [_ Hs]. apply Forall_rev in Hs. rewrite Eq in Hs.
    apply Forall_app in Hs as [_ Hs]. by apply Forall_rev.
  - intros c Hc. destruct (trim_start (rev (trim_start s))) as [|d t] eqn:E; [done|].
    cbn [rev] in Hc. rewrite last_snoc in Hc. injection Hc as <-. by eapply trim_start_head.
Qed.

(** A line that starts with a character that is not a blank *)
Lemma trim_clean_id c s : is_whitespace c = false → clean (c :: s) → trim (c :: s) = c :: s.
Proof.
  intros Hc [_ Hl]. unfold trim. cbn [trim_start]. rewrite Hc.
  destruct (rev (c :: s)) as [|d t] eqn:E; [by apply (f_equal length) in E; rewrite length_rev in E|].
  assert (last (c :: s) = Some d) as El.
  { rewrite <- (rev_involutive (c :: s)), E. cbn [rev]. apply last_snoc. }
  cbn [trim_start]. rewrite (Hl d El). rewrite <- E. apply rev_involutive.
Qed.

Lemma clean_app_r s t : clean (s ++ t) → clean t.
Proof.
  intros [H1 H2]. apply Forall_app in H1 as [_ H1]. split; [done|]. intros c Hc. apply H2. by rewrite last_app, Hc.
Qed.

(** What is put before a clean piece *)
Lemma clean_app s c t : no_lf s → is_whitespace c = false → c ≠ 10 → clean t → clean (s ++ c :: t).
Proof.
  intros Hs Hc Hn [H1 H2]. split.
  - unfold no_lf in *. rewrite Forall_app, Forall_cons. done.
  - intros d. rewrite last_app, last_cons. destruct (last t) as [e|] eqn:E; [|by intros [= <-]]. intros [= <-]. by apply H2.
Qed.

(** ** Words *)

Definition word (s : str) : Prop := s ≠ [] ∧ Forall (λ c, is_whitespace c = false) s.

Lemma split_by_words p s : Forall (Forall (λ c, p c = false)) (split_by p s).
Proof.
  induction s as [|c r IH]; cbn [split_by]; [by repeat constructor|]. destruct (p c) eqn:E; [by constructor|].
  destruct IH as [|w ws Hw Hws]; repeat constructor; done.
Qed.

Lemma split_whitespace_words s : Forall word (split_whitespace s).
Proof.
  unfold split_whitespace. rewrite Forall_forall. intros w [Hne Hw]%list_elem_of_filter. split; [done|].
  pose proof (split_by_words is_whitespace s) as Ha. rewrite Forall_forall in Ha. by apply Ha.
Qed.

Lemma split_by_app p a c b : Forall (λ c, p c = false) a → p c = true → split_by p (a ++ c :: b) = a :: split_by p b.
Proof.
  intros Ha Hc. induction Ha as [|d a Hd _ IH]; cbn [app split_by]; [by rewrite Hc|]. by rewrite Hd, IH.
Qed.
Lemma split_by_none p a : Forall (λ c, p c = false) a → split_by p a = [a].
Proof. induction 1 as [|d a Hd _ IH]; cbn [split_by]; [done|]. by rewrite Hd, IH. Qed.

Lemma split_whitespace_cons w r : word w → split_whitespace (w ++ 32 :: r) = w :: split_whitespace r.
Proof.
  intros [Hne Hw]. unfold split_whitespace. rewrite split_by_app by done. by rewrite filter_cons_True.
Qed.
Lemma split_whitespace_one w : word w → split_whitespace w = [w].
Proof. intros [Hne Hw]. unfold split_whitespace. rewrite split_by_none by done. by rewrite filter_cons_True. Qed.

Lemma split_whitespace_join ws : Forall word ws → split_whitespace (join [32] ws) = ws.
Proof.
  induction 1 as [|w ws Hw Hws IH]; [done|]. cbn [join]. destruct ws as [|w' ws]; [by apply split_whitespace_one|].
  cbn [app]. by rewrite split_whitespace_cons, IH.
Qed.

Lemma word_show n : 0 ≤ n → word (show_uint n).
Proof.
  intros Hn. split; [apply show_uint_ne|]. eapply Forall_impl; [by apply show_uint_digits|]. intros c. apply digit_not_blank.
Qed.

Lemma blank_not_lf c : is_whitespace c = false → c ≠ 10.
Proof. by intros H ->. Qed.

Lemma word_clean w : word w → clean w.
Proof.
  intros [_ Hw]. split; [eapply Forall_impl; [exact Hw|]; intros c; apply blank_not_lf|].
  intros c Hc. rewrite Forall_forall in Hw. apply Hw. by apply last_Some_elem_of.
Qed.

Lemma clean_nil : clean [].
Proof. by split; [constructor|]. Qed.

(** Words separated by blanks *)
Lemma clean_blank a t : no_lf a → clean t → t ≠ [] → clean (a ++ 32 :: t).
Proof.
  intros Ha [H1 H2] Hne. split.
  - unfold no_lf in *. rewrite Forall_app, Forall_cons. done.
  - intros c. rewrite last_app, last_cons. destruct (last t) as [e|] eqn:E; [|by apply last_None in E].
    intros [= <-]. by apply H2.
Qed.

Lemma join_words ws : ws ≠ [] → Forall word ws → clean (join [32] ws) ∧ join [32] ws ≠ [].
Proof.
  intros Hne Hw. induction Hw as [|w ws Hw Hws IH]; [done|]. cbn [join]. destruct ws as [|w' ws]; [split; [by apply word_clean|apply Hw]|].
  destruct IH as [H1 H2]; [done|]. cbn [app]. split; [|by destruct w]. apply clean_blank; [apply word_clean, Hw|done..].
Qed.

Create HintDb words.
#[export] Hint Resolve word_show word_clean clean_nil : words.
#[export] Hint Extern 1 (word (lit _)) => (by split; [done|repeat constructor]) : words.

(** A word that computes *)
Ltac by_word := split; [done|repeat constructor].
