(* ===== verification/BTree.v ===== *)
(** * [BTreeMap] with integer keys

    The ordered maps of the source ([alloc::collections::BTreeMap]) as lists of
    key-value pairs with increasing keys: iteration is in key order, as the
    standard library promises. *)
From stdpp Require Import sorting sets.
From S2P Require Import Prelude.

Section btree.
Context {V : Type}.
Implicit Types (m : list (Z * V)) (k : Z) (v : V).

(** [m.get(&k)] *)
Fixpoint bt_get k m : option V :=
  match m with
  | [] => None
  | (k', v') :: m => if k =? k' then Some v' else bt_get k m
  end.

(** [m.insert(k, v)] *)
Fixpoint bt_insert k v m : list (Z * V) :=
  match m with
  | [] => [(k, v)]
  | (k', v') :: r =>
      if k <? k' then (k, v) :: m else
      if k =? k' then (k, v) :: r else (k', v') :: bt_insert k v r
  end.

(** [m.remove(&k)] *)
Fixpoint bt_remove k m : list (Z * V) :=
  match m with
  | [] => []
  | (k', v') :: r => if k =? k' then r else (k', v') :: bt_remove k r
  end.

(** [m.range(k..)] *)
Definition bt_from k m : list (Z * V) := filter (λ kv, k ≤ kv.1) m.

(** [m.keys().next()] and [m.keys().next_back()] *)
Definition bt_first m : option Z := fst <$> head m.
Definition bt_last m : option Z := fst <$> last m.

Definition bt_wf m : Prop := StronglySorted Z.lt m.*1.

Lemma bt_wf_cons k v m : bt_wf ((k, v) :: m) ↔ bt_wf m ∧ Forall (λ k', k < k') m.*1.
Proof.
  unfold bt_wf. cbn. split; [apply StronglySorted_inv|].
  intros []. by constructor.
Qed.

Lemma bt_get_lt k m : Forall (λ k', k < k') m.*1 → bt_get k m = None.
Proof.
  induction m as [|[k' v'] m IH]; cbn; [done|]. intros [? ?]%Forall_cons.
  destruct (Z.eqb_spec k k'); [lia|auto].
Qed.

Lemma bt_insert_keys k v m k' : k' ∈ (bt_insert k v m).*1 ↔ k' = k ∨ k' ∈ m.*1.
Proof.
  induction m as [|[k0 v0] m IH]; cbn; [set_solver|].
  destruct (Z.ltb_spec k k0); [set_solver|].
  destruct (Z.eqb_spec k k0); cbn; set_solver.
Qed.

Lemma bt_insert_wf k v m : bt_wf m → bt_wf (bt_insert k v m).
Proof.
  induction m as [|[k0 v0] m IH]; intros Hm; [by repeat constructor|].
  cbn [bt_insert]. pose proof Hm as [Hm' Hall]%bt_wf_cons.
  destruct (Z.ltb_spec k k0).
  - apply bt_wf_cons. split; [done|]. constructor; [done|]. cbn.
    eapply Forall_impl; [exact Hall|]. cbn. lia.
  - destruct (Z.eqb_spec k k0) as [->|]; [by apply bt_wf_cons|].
    apply bt_wf_cons. split; [auto|]. apply Forall_forall. intros k'.
    rewrite bt_insert_keys. rewrite Forall_forall in Hall. intros [->|?]; [lia|auto].
Qed.

Lemma bt_get_insert k v m k' :
  bt_wf m → bt_get k' (bt_insert k v m) = if k' =? k then Some v else bt_get k' m.
Proof.
  induction m as [|[k0 v0] m IH]; intros Hm; cbn; [done|].
  apply bt_wf_cons in Hm as [Hm Hall].
  destruct (Z.ltb_spec k k0); cbn [bt_get]; [done|].
  destruct (Z.eqb_spec k k0) as [->|]; cbn [bt_get].
  - by destruct (Z.eqb_spec k' k0).
  - rewrite IH by done. destruct (Z.eqb_spec k' k0), (Z.eqb_spec k' k); subst; done.
Qed.

Lemma bt_remove_keys k m k' :
  bt_wf m → k' ∈ (bt_remove k m).*1 ↔ k' ≠ k ∧ k' ∈ m.*1.
Proof.
  induction m as [|[k0 v0] m IH]; intros Hm; cbn; [set_solver|].
  apply bt_wf_cons in Hm as [Hm Hall]. rewrite Forall_forall in Hall.
  destruct (Z.eqb_spec k k0) as [->|]; cbn.
  - split; [|set_solver]. intros Hin. specialize (Hall _ Hin). split; [lia|by right].
  - rewrite !elem_of_cons, IH by done. naive_solver.
Qed.

Lemma bt_remove_wf k m : bt_wf m → bt_wf (bt_remove k m).
Proof.
  induction m as [|[k0 v0] m IH]; intros Hm; [done|].
  pose proof Hm as [Hm' Hall]%bt_wf_cons. cbn [bt_remove].
  destruct (Z.eqb_spec k k0); [done|]. apply bt_wf_cons. split; [auto|].
  rewrite Forall_forall in *. intros k' Hk'. apply Hall. by apply bt_remove_keys in Hk' as [_ ?].
Qed.

Lemma bt_insert_elem k v m kv : kv ∈ bt_insert k v m → kv = (k, v) ∨ kv ∈ m.
Proof.
  induction m as [|[k0 v0] m IH]; cbn; [set_solver|].
  destruct (k <? k0); [set_solver|]. destruct (k =? k0); cbn; set_solver.
Qed.

Lemma bt_remove_elem k m kv : kv ∈ bt_remove k m → kv ∈ m.
Proof.
  induction m as [|[k0 v0] m IH]; cbn; [done|]. destruct (k =? k0); cbn; set_solver.
Qed.

Lemma bt_insert_length k v m : (length (bt_insert k v m) ≤ S (length m))%nat.
Proof.
  induction m as [|[k0 v0] m IH]; cbn; [done|].
  destruct (k <? k0); cbn; [lia|]. destruct (k =? k0); cbn; lia.
Qed.

Lemma bt_remove_length k m : (length (bt_remove k m) ≤ length m)%nat.
Proof. induction m as [|[k0 v0] m IH]; cbn; [done|]. destruct (k =? k0); cbn; lia. Qed.

Lemma bt_get_elem k m : is_Some (bt_get k m) ↔ k ∈ m.*1.
Proof.
  induction m as [|[k' v'] m IH]; cbn.
  - split; [by intros [??]|set_solver].
  - destruct (Z.eqb_spec k k') as [->|]; [split; [left|done]|].
    rewrite IH. set_solver.
Qed.

Lemma bt_get_Some_elem k v m : bt_get k m = Some v → (k, v) ∈ m.
Proof.
  induction m as [|[k' v'] m IH]; cbn; [done|].
  destruct (Z.eqb_spec k k') as [->|]; [intros [= ->]; left|right; auto].
Qed.

Lemma bt_get_in k v m : bt_wf m → (k, v) ∈ m → bt_get k m = Some v.
Proof.
  induction m as [|[k0 v0] m IH]; [by intros _ ?%elem_of_nil|].
  intros [Hm Hall]%bt_wf_cons [[= <- <-]|Hin]%elem_of_cons; cbn; [by rewrite Z.eqb_refl|].
  rewrite Forall_forall in Hall. assert (k0 < k) by (apply Hall, list_elem_of_fmap; by exists (k, v)).
  rewrite (proj2 (Z.eqb_neq k k0)) by lia. by apply IH.
Qed.

Lemma bt_get_remove k m k' : bt_wf m → bt_get k' (bt_remove k m) = if k' =? k then None else bt_get k' m.
Proof.
  induction m as [|[k0 v0] m IH]; [by destruct (k' =? k)|]. intros [Hm Hall]%bt_wf_cons. cbn.
  destruct (Z.eqb_spec k k0) as [->|].
  - destruct (Z.eqb_spec k' k0) as [E|]; [rewrite E; by apply bt_get_lt|done].
  - cbn. rewrite IH by done. destruct (Z.eqb_spec k' k0), (Z.eqb_spec k' k); congruence.
Qed.

Lemma bt_filter_wf (P : Z * V → Prop) `{!∀ kv, Decision (P kv)} m : bt_wf m → bt_wf (filter P m).
Proof.
  induction m as [|[k0 v0] m IH]; [done|]. intros [Hm Hall]%bt_wf_cons. rewrite filter_cons.
  destruct (decide (P (k0, v0))); [|auto]. apply bt_wf_cons. split; [auto|]. rewrite Forall_forall in *.
  intros k (kv & -> & Hin)%list_elem_of_fmap. apply list_elem_of_filter in Hin as [_ Hin].
  apply Hall, list_elem_of_fmap. eauto.
Qed.

(** A filter that keeps a key, or drops it *)
Lemma bt_get_filter_in (P : Z * V → Prop) `{!∀ kv, Decision (P kv)} m k :
  (∀ v, P (k, v)) → bt_get k (filter P m) = bt_get k m.
Proof.
  intros HP. induction m as [|[k0 v0] m IH]; [done|]. rewrite filter_cons. cbn.
  destruct (Z.eqb_spec k k0) as [E|Hne].
  - subst k0. rewrite decide_True by apply HP. cbn. by rewrite Z.eqb_refl.
  - destruct (decide (P (k0, v0))); cbn; [|done]. by rewrite (proj2 (Z.eqb_neq k k0)).
Qed.

Lemma bt_get_filter_out (P : Z * V → Prop) `{!∀ kv, Decision (P kv)} m k :
  (∀ v, ¬ P (k, v)) → bt_get k (filter P m) = None.
Proof.
  intros HP. induction m as [|[k0 v0] m IH]; [done|]. rewrite filter_cons.
  destruct (decide (P (k0, v0))) as [Hp|]; [|done]. cbn. destruct (Z.eqb_spec k k0) as [E|]; [|done].
  subst k0. by destruct (HP v0).
Qed.

Lemma bt_remove_length_lt k m : is_Some (bt_get k m) → (length (bt_remove k m) < length m)%nat.
Proof.
  induction m as [|[k0 v0] m IH]; cbn; [by intros [? ?]|]. destruct (k =? k0); cbn; [lia|]. intros Hs. specialize (IH Hs). lia.
Qed.

Lemma bt_first_least k m : bt_wf m → bt_first m = Some k → k ∈ m.*1 ∧ ∀ k', k' ∈ m.*1 → k ≤ k'.
Proof.
  destruct m as [|[k0 v0] m]; cbn; [done|]. intros [Hm Hall]%bt_wf_cons [= ->].
  rewrite Forall_forall in Hall. split; [left|].
  intros k' [->|Hin]%elem_of_cons; [lia|]. specialize (Hall _ Hin). lia.
Qed.

Lemma bt_from_first k m k0 :
  bt_wf m → bt_first (bt_from k m) = Some k0 →
  k0 ∈ m.*1 ∧ k ≤ k0 ∧ ∀ k', k' ∈ m.*1 → k ≤ k' → k0 ≤ k'.
Proof.
  induction m as [|[k1 v1] m IH]; [done|]. intros [Hm Hall]%bt_wf_cons.
  unfold bt_from. rewrite filter_cons. cbn [fst]. rewrite Forall_forall in Hall. case_decide.
  - cbn. intros [= ->]. split_and!; [left|done|].
    intros k' [->|Hin]%elem_of_cons ?; [lia|]. specialize (Hall _ Hin). lia.
  - intros (Hin & ? & Hleast)%IH; [|done]. split_and!; [by right|done|].
    intros k' [->|Hk]%elem_of_cons ?; [cbn in *; lia|]. by apply Hleast.
Qed.

Lemma bt_from_first_None k m k' :
  bt_first (bt_from k m) = None → k' ∈ m.*1 → k' < k.
Proof.
  intros Hn ([k0 v0] & -> & Hin)%list_elem_of_fmap. cbn.
  destruct (decide (k ≤ k0)); [|lia]. exfalso.
  assert ((k0, v0) ∈ bt_from k m) as Hf by (apply list_elem_of_filter; done).
  destruct (bt_from k m); [set_solver|done].
Qed.

Lemma bt_last_greatest k m : bt_wf m → bt_last m = Some k → k ∈ m.*1 ∧ ∀ k', k' ∈ m.*1 → k' ≤ k.
Proof.
  unfold bt_last. induction m as [|[k0 v0] m IH]; [done|]. intros [Hm Hall]%bt_wf_cons.
  destruct m as [|kv m].
  - cbn. intros [= ->]. split; [left|]. intros k' Hk'. apply list_elem_of_singleton in Hk' as ->. done.
  - rewrite last_cons_cons. intros [Hin Hmax]%IH; [|done]. split; [by right|].
    rewrite Forall_forall in Hall. specialize (Hall _ Hin).
    intros k' [->|?]%elem_of_cons; [cbn; lia|]. by apply Hmax.
Qed.
End btree.
