(* ===== verification/Rtp.v ===== *)
(** * RTP packets ([src/rtp.rs], first half)

    The RTP header and packet codec: [RtpHeader::parse]/[write_to] and
    [RtpPacket::parse]/[marshal].  Byte strings are lists of byte values,
    [Buf]/[BufMut] operations go through the [BytesCrate] interface, and an
    out-of-range index or slice is [Panic]. *)
From S2P Require Import Prelude BytesCrate.

Definition RTP_VERSION : Z := 2.

Inductive RtpError :=
| PacketTooShort
| UnsupportedVersion (v : Z)
| InvalidHeader (s : string)
| InvalidRtcp (s : string)
| LengthMismatch.

Record RtpHeaderExtension := {
  profile : Z;
  ext_data : list Z;
}.

Record RtpHeader := {
  marker : bool;
  payload_type : Z;
  sequence_number : Z;
  timestamp : Z;
  ssrc : Z;
  csrcs : list Z;
  extension : option RtpHeaderExtension;
}.

Record RtpPacket := {
  header : RtpHeader;
  payload : list Z;
  padding_len : Z;
}.

Definition RtpHeader_new (pt seq ts sr : Z) : RtpHeader := {|
  marker := false; payload_type := pt; sequence_number := seq;
  timestamp := ts; ssrc := sr; csrcs := []; extension := None |}.

Definition RtpPacket_new (h : RtpHeader) (p : list Z) : RtpPacket :=
  {| header := h; payload := p; padding_len := 0 |}.

Section codec.
Context `{BytesCrate}.

(** [(0..n).map(|_| raw.get_u32()).collect()] *)
Fixpoint get_u32s (n : nat) (raw : list Z) : option (list Z * list Z) :=
  match n with
  | O => Some ([], raw)
  | S n =>
      '(x, raw) ← get_u32 raw;
      '(xs, raw) ← get_u32s n raw;
      Some (x :: xs, raw)
  end.

(** The optional extension block of a header. *)
Definition parse_extension (has_ext : bool) (raw : list Z)
    : res RtpError (option RtpHeaderExtension * list Z) :=
  if has_ext then
    if (remaining raw <? 4)%nat then Err PacketTooShort else
    '(prof, raw) ← or_panic (get_u16 raw);
    '(words, raw) ← or_panic (get_u16 raw);
    let extension_len := (Z.to_nat words * 4)%nat in
    if (remaining raw <? extension_len)%nat then Err PacketTooShort else
    '(data, raw) ← or_panic (copy_to_bytes extension_len raw);
    Ok (Some {| profile := prof; ext_data := data |}, raw)
  else Ok (None, raw).

(** Returns the header, the padding bit and the rest of the buffer. *)
Definition RtpHeader_parse (raw : list Z) : res RtpError (RtpHeader * bool * list Z) :=
  if (remaining raw <? 12)%nat then Err PacketTooShort else
  '(b0, raw) ← or_panic (get_u8 raw);
  '(b1, raw) ← or_panic (get_u8 raw);
  let version := Z.shiftr b0 6 in
  if negb (version =? RTP_VERSION) then Err (UnsupportedVersion version) else
  let padding := negb (Z.land b0 0x20 =? 0) in
  let has_ext := negb (Z.land b0 0x10 =? 0) in
  let csrc_count := Z.to_nat (Z.land b0 0x0F) in
  let m := negb (Z.land b1 0x80 =? 0) in
  let pt := Z.land b1 0x7F in
  '(seq, raw) ← or_panic (get_u16 raw);
  '(ts, raw) ← or_panic (get_u32 raw);
  '(sr, raw) ← or_panic (get_u32 raw);
  if (remaining raw <? csrc_count * 4)%nat then Err PacketTooShort else
  '(cs, raw) ← or_panic (get_u32s csrc_count raw);
  '(ext, raw) ← parse_extension has_ext raw;
  Ok ({| marker := m; payload_type := pt; sequence_number := seq;
         timestamp := ts; ssrc := sr; csrcs := cs; extension := ext |},
      padding, raw).

Definition RtpHeader_validate (h : RtpHeader) : res RtpError unit :=
  if (15 <? length (csrcs h))%nat
  then Err (InvalidHeader "too many CSRC entries") else
  match extension h with
  | Some ext =>
      if negb (length (ext_data ext) mod 4 =? 0)%nat
      then Err (InvalidHeader "header extension payload must be 32-bit aligned")
      else Ok tt
  | None => Ok tt
  end.

Definition RtpHeader_encoded_len (h : RtpHeader) : nat :=
  (12 + length (csrcs h) * 4
   + match extension h with Some e => 4 + length (ext_data e) | None => 0 end)%nat.

Fixpoint cput_u32s (c : list Z * list Z) (xs : list Z) : option (list Z * list Z) :=
  match xs with
  | [] => Some c
  | x :: xs => c ← cput_u32 c x; cput_u32s c xs
  end.

(** Writes into [buffer] and returns its new contents. *)
Definition RtpHeader_write_to (h : RtpHeader) (has_padding : bool) (buffer : list Z)
    : res RtpError (list Z) :=
  let b0 := Z.shiftl RTP_VERSION 6 in
  let b0 := if has_padding then Z.lor b0 0x20 else b0 in
  let b0 := if extension h is Some _ then Z.lor b0 0x10 else b0 in
  let b0 := Z.lor b0 (Z.land (Z.of_nat (length (csrcs h))) 0x0F) in
  let b1 := Z.land (payload_type h) 0x7F in
  let b1 := if marker h then Z.lor b1 0x80 else b1 in
  let c := ([], buffer) in
  c ← or_panic (cput_u8 c b0);
  c ← or_panic (cput_u8 c b1);
  c ← or_panic (cput_u16 c (sequence_number h));
  c ← or_panic (cput_u32 c (timestamp h));
  c ← or_panic (cput_u32 c (ssrc h));
  c ← or_panic (cput_u32s c (csrcs h));
  c ← match extension h with
      | Some e =>
          let length_words := as_u16 (Z.of_nat (length (ext_data e) / 4)) in
          c ← or_panic (cput_u16 c (profile e));
          c ← or_panic (cput_u16 c length_words);
          or_panic (cput_slice c (ext_data e))
      | None => Ok c
      end;
  Ok (c.1 ++ c.2).

Definition RtpPacket_parse_bytes (buf : list Z) : res RtpError RtpPacket :=
  '(h, padding, buf) ← RtpHeader_parse buf;
  let payload_end := length buf in
  '(pad, payload_end) ←
    (if (padding : bool) then
       pad ← ok_or (last buf) PacketTooShort;
       if (length buf <? Z.to_nat pad)%nat
       then Err (InvalidHeader "padding larger than payload")
       else Ok (pad, (payload_end - Z.to_nat pad)%nat)
     else Ok (0, payload_end));
  pl ← or_panic (bytes_slice buf 0 payload_end);
  Ok {| header := h; payload := pl; padding_len := pad |}.

Definition RtpPacket_parse (raw : list Z) : res RtpError RtpPacket :=
  RtpPacket_parse_bytes raw.

Definition RtpPacket_encoded_len (p : RtpPacket) : nat :=
  (RtpHeader_encoded_len (header p) + length (payload p) + Z.to_nat (padding_len p))%nat.

Definition RtpPacket_marshal_impl (p : RtpPacket) (buffer : list Z)
    : res RtpError (list Z) :=
  let header_len := RtpHeader_encoded_len (header p) in
  let payload_end := (header_len + length (payload p))%nat in
  hbuf ← slice buffer 0 header_len;
  hbuf ← RtpHeader_write_to (header p) (negb (padding_len p =? 0)) hbuf;
  _ ← slice buffer header_len payload_end;
  tail ← slice buffer payload_end (length buffer);
  let tail := if negb (padding_len p =? 0)
              then replicate (length tail) (padding_len p) else tail in
  Ok (hbuf ++ payload p ++ tail).

Definition RtpPacket_marshal_to (p : RtpPacket) (buffer : list Z) : res RtpError (list Z) :=
  _ ← RtpHeader_validate (header p);
  if negb (length buffer =? RtpPacket_encoded_len p)%nat then Err LengthMismatch else
  RtpPacket_marshal_impl p buffer.

Definition RtpPacket_marshal (p : RtpPacket) : res RtpError (list Z) :=
  RtpPacket_marshal_to p (replicate (RtpPacket_encoded_len p) 0).

(** [buf.resize(n, 0)] keeps a prefix of the old contents. *)
Definition RtpPacket_marshal_into (p : RtpPacket) (buf : list Z) : res RtpError (list Z) :=
  RtpPacket_marshal_impl p (resize (RtpPacket_encoded_len p) 0 buf).

End codec.

(** [time] is given by the seconds and nanoseconds of its distance to the Unix
    epoch. *)
Definition calculate_abs_send_time (secs nanos : Z) : Z :=
  let ntp_seconds := secs + 2208988800 in
  let ntp_fraction := as_u32 (nanos * Z.shiftl 1 32 / 1000000000) in
  let ntp_timestamp := Z.lor (as_u64 (Z.shiftl ntp_seconds 32)) ntp_fraction in
  as_u32 (Z.land (Z.shiftr ntp_timestamp 14) 0x00ffffff).

Definition is_rtcp (packet : list Z) : bool :=
  match packet with
  | _ :: t :: _ => (192 <=? t) && (t <=? 208)
  | _ => false
  end.

(** ** The wire image of a packet *)

(** The header as a flat byte string (RFC 3550, section 5.1). *)
Definition first_byte (pad ext : bool) (n : nat) : Z :=
  let b := if pad then Z.lor (Z.shiftl RTP_VERSION 6) 0x20 else Z.shiftl RTP_VERSION 6 in
  let b := if ext then Z.lor b 0x10 else b in
  Z.lor b (Z.land (Z.of_nat n) 0x0F).

Definition second_byte (m : bool) (pt : Z) : Z :=
  let b := Z.land pt 0x7F in if m then Z.lor b 0x80 else b.

Definition ext_bytes (o : option RtpHeaderExtension) : list Z :=
  match o with
  | Some e =>
      to_be 2 (profile e)
      ++ to_be 2 (as_u16 (Z.of_nat (length (ext_data e) / 4))) ++ ext_data e
  | None => []
  end.

Definition header_bytes (h : RtpHeader) (pad : bool) : list Z :=
  to_be 1 (first_byte pad (bool_decide (is_Some (extension h))) (length (csrcs h)))
  ++ to_be 1 (second_byte (marker h) (payload_type h))
  ++ to_be 2 (sequence_number h) ++ to_be 4 (timestamp h) ++ to_be 4 (ssrc h)
  ++ concat (to_be 4 <$> csrcs h)
  ++ ext_bytes (extension h).

Definition packet_bytes (p : RtpPacket) : list Z :=
  header_bytes (header p) (negb (padding_len p =? 0))
  ++ payload p ++ replicate (Z.to_nat (padding_len p)) (padding_len p).

(** The ranges the Rust types and [validate] enforce, and the 16-bit bound on
    the extension length. *)
Record wf_ext (e : RtpHeaderExtension) : Prop := {
  wf_profile : u16 (profile e);
  wf_ext_data : bytes (ext_data e);
  wf_ext_align : (length (ext_data e) mod 4 = 0)%nat;
  wf_ext_len : u16 (Z.of_nat (length (ext_data e) / 4));
}.

Record wf_header (h : RtpHeader) : Prop := {
  wf_pt : 0 ≤ payload_type h < 128;
  wf_seq : u16 (sequence_number h);
  wf_ts : u32 (timestamp h);
  wf_ssrc : u32 (ssrc h);
  wf_csrcs : Forall u32 (csrcs h);
  wf_ncsrcs : (length (csrcs h) ≤ 15)%nat;
  wf_hext : ∀ e, extension h = Some e → wf_ext e;
}.

Record wf_packet (p : RtpPacket) : Prop := {
  wf_phdr : wf_header (header p);
  wf_payload : bytes (payload p);
  wf_padding : u8 (padding_len p);
}.

Lemma first_byte_fields pad ext n :
  (n ≤ 15)%nat →
  let b := first_byte pad ext n in
  u8 b ∧ Z.shiftr b 6 = 2 ∧ negb (Z.land b 0x20 =? 0) = pad ∧
  negb (Z.land b 0x10 =? 0) = ext ∧ Z.to_nat (Z.land b 0x0F) = n.
Proof.
  intros Hn. unfold u8.
  do 16 (destruct n as [|n]; [by destruct pad, ext|]). lia.
Qed.

Lemma second_byte_fields m pt :
  0 ≤ pt < 128 →
  let b := second_byte m pt in
  u8 b ∧ negb (Z.land b 0x80 =? 0) = m ∧ Z.land b 0x7F = pt.
Proof.
  intros Hpt b.
  assert (Ht : (0 <=? b) && (b <? 256) && eqb (negb (Z.land b 0x80 =? 0)) m
               && (Z.land b 0x7F =? pt) || (128 <=? pt) = true).
  { subst b. byte_check pt; [by destruct m; vm_compute|ulia]. }
  rewrite orb_true_iff, !andb_true_iff in Ht.
  destruct Ht as [(((?&?)&?%eqb_prop)&?)|?]; [|lia].
  split; [ulia|split; [done|lia]].
Qed.

Section codec_facts.
Context `{BytesCrate, !BytesLaws}.

Lemma length_concat_be4 (l : list Z) : length (concat (to_be 4 <$> l)) = (length l * 4)%nat.
Proof. induction l; cbn -[to_be]; rewrite ?length_app, ?length_to_be; lia. Qed.

Lemma length_header_bytes h pad : length (header_bytes h pad) = RtpHeader_encoded_len h.
Proof.
  unfold header_bytes, ext_bytes, RtpHeader_encoded_len.
  rewrite !length_app, length_concat_be4, !length_to_be.
  destruct (extension h); rewrite ?length_app, ?length_to_be; cbn; lia.
Qed.

Lemma cput_u32s_ok w r xs :
  (length xs * 4 ≤ length r)%nat →
  cput_u32s (w, r) xs = Some (w ++ concat (to_be 4 <$> xs), drop (length xs * 4) r).
Proof.
  revert w r. induction xs as [|x xs IH]; intros w r Hr; cbn -[to_be].
  - by rewrite app_nil_r.
  - cbn in Hr. rewrite cput_u32_spec, put_front_ok by (rewrite length_to_be; lia). cbn -[to_be].
    rewrite length_to_be, IH, drop_drop by (rewrite length_drop; lia).
    by rewrite <- app_assoc.
Qed.

(** [write_to] fills an exact slice with the wire image. *)
Lemma write_to_ok h pad buffer :
  length buffer = RtpHeader_encoded_len h →
  RtpHeader_write_to h pad buffer = Ok (header_bytes h pad).
Proof.
  intros Hlen. unfold RtpHeader_encoded_len in Hlen. unfold RtpHeader_write_to.
  rewrite !cput_u8_spec.
  repeat (rewrite ?cput_u8_spec, ?cput_u16_spec, ?cput_u32_spec;
    rewrite put_front_bind by (autorewrite with wire; lia);
    rewrite ?length_to_be, ?drop_drop).
  rewrite cput_u32s_ok by (autorewrite with wire; lia). run.
  rewrite drop_drop. unfold header_bytes, ext_bytes. destruct (extension h) as [e|].
  - repeat (rewrite ?cput_u16_spec, ?cput_slice_spec;
      rewrite put_front_bind by (autorewrite with wire; lia);
      rewrite ?length_to_be, ?drop_drop).
    cbn [fst snd]. rewrite drop_ge by lia. rewrite <- !app_assoc, !app_nil_r. done.
  - cbn [or_panic mbind res_bind fst snd].
    rewrite drop_ge by lia. rewrite <- !app_assoc, !app_nil_r. done.
Qed.

Lemma get_u32s_ok xs r :
  Forall u32 xs →
  get_u32s (length xs) (concat (to_be 4 <$> xs) ++ r) = Some (xs, r).
Proof.
  induction 1 as [|x xs Hx _ IH]; [done|]. rewrite fmap_cons.
  cbn [concat get_u32s length].
  rewrite <- app_assoc, get_u32_spec, read_be_32 by done.
  run. by rewrite IH.
Qed.

Lemma parse_extension_ok o rest :
  (∀ e, o = Some e → wf_ext e) →
  parse_extension (bool_decide (is_Some o)) (ext_bytes o ++ rest) = Ok (o, rest).
Proof.
  destruct o as [e|]; intros Hext; [|done].
  change (bool_decide (is_Some (Some e))) with true.
  destruct (Hext e eq_refl) as [He1 He2 He3 He4]. unfold parse_extension, ext_bytes.
  rewrite remaining_spec, (proj2 (Nat.ltb_ge _ _))
    by (rewrite !length_app, !length_to_be; lia).
  rewrite <- !app_assoc.
  rewrite get_u16_spec, read_be_16 by done. run.
  rewrite get_u16_spec, read_be_16 by mlia. run.
  assert (Z.to_nat (as_u16 (Z.of_nat (length (ext_data e) / 4))) * 4
          = length (ext_data e))%nat as ->.
  { unfold as_u16. rewrite Z.mod_small by done. rewrite Nat2Z.id.
    pose proof (Nat.div_mod_eq (length (ext_data e)) 4). lia. }
  rewrite remaining_spec, (proj2 (Nat.ltb_ge _ _)) by (rewrite length_app; lia).
  rewrite copy_to_bytes_spec, split_front_app by done. by destruct e.
Qed.

(** Reading back a well-formed header. *)
Lemma parse_header_bytes h pad rest :
  wf_header h →
  RtpHeader_parse (header_bytes h pad ++ rest) = Ok (h, pad, rest).
Proof.
  intros [Hpt Hseq Hts Hssrc Hcs Hn Hext].
  pose proof (length_header_bytes h pad) as Hlen.
  unfold RtpHeader_encoded_len in Hlen.
  unfold RtpHeader_parse. rewrite remaining_spec.
  rewrite (proj2 (Nat.ltb_ge _ _)) by (rewrite length_app; lia).
  unfold header_bytes. rewrite <- !app_assoc.
  destruct (first_byte_fields pad (bool_decide (is_Some (extension h)))
              (length (csrcs h)) Hn) as (Hb & Hv & Hp & He & Hc).
  destruct (second_byte_fields (marker h) (payload_type h) Hpt) as (Hb' & Hm & Ht).
  rewrite get_u8_spec, read_be_8 by done. run.
  rewrite get_u8_spec, read_be_8 by done. run.
  rewrite Hv, Hp, He, Hc, Hm, Ht. run.
  rewrite get_u16_spec, read_be_16 by done. run.
  rewrite get_u32_spec, read_be_32 by done. run.
  rewrite get_u32_spec, read_be_32 by done. run.
  rewrite remaining_spec, (proj2 (Nat.ltb_ge _ _))
    by (rewrite length_app, length_concat_be4; lia).
  rewrite get_u32s_ok by done. run.
  clear Hb Hb' Hv Hp He Hc Hm Ht.
  rewrite parse_extension_ok by done. by destruct h.
Qed.

Lemma validate_wf h : wf_header h → RtpHeader_validate h = Ok tt.
Proof.
  intros [_ _ _ _ _ Hn Hext]. unfold RtpHeader_validate.
  rewrite (proj2 (Nat.ltb_ge _ _)) by lia.
  destruct (extension h) as [e|]; [|done].
  by rewrite (wf_ext_align e (Hext e eq_refl)).
Qed.

(** Serialising into a buffer of the right length, whatever it held before. *)
Lemma marshal_impl_ok p buffer :
  length buffer = RtpPacket_encoded_len p → 0 ≤ padding_len p →
  RtpPacket_marshal_impl p buffer = Ok (packet_bytes p).
Proof.
  unfold RtpPacket_encoded_len. intros Hlen Hpad.
  unfold RtpPacket_marshal_impl, packet_bytes.
  rewrite !slice_ok by lia. run.
  rewrite write_to_ok by (autorewrite with wire; lia). run. do 3 f_equal.
  autorewrite with wire. destruct (Z.eqb_spec (padding_len p) 0) as [Hz|]; run.
  - rewrite Hz in *. apply nil_length_inv. autorewrite with wire. lia.
  - f_equal. lia.
Qed.

Lemma marshal_ok p :
  wf_packet p → RtpPacket_marshal p = Ok (packet_bytes p).
Proof.
  intros [Hh _ Hp]. unfold RtpPacket_marshal, RtpPacket_marshal_to.
  rewrite validate_wf by done. run.
  rewrite length_replicate, Nat.eqb_refl. cbn [negb].
  apply marshal_impl_ok; [apply length_replicate|ulia].
Qed.

Lemma first_byte_inv b :
  u8 b → Z.shiftr b 6 = 2 →
  b = first_byte (negb (Z.land b 0x20 =? 0)) (negb (Z.land b 0x10 =? 0))
        (Z.to_nat (Z.land b 0x0F)) ∧ (Z.to_nat (Z.land b 0x0F) ≤ 15)%nat.
Proof.
  intros Hb Hv.
  enough ((b =? first_byte (negb (Z.land b 0x20 =? 0)) (negb (Z.land b 0x10 =? 0))
        (Z.to_nat (Z.land b 0x0F))) && (Z.to_nat (Z.land b 0x0F) <=? 15)%nat
        || negb (Z.shiftr b 6 =? 2) = true) as Ht
    by (apply orb_true_iff in Ht as [[?%Z.eqb_eq ?%Nat.leb_le]%andb_true_iff|Ht];
        [done|by rewrite Hv in Ht]).
  byte_check b; [by vm_compute|done].
Qed.

Lemma second_byte_inv b :
  u8 b →
  b = second_byte (negb (Z.land b 0x80 =? 0)) (Z.land b 0x7F) ∧ 0 ≤ Z.land b 0x7F < 128.
Proof.
  intros Hb.
  enough ((b =? second_byte (negb (Z.land b 0x80 =? 0)) (Z.land b 0x7F))
          && ((0 <=? Z.land b 0x7F) && (Z.land b 0x7F <? 128)) = true) as Ht
    by (apply andb_true_iff in Ht as [?%Z.eqb_eq ?]; split; [done|lia]).
  byte_check b; [by vm_compute|done].
Qed.

Lemma get_u32s_inv n l xs r :
  bytes l → get_u32s n l = Some (xs, r) →
  l = concat (to_be 4 <$> xs) ++ r ∧ length xs = n ∧ Forall u32 xs ∧ bytes r.
Proof.
  revert l xs r. induction n as [|n IH]; intros l xs r Hl Hg; cbn in Hg; simplify_eq.
  { by auto. }
  rewrite get_u32_spec in Hg.
  destruct (read_be 4 l) as [[x l']|] eqn:Hx; simplify_eq/=.
  apply read_be_inv in Hx as (-> & Hl' & Hx); [|done].
  destruct (get_u32s n l') as [[ys r']|] eqn:Hg'; simplify_eq/=.
  apply IH in Hg' as (-> & <- & ? & ?); [|done].
  rewrite <- app_assoc. repeat split; auto.
Qed.

Lemma parse_extension_inv b l o rest :
  bytes l → parse_extension b l = Ok (o, rest) →
  l = ext_bytes o ++ rest ∧ b = bool_decide (is_Some o) ∧
  (∀ e, o = Some e → wf_ext e) ∧ bytes rest.
Proof.
  unfold parse_extension. intros Hl Hp. destruct b; [|res_inv; simplify_eq; by auto].
  res_inv. simplify_eq. read_inv.
  assert (length l2 / 4 = Z.to_nat z0)%nat as Hq
    by (match goal with H : length l2 = _ |- _ => rewrite H end; by apply Nat.div_mul).
  assert (as_u16 (Z.of_nat (length l2 / 4)) = z0) as Hz by (pow256; rewrite Hq; mlia).
  split_and!; try done.
  - cbn [ext_bytes profile ext_data]. by rewrite Hz, <- !app_assoc.
  - intros e [= <-]. split; cbn [profile ext_data]; pow256; [done|done| |].
    + match goal with H : length l2 = _ |- _ => rewrite H end. by apply Nat.Div0.mod_mul.
    + rewrite Hq. ulia.
Qed.

(** A header that parses is well formed, and the input is its wire image
    followed by the bytes left over. *)
Lemma parse_header_inv raw h pad rest :
  bytes raw → RtpHeader_parse raw = Ok (h, pad, rest) →
  raw = header_bytes h pad ++ rest ∧ wf_header h ∧ bytes rest.
Proof.
  unfold RtpHeader_parse. intros Hraw Hp.
  res_inv. simplify_eq. read_inv.
  match goal with H : get_u32s _ _ = Some _ |- _ =>
    apply get_u32s_inv in H as (-> & Hn & ? & ?); [|done] end.
  match goal with H : parse_extension _ _ = Ok _ |- _ =>
    apply parse_extension_inv in H as (-> & Hx & ? & ?); [|done] end.
  pow256. destruct (first_byte_inv z) as [Hz Hle]; [done|unfold RTP_VERSION in *; lia|].
  destruct (second_byte_inv z0) as [Hz0 Hpt]; [done|].
  unfold header_bytes; cbn [extension csrcs marker payload_type sequence_number timestamp ssrc].
  rewrite <- Hx, Hn, <- Hz, <- Hz0, <- !app_assoc.
  split_and!; [done| |done]. split; cbn; try done; lia.
Qed.

Lemma parse_packet_bytes p :
  wf_packet p → RtpPacket_parse (packet_bytes p) = Ok p.
Proof.
  intros [Hh Hpl Hp]. unfold RtpPacket_parse, RtpPacket_parse_bytes, packet_bytes.
  rewrite parse_header_bytes by done. run.
  destruct (Z.eqb_spec (padding_len p) 0) as [Hz|Hnz]; cbn [negb].
  - rewrite Hz, app_nil_r. run.
    rewrite bytes_slice_spec, decide_True by lia. run.
    rewrite drop_0, Nat.sub_0_r, take_ge by lia. destruct p; cbn in *; by subst.
  - assert (∃ k, Z.to_nat (padding_len p) = S k) as [k Hk] by (exists (pred (Z.to_nat (padding_len p))); ulia).
    rewrite last_app, Hk, last_replicate_S by lia. run.
    rewrite (proj2 (Nat.ltb_ge _ _)) by (autorewrite with wire; lia).
    run. autorewrite with wire.
    rewrite bytes_slice_spec, decide_True by (autorewrite with wire; lia). run.
    rewrite drop_0, take_app_le, take_ge by lia. by destruct p.
Qed.

Lemma get_u32s_total n l : (n * 4 ≤ length l)%nat → is_Some (get_u32s n l).
Proof.
  revert l. induction n as [|n IH]; intros l Hl; [done|]. cbn [get_u32s].
  rewrite get_u32_spec, read_be_ge by lia. run.
  destruct (IH (drop 4 l)) as [[xs r] ->]; [autorewrite with wire; lia|done].
Qed.

Lemma parse_extension_no_panic b l : parse_extension b l ≠ Panic.
Proof.
  unfold parse_extension. destruct b; [|done]. autorewrite with crate.
  case_match eqn:Hl; [done|]. apply Nat.ltb_ge in Hl.
  rewrite read_be_bind by lia. autorewrite with crate.
  rewrite read_be_bind by (autorewrite with wire; lia). autorewrite with crate.
  case_match eqn:Hl'; [done|]. apply Nat.ltb_ge in Hl'.
  rewrite split_front_ge by lia. done.
Qed.

Lemma parse_header_no_panic raw : RtpHeader_parse raw ≠ Panic.
Proof.
  unfold RtpHeader_parse. autorewrite with crate.
  case_match eqn:Hl; [done|]. apply Nat.ltb_ge in Hl.
  do 2 (rewrite read_be_bind by (autorewrite with wire; lia); autorewrite with crate).
  case_match; [done|].
  do 3 (rewrite read_be_bind by (autorewrite with wire; lia); autorewrite with crate).
  case_match eqn:Hc; [done|]. apply Nat.ltb_ge in Hc.
  edestruct get_u32s_total as [[xs r] ->]; [exact Hc|]. run.
  apply bind_not_panic; [apply parse_extension_no_panic|]. by intros [??] _.
Qed.

Lemma parse_packet_no_panic raw : RtpPacket_parse raw ≠ Panic.
Proof.
  unfold RtpPacket_parse, RtpPacket_parse_bytes.
  apply bind_not_panic; [apply parse_header_no_panic|]. intros [[h pad] buf] _.
  apply bind_not_panic; [by destruct pad, (last buf); run; repeat case_match|].
  intros [pl e] He. destruct pad; res_inv; simplify_eq;
    rewrite bytes_slice_spec, decide_True by lia; done.
Qed.

Lemma header_bytes_hd h pad rest :
  (length (csrcs h) ≤ 15)%nat →
  hd 0 (header_bytes h pad ++ rest)
  = first_byte pad (bool_decide (is_Some (extension h))) (length (csrcs h)).
Proof.
  intros Hn. unfold header_bytes.
  destruct (first_byte_fields pad (bool_decide (is_Some (extension h))) _ Hn) as [Hb _].
  by rewrite to_be_1.
Qed.

Lemma parse_packet_inv raw p :
  bytes raw → RtpPacket_parse raw = Ok p →
  ∃ pad tail, raw = header_bytes (header p) pad ++ payload p ++ tail ∧
    length tail = Z.to_nat (padding_len p) ∧ wf_packet p ∧
    (pad = false → padding_len p = 0).
Proof.
  unfold RtpPacket_parse, RtpPacket_parse_bytes. intros Hraw Hp.
  res_inv. rename l into buf, b into pad.
  match goal with H : RtpHeader_parse _ = Ok _ |- _ =>
    apply parse_header_inv in H as (-> & Hh & Hbuf); [|done] end.
  rewrite bytes_slice_spec in *. simplify_option_eq.
  match goal with H : _ ∧ (?n ≤ length buf)%nat |- _ => destruct H as [_ Hn] end.
  rewrite drop_0, Nat.sub_0_r.
  exists pad, (drop n buf). cbn [header payload padding_len]. rewrite take_drop, length_drop.
  assert ((length buf - n = Z.to_nat z)%nat ∧ u8 z ∧ (pad = false → z = 0)) as (?&?&?).
  { destruct pad; res_inv; simplify_eq; (split_and!; [lia| |done]); [|ulia].
    eapply Forall_lookup_1; [done|]. rewrite <- last_lookup. eassumption. }
  split_and!; try done. split; cbn; [done|by apply Forall_take|done].
Qed.

End codec_facts.

(** ** Correctness of the packet codec *)

Section codec_theorems.
Context `{BytesCrate, !BytesLaws}.

(** C1: Every well-formed RTP packet (any marker, CSRC list, extension block and
    padding length) is serialised by RtpPacket::marshal to bytes that
    RtpPacket::parse reads back to the same packet. *)
Theorem rtp_roundtrip p :
  wf_packet p →
  ∃ raw, RtpPacket_marshal p = Ok raw ∧ RtpPacket_parse raw = Ok p.
Proof. intros. eauto using marshal_ok, parse_packet_bytes. Qed.

(** A packet that RtpPacket::parse accepts is well formed, and when the
    padding bit of the input is clear, marshalling it gives back exactly the
    input bytes. *)
Theorem rtp_parse_marshal raw p :
  bytes raw → RtpPacket_parse raw = Ok p →
  wf_packet p ∧ (Z.land (hd 0 raw) 0x20 = 0 → RtpPacket_marshal p = Ok raw).
Proof.
  intros Hraw Hp. apply parse_packet_inv in Hp as (pad & tail & -> & Ht & Hwf & Hpad); [|done].
  split; [done|]. intros Hbit. rewrite marshal_ok by done. f_equal. unfold packet_bytes.
  rewrite header_bytes_hd in Hbit by (apply wf_ncsrcs, Hwf).
  destruct (first_byte_fields pad (bool_decide (is_Some (extension (header p))))
    (length (csrcs (header p)))) as (_&_&Hb&_&_); [apply wf_ncsrcs, Hwf|].
  rewrite Hbit in Hb. cbn in Hb. subst pad. rewrite (Hpad eq_refl) in Ht |- *.
  by rewrite (nil_length_inv tail Ht).
Qed.

(** RtpPacket::parse returns a result on every byte string: no read, slice
    or index of it goes out of bounds. *)
Theorem rtp_parse_no_panic raw : RtpPacket_parse raw ≠ Panic.
Proof. apply parse_packet_no_panic. Qed.

(** For a well-formed packet the buffer-reusing marshal_into writes the
    same bytes as marshal, whatever the buffer held before. *)
Theorem rtp_marshal_into_equiv p buf :
  wf_packet p → RtpPacket_marshal_into p buf = RtpPacket_marshal p.
Proof.
  intros Hp. rewrite marshal_ok by done. unfold RtpPacket_marshal_into.
  apply marshal_impl_ok; [apply length_resize|apply Hp].
Qed.

End codec_theorems.

(** ** Sample packet: one CSRC, an extension block and two bytes of padding *)

Definition sample_header : RtpHeader := {|
  marker := true; payload_type := 96; sequence_number := 1000; timestamp := 42;
  ssrc := 0x12345678; csrcs := [0x01020304];
  extension := Some {| profile := 0xBEDE; ext_data := [0x10; 1; 0; 0] |} |}.
Definition sample_packet : RtpPacket :=
  {| header := sample_header; payload := [9; 8; 7; 6]; padding_len := 2 |}.
Definition sample_plain : RtpPacket :=
  {| header := sample_header; payload := [9; 8; 7; 6]; padding_len := 0 |}.

Lemma wf_sample_header : wf_header sample_header.
Proof.
  split; cbn; try (done || lia); [by repeat constructor|].
  intros e [= <-]. split; cbn; [done|by repeat constructor|done|done].
Qed.

Lemma wf_sample_packet : wf_packet sample_packet.
Proof. split; [apply wf_sample_header|by repeat constructor|done]. Qed.

Lemma wf_sample_plain : wf_packet sample_plain.
Proof. split; [apply wf_sample_header|by repeat constructor|done]. Qed.

Lemma rtp_roundtrip_witness :
  ∃ raw, @RtpPacket_marshal vec_crate sample_packet = Ok raw ∧
         @RtpPacket_parse vec_crate raw = Ok sample_packet.
Proof. apply (@rtp_roundtrip vec_crate vec_laws), wf_sample_packet. Defined.

