(* ===== verification/RtpExt.v ===== *)
(** * RTP header extensions ([src/rtp.rs]: [get_extension], [set_extension])

    RFC 8285 extension elements inside the extension block of an RTP header.
    The loops over [offset] are recursions over the bytes from [offset] on. *)
From Equations Require Import Equations.
From S2P Require Import Prelude BytesCrate Rtp.

Section ext_ops.
Context `{BytesCrate}.

(** The loop of [get_extension] for the one-byte profile [0xBEDE]. *)
Equations? get_one_byte (id : Z) (d : list Z) : res RtpError (option (list Z))
  by wf (length d) lt :=
get_one_byte id [] := Ok None;
get_one_byte id (b :: r) :=
  if b =? 0 then get_one_byte id r else
  let ext_id := Z.shiftr b 4 in
  let len := (Z.to_nat (Z.land b 0x0F) + 1)%nat in
  if ext_id =? 15 then Ok None else
  if ext_id =? id then
    if (len <=? length r)%nat
    then s ← or_panic (bytes_slice r 0 len); Ok (Some s) else Ok None
  else get_one_byte id (drop len r).
Proof. all: cbn; rewrite ?length_drop; lia. Qed.

(** The loop of [get_extension] for the two-byte profile [0x1000]. *)
Equations? get_two_byte (id : Z) (d : list Z) : res RtpError (option (list Z))
  by wf (length d) lt :=
get_two_byte id [] := Ok None;
get_two_byte id [_] := Ok None;
get_two_byte id (b :: l :: r) :=
  if b =? 0 then get_two_byte id (l :: r) else
  let len := Z.to_nat l in
  if b =? id then
    if (len <=? length r)%nat
    then s ← or_panic (bytes_slice r 0 len); Ok (Some s) else Ok None
  else get_two_byte id (drop len r).
Proof. all: cbn; rewrite ?length_drop; lia. Qed.

Definition RtpHeader_get_extension (h : RtpHeader) (id : Z)
    : res RtpError (option (list Z)) :=
  match extension h with
  | Some ext =>
      if profile ext =? 0xBEDE then get_one_byte id (ext_data ext)
      else if profile ext =? 0x1000 then get_two_byte id (ext_data ext)
      else Ok None
  | None => Ok None
  end.

(** The rebuilding loop of [set_extension]: the new block and whether the
    element was present.  Copying an element that runs past the block aborts
    ([&ext.data[offset..offset + len]]). *)
Equations? set_loop (id id_header : Z) (data d : list Z) : res RtpError (list Z * bool)
  by wf (length d) lt :=
set_loop id id_header data [] := Ok ([], false);
set_loop id id_header data (b :: r) :=
  if b =? 0 then set_loop id id_header data r else
  let ext_id := Z.shiftr b 4 in
  let len := (Z.to_nat (Z.land b 0x0F) + 1)%nat in
  if ext_id =? 15 then Ok ([], false) else
  if ext_id =? id then
    '(nd, _) ← set_loop id id_header data (drop len r);
    Ok ((id_header :: data) ++ nd, true)
  else
    s ← slice r 0 len;
    '(nd, found) ← set_loop id id_header data (drop len r);
    Ok ((b :: s) ++ nd, found).
Proof. all: cbn; rewrite ?length_drop; lia. Qed.

End ext_ops.

Definition with_extension (h : RtpHeader) (e : option RtpHeaderExtension) : RtpHeader := {|
  marker := marker h; payload_type := payload_type h;
  sequence_number := sequence_number h; timestamp := timestamp h;
  ssrc := ssrc h; csrcs := csrcs h; extension := e |}.

(** [(n + 3) & !3] *)
Definition align4 (n : nat) : nat := ((n + 3) / 4 * 4)%nat.

(** The header after a successful call; a call that returns [Err] leaves the
    header as it was. *)
Definition RtpHeader_set_extension (h : RtpHeader) (id : Z) (data : list Z)
    : res RtpError RtpHeader :=
  if (id =? 0) || (15 <=? id)
  then Err (InvalidHeader "invalid extension id for one-byte header") else
  if (16 <? length data)%nat || (length data =? 0)%nat
  then Err (InvalidHeader "invalid extension data length") else
  let ext := default {| profile := 0xBEDE; ext_data := [] |} (extension h) in
  if negb (profile ext =? 0xBEDE)
  then Err (InvalidHeader "unsupported extension profile for modification") else
  let id_header := Z.lor (as_u8 (Z.shiftl id 4)) (as_u8 (Z.of_nat (length data) - 1)) in
  '(new_data, found) ← set_loop id id_header data (ext_data ext);
  let new_data := if (found : bool) then new_data else new_data ++ id_header :: data in
  let new_data := resize (align4 (length new_data)) 0 new_data in
  Ok (with_extension h (Some {| profile := profile ext; ext_data := new_data |})).

Example set_get_example :
  let h := RtpHeader_new 96 1000 42 7 in
  (h1 ← RtpHeader_set_extension h 1 [0x11; 0x22];
   h2 ← RtpHeader_set_extension h1 2 [0xFF];
   o ← @RtpHeader_get_extension vec_crate h2 1;
   Ok (o, ext_data <$> extension h2))
  = Ok (Some [0x11; 0x22], Some [0x11; 0x11; 0x22; 0x20; 0xFF; 0; 0; 0]).
Proof. vm_compute. reflexivity. Qed.

(** ** Facts about the element loops *)

(** The length a one-byte element header announces. *)
Definition elem_len (b : Z) : nat := (Z.to_nat (Z.land b 0x0F) + 1)%nat.

Lemma elem_header_fields id n :
  0 < id < 15 → (1 ≤ n ≤ 16)%nat →
  let b := Z.lor (as_u8 (Z.shiftl id 4)) (as_u8 (Z.of_nat n - 1)) in
  b ≠ 0 ∧ Z.shiftr b 4 = id ∧ elem_len b = n.
Proof.
  intros Hid Hn b.
  assert (forallb (λ n, let b := Z.lor (as_u8 (Z.shiftl id 4)) (as_u8 (Z.of_nat n - 1)) in
     negb (b =? 0) && (Z.shiftr b 4 =? id) && (elem_len b =? n)%nat) (seq 1 16)
     || (id =? 0) || (15 <=? id) = true) as Ht.
  { byte_check id; [by vm_compute|ulia]. }
  rewrite !orb_true_iff in Ht. destruct Ht as [[Ht|?]|?]; [|lia..].
  rewrite forallb_forall in Ht. specialize (Ht n).
  rewrite !andb_true_iff, negb_true_iff in Ht.
  destruct Ht as ((?%Z.eqb_neq & ?%Z.eqb_eq) & ?%Nat.eqb_eq); [|done].
  apply in_seq. lia.
Qed.

Section ext_facts.
Context `{BytesCrate, !BytesLaws}.

Lemma get_one_byte_elem id b s t :
  b ≠ 0 → Z.shiftr b 4 ≠ 15 → length s = elem_len b →
  get_one_byte id (b :: s ++ t)
  = if Z.shiftr b 4 =? id then Ok (Some s) else get_one_byte id t.
Proof.
  intros Hb H15 Hs. unfold elem_len in Hs. simp get_one_byte. cbn zeta.
  rewrite (proj2 (Z.eqb_neq _ _) Hb), (proj2 (Z.eqb_neq _ _) H15).
  rewrite <- Hs. case_match; [|by rewrite drop_app_length].
  rewrite (proj2 (Nat.leb_le _ _)) by (rewrite length_app; lia).
  rewrite bytes_slice_spec, decide_True by (rewrite length_app; lia). run.
  by rewrite drop_0, Nat.sub_0_r, take_app_length.
Qed.

Lemma get_one_byte_zeros id n : get_one_byte id (replicate n 0) = Ok None.
Proof. induction n; cbn [replicate]; by simp get_one_byte. Qed.

(** What a lookup sees in the rebuilt block [nd] followed by [t]: the old
    elements with another id, and the new data for the id that was set. *)
Lemma set_loop_lookup id ih data d nd found t :
  ih ≠ 0 → Z.shiftr ih 4 = id → id ≠ 15 → length data = elem_len ih →
  set_loop id ih data d = Ok (nd, found) →
  (∀ id', id' ≠ id → get_one_byte id' (nd ++ t) =
     match get_one_byte id' d with Ok (Some v) => Ok (Some v) | _ => get_one_byte id' t end) ∧
  get_one_byte id (nd ++ t) = if found then Ok (Some data) else get_one_byte id t.
Proof.
  intros Hih Hid H15 Hdata. revert nd found.
  induction d as [[|b r] IH] using list_len_ind; intros nd found Hl; simp set_loop in Hl.
  { res_inv. simplify_eq. split; [|done]. intros. by simp get_one_byte. }
  destruct (Z.eqb_spec b 0) as [->|Hb].
  { apply IH in Hl as [Hl1 Hl2]; [|cbn; lia]. split; [|done].
    intros. rewrite Hl1 by done. by simp get_one_byte. }
  cbn zeta in Hl. fold (elem_len b) in Hl.
  destruct (Z.eqb_spec (Z.shiftr b 4) 15) as [Hb15|Hb15].
  { res_inv. simplify_eq. split; [|done]. intros. simp get_one_byte. cbn zeta.
    by rewrite (proj2 (Z.eqb_neq _ _) Hb), Hb15. }
  destruct (Z.eqb_spec (Z.shiftr b 4) id) as [Hbid|Hbid].
  - apply bind_Ok in Hl as ([nd' f'] & Hl & ?). simplify_eq.
    apply IH in Hl as [Hl1 Hl2]; [|cbn; rewrite length_drop; lia].
    cbn [app]. rewrite <- app_assoc. split.
    + intros id' Hne. rewrite get_one_byte_elem by done.
      rewrite (proj2 (Z.eqb_neq _ _)), Hl1 by congruence.
      simp get_one_byte. cbn zeta. fold (elem_len b).
      rewrite (proj2 (Z.eqb_neq _ _) Hb), (proj2 (Z.eqb_neq _ _) Hb15), Hbid.
      by rewrite (proj2 (Z.eqb_neq _ _)) by congruence.
    + rewrite get_one_byte_elem by done. by rewrite Z.eqb_refl.
  - apply bind_Ok in Hl as (s & Hs & Hl). apply bind_Ok in Hl as ([nd' f'] & Hl & ?).
    simplify_eq. apply IH in Hl as [Hl1 Hl2]; [|cbn; rewrite length_drop; lia].
    unfold slice in Hs. case_decide as Hlen; [|done]. injection Hs as <-.
    rewrite drop_0, Nat.sub_0_r. cbn [app]. rewrite <- app_assoc.
    assert (∀ id', get_one_byte id' (b :: r) = if Z.shiftr b 4 =? id'
      then Ok (Some (take (elem_len b) r)) else get_one_byte id' (drop (elem_len b) r)) as Hold.
    { intros id'. rewrite <- (take_drop (elem_len b) r) at 1.
      apply get_one_byte_elem; [done..|]. rewrite length_take. lia. }
    assert (length (take (elem_len b) r) = elem_len b) as Htl by (rewrite length_take; lia).
    split; intros; rewrite ?Hold, get_one_byte_elem by done.
    + destruct (Z.shiftr b 4 =? id'); [done|]. by apply Hl1.
    + by rewrite (proj2 (Z.eqb_neq _ _)) by congruence.
Qed.

Lemma get_one_byte_total id d : ∃ o, get_one_byte id d = Ok o.
Proof.
  induction d as [[|b r] IH] using list_len_ind; simp get_one_byte; [eauto|].
  case_match; [apply IH; cbn; lia|]. cbn zeta. case_match; [eauto|].
  case_match; [|apply IH; cbn; rewrite length_drop; lia].
  case_match eqn:Hl; [|eauto]. apply Nat.leb_le in Hl.
  rewrite bytes_slice_spec, decide_True by lia. run. eauto.
Qed.

Lemma resize_app_zeros n (l : list Z) :
  (length l ≤ n)%nat → resize n 0 l = l ++ replicate (n - length l) 0.
Proof. intros. by rewrite resize_ge. Qed.

End ext_facts.

(** ** Correctness of [set_extension] *)

Section ext_theorems.
Context `{BytesCrate, !BytesLaws}.

(** C23: After a successful set_extension(id, data), get_extension(id) returns
    data, get_extension of every other id returns what it returned before, no
    other header field changes, and the block is 0xBEDE and 32-bit aligned. *)
Theorem set_extension_lookup h id data h' :
  u8 id → RtpHeader_set_extension h id data = Ok h' →
  RtpHeader_get_extension h' id = Ok (Some data) ∧
  (∀ id', id' ≠ id → RtpHeader_get_extension h' id' = RtpHeader_get_extension h id') ∧
  with_extension h' (extension h) = h ∧
  ∃ e, extension h' = Some e ∧ profile e = 0xBEDE ∧ (length (ext_data e) mod 4 = 0)%nat.
Proof.
  unfold RtpHeader_set_extension. intros Hu Hs. res_inv.
  match goal with H : set_loop _ _ _ _ = Ok (?x, ?f) |- _ =>
    rename x into nd, f into found, H into Hl end.
  set (ext := default _ (extension h)) in *.
  assert (profile ext = 0xBEDE) as Hprof by lia.
  destruct (elem_header_fields id (length data)) as (Hih & Hid & Hlen); [ulia|lia|].
  set (ih := Z.lor _ _) in *.
  set (block := if found then nd else nd ++ ih :: data).
  set (n := align4 (length block)).
  assert (length block ≤ n)%nat as Hn by (subst n; unfold align4; mlia).
  assert (block = nd ++ if found then [] else ih :: data) as Hblk
    by (subst block; by destruct found; rewrite ?app_nil_r).
  assert (n mod 4 = 0)%nat as Hn4 by (by apply Nat.Div0.mod_mul). clearbody n block.
  unfold RtpHeader_get_extension; cbn [extension with_extension profile ext_data].
  rewrite resize_app_zeros, Hprof, Hblk, <- app_assoc by done. cbn [Z.eqb Pos.eqb].
  rewrite <- Hblk.
  eapply set_loop_lookup in Hl as [Hl1 Hl2]; [|try done; lia..].
  rewrite Hl2. split_and!.
  - destruct found; [done|]. cbn [app]. rewrite get_one_byte_elem by (try done; lia).
    by rewrite Hid, Z.eqb_refl.
  - intros id' Hne. rewrite Hl1 by done.
    assert (get_one_byte id' ((if found then [] else ih :: data)
      ++ replicate (n - length block) 0) = Ok None) as ->.
    { destruct found; [apply get_one_byte_zeros|]. cbn [app].
      rewrite get_one_byte_elem by (try done; lia).
      rewrite Hid, (proj2 (Z.eqb_neq _ _)) by done. apply get_one_byte_zeros. }
    subst ext. destruct (extension h) as [e|].
    + change (profile e = 0xBEDE) in Hprof. rewrite Hprof. cbn. by destruct (get_one_byte_total id' (ext_data e)) as [[] ->].
    + cbn. by simp get_one_byte.
  - by destruct h.
  - eexists. split_and!; [done|done|]. cbn [ext_data].
    rewrite !length_app, length_replicate, Nat.add_assoc, <- length_app, <- Hblk.
    by replace (length block + (n - length block))%nat with n by lia.
Qed.

(** C35: There is an RTP packet that parses successfully and on whose header
    set_extension aborts: an extension element that announces more data than the
    block holds is copied with an unchecked slice. *)
Theorem set_extension_aborts_on_parsed_packet :
  ∃ raw p, bytes raw ∧ RtpPacket_parse raw = Ok p ∧
    ∀ id data, 0 < id < 15 → id ≠ 2 → (1 ≤ length data ≤ 16)%nat →
      RtpHeader_set_extension (header p) id data = Panic.
Proof.
  set (h := with_extension (RtpHeader_new 96 1 2 3)
              (Some {| profile := 0xBEDE; ext_data := [0x2F; 0; 0; 0] |})).
  set (p := RtpPacket_new h []).
  assert (wf_packet p) as Hwf.
  { split; cbn; [split; cbn; try (done || lia)|done|done].
    intros e [= <-]. split; cbn; [done| |done|done]. repeat constructor; done. }
  exists (packet_bytes p), p. split_and!.
  - by vm_compute; repeat constructor.
  - by apply parse_packet_bytes.
  - intros id data Hid Hid2 Hdata. unfold RtpHeader_set_extension.
    rewrite (proj2 (orb_false_iff _ _)) by lia.
    rewrite (proj2 (orb_false_iff _ _)) by lia.
    cbn [p header RtpPacket_new h with_extension extension default from_option].
    cbn -[set_loop].
    simp set_loop. cbn zeta. change (Z.shiftr 0x2F 4) with 2.
    rewrite (proj2 (Z.eqb_neq 2 id)) by lia. done.
Qed.

End ext_theorems.

Lemma set_extension_lookup_witness :
  ∃ h', RtpHeader_set_extension sample_header 3 [7; 8] = Ok h' ∧
    @RtpHeader_get_extension vec_crate h' 3 = Ok (Some [7; 8]).
Proof.
  eexists. split; [vm_compute; reflexivity|].
  eapply (@set_extension_lookup vec_crate vec_laws sample_header 3 [7; 8]);
    [done|vm_compute; reflexivity].
Defined.

Lemma set_extension_aborts_witness :
  ∃ raw p, bytes raw ∧ @RtpPacket_parse vec_crate raw = Ok p ∧
    ∀ id data, 0 < id < 15 → id ≠ 2 → (1 ≤ length data ≤ 16)%nat →
      RtpHeader_set_extension (header p) id data = Panic.
Proof. apply (@set_extension_aborts_on_parsed_packet vec_crate vec_laws). Defined.
