(* ===== verification/Nack.v ===== *)
(** * NACK lists ([src/rtp.rs]: [pack_nack_pairs], [parse_nack_body])

    Lost sequence numbers are sent as pairs of a packet id and a bitmap of the
    sixteen sequence numbers that follow it (RFC 4585, section 6.2.1). *)
From stdpp Require Import sorting sets.
From S2P Require Import Prelude.

(** [Vec::dedup] removes consecutive repetitions. *)
Fixpoint dedup (l : list Z) : list Z :=
  match l with
  | a :: ((b :: _) as r) => if a =? b then dedup r else a :: dedup r
  | _ => l
  end.

(** The two nested loops as one pass that carries the open pair [(pid, blp)]. *)
Fixpoint pack_go (pid blp : Z) (seqs : list Z) : list (Z * Z) :=
  match seqs with
  | [] => [(pid, blp)]
  | s :: r =>
      let diff := wsub16 s pid in
      if diff =? 0 then pack_go pid blp r else
      if diff >? 16 then (pid, blp) :: pack_go s 0 r else
      pack_go pid (Z.lor blp (Z.shiftl 1 (diff - 1))) r
  end.

Definition pack_nack_pairs (packets : list Z) : list (Z * Z) :=
  match dedup (merge_sort Z.le packets) with
  | [] => []
  | pid :: r => pack_go pid 0 r
  end.

(** The inner loop of [parse_nack_body]: the packet id and the sequence numbers
    whose bit is set. *)
Definition expand_pair (p : Z * Z) : list Z :=
  p.1 :: ((λ bit, wadd16 p.1 (bit + 1)) <$>
          filter (λ bit, Z.land (Z.shiftr p.2 bit) 1 = 1) (seqZ 0 16)).

Definition unpack_nack_pairs (pairs : list (Z * Z)) : list Z :=
  concat (expand_pair <$> pairs).

(** The canonical form of a NACK list: increasing, without repetitions. *)
Definition nack_normal (packets : list Z) : list Z := dedup (merge_sort Z.le packets).

#[local] Instance Zle_total : Total Z.le.
Proof. intros x y. lia. Qed.

Lemma dedup_elem_of x l : x ∈ dedup l ↔ x ∈ l.
Proof.
  induction l as [|a [|b r] IH]; [done..|].
  change (dedup (a :: b :: r)) with
    (if a =? b then dedup (b :: r) else a :: dedup (b :: r)).
  destruct (Z.eqb_spec a b) as [->|]; set_solver.
Qed.

Lemma dedup_sorted l : StronglySorted Z.le l → StronglySorted Z.lt (dedup l).
Proof.
  induction l as [|a [|b r] IH]; intros Hl; [constructor|by repeat constructor|].
  apply StronglySorted_inv in Hl as [Hl Ha].
  change (dedup (a :: b :: r)) with
    (if a =? b then dedup (b :: r) else a :: dedup (b :: r)).
  destruct (Z.eqb_spec a b) as [->|Hne]; [by apply IH|].
  constructor; [by apply IH|]. apply Forall_forall. intros x Hx. rewrite dedup_elem_of in Hx.
  apply StronglySorted_inv in Hl as [_ Hb].
  rewrite Forall_forall in Ha, Hb. specialize (Ha b ltac:(set_solver)).
  apply elem_of_cons in Hx as [->|Hx]; [lia|]. specialize (Hb x Hx). lia.
Qed.

Lemma nack_normal_sorted l : StronglySorted Z.lt (nack_normal l).
Proof.
  apply dedup_sorted. apply StronglySorted_merge_sort; apply _.
Qed.

Lemma nack_normal_elem_of x l : x ∈ nack_normal l ↔ x ∈ l.
Proof. unfold nack_normal. by rewrite dedup_elem_of, merge_sort_Permutation. Qed.

(** The bits of a pair, by [Z.testbit]. *)
Lemma bit_test a i : 0 ≤ i → Z.land (Z.shiftr a i) 1 = 1 ↔ Z.testbit a i = true.
Proof.
  intros Hi. rewrite (Z.land_ones _ 1), Z.shiftr_div_pow2 by lia.
  change (2 ^ 1) with 2. rewrite <- Z.testbit_spec' by done.
  by destruct (Z.testbit a i).
Qed.

(** Setting the next bit of an open pair appends one sequence number. *)
Lemma expand_pair_step pid blp d :
  0 ≤ pid → pid + d < 65536 → 0 < d ≤ 16 → 0 ≤ blp < 2 ^ (d - 1) →
  expand_pair (pid, Z.lor blp (Z.shiftl 1 (d - 1))) = expand_pair (pid, blp) ++ [pid + d].
Proof.
  intros Hpid Hd Hrange Hblp. unfold expand_pair; cbn [fst snd app]. f_equal.
  assert (seqZ 0 16 = seqZ 0 (d - 1) ++ [d - 1] ++ seqZ d (16 - d)) as ->.
  { rewrite <- (seqZ_cons (d - 1) 1) at 1 by lia.
    replace d with (d - 1 + 1) at 3 by lia. rewrite <- seqZ_app by lia.
    replace (d - 1) with (0 + (d - 1)) at 2 by lia. rewrite <- seqZ_app by lia. f_equal. lia. }
  rewrite !filter_app, !fmap_app.
  assert (∀ i, 0 ≤ i → d - 1 ≤ i → Z.testbit blp i = false) as Hhigh.
  { intros i Hi Hdi. destruct (decide (blp = 0)) as [->|]; [apply Z.testbit_0_l|].
    apply Z.bits_above_log2; [lia|]. apply Z.log2_lt_pow2; [lia|].
    eapply Z.lt_le_trans; [apply Hblp|]. apply Z.pow_le_mono_r; lia. }
  assert (∀ i, 0 ≤ i → Z.testbit (Z.lor blp (Z.shiftl 1 (d - 1))) i
               = Z.testbit blp i || (i =? d - 1)) as Hor.
  { intros i Hi. rewrite Z.lor_spec, Z.shiftl_1_l, Z.pow2_bits_eqb by lia.
    by rewrite Z.eqb_sym. }
  rewrite (filter_ext_in _ (λ bit, Z.land (Z.shiftr blp bit) 1 = 1) (seqZ 0 (d - 1))).
  2:{ intros i Hi%elem_of_seqZ. rewrite !bit_test, Hor by lia.
      by rewrite (proj2 (Z.eqb_neq i (d - 1))), orb_false_r by lia. }
  rewrite <- app_assoc. f_equal.
  rewrite filter_cons_True, filter_nil
    by (rewrite bit_test, Hor, Z.eqb_refl, orb_true_r by lia; done).
  rewrite filter_cons_False, filter_nil
    by (rewrite bit_test, Hhigh by lia; done).
  rewrite !filter_none.
  2,3: intros i Hi%elem_of_seqZ; rewrite bit_test, ?Hor, Hhigh by lia; cbn; lia.
  cbn [fmap list_fmap app]. do 2 f_equal. mlia.
Qed.

Lemma blp_step blp d :
  0 < d → 0 ≤ blp < 2 ^ (d - 1) → 0 ≤ Z.lor blp (Z.shiftl 1 (d - 1)) < 2 ^ d.
Proof.
  intros Hd Hb. rewrite Z.shiftl_1_l.
  assert (0 < 2 ^ (d - 1) < 2 ^ d) by (split; [|apply Z.pow_lt_mono_r]; lia).
  apply lor_bound; lia.
Qed.

Lemma expand_pair_0 pid : expand_pair (pid, 0) = [pid].
Proof.
  unfold expand_pair; cbn [fst snd]. rewrite filter_none; [done|].
  intros i Hi%elem_of_seqZ. rewrite bit_test, Z.testbit_0_l by lia. done.
Qed.

(** Running the packing loop on increasing sequence numbers above the open pair. *)
Lemma pack_go_unpack pid blp d seqs :
  0 ≤ pid → 0 ≤ d → 0 ≤ blp < 2 ^ d →
  StronglySorted Z.lt seqs → Forall (λ s, pid + d < s < 65536) seqs →
  unpack_nack_pairs (pack_go pid blp seqs) = expand_pair (pid, blp) ++ seqs.
Proof.
  revert pid blp d. induction seqs as [|s r IH]; intros pid blp d Hpid Hd Hblp Hsort Hall;
    cbn [pack_go].
  { unfold unpack_nack_pairs. cbn -[expand_pair]. done. }
  apply StronglySorted_inv in Hsort as [Hsort Hs].
  apply Forall_cons in Hall as [Hsb Hall].
  assert (wsub16 s pid = s - pid) as -> by (mlia).
  rewrite (proj2 (Z.eqb_neq _ _)) by lia.
  destruct (Z.gtb_spec (s - pid) 16).
  - unfold unpack_nack_pairs in *. rewrite fmap_cons. cbn [concat].
    rewrite (IH s 0 0), expand_pair_0; [done|lia|lia|lia|done|].
    eapply Forall_impl; [apply Forall_and; split; [exact Hs|exact Hall]|]; cbn; lia.
  - assert (2 ^ d ≤ 2 ^ (s - pid - 1)) by (apply Z.pow_le_mono_r; lia).
    rewrite (IH pid _ (s - pid)); [|lia|lia|apply blp_step; lia|done|].
    + rewrite expand_pair_step, <- app_assoc by lia. cbn. do 3 f_equal. lia.
    + eapply Forall_impl; [apply Forall_and; split; [exact Hs|exact Hall]|]; cbn; lia.
Qed.

Lemma nack_normal_u16 packets : Forall u16 packets → Forall u16 (nack_normal packets).
Proof. rewrite !Forall_forall. intros Hu x Hx. apply Hu. by rewrite nack_normal_elem_of in Hx. Qed.

Lemma unpack_pack packets :
  Forall u16 packets →
  unpack_nack_pairs (pack_nack_pairs packets) = nack_normal packets.
Proof.
  intros Hu%nack_normal_u16. unfold pack_nack_pairs. fold (nack_normal packets).
  pose proof (nack_normal_sorted packets) as Hsort.
  destruct (nack_normal packets) as [|pid r]; [done|].
  apply StronglySorted_inv in Hsort as [Hsort Hs]. apply Forall_cons in Hu as [Hp Hu].
  rewrite (pack_go_unpack pid 0 0), expand_pair_0; try done; [ulia|].
  eapply Forall_impl; [apply Forall_and; split; [exact Hs|exact Hu]|]; cbn; ulia.
Qed.

(** The pairs fit their 16-bit fields. *)
Lemma pack_go_u16 pid blp seqs :
  u16 pid → u16 blp → Forall u16 seqs →
  Forall (λ p : Z * Z, u16 p.1 ∧ u16 p.2) (pack_go pid blp seqs).
Proof.
  intros Hp Hb Hs. revert pid blp Hp Hb. induction Hs as [|s r Hs _ IH]; intros; cbn [pack_go].
  { by apply Forall_singleton. }
  set (diff := wsub16 s pid). assert (0 ≤ diff) by (subst diff; mlia).
  destruct (Z.eqb_spec diff 0); [by apply IH|].
  destruct (Z.gtb_spec diff 16); [constructor; [done|]; apply IH; ulia|].
  apply IH; [done|]. apply (lor_bound 16); [done..|].
  rewrite Z.shiftl_1_l. split; [lia|]. apply Z.pow_lt_mono_r; lia.
Qed.

Lemma pack_nack_pairs_u16 packets :
  Forall u16 packets → Forall (λ p : Z * Z, u16 p.1 ∧ u16 p.2) (pack_nack_pairs packets).
Proof.
  intros Hu%nack_normal_u16. unfold pack_nack_pairs. fold (nack_normal packets).
  destruct Hu; [done|]. by apply pack_go_u16.
Qed.

(** Packing sequence numbers into generic NACK pairs and unpacking them
    gives exactly the same set of numbers, in increasing order. *)
Theorem nack_pairs_roundtrip packets (l := unpack_nack_pairs (pack_nack_pairs packets)) :
  Forall u16 packets → StronglySorted Z.lt l ∧ ∀ x, x ∈ l ↔ x ∈ packets.
Proof.
  intros Hu. subst l. rewrite unpack_pack by done.
  split; [apply nack_normal_sorted|]. intros x. apply nack_normal_elem_of.
Qed.

