(* ===== verification/Rtcp.v ===== *)
(** * RTCP packets ([src/rtp.rs], second half)

    The compound RTCP codec: [parse_rtcp_packets] and [marshal_rtcp_packets]
    with the body parsers and builders of every packet type.  Loops over
    [offset] are recursions over the bytes from [offset] on; an out-of-range
    index or slice is [Panic].  NACK lists are in [Nack.v]. *)
From Equations Require Import Equations.
From S2P Require Import Prelude Utf8 BytesCrate Rtp Nack.

Definition RTCP_SR : Z := 200.
Definition RTCP_RR : Z := 201.
Definition RTCP_SDES : Z := 202.
Definition RTCP_BYE : Z := 203.
Definition RTCP_RTPFB : Z := 205.
Definition RTCP_PSFB : Z := 206.
Definition RTCP_XR : Z := 207.
Definition RTCP_RTPFB_NACK : Z := 1.
Definition RTCP_RTPFB_TWCC : Z := 15.
Definition RTCP_PSFB_PLI : Z := 1.
Definition RTCP_PSFB_FIR : Z := 4.
Definition RTCP_PSFB_APP : Z := 15.

Record ReportBlock := {
  rb_ssrc : Z;
  fraction_lost : Z;
  packets_lost : Z;
  highest_sequence : Z;
  rb_jitter : Z;
  last_sender_report : Z;
  delay_since_last_sender_report : Z;
}.

Record SenderReport := {
  sr_sender_ssrc : Z;
  ntp_most : Z;
  ntp_least : Z;
  rtp_timestamp : Z;
  packet_count : Z;
  octet_count : Z;
  sr_report_blocks : list ReportBlock;
}.

Record ReceiverReport := {
  rr_sender_ssrc : Z;
  rr_report_blocks : list ReportBlock;
}.

Record PictureLossIndication := { pli_sender_ssrc : Z; pli_media_ssrc : Z }.
Record FirRequest := { fr_ssrc : Z; fr_sequence_number : Z }.
Record FullIntraRequest := { fir_sender_ssrc : Z; fir_requests : list FirRequest }.

Record GenericNack := {
  nack_sender_ssrc : Z;
  nack_media_ssrc : Z;
  lost_packets : list Z;
}.

Record RemoteBitrateEstimate := {
  remb_sender_ssrc : Z;
  bitrate_bps : Z;
  remb_ssrcs : list Z;
}.

Record TransportWideCc := {
  twcc_sender_ssrc : Z;
  twcc_media_ssrc : Z;
  base_sequence : Z;
  packet_status_count : Z;
  reference_time_64ms : Z;
  feedback_packet_count : Z;
  twcc_payload : list Z;
}.

(** [text] is the UTF-8 bytes of the [String]. *)
Record SdesItem := { item_ty : Z; item_text : list Z }.
Record SdesChunk := { chunk_ssrc : Z; chunk_items : list SdesItem }.
Record SourceDescription := { sdes_chunks : list SdesChunk }.
Record Goodbye := { bye_sources : list Z; bye_reason : option (list Z) }.

Inductive RtcpPacket :=
| RtcpSenderReport (sr : SenderReport)
| RtcpReceiverReport (rr : ReceiverReport)
| RtcpSourceDescription (sd : SourceDescription)
| RtcpGoodbye (bye : Goodbye)
| RtcpPictureLossIndication (pli : PictureLossIndication)
| RtcpFullIntraRequest (fir : FullIntraRequest)
| RtcpGenericNack (nack : GenericNack)
| RtcpRemoteBitrateEstimate (remb : RemoteBitrateEstimate)
| RtcpTransportWideCc (twcc : TransportWideCc).

(** [SenderReport::compact_ntp] *)
Definition compact_ntp (sr : SenderReport) : Z :=
  Z.lor (as_u32 (Z.shiftl (ntp_most sr) 16)) (Z.shiftr (ntp_least sr) 16).

(** ** Parsing *)

Definition parse_report_block (b : list Z) : res RtpError ReportBlock :=
  ssrc ← be_at 4 b 0;
  fraction_lost ← idx b 4;
  b5 ← idx b 5;
  b6 ← idx b 6;
  b7 ← idx b 7;
  let lost := Z.lor (Z.lor (Z.shiftl b5 16) (Z.shiftl b6 8)) b7 in
  let packets_lost := Z.shiftr (as_i32 (Z.shiftl lost 8)) 8 in
  highest_sequence ← be_at 4 b 8;
  jitter ← be_at 4 b 12;
  lsr ← be_at 4 b 16;
  dlsr ← be_at 4 b 20;
  Ok {| rb_ssrc := ssrc; fraction_lost := fraction_lost; packets_lost := packets_lost;
        highest_sequence := highest_sequence; rb_jitter := jitter;
        last_sender_report := lsr; delay_since_last_sender_report := dlsr |}.

(** The loop over report blocks shared by sender and receiver reports. *)
Fixpoint parse_report_blocks (n : nat) (body : list Z) : res RtpError (list ReportBlock) :=
  match n with
  | O => Ok []
  | S n =>
      if (length body <? 24)%nat then Err LengthMismatch else
      b ← slice body 0 24;
      rb ← parse_report_block b;
      rbs ← parse_report_blocks n (drop 24 body);
      Ok (rb :: rbs)
  end.

Definition parse_sender_report (fmt : Z) (body : list Z) : res RtpError SenderReport :=
  if (length body <? 24)%nat then Err (InvalidRtcp "sender report too short") else
  sender_ssrc ← be_at 4 body 0;
  ntp_most ← be_at 4 body 4;
  ntp_least ← be_at 4 body 8;
  rtp_timestamp ← be_at 4 body 12;
  packet_count ← be_at 4 body 16;
  octet_count ← be_at 4 body 20;
  blocks ← parse_report_blocks (Z.to_nat fmt) (drop 24 body);
  Ok {| sr_sender_ssrc := sender_ssrc; ntp_most := ntp_most; ntp_least := ntp_least;
        rtp_timestamp := rtp_timestamp; packet_count := packet_count;
        octet_count := octet_count; sr_report_blocks := blocks |}.

Definition parse_receiver_report (fmt : Z) (body : list Z) : res RtpError ReceiverReport :=
  if (length body <? 4)%nat then Err (InvalidRtcp "receiver report too short") else
  sender_ssrc ← be_at 4 body 0;
  blocks ← parse_report_blocks (Z.to_nat fmt) (drop 4 body);
  Ok {| rr_sender_ssrc := sender_ssrc; rr_report_blocks := blocks |}.

(** The item loop of one SDES chunk; [offset] is the position in the whole
    body, which the end-of-list padding is relative to.  Returns the items and
    the position after the chunk. *)
Fixpoint skip_padding (fuel : nat) (body : list Z) (offset : nat) : nat :=
  match fuel with
  | O => offset
  | S fuel =>
      if (offset mod 4 =? 0)%nat then offset else
      if (length body <=? offset)%nat then offset else
      skip_padding fuel body (offset + 1)
  end.

Fixpoint parse_sdes_items (fuel : nat) (body : list Z) (offset : nat)
    : res RtpError (list SdesItem * nat) :=
  match fuel with
  | O => Ok ([], offset)
  | S fuel =>
      if (length body <=? offset)%nat then Ok ([], offset) else
      ty ← idx body offset;
      let offset := (offset + 1)%nat in
      if ty =? 0 then Ok ([], skip_padding 4 body offset) else
      if (length body <=? offset)%nat then Err PacketTooShort else
      len ← idx body offset;
      let offset := (offset + 1)%nat in
      let len := Z.to_nat len in
      if (length body <? offset + len)%nat then Err PacketTooShort else
      text ← slice body offset (offset + len);
      '(items, offset) ← parse_sdes_items fuel body (offset + len);
      Ok ({| item_ty := ty; item_text := from_utf8_lossy text |} :: items, offset)
  end.

Fixpoint parse_sdes_chunks (n : nat) (body : list Z) (offset : nat)
    : res RtpError (list SdesChunk) :=
  match n with
  | O => Ok []
  | S n =>
      if (length body <? offset + 4)%nat then Err PacketTooShort else
      ssrc ← be_at 4 body offset;
      '(items, offset) ← parse_sdes_items (length body) body (offset + 4);
      chunks ← parse_sdes_chunks n body offset;
      Ok ({| chunk_ssrc := ssrc; chunk_items := items |} :: chunks)
  end.

Definition parse_sdes (count : Z) (body : list Z) : res RtpError SourceDescription :=
  chunks ← parse_sdes_chunks (Z.to_nat count) body 0;
  Ok {| sdes_chunks := chunks |}.

(** [n] big-endian words off the front; used for BYE sources and REMB SSRCs. *)
Fixpoint parse_u32s (e : RtpError) (n : nat) (body : list Z) : res RtpError (list Z * list Z) :=
  match n with
  | O => Ok ([], body)
  | S n =>
      if (length body <? 4)%nat then Err e else
      x ← be_at 4 body 0;
      '(xs, rest) ← parse_u32s e n (drop 4 body);
      Ok (x :: xs, rest)
  end.

Definition parse_goodbye (count : Z) (body : list Z) : res RtpError Goodbye :=
  '(sources, rest) ← parse_u32s PacketTooShort (Z.to_nat count) body;
  reason ←
    (if (0 <? length rest)%nat then
       len ← idx rest 0;
       let len := Z.to_nat len in
       if (length rest <? 1 + len)%nat then Err PacketTooShort else
       text ← slice rest 1 (1 + len);
       Ok (Some (from_utf8_lossy text))
     else Ok None);
  Ok {| bye_sources := sources; bye_reason := reason |}.

Definition parse_psfb_common (body : list Z) : res RtpError PictureLossIndication :=
  if (length body <? 8)%nat then Err (InvalidRtcp "payload feedback body too short") else
  a ← be_at 4 body 0;
  b ← be_at 4 body 4;
  Ok {| pli_sender_ssrc := a; pli_media_ssrc := b |}.

(** [while offset + 8 <= body.len()]: five bytes used, three reserved. *)
Fixpoint parse_fir_requests (body : list Z) : list FirRequest :=
  match body with
  | a :: b :: c :: d :: s :: _ :: _ :: _ :: rest =>
      {| fr_ssrc := of_be [a; b; c; d]; fr_sequence_number := s |} :: parse_fir_requests rest
  | _ => []
  end.

Definition parse_fir_body (body : list Z) : res RtpError FullIntraRequest :=
  if (length body <? 8)%nat then Err (InvalidRtcp "FIR body too short") else
  a ← be_at 4 body 0;
  Ok {| fir_sender_ssrc := a; fir_requests := parse_fir_requests (drop 8 body) |}.

(** [while offset + 4 <= body.len()] *)
Fixpoint parse_nack_pairs (body : list Z) : list (Z * Z) :=
  match body with
  | a :: b :: c :: d :: rest => (of_be [a; b], of_be [c; d]) :: parse_nack_pairs rest
  | _ => []
  end.

Definition parse_nack_body (body : list Z) : res RtpError GenericNack :=
  if (length body <? 8)%nat then Err (InvalidRtcp "NACK body too short") else
  a ← be_at 4 body 0;
  b ← be_at 4 body 4;
  Ok {| nack_sender_ssrc := a; nack_media_ssrc := b;
        lost_packets := unpack_nack_pairs (parse_nack_pairs (drop 8 body)) |}.

(** The bytes of [b"REMB"] *)
Definition REMB : list Z := [0x52; 0x45; 0x4D; 0x42].

Definition parse_remb_body (body : list Z) : res RtpError RemoteBitrateEstimate :=
  if (length body <? 16)%nat then Err (InvalidRtcp "invalid REMB payload") else
  tag ← slice body 8 12;
  if negb (bool_decide (tag = REMB)) then Err (InvalidRtcp "invalid REMB payload") else
  a ← be_at 4 body 0;
  num_ssrc ← idx body 12;
  b13 ← idx body 13;
  b14 ← idx body 14;
  b15 ← idx body 15;
  let exponent := Z.shiftr (Z.land b13 0xFC) 2 in
  let mantissa := Z.lor (Z.lor (Z.shiftl (Z.land b13 0x03) 16) (Z.shiftl b14 8)) b15 in
  let bitrate := as_u64 (Z.shiftl mantissa exponent) in
  '(ssrcs, _) ← parse_u32s LengthMismatch (Z.to_nat num_ssrc) (drop 16 body);
  Ok {| remb_sender_ssrc := a; bitrate_bps := bitrate; remb_ssrcs := ssrcs |}.

Definition parse_twcc_body (body : list Z) : res RtpError TransportWideCc :=
  if (length body <? 16)%nat then Err (InvalidRtcp "TWCC body too short") else
  a ← be_at 4 body 0;
  b ← be_at 4 body 4;
  base ← be_at 2 body 8;
  count ← be_at 2 body 10;
  reference ← be_at 3 body 12;
  fb ← idx body 15;
  payload ← slice body 16 (length body);
  Ok {| twcc_sender_ssrc := a; twcc_media_ssrc := b; base_sequence := base;
        packet_status_count := count; reference_time_64ms := reference;
        feedback_packet_count := fb; twcc_payload := payload |}.

Definition parse_rtcp_rtpfb (fmt : Z) (body : list Z) : res RtpError RtcpPacket :=
  if fmt =? RTCP_RTPFB_NACK then n ← parse_nack_body body; Ok (RtcpGenericNack n) else
  if fmt =? RTCP_RTPFB_TWCC then t ← parse_twcc_body body; Ok (RtcpTransportWideCc t) else
  Err (InvalidRtcp "unsupported RTP feedback format").

Definition parse_rtcp_psfb (fmt : Z) (body : list Z) : res RtpError RtcpPacket :=
  if fmt =? RTCP_PSFB_PLI then p ← parse_psfb_common body; Ok (RtcpPictureLossIndication p) else
  if fmt =? RTCP_PSFB_FIR then f ← parse_fir_body body; Ok (RtcpFullIntraRequest f) else
  if fmt =? RTCP_PSFB_APP then r ← parse_remb_body body; Ok (RtcpRemoteBitrateEstimate r) else
  Err (InvalidRtcp "unsupported payload feedback format").

(** The [match packet_type] of the loop; [None] for types that are skipped
    (extended reports and unknown types). *)
Definition parse_rtcp_one (packet_type fmt : Z) (body : list Z)
    : res RtpError (option RtcpPacket) :=
  if packet_type =? RTCP_SR then
    x ← parse_sender_report fmt body; Ok (Some (RtcpSenderReport x)) else
  if packet_type =? RTCP_RR then
    x ← parse_receiver_report fmt body; Ok (Some (RtcpReceiverReport x)) else
  if packet_type =? RTCP_SDES then
    x ← parse_sdes fmt body; Ok (Some (RtcpSourceDescription x)) else
  if packet_type =? RTCP_BYE then
    x ← parse_goodbye fmt body; Ok (Some (RtcpGoodbye x)) else
  if packet_type =? RTCP_RTPFB then x ← parse_rtcp_rtpfb fmt body; Ok (Some x) else
  if packet_type =? RTCP_PSFB then x ← parse_rtcp_psfb fmt body; Ok (Some x) else
  Ok None.

Equations? parse_rtcp_packets (raw : list Z) : res RtpError (list RtcpPacket)
  by wf (length raw) lt :=
parse_rtcp_packets (vrc :: packet_type :: l0 :: l1 :: rest) :=
  let raw := vrc :: packet_type :: l0 :: l1 :: rest in
  if negb (Z.shiftr vrc 6 =? RTP_VERSION)
  then Err (InvalidRtcp "invalid RTCP version") else
  let padding := negb (Z.land vrc 0x20 =? 0) in
  let fmt := Z.land vrc 0x1F in
  let length_words := Z.to_nat (of_be [l0; l1]) in
  let packet_len := ((length_words + 1) * 4)%nat in
  if (length raw <? packet_len)%nat then Err LengthMismatch else
  let body_len := (packet_len - 4)%nat in
  body_end ←
    (if padding then
       pad ← idx raw (packet_len - 1);
       if (pad =? 0) || (body_len <? Z.to_nat pad)%nat
       then Err (InvalidRtcp "invalid padding in RTCP packet")
       else Ok (packet_len - Z.to_nat pad)%nat
     else Ok packet_len);
  body ← slice raw 4 body_end;
  packet ← parse_rtcp_one packet_type fmt body;
  packets ← parse_rtcp_packets (drop packet_len raw);
  Ok (match packet with Some p => p :: packets | None => packets end);
parse_rtcp_packets _ := Ok [].
Proof. rewrite length_drop. cbn. lia. Qed.

(** ** Building *)

(** [packets_lost.clamp(-(1 << 23), (1 << 23) - 1)] *)
Definition clamp_lost (x : Z) : Z := Z.max (-8388608) (Z.min x 8388607).

Definition build_report_block (b : ReportBlock) : list Z :=
  let clamped := clamp_lost (packets_lost b) in
  let lost_bytes := to_be 4 (Z.land (as_u32 clamped) 0x00FFFFFF) in
  to_be 4 (rb_ssrc b) ++ [fraction_lost b] ++ drop 1 lost_bytes
  ++ to_be 4 (highest_sequence b) ++ to_be 4 (rb_jitter b)
  ++ to_be 4 (last_sender_report b) ++ to_be 4 (delay_since_last_sender_report b).

Definition build_sender_report_body (sr : SenderReport) : res RtpError (list Z) :=
  Ok (to_be 4 (sr_sender_ssrc sr) ++ to_be 4 (ntp_most sr) ++ to_be 4 (ntp_least sr)
      ++ to_be 4 (rtp_timestamp sr) ++ to_be 4 (packet_count sr) ++ to_be 4 (octet_count sr)
      ++ concat (build_report_block <$> sr_report_blocks sr)).

Definition build_receiver_report_body (rr : ReceiverReport) : res RtpError (list Z) :=
  Ok (to_be 4 (rr_sender_ssrc rr) ++ concat (build_report_block <$> rr_report_blocks rr)).

(** [while body.len() % 4 != 0 { body.push(0) }] *)
Fixpoint push_zeros (fuel : nat) (body : list Z) : list Z :=
  match fuel with
  | O => body
  | S fuel => if (length body mod 4 =? 0)%nat then body else push_zeros fuel (body ++ [0])
  end.

Definition build_sdes_item (body : list Z) (i : SdesItem) : list Z :=
  body ++ [item_ty i; as_u8 (Z.of_nat (length (item_text i)))] ++ item_text i.

Definition build_sdes_chunk (body : list Z) (c : SdesChunk) : list Z :=
  let body := body ++ to_be 4 (chunk_ssrc c) in
  let body := foldl build_sdes_item body (chunk_items c) in
  let body := body ++ [0] in
  push_zeros 4 body.

Definition build_sdes_body (sd : SourceDescription) : list Z :=
  foldl build_sdes_chunk [] (sdes_chunks sd).

Definition build_goodbye_body (bye : Goodbye) : list Z :=
  concat (to_be 4 <$> bye_sources bye) ++
  match bye_reason bye with
  | Some reason =>
      let len := Nat.min (length reason) 255 in
      Z.of_nat len :: take len reason
  | None => []
  end.

Definition build_psfb_common (sender_ssrc media_ssrc : Z) : list Z :=
  to_be 4 sender_ssrc ++ to_be 4 media_ssrc.

Definition build_fir_body (fir : FullIntraRequest) : list Z :=
  to_be 4 (fir_sender_ssrc fir) ++ to_be 4 0 ++
  concat ((λ e, to_be 4 (fr_ssrc e) ++ [fr_sequence_number e] ++ [0; 0; 0]) <$> fir_requests fir).

Definition build_nack_body (nack : GenericNack) : res RtpError (list Z) :=
  if (length (lost_packets nack) =? 0)%nat
  then Err (InvalidRtcp "NACK requires at least one packet") else
  Ok (to_be 4 (nack_sender_ssrc nack) ++ to_be 4 (nack_media_ssrc nack) ++
      concat ((λ p : Z * Z, to_be 2 p.1 ++ to_be 2 p.2) <$> pack_nack_pairs (lost_packets nack))).

(** [while mantissa > 0x3FFFF { mantissa >>= 1; exponent += 1 }]; a [u64] needs
    at most 46 turns. *)
Fixpoint remb_scale (fuel : nat) (mantissa exponent : Z) : Z * Z :=
  match fuel with
  | O => (mantissa, exponent)
  | S fuel =>
      if mantissa >? 0x3FFFF
      then remb_scale fuel (Z.shiftr mantissa 1) (exponent + 1)
      else (mantissa, exponent)
  end.

Definition build_remb_body (remb : RemoteBitrateEstimate) : res RtpError (list Z) :=
  if (255 <? length (remb_ssrcs remb))%nat
  then Err (InvalidRtcp "too many REMB SSRC entries") else
  let '(mantissa, exponent) := remb_scale 46 (bitrate_bps remb) 0 in
  let mantissa_u32 := as_u32 mantissa in
  Ok (to_be 4 (remb_sender_ssrc remb) ++ to_be 4 0 ++ REMB
      ++ [as_u8 (Z.of_nat (length (remb_ssrcs remb)));
          Z.lor (as_u8 (Z.shiftl (Z.land exponent 0x3F) 2))
                (Z.land (as_u8 (Z.shiftr mantissa_u32 16)) 0x03);
          Z.land (Z.shiftr mantissa_u32 8) 0xFF;
          Z.land mantissa_u32 0xFF]
      ++ concat (to_be 4 <$> remb_ssrcs remb)).

Definition build_twcc_body (twcc : TransportWideCc) : list Z :=
  to_be 4 (twcc_sender_ssrc twcc) ++ to_be 4 (twcc_media_ssrc twcc)
  ++ to_be 2 (base_sequence twcc) ++ to_be 2 (packet_status_count twcc)
  ++ drop 1 (to_be 4 (Z.land (reference_time_64ms twcc) 0x00FFFFFF))
  ++ [feedback_packet_count twcc] ++ twcc_payload twcc.

Definition write_rtcp_packet (out : list Z) (fmt packet_type : Z) (body : list Z) : list Z :=
  let body := push_zeros 4 body in
  let len := as_u16 (Z.of_nat ((length body + 4) / 4 - 1)) in
  out ++ [Z.lor (Z.shiftl RTP_VERSION 6) (Z.land fmt 0x1F); packet_type] ++ to_be 2 len ++ body.

(** The [match packet] of the loop. *)
Definition marshal_rtcp_one (out : list Z) (packet : RtcpPacket) : res RtpError (list Z) :=
  match packet with
  | RtcpSenderReport sr =>
      body ← build_sender_report_body sr;
      Ok (write_rtcp_packet out (as_u8 (Z.of_nat (length (sr_report_blocks sr)))) RTCP_SR body)
  | RtcpReceiverReport rr =>
      body ← build_receiver_report_body rr;
      Ok (write_rtcp_packet out (as_u8 (Z.of_nat (length (rr_report_blocks rr)))) RTCP_RR body)
  | RtcpSourceDescription sd =>
      Ok (write_rtcp_packet out (as_u8 (Z.of_nat (length (sdes_chunks sd)))) RTCP_SDES
            (build_sdes_body sd))
  | RtcpGoodbye bye =>
      Ok (write_rtcp_packet out (as_u8 (Z.of_nat (length (bye_sources bye)))) RTCP_BYE
            (build_goodbye_body bye))
  | RtcpPictureLossIndication pli =>
      Ok (write_rtcp_packet out RTCP_PSFB_PLI RTCP_PSFB
            (build_psfb_common (pli_sender_ssrc pli) (pli_media_ssrc pli)))
  | RtcpFullIntraRequest fir =>
      Ok (write_rtcp_packet out RTCP_PSFB_FIR RTCP_PSFB (build_fir_body fir))
  | RtcpGenericNack nack =>
      body ← build_nack_body nack;
      Ok (write_rtcp_packet out RTCP_RTPFB_NACK RTCP_RTPFB body)
  | RtcpRemoteBitrateEstimate remb =>
      body ← build_remb_body remb;
      Ok (write_rtcp_packet out RTCP_PSFB_APP RTCP_PSFB body)
  | RtcpTransportWideCc twcc =>
      Ok (write_rtcp_packet out RTCP_RTPFB_TWCC RTCP_RTPFB (build_twcc_body twcc))
  end.

Fixpoint marshal_rtcp_go (out : list Z) (packets : list RtcpPacket) : res RtpError (list Z) :=
  match packets with
  | [] => Ok out
  | p :: ps => out ← marshal_rtcp_one out p; marshal_rtcp_go out ps
  end.

Definition marshal_rtcp_packets (packets : list RtcpPacket) : res RtpError (list Z) :=
  marshal_rtcp_go [] packets.

Example rtcp_compound_example :
  (raw ← marshal_rtcp_packets
     [RtcpSourceDescription {| sdes_chunks := [{| chunk_ssrc := 7;
        chunk_items := [{| item_ty := 1; item_text := [0x61; 0x62; 0x63] |}] |}] |};
      RtcpGenericNack {| nack_sender_ssrc := 5; nack_media_ssrc := 6; lost_packets := [102; 100] |};
      RtcpGoodbye {| bye_sources := [9]; bye_reason := Some [0x78] |};
      RtcpRemoteBitrateEstimate {| remb_sender_ssrc := 1; bitrate_bps := 750001; remb_ssrcs := [2; 3] |}];
   parse_rtcp_packets raw)
  = Ok [RtcpSourceDescription {| sdes_chunks := [{| chunk_ssrc := 7;
          chunk_items := [{| item_ty := 1; item_text := [0x61; 0x62; 0x63] |}] |}] |};
        RtcpGenericNack {| nack_sender_ssrc := 5; nack_media_ssrc := 6; lost_packets := [100; 102] |};
        RtcpGoodbye {| bye_sources := [9]; bye_reason := Some [0x78] |};
        RtcpRemoteBitrateEstimate {| remb_sender_ssrc := 1; bitrate_bps := 750000; remb_ssrcs := [2; 3] |}].
Proof. vm_compute. reflexivity. Qed.
