(* ===== verification/RtcpFacts.v ===== *)
(** * Facts about the RTCP codec

    The parser never aborts, and parsing a marshalled compound packet gives
    back its packets in their canonical form. *)
From Equations Require Import Equations.
From S2P Require Import Prelude Utf8 BytesCrate Rtp Nack Rtcp.

(** ** No input makes the parser abort *)

Lemma parse_report_block_np b : length b = 24%nat → parse_report_block b ≠ Panic.
Proof. intros. unfold parse_report_block. np. Qed.

Lemma parse_report_blocks_np n body : parse_report_blocks n body ≠ Panic.
Proof.
  revert body. induction n as [|n IH]; intros body; cbn [parse_report_blocks]; [done|].
  np. apply parse_report_block_np. autorewrite with wire. lia.
Qed.

Lemma parse_sdes_items_np fuel body off : parse_sdes_items fuel body off ≠ Panic.
Proof.
  revert off. induction fuel as [|fuel IH]; intros off; cbn [parse_sdes_items]; [done|].
  np.
Qed.

Lemma parse_sdes_chunks_np n body off : parse_sdes_chunks n body off ≠ Panic.
Proof.
  revert off. induction n as [|n IH]; intros off; cbn [parse_sdes_chunks]; [done|].
  np. apply parse_sdes_items_np.
Qed.

Lemma parse_u32s_np e n body : parse_u32s e n body ≠ Panic.
Proof.
  revert body. induction n as [|n IH]; intros body; cbn [parse_u32s]; [done|].
  np.
Qed.

#[local] Hint Resolve parse_report_blocks_np parse_sdes_chunks_np parse_u32s_np : wire.

Lemma parse_rtcp_one_np ty fmt body : parse_rtcp_one ty fmt body ≠ Panic.
Proof.
  unfold parse_rtcp_one, parse_sender_report, parse_receiver_report, parse_sdes,
    parse_goodbye, parse_rtcp_rtpfb, parse_rtcp_psfb, parse_nack_body, parse_twcc_body,
    parse_psfb_common, parse_fir_body, parse_remb_body.
  np; auto with wire.
Qed.

Lemma parse_rtcp_packets_np raw : parse_rtcp_packets raw ≠ Panic.
Proof.
  induction raw as [raw IH] using list_len_ind.
  destruct raw as [|vrc [|ty [|l0 [|l1 rest]]]]; simp parse_rtcp_packets; try done.
  cbn zeta. set (raw := vrc :: ty :: l0 :: l1 :: rest) in *.
  set (plen := ((Z.to_nat (of_be [l0; l1]) + 1) * 4)%nat).
  assert (4 ≤ plen)%nat by (subst plen; lia). clearbody plen.
  np_step; [done|]. np_step; [done|].
  apply bind_not_panic; [np|]. intros bend Hbend.
  assert (4 ≤ bend ≤ plen)%nat.
  { destruct (negb (Z.land vrc 0x20 =? 0)); res_inv; lia. }
  np; [apply parse_rtcp_one_np|]. apply IH. rewrite length_drop. lia.
Qed.

(** ** Well-formed packets and their canonical form *)

Record wf_block (b : ReportBlock) : Prop := {
  wfb_ssrc : u32 (rb_ssrc b);
  wfb_fraction : u8 (fraction_lost b);
  wfb_lost : i32 (packets_lost b);
  wfb_highest : u32 (highest_sequence b);
  wfb_jitter : u32 (rb_jitter b);
  wfb_lsr : u32 (last_sender_report b);
  wfb_dlsr : u32 (delay_since_last_sender_report b);
}.

Definition normal_block (b : ReportBlock) : ReportBlock := {|
  rb_ssrc := rb_ssrc b; fraction_lost := fraction_lost b;
  packets_lost := clamp_lost (packets_lost b);
  highest_sequence := highest_sequence b; rb_jitter := rb_jitter b;
  last_sender_report := last_sender_report b;
  delay_since_last_sender_report := delay_since_last_sender_report b |}.

Lemma push_zeros_pad body : push_zeros 4 body = body ++ replicate (pad4 (length body)) 0.
Proof.
  assert (∀ fuel b, (pad4 (length b) < fuel)%nat →
    push_zeros fuel b = b ++ replicate (pad4 (length b)) 0) as Haux.
  { induction fuel as [|fuel IH]; intros b Hb; [lia|]. cbn [push_zeros].
    destruct (Nat.eqb_spec (length b mod 4) 0) as [Hz|Hz].
    - by rewrite pad4_aligned, app_nil_r.
    - assert (pad4 (length b) = S (pad4 (length (b ++ [0])))) as Hp.
      { rewrite length_app. cbn [length]. unfold pad4. rewrite (Nat.Div0.add_mod _ 1).
        pose proof (Nat.mod_upper_bound (length b) 4).
        by destruct (length b mod 4)%nat as [|[|[|[|]]]]; [..|lia]. }
      rewrite IH, Hp, <- app_assoc by lia. done. }
  apply Haux. apply pad4_lt.
Qed.

Lemma drop1_to_be n x : drop 1 (to_be (S n) x) = to_be n x.
Proof. Transparent to_be. cbn. Opaque to_be. by rewrite drop_0. Qed.

Lemma length_report_block b : length (build_report_block b) = 24%nat.
Proof. unfold build_report_block. rewrite drop1_to_be. by autorewrite with wire. Qed.

Lemma lost_roundtrip x (y := clamp_lost x) (u := Z.land (as_u32 y) 0x00FFFFFF) :
  Z.shiftr (as_i32 (Z.shiftl (Z.lor (Z.lor (Z.shiftl ((u / 65536) mod 256) 16)
    (Z.shiftl ((u / 256) mod 256) 8)) (u mod 256)) 8)) 8 = y.
Proof.
  assert (-8388608 ≤ y ≤ 8388607) as Hy by (subst y; unfold clamp_lost; lia).
  assert (u = y mod 16777216) as Hu.
  { subst u. rewrite (Z.land_ones _ 24) by lia. change (2 ^ 24) with 16777216. mlia. }
  clearbody u. rewrite lor_bytes3 by mlia.
  rewrite Z.shiftl_mul_pow2, Z.shiftr_div_pow2 by lia.
  change (2 ^ 8) with 256. mlia.
Qed.

Lemma parse_build_block b :
  wf_block b → parse_report_block (build_report_block b) = Ok (normal_block b).
Proof.
  intros []. unfold parse_report_block, build_report_block. rewrite drop1_to_be, to_be_3.
  fields. rewrite lost_roundtrip, !of_be_to_be_32 by done. done.
Qed.

Lemma parse_build_blocks bs rest :
  Forall wf_block bs →
  parse_report_blocks (length bs) (concat (build_report_block <$> bs) ++ rest)
  = Ok (normal_block <$> bs).
Proof.
  induction 1 as [|b bs Hb _ IH]; [done|]. rewrite !fmap_cons.
  cbn [concat length parse_report_blocks]. rewrite <- app_assoc.
  rewrite (proj2 (Nat.ltb_ge _ _)) by (rewrite length_app, length_report_block; lia).
  rewrite slice_app_hd by apply length_report_block. run.
  rewrite parse_build_block by done. run.
  rewrite drop_app_length' by (by rewrite length_report_block). by rewrite IH.
Qed.

(** ** One packet in a compound packet *)

Lemma header_byte fmt :
  0 ≤ fmt < 32 →
  let b := Z.lor (Z.shiftl RTP_VERSION 6) (Z.land fmt 0x1F) in
  Z.shiftr b 6 = 2 ∧ Z.land b 0x20 = 0 ∧ Z.land b 0x1F = fmt.
Proof.
  intros Hf b. enough ((Z.shiftr b 6 =? 2) && (Z.land b 0x20 =? 0) && (Z.land b 0x1F =? fmt)
    || (32 <=? fmt) = true) as Ht.
  { rewrite orb_true_iff, !andb_true_iff in Ht.
    destruct Ht as [((?%Z.eqb_eq & ?%Z.eqb_eq) & ?%Z.eqb_eq)|]; [done|lia]. }
  subst b. byte_check fmt; [by vm_compute|ulia].
Qed.

Lemma parse_written_packet fmt ty body rest :
  0 ≤ fmt < 32 → Z.of_nat (length body) ≤ 262140 →
  parse_rtcp_packets (write_rtcp_packet [] fmt ty body ++ rest) =
  (p ← parse_rtcp_one ty fmt (push_zeros 4 body);
   ps ← parse_rtcp_packets rest;
   Ok (match p with Some p => p :: ps | None => ps end)).
Proof.
  intros Hfmt Hlen. unfold write_rtcp_packet. rewrite push_zeros_pad.
  set (pb := body ++ replicate (pad4 (length body)) 0).
  assert (length pb mod 4 = 0)%nat as Hmod.
  { subst pb. rewrite length_app, length_replicate. apply pad4_mult. }
  assert (Z.of_nat (length pb) ≤ 262140) as Hpb.
  { subst pb. rewrite length_app, length_replicate in *.
    pose proof (pad4_lt (length body)).
    assert (Z.of_nat (length body + pad4 (length body)) mod 4 = 0) by lia. lia. }
  clearbody pb.
  set (w := ((length pb + 4) / 4 - 1)%nat).
  assert (length pb = w * 4)%nat as Hw by (subst w; mlia).
  assert (u16 (Z.of_nat w)) as Hw16 by ulia.
  assert (∃ l0 l1, to_be 2 (as_u16 (Z.of_nat w)) = [l0; l1] ∧ of_be [l0; l1] = Z.of_nat w)
    as (l0 & l1 & Hl & Hl').
  { pose proof (length_to_be 2 (as_u16 (Z.of_nat w))) as Hl2.
    destruct (to_be 2 (as_u16 (Z.of_nat w))) as [|l0 [|l1 [|]]] eqn:He; try done.
    exists l0, l1. split; [done|]. rewrite <- He, of_be_to_be_16; mlia. }
  clearbody w. rewrite Hl. cbn [app]. simp parse_rtcp_packets. cbn zeta.
  destruct (header_byte fmt Hfmt) as (-> & -> & ->). cbn [Z.eqb RTP_VERSION negb Pos.eqb].
  rewrite Hl', Nat2Z.id.
  rewrite (proj2 (Nat.ltb_ge _ _)) by (cbn [length]; rewrite length_app; lia). run.
  rewrite slice_ok by (cbn [length]; rewrite ?length_app; lia). run.
  replace (take ((w + 1) * 4 - 4) _) with pb.
  2:{ cbn [drop]. rewrite drop_0. symmetry. apply take_app_length'. lia. }
  destruct (parse_rtcp_one ty fmt pb) as [p| |]; [|done..]. run.
  replace (drop ((w + 1) * 4) _) with rest; [done|].
  replace ((w + 1) * 4)%nat with (S (S (S (S (length pb))))) by lia.
  cbn [drop]. by rewrite drop_app_length.
Qed.

(** ** Canonical forms *)

Definition remb_value (bps : Z) : Z :=
  let '(m, e) := remb_scale 46 bps 0 in Z.shiftl m e.

Definition normal_sr (sr : SenderReport) : SenderReport := {|
  sr_sender_ssrc := sr_sender_ssrc sr; ntp_most := ntp_most sr; ntp_least := ntp_least sr;
  rtp_timestamp := rtp_timestamp sr; packet_count := packet_count sr;
  octet_count := octet_count sr; sr_report_blocks := normal_block <$> sr_report_blocks sr |}.

Definition normal_rr (rr : ReceiverReport) : ReceiverReport := {|
  rr_sender_ssrc := rr_sender_ssrc rr;
  rr_report_blocks := normal_block <$> rr_report_blocks rr |}.

Definition normal_nack (n : GenericNack) : GenericNack := {|
  nack_sender_ssrc := nack_sender_ssrc n; nack_media_ssrc := nack_media_ssrc n;
  lost_packets := nack_normal (lost_packets n) |}.

Definition normal_remb (r : RemoteBitrateEstimate) : RemoteBitrateEstimate := {|
  remb_sender_ssrc := remb_sender_ssrc r; bitrate_bps := remb_value (bitrate_bps r);
  remb_ssrcs := remb_ssrcs r |}.

Definition normal_twcc (t : TransportWideCc) : TransportWideCc := {|
  twcc_sender_ssrc := twcc_sender_ssrc t; twcc_media_ssrc := twcc_media_ssrc t;
  base_sequence := base_sequence t; packet_status_count := packet_status_count t;
  reference_time_64ms := reference_time_64ms t;
  feedback_packet_count := feedback_packet_count t;
  twcc_payload := twcc_payload t ++ replicate (pad4 (length (twcc_payload t))) 0 |}.

(** What a packet looks like after the wire: losses clamped to 24 bits, NACK
    lists increasing, bit rates rounded to a mantissa and exponent, and a TWCC
    payload padded to 32 bits. *)
Definition rtcp_normal (p : RtcpPacket) : RtcpPacket :=
  match p with
  | RtcpSenderReport sr => RtcpSenderReport (normal_sr sr)
  | RtcpReceiverReport rr => RtcpReceiverReport (normal_rr rr)
  | RtcpGenericNack n => RtcpGenericNack (normal_nack n)
  | RtcpRemoteBitrateEstimate r => RtcpRemoteBitrateEstimate (normal_remb r)
  | RtcpTransportWideCc t => RtcpTransportWideCc (normal_twcc t)
  | RtcpSourceDescription _ | RtcpGoodbye _ | RtcpPictureLossIndication _
  | RtcpFullIntraRequest _ => p
  end.

Record wf_item (i : SdesItem) : Prop := {
  wfi_ty : u8 (item_ty i) ∧ item_ty i ≠ 0;
  wfi_len : (length (item_text i) ≤ 255)%nat;
  wfi_text : valid_utf8 (item_text i) = true;
}.

Definition wf_chunk (c : SdesChunk) : Prop :=
  u32 (chunk_ssrc c) ∧ Forall wf_item (chunk_items c).

(** The ranges of the Rust types, the 5-bit counters of the header and the
    16-bit length field. *)
Definition wf_rtcp (p : RtcpPacket) : Prop :=
  match p with
  | RtcpSenderReport sr =>
      u32 (sr_sender_ssrc sr) ∧ u32 (ntp_most sr) ∧ u32 (ntp_least sr) ∧
      u32 (rtp_timestamp sr) ∧ u32 (packet_count sr) ∧ u32 (octet_count sr) ∧
      Forall wf_block (sr_report_blocks sr) ∧ (length (sr_report_blocks sr) ≤ 31)%nat
  | RtcpReceiverReport rr =>
      u32 (rr_sender_ssrc rr) ∧ Forall wf_block (rr_report_blocks rr) ∧
      (length (rr_report_blocks rr) ≤ 31)%nat
  | RtcpSourceDescription sd =>
      Forall wf_chunk (sdes_chunks sd) ∧ (length (sdes_chunks sd) ≤ 31)%nat ∧
      Z.of_nat (length (build_sdes_body sd)) ≤ 262140
  | RtcpGoodbye b =>
      Forall u32 (bye_sources b) ∧ (length (bye_sources b) ≤ 31)%nat ∧
      match bye_reason b with
      | Some r => (length r ≤ 255)%nat ∧ valid_utf8 r = true
      | None => True
      end
  | RtcpPictureLossIndication p => u32 (pli_sender_ssrc p) ∧ u32 (pli_media_ssrc p)
  | RtcpFullIntraRequest f =>
      u32 (fir_sender_ssrc f) ∧
      Forall (λ r, u32 (fr_ssrc r) ∧ u8 (fr_sequence_number r)) (fir_requests f) ∧
      Z.of_nat (length (fir_requests f)) ≤ 32766
  | RtcpGenericNack n =>
      u32 (nack_sender_ssrc n) ∧ u32 (nack_media_ssrc n) ∧ Forall u16 (lost_packets n) ∧
      lost_packets n ≠ [] ∧ Z.of_nat (length (pack_nack_pairs (lost_packets n))) ≤ 65533
  | RtcpRemoteBitrateEstimate r =>
      u32 (remb_sender_ssrc r) ∧ u64 (bitrate_bps r) ∧ Forall u32 (remb_ssrcs r) ∧
      (length (remb_ssrcs r) ≤ 255)%nat
  | RtcpTransportWideCc t =>
      u32 (twcc_sender_ssrc t) ∧ u32 (twcc_media_ssrc t) ∧ u16 (base_sequence t) ∧
      u16 (packet_status_count t) ∧ u24 (reference_time_64ms t) ∧
      u8 (feedback_packet_count t) ∧ Z.of_nat (length (twcc_payload t)) ≤ 262124
  end.

(** A packet as header fields and body, the common part of the marshalling
    branches. *)
Definition rtcp_parts (p : RtcpPacket) : res RtpError (Z * Z * list Z) :=
  match p with
  | RtcpSenderReport sr =>
      b ← build_sender_report_body sr;
      Ok (as_u8 (Z.of_nat (length (sr_report_blocks sr))), RTCP_SR, b)
  | RtcpReceiverReport rr =>
      b ← build_receiver_report_body rr;
      Ok (as_u8 (Z.of_nat (length (rr_report_blocks rr))), RTCP_RR, b)
  | RtcpSourceDescription sd =>
      Ok (as_u8 (Z.of_nat (length (sdes_chunks sd))), RTCP_SDES, build_sdes_body sd)
  | RtcpGoodbye bye =>
      Ok (as_u8 (Z.of_nat (length (bye_sources bye))), RTCP_BYE, build_goodbye_body bye)
  | RtcpPictureLossIndication p =>
      Ok (RTCP_PSFB_PLI, RTCP_PSFB, build_psfb_common (pli_sender_ssrc p) (pli_media_ssrc p))
  | RtcpFullIntraRequest f => Ok (RTCP_PSFB_FIR, RTCP_PSFB, build_fir_body f)
  | RtcpGenericNack n => b ← build_nack_body n; Ok (RTCP_RTPFB_NACK, RTCP_RTPFB, b)
  | RtcpRemoteBitrateEstimate r => b ← build_remb_body r; Ok (RTCP_PSFB_APP, RTCP_PSFB, b)
  | RtcpTransportWideCc t => Ok (RTCP_RTPFB_TWCC, RTCP_RTPFB, build_twcc_body t)
  end.

Lemma write_rtcp_packet_app out fmt ty b :
  write_rtcp_packet out fmt ty b = out ++ write_rtcp_packet [] fmt ty b.
Proof. done. Qed.

Lemma marshal_rtcp_one_parts out p :
  marshal_rtcp_one out p =
  ('(fmt, ty, b) ← rtcp_parts p; Ok (write_rtcp_packet out fmt ty b)).
Proof.
  destruct p; cbn; try done.
  - by destruct (build_nack_body nack).
  - by destruct (build_remb_body remb).
Qed.

(** What the round trip of one packet needs. *)
Definition one_ok (p : RtcpPacket) : Prop :=
  ∃ fmt ty body, rtcp_parts p = Ok (fmt, ty, body) ∧ 0 ≤ fmt < 32 ∧
    Z.of_nat (length body) ≤ 262140 ∧
    parse_rtcp_one ty fmt (push_zeros 4 body) = Ok (Some (rtcp_normal p)).

Lemma length_concat_blocks bs :
  length (concat (build_report_block <$> bs)) = (24 * length bs)%nat.
Proof.
  induction bs as [|b bs IH]; [done|]. rewrite fmap_cons. cbn [concat length].
  rewrite length_app, length_report_block, IH. lia.
Qed.

(** The body parsers on the bodies the builders write, followed by padding. *)

Ltac size_ok := rewrite (proj2 (Nat.ltb_ge _ _)) by (rewrite ?length_app, ?length_to_be; cbn; lia).

Lemma parse_build_sr sr b z :
  wf_rtcp (RtcpSenderReport sr) → build_sender_report_body sr = Ok b →
  parse_sender_report (Z.of_nat (length (sr_report_blocks sr))) (b ++ z) = Ok (normal_sr sr).
Proof.
  intros (?&?&?&?&?&?&Hb&Hn) [= <-]. unfold parse_sender_report. rewrite <- !app_assoc.
  size_ok. fields. drops. rewrite Nat2Z.id, parse_build_blocks by done. run.
  by rewrite !of_be_to_be_32 by done.
Qed.

Lemma parse_build_rr rr b z :
  wf_rtcp (RtcpReceiverReport rr) → build_receiver_report_body rr = Ok b →
  parse_receiver_report (Z.of_nat (length (rr_report_blocks rr))) (b ++ z) = Ok (normal_rr rr).
Proof.
  intros (?&Hb&Hn) [= <-]. unfold parse_receiver_report. rewrite <- !app_assoc.
  size_ok. fields. drops. rewrite Nat2Z.id, parse_build_blocks by done. run.
  by rewrite !of_be_to_be_32 by done.
Qed.

Lemma parse_build_u32s e xs z :
  Forall u32 xs →
  parse_u32s e (length xs) (concat (to_be 4 <$> xs) ++ z) = Ok (xs, z).
Proof.
  induction 1 as [|x xs Hx _ IH]; [done|]. rewrite fmap_cons.
  cbn [concat length parse_u32s]. rewrite <- app_assoc. size_ok. fields. drops.
  rewrite IH. run. by rewrite of_be_to_be_32.
Qed.

Lemma parse_build_bye bye z :
  wf_rtcp (RtcpGoodbye bye) → (bye_reason bye = None → z = []) →
  parse_goodbye (Z.of_nat (length (bye_sources bye))) (build_goodbye_body bye ++ z) = Ok bye.
Proof.
  destruct bye as [src [r|]]; intros (Hs & Hn & Hr) Hz; cbn in *.
  - destruct Hr as [Hlen Hval]. unfold parse_goodbye, build_goodbye_body; cbn [bye_sources bye_reason].
    rewrite <- app_assoc, Nat2Z.id, parse_build_u32s by done. run.
    rewrite Nat.min_l, take_ge by lia. cbn [app length]. change (0 <? S _)%nat with true. cbn iota.
    rewrite idx_hd. run. rewrite Nat2Z.id.
    rewrite (proj2 (Nat.ltb_ge _ _)) by (rewrite length_app; lia).
    change (1 + length r)%nat with (S (length r)). rewrite slice_tl, slice_app_hd by done. run.
    by rewrite from_utf8_lossy_valid.
  - rewrite (Hz eq_refl), app_nil_r. unfold parse_goodbye, build_goodbye_body; cbn [bye_sources bye_reason].
    rewrite Nat2Z.id, parse_build_u32s by done. done.
Qed.

Lemma parse_build_psfb a b z :
  u32 a → u32 b →
  parse_psfb_common (build_psfb_common a b ++ z) = Ok {| pli_sender_ssrc := a; pli_media_ssrc := b |}.
Proof.
  intros. unfold parse_psfb_common, build_psfb_common. rewrite <- app_assoc.
  size_ok. fields. by rewrite !of_be_to_be_32 by done.
Qed.

Lemma parse_build_fir_requests rs z :
  Forall (λ r, u32 (fr_ssrc r) ∧ u8 (fr_sequence_number r)) rs → (length z < 8)%nat →
  parse_fir_requests (concat ((λ e, to_be 4 (fr_ssrc e) ++ [fr_sequence_number e]
    ++ [0; 0; 0]) <$> rs) ++ z) = rs.
Proof.
  intros Hrs Hz. induction Hrs as [|r rs [Hr Hs] _ IH].
  - do 8 (destruct z as [|? z]; [done|]). cbn in Hz. lia.
  - rewrite fmap_cons. cbn [concat]. rewrite <- app_assoc.
    pose proof (length_to_be 4 (fr_ssrc r)) as Hl.
    destruct (to_be 4 (fr_ssrc r)) as [|a [|b [|c [|d [|]]]]] eqn:He; try done.
    cbn [app parse_fir_requests]. rewrite <- He, of_be_to_be_32 by done.
    f_equal; [by destruct r|exact IH].
Qed.

Lemma parse_build_fir f z :
  wf_rtcp (RtcpFullIntraRequest f) → (length z < 8)%nat →
  parse_fir_body (build_fir_body f ++ z) = Ok f.
Proof.
  intros (?&Hr&?) Hz. unfold parse_fir_body, build_fir_body. rewrite <- !app_assoc.
  size_ok. fields. drops. rewrite parse_build_fir_requests by done.
  rewrite of_be_to_be_32 by done. by destruct f.
Qed.

Lemma parse_build_pairs ps z :
  Forall (λ p : Z * Z, u16 p.1 ∧ u16 p.2) ps → (length z < 4)%nat →
  parse_nack_pairs (concat ((λ p : Z * Z, to_be 2 p.1 ++ to_be 2 p.2) <$> ps) ++ z) = ps.
Proof.
  intros Hps Hz. induction Hps as [|[p q] ps [Hp Hq] _ IH].
  - do 4 (destruct z as [|? z]; [done|]). cbn in Hz. lia.
  - rewrite fmap_cons. cbn [concat fst snd] in *. rewrite <- !app_assoc.
    pose proof (length_to_be 2 p) as Hl. pose proof (length_to_be 2 q) as Hl'.
    destruct (to_be 2 p) as [|a [|b [|]]] eqn:Ha; try done.
    destruct (to_be 2 q) as [|c [|d [|]]] eqn:Hc; try done.
    cbn [app parse_nack_pairs]. rewrite <- Ha, <- Hc, !of_be_to_be_16 by done. f_equal. exact IH.
Qed.

Lemma parse_build_nack n b z :
  wf_rtcp (RtcpGenericNack n) → build_nack_body n = Ok b → (length z < 4)%nat →
  parse_nack_body (b ++ z) = Ok (normal_nack n).
Proof.
  intros (?&?&Hl&Hne&Hlen) Hb Hz. unfold build_nack_body in Hb. res_inv.
  unfold parse_nack_body. rewrite <- !app_assoc. size_ok. fields. drops.
  rewrite parse_build_pairs, unpack_pack by (try done; by apply pack_nack_pairs_u16).
  by rewrite !of_be_to_be_32 by done.
Qed.

(** The REMB mantissa loop stops within its fuel: the mantissa fits 18 bits and
    was halved no more often than needed. *)
Lemma remb_scale_spec fuel m e :
  0 ≤ m < 2 ^ (18 + Z.of_nat fuel) →
  ∃ k, 0 ≤ k ≤ Z.of_nat fuel ∧ remb_scale fuel m e = (m / 2 ^ k, e + k) ∧
    0 ≤ m / 2 ^ k < 2 ^ 18 ∧ (k = 0 ∨ 2 ^ 17 ≤ m / 2 ^ k).
Proof.
  revert m e. induction fuel as [|fuel IH]; intros m e Hm; cbn [remb_scale].
  { exists 0. rewrite Z.div_1_r, Z.add_0_r. split_and!; try done; lia. }
  destruct (Z.gtb_spec m 0x3FFFF) as [Hbig|Hsmall].
  - rewrite Z.shiftr_div_pow2 by lia. change (2 ^ 1) with 2.
    destruct (IH (m / 2) (e + 1)) as (k & Hk & -> & Hr & Hp).
    { rewrite Nat2Z.inj_succ, <- Z.add_1_r, Z.add_assoc, Z.pow_add_r in Hm by lia.
      split; [apply Z.div_pos; lia|]. apply Z.div_lt_upper_bound; lia. }
    exists (1 + k). rewrite Z.pow_add_r, <- Z.div_div by lia. change (2 ^ 1) with 2.
    split_and!; try lia; [f_equal; lia|]. right. destruct Hp as [->|?]; [|done].
    rewrite Z.div_1_r. change (2 ^ 17) with 131072. mlia.
  - exists 0. rewrite Z.div_1_r, Z.add_0_r. change (2 ^ 18) with 262144.
    split_and!; try done; lia.
Qed.

Lemma remb_scale_u64 bps :
  u64 bps →
  ∃ m e, remb_scale 46 bps 0 = (m, e) ∧ 0 ≤ e ≤ 46 ∧ 0 ≤ m < 2 ^ 18 ∧
    m = bps / 2 ^ e ∧ (e = 0 ∨ 2 ^ 17 ≤ m).
Proof.
  intros Hb. destruct (remb_scale_spec 46 bps 0) as (k & ? & -> & ? & ?).
  { exact Hb. }
  eexists _, _. split; [done|]. rewrite Z.add_0_l. done.
Qed.

Lemma remb_fields m e (b13 := Z.lor (as_u8 (Z.shiftl (Z.land e 0x3F) 2))
                                    (Z.land (as_u8 (Z.shiftr (as_u32 m) 16)) 0x03)) :
  0 ≤ e < 64 → 0 ≤ m < 2 ^ 18 →
  Z.shiftr (Z.land b13 0xFC) 2 = e ∧
  Z.lor (Z.lor (Z.shiftl (Z.land b13 0x03) 16) (Z.shiftl (Z.land (Z.shiftr (as_u32 m) 8) 0xFF) 8))
    (Z.land (as_u32 m) 0xFF) = m.
Proof.
  intros He Hm. change (2 ^ 18) with 262144 in Hm.
  assert (as_u32 m = m) as Hm32 by mlia.
  assert (b13 = e * 4 + m / 65536) as Hb.
  { subst b13. rewrite Hm32, (Z.land_ones _ 6), (Z.land_ones _ 2) by lia.
    rewrite Z.shiftr_div_pow2 by lia. change (2 ^ 6) with 64. change (2 ^ 2) with 4.
    rewrite (Z.mod_small e), (Z.mod_small (as_u8 _)) by mlia.
    replace (as_u8 (Z.shiftl e 2)) with (Z.shiftl e 2)
      by (rewrite Z.shiftl_mul_pow2 by lia; mlia).
    rewrite lor_shiftl_add by mlia. mlia. }
  assert (u8 b13) as Hb8 by mlia.
  assert (Z.shiftr (Z.land b13 0xFC) 2 = b13 / 4) as ->.
  { apply Z.eqb_eq. clearbody b13. byte_check b13; [by vm_compute|done]. }
  split; [mlia|]. rewrite Hm32, (Z.land_ones _ 2), !(Z.land_ones _ 8) by lia.
  rewrite Z.shiftr_div_pow2 by lia. change (2 ^ 2) with 4. change (2 ^ 8) with 256.
  rewrite lor_bytes3 by mlia. rewrite Hb. mlia.
Qed.

Lemma parse_build_remb r b z :
  wf_rtcp (RtcpRemoteBitrateEstimate r) → build_remb_body r = Ok b →
  parse_remb_body (b ++ z) = Ok (normal_remb r).
Proof.
  intros (?&Hbps&?&Hlen) Hb. unfold normal_remb, remb_value. unfold build_remb_body in Hb.
  destruct (remb_scale_u64 _ Hbps) as (m & e & Hs & He & Hm & Hdiv & _).
  rewrite Hs in Hb |- *. res_inv. unfold parse_remb_body. rewrite <- !app_assoc.
  size_ok. fields. rewrite slice_ok by (cbn; lia). run.
  rewrite bool_decide_true by done. run. fields. drops.
  replace (Z.to_nat (as_u8 (Z.of_nat (length (remb_ssrcs r))))) with (length (remb_ssrcs r)) by mlia.
  cbn [drop app]. rewrite drop_0, parse_build_u32s by done. run.
  destruct (remb_fields _ e ltac:(lia) Hm) as [-> ->].
  rewrite of_be_to_be_32 by done. do 2 f_equal.
  rewrite Z.shiftl_mul_pow2 by lia. pose proof (Z.pow_pos_nonneg 2 e).
  pose proof (Z.mul_div_le (bitrate_bps r) (2 ^ e)). apply Z.mod_small. unfold u64 in *. nia.
Qed.

Lemma parse_build_twcc t z :
  wf_rtcp (RtcpTransportWideCc t) → z = replicate (pad4 (length (twcc_payload t))) 0 →
  parse_twcc_body (build_twcc_body t ++ z) = Ok (normal_twcc t).
Proof.
  intros (?&?&?&?&Href&?&?) ->. unfold parse_twcc_body, build_twcc_body.
  rewrite (Z.land_ones _ 24), drop1_to_be, <- !app_assoc by lia. size_ok. fields.
  match goal with |- (slice ?p 0 ?n ≫= _) = _ => change n with (length p) end.
  rewrite slice_ok by lia. run. rewrite drop_0, Nat.sub_0_r, firstn_all.
  rewrite (Z.mod_small _ (2 ^ 24)) by exact Href.
  by rewrite !of_be_to_be_32, !of_be_to_be_16, of_be_to_be_24 by done.
Qed.

(** ** Source descriptions *)

Definition item_bytes (i : SdesItem) : list Z :=
  [item_ty i; as_u8 (Z.of_nat (length (item_text i)))] ++ item_text i.

Definition chunk_bytes (c : SdesChunk) : list Z :=
  let b := to_be 4 (chunk_ssrc c) ++ concat (item_bytes <$> chunk_items c) ++ [0] in
  b ++ replicate (pad4 (length b)) 0.

Lemma pad4_succ n : (n mod 4 ≠ 0)%nat → pad4 n = S (pad4 (n + 1)).
Proof.
  intros Hn. unfold pad4. rewrite (Nat.Div0.add_mod _ 1).
  pose proof (Nat.mod_upper_bound n 4).
  by destruct (n mod 4)%nat as [|[|[|[|]]]]; [..|lia].
Qed.

Lemma foldl_items body items :
  foldl build_sdes_item body items = body ++ concat (item_bytes <$> items).
Proof.
  revert body. induction items as [|i items IH]; intros body; cbn [foldl].
  - by rewrite app_nil_r.
  - rewrite IH, fmap_cons. cbn [concat]. by rewrite app_assoc.
Qed.

Lemma build_sdes_chunk_app body c :
  (length body mod 4 = 0)%nat → build_sdes_chunk body c = body ++ chunk_bytes c.
Proof.
  intros Hb. unfold build_sdes_chunk, chunk_bytes. rewrite foldl_items, push_zeros_pad.
  rewrite <- !app_assoc, (length_app body), pad4_add by done. done.
Qed.

Lemma chunk_bytes_aligned c : (length (chunk_bytes c) mod 4 = 0)%nat.
Proof. unfold chunk_bytes. rewrite length_app, length_replicate. apply pad4_mult. Qed.

Lemma build_sdes_body_chunks body cs :
  (length body mod 4 = 0)%nat →
  foldl build_sdes_chunk body cs = body ++ concat (chunk_bytes <$> cs) ∧
  (length (body ++ concat (chunk_bytes <$> cs)) mod 4 = 0)%nat.
Proof.
  revert body. induction cs as [|c cs IH]; intros body Hb; cbn [foldl].
  - by rewrite app_nil_r.
  - rewrite build_sdes_chunk_app by done. rewrite fmap_cons. cbn [concat].
    rewrite app_assoc. apply IH.
    rewrite length_app, Nat.Div0.add_mod, Hb, chunk_bytes_aligned. done.
Qed.

Lemma skip_padding_pad body off :
  (off + pad4 off ≤ length body)%nat → skip_padding 4 body off = (off + pad4 off)%nat.
Proof.
  assert (∀ fuel off, (pad4 off < fuel)%nat → (off + pad4 off ≤ length body)%nat →
    skip_padding fuel body off = (off + pad4 off)%nat) as Haux.
  { clear off. induction fuel as [|fuel IH]; intros off Hf Hl; [lia|]. cbn [skip_padding].
    destruct (Nat.eqb_spec (off mod 4) 0) as [Hz|Hz]; [rewrite pad4_aligned by done; lia|].
    rewrite pad4_succ in * by done.
    rewrite (proj2 (Nat.leb_gt _ _)), IH by lia. lia. }
  apply Haux. apply pad4_lt.
Qed.

Lemma item_reads {E} pre i tail (body := pre ++ item_bytes i ++ tail) :
  @idx E body (length pre) = Ok (item_ty i) ∧
  @idx E body (length pre + 1) = Ok (as_u8 (Z.of_nat (length (item_text i)))) ∧
  @slice E Z body (length pre + 1 + 1) (length pre + 1 + 1 + length (item_text i)) = Ok (item_text i).
Proof.
  subst body. split_and!.
  - by rewrite (idx_next pre _ _ 0) by lia.
  - by rewrite (idx_next pre _ _ 1) by lia.
  - rewrite (slice_next pre _ _ _ 2 (2 + length (item_text i))) by lia.
    cbn [item_bytes app Nat.add]. by rewrite !slice_tl, slice_app_hd.
Qed.

Lemma parse_build_items fuel pre items post :
  (length items < fuel)%nat → Forall wf_item items →
  let body := pre ++ concat (item_bytes <$> items) ++ 0 :: post in
  parse_sdes_items fuel body (length pre) =
  Ok (items, skip_padding 4 body (length pre + length (concat (item_bytes <$> items)) + 1)).
Proof.
  intros Hf Hwf body. subst body. revert pre fuel Hf.
  induction Hwf as [|i items [[Ht Hnz] Hlen Hval] _ IH]; intros pre [|fuel] Hf;
    try (cbn in Hf; lia); cbn [parse_sdes_items].
  - cbn [fmap list_fmap concat app length].
    rewrite (proj2 (Nat.leb_gt _ _)) by (rewrite length_app; cbn; lia).
    rewrite (idx_next pre _ (length pre) 0) by lia. rewrite idx_hd. run. cbn [Z.eqb]. by rewrite Nat.add_0_r.
  - rewrite fmap_cons. cbn [concat]. rewrite <- app_assoc.
    specialize (IH (pre ++ item_bytes i) fuel ltac:(cbn in Hf; lia)).
    rewrite <- !app_assoc, length_app in IH.
    set (tail := concat (item_bytes <$> items) ++ 0 :: post) in *.
    set (body := pre ++ item_bytes i ++ tail) in *.
    assert (length body = length pre + (2 + length (item_text i)) + length tail)%nat as Hbl.
    { subst body. unfold item_bytes. rewrite !length_app. cbn. lia. }
    destruct (@item_reads RtpError pre i tail) as (R0 & R1 & R2). fold body in R0, R1, R2.
    rewrite (proj2 (Nat.leb_gt _ _)), R0 by lia. run.
    rewrite (proj2 (Z.eqb_neq _ _)), (proj2 (Nat.leb_gt _ _)), R1 by (done || lia). run.
    replace (Z.to_nat (as_u8 (Z.of_nat (length (item_text i))))) with (length (item_text i)) by mlia.
    rewrite (proj2 (Nat.ltb_ge _ _)), R2 by lia. run.
    rewrite from_utf8_lossy_valid by done.
    replace (length pre + length (item_bytes i))%nat
      with (length pre + 1 + 1 + length (item_text i))%nat in IH
      by (unfold item_bytes; rewrite length_app; cbn; lia).
    rewrite IH. run. do 2 f_equal; [by destruct i|]. f_equal.
    rewrite length_app. unfold item_bytes at 2. cbn [app length]. lia.
Qed.

Lemma length_items items : (length items ≤ length (concat (item_bytes <$> items)))%nat.
Proof.
  induction items as [|i items IH]; [done|]. rewrite fmap_cons. cbn [concat].
  rewrite length_app. unfold item_bytes at 1. cbn. lia.
Qed.

(** One chunk at an aligned position of the body. *)
Lemma parse_build_chunk pre c rest (body := pre ++ chunk_bytes c ++ rest) :
  (length pre mod 4 = 0)%nat → wf_chunk c →
  @be_at RtpError 4 body (length pre) = Ok (chunk_ssrc c) ∧
  parse_sdes_items (length body) body (length pre + 4) =
    Ok (chunk_items c, (length pre + length (chunk_bytes c))%nat).
Proof.
  intros Hp [Hs Hi].
  set (items := concat (item_bytes <$> chunk_items c)). set (ssrc := to_be 4 (chunk_ssrc c)).
  assert (length ssrc = 4%nat) as Hsl by apply length_to_be.
  set (pad := pad4 (length (ssrc ++ items ++ [0]))).
  assert (body = (pre ++ ssrc) ++ items ++ 0 :: (replicate pad 0 ++ rest)) as Hbody.
  { subst body. unfold chunk_bytes. fold items. rewrite <- !app_assoc. done. }
  assert (length (chunk_bytes c) = 4 + length items + 1 + pad)%nat as Hcl.
  { unfold chunk_bytes. fold items ssrc pad. rewrite !length_app, length_replicate. cbn. lia. }
  assert (length body = length pre + length (chunk_bytes c) + length rest)%nat as Hbl.
  { subst body. rewrite !length_app. lia. }
  pose proof (length_items (chunk_items c)) as Hil. fold items in Hil.
  split.
  - rewrite Hbody, <- app_assoc, (be_at_next 4 pre _ _ 0), be_at_hd by (lia || done).
    subst ssrc. by rewrite of_be_to_be_32.
  - assert (pad4 (length pre + 4 + length items + 1) = pad) as Hpad.
    { subst pad. rewrite <- !Nat.add_assoc, pad4_add by done. rewrite !length_app. f_equal; cbn; lia. }
    pose proof (parse_build_items (length body) (pre ++ ssrc) (chunk_items c)
      (replicate pad 0 ++ rest) ltac:(lia) Hi) as Hparse. cbn zeta in Hparse.
    fold items in Hparse. rewrite <- Hbody, length_app, Hsl, skip_padding_pad in Hparse by lia.
    rewrite Hparse, Hpad. do 2 f_equal. lia.
Qed.

Lemma parse_build_chunks pre cs :
  (length pre mod 4 = 0)%nat → Forall wf_chunk cs →
  parse_sdes_chunks (length cs) (pre ++ concat (chunk_bytes <$> cs)) (length pre) = Ok cs.
Proof.
  intros Hp Hwf. revert pre Hp.
  induction Hwf as [|c cs Hc _ IH]; intros pre Hp; [done|].
  rewrite fmap_cons. cbn [concat length parse_sdes_chunks].
  specialize (IH (pre ++ chunk_bytes c)). rewrite <- app_assoc, length_app in IH.
  specialize (IH ltac:(by rewrite Nat.Div0.add_mod, Hp, chunk_bytes_aligned)).
  destruct (parse_build_chunk pre c (concat (chunk_bytes <$> cs))) as [-> ->]; [done..|].
  rewrite (proj2 (Nat.ltb_ge _ _)).
  - run. rewrite IH. run. by destruct c.
  - unfold chunk_bytes. rewrite !length_app, length_to_be. lia.
Qed.

Lemma parse_build_sdes sd :
  Forall wf_chunk (sdes_chunks sd) →
  parse_sdes (Z.of_nat (length (sdes_chunks sd))) (build_sdes_body sd) = Ok sd ∧
  (length (build_sdes_body sd) mod 4 = 0)%nat.
Proof.
  intros Hwf. unfold parse_sdes, build_sdes_body.
  destruct (build_sdes_body_chunks [] (sdes_chunks sd)) as [-> Hl]; [done|].
  split; [|done]. rewrite Nat2Z.id, (parse_build_chunks []) by done. run. by destruct sd.
Qed.

(** ** Every well-formed packet survives the wire *)

Lemma count_u8 n : (n ≤ 31)%nat → as_u8 (Z.of_nat n) = Z.of_nat n.
Proof. intros. mlia. Qed.

Lemma length_concat_const {A} (f : A → list Z) n (l : list A) :
  (∀ x, length (f x) = n) → length (concat (f <$> l)) = (n * length l)%nat.
Proof.
  intros Hf. induction l as [|x l IH]; [cbn; lia|]. rewrite fmap_cons. cbn [concat length].
  rewrite length_app, Hf, IH. lia.
Qed.

Lemma one_ok_intro p fmt ty body :
  rtcp_parts p = Ok (fmt, ty, body) → 0 ≤ fmt < 32 → Z.of_nat (length body) ≤ 262140 →
  (∀ z, z = replicate (pad4 (length body)) 0 → (length z < 4)%nat →
    parse_rtcp_one ty fmt (body ++ z) = Ok (Some (rtcp_normal p))) →
  one_ok p.
Proof.
  intros Hp Hf Hl Hparse. exists fmt, ty, body. rewrite push_zeros_pad.
  split; [done|]. split; [done|]. split; [done|]. apply Hparse; [done|]. rewrite length_replicate. apply pad4_lt.
Qed.

Ltac select_type :=
  unfold parse_rtcp_one, parse_rtcp_rtpfb, parse_rtcp_psfb;
  cbn [RTCP_SR RTCP_RR RTCP_SDES RTCP_BYE RTCP_RTPFB RTCP_PSFB RTCP_RTPFB_NACK RTCP_RTPFB_TWCC
       RTCP_PSFB_PLI RTCP_PSFB_FIR RTCP_PSFB_APP Z.eqb Pos.eqb].

Lemma sr_ok sr : wf_rtcp (RtcpSenderReport sr) → one_ok (RtcpSenderReport sr).
Proof.
  intros Hwf. pose proof Hwf as (_&_&_&_&_&_&_&Hn). eapply one_ok_intro; [done|..].
  - rewrite count_u8; lia.
  - rewrite !length_app, !length_to_be, length_concat_blocks. lia.
  - intros z _ _. rewrite count_u8 by done. select_type.
    by erewrite parse_build_sr.
Qed.

Lemma rr_ok rr : wf_rtcp (RtcpReceiverReport rr) → one_ok (RtcpReceiverReport rr).
Proof.
  intros Hwf. pose proof Hwf as (_&_&Hn). eapply one_ok_intro; [done|..].
  - rewrite count_u8; lia.
  - rewrite !length_app, !length_to_be, length_concat_blocks. lia.
  - intros z _ _. rewrite count_u8 by done.
    select_type.
    by erewrite parse_build_rr.
Qed.

Lemma sd_ok sd : wf_rtcp (RtcpSourceDescription sd) → one_ok (RtcpSourceDescription sd).
Proof.
  intros Hwf. destruct Hwf as (Hc & Hn & Hl). destruct (parse_build_sdes sd Hc) as [Hp Ha].
  eapply one_ok_intro; [done|rewrite count_u8; lia|done|]. intros z -> _.
  rewrite pad4_aligned, app_nil_r, count_u8 by done. select_type. by rewrite Hp.
Qed.

Lemma bye_ok bye : wf_rtcp (RtcpGoodbye bye) → one_ok (RtcpGoodbye bye).
Proof.
  intros Hwf. pose proof Hwf as (Hs & Hn & Hr). eapply one_ok_intro; [done|rewrite count_u8; lia|..].
  - unfold build_goodbye_body. rewrite length_app, (length_concat_const _ 4) by apply length_to_be.
    destruct (bye_reason bye); cbn [length]; rewrite ?length_take; lia.
  - intros z -> _. rewrite count_u8 by done. select_type. rewrite parse_build_bye; [done..|].
    intros Hnone. unfold build_goodbye_body. rewrite Hnone, app_nil_r, pad4_aligned; [done|].
    rewrite (length_concat_const _ 4) by apply length_to_be.
    by rewrite Nat.mul_comm, Nat.Div0.mod_mul.
Qed.

Lemma pli_ok pli : wf_rtcp (RtcpPictureLossIndication pli) → one_ok (RtcpPictureLossIndication pli).
Proof.
  intros Hwf. destruct Hwf as [? ?]. eapply one_ok_intro; [done|done| |].
  - unfold build_psfb_common. rewrite length_app, !length_to_be. lia.
  - intros z _ _. select_type. rewrite parse_build_psfb by done. by destruct pli.
Qed.

Lemma fir_ok fir : wf_rtcp (RtcpFullIntraRequest fir) → one_ok (RtcpFullIntraRequest fir).
Proof.
  intros Hwf. pose proof Hwf as (_&_&Hn). eapply one_ok_intro; [done|done| |].
  - unfold build_fir_body. rewrite !length_app, !length_to_be, (length_concat_const _ 8); [lia|].
    intros. rewrite !length_app, length_to_be. done.
  - intros z _ ?. select_type. by rewrite parse_build_fir by (done || lia).
Qed.

Lemma nack_ok nack : wf_rtcp (RtcpGenericNack nack) → one_ok (RtcpGenericNack nack).
Proof.
  intros Hwf. pose proof Hwf as (_&_&_&Hne&Hn). destruct (build_nack_body nack) as [b| |] eqn:Hb.
  2,3: by unfold build_nack_body in Hb; destruct (lost_packets nack).
  eapply one_ok_intro; [cbn; by rewrite Hb|done| |].
  - unfold build_nack_body in Hb. res_inv.
    rewrite !length_app, !length_to_be, (length_concat_const _ 4); [lia|].
    intros. by rewrite length_app, !length_to_be.
  - intros z _ ?. select_type. by rewrite (parse_build_nack nack).
Qed.

Lemma remb_ok remb : wf_rtcp (RtcpRemoteBitrateEstimate remb) → one_ok (RtcpRemoteBitrateEstimate remb).
Proof.
  intros Hwf. pose proof Hwf as (_&_&_&Hn). destruct (build_remb_body remb) as [b| |] eqn:Hb.
  2,3: unfold build_remb_body in Hb; rewrite (proj2 (Nat.ltb_ge _ _)) in Hb by done;
    by destruct (remb_scale _ _ _).
  eapply one_ok_intro; [cbn; by rewrite Hb|done| |].
  - unfold build_remb_body in Hb. destruct (remb_scale _ _ _). res_inv.
    rewrite !length_app, !length_to_be. cbn [length app REMB].
    rewrite (length_concat_const _ 4) by apply length_to_be. lia.
  - intros z _ ?. select_type. by rewrite (parse_build_remb remb).
Qed.

Lemma twcc_ok twcc : wf_rtcp (RtcpTransportWideCc twcc) → one_ok (RtcpTransportWideCc twcc).
Proof.
  intros Hwf. pose proof Hwf as (_&_&_&_&_&_&Hn). eapply one_ok_intro; [done|done| |].
  - unfold build_twcc_body. rewrite drop1_to_be, !length_app, !length_to_be. cbn [length]. lia.
  - intros z -> _. select_type. rewrite parse_build_twcc; [done..|].
    unfold build_twcc_body. rewrite drop1_to_be, !length_app, !length_to_be. cbn [length].
    f_equal. rewrite !Nat.add_assoc. by rewrite pad4_add.
Qed.

#[local] Hint Resolve sr_ok rr_ok sd_ok bye_ok pli_ok fir_ok nack_ok remb_ok twcc_ok : wire.

Lemma wf_rtcp_one_ok p : wf_rtcp p → one_ok p.
Proof. destruct p; auto with wire. Qed.

Lemma marshal_rtcp_go_parse out ps :
  Forall wf_rtcp ps →
  ∃ raw, marshal_rtcp_go out ps = Ok (out ++ raw) ∧ parse_rtcp_packets raw = Ok (rtcp_normal <$> ps).
Proof.
  intros Hwf. revert out. induction Hwf as [|p ps Hp _ IH]; intros out; cbn [marshal_rtcp_go].
  { exists []. by rewrite app_nil_r. }
  destruct (wf_rtcp_one_ok p Hp) as (fmt & ty & body & Hparts & Hf & Hl & Hone).
  rewrite marshal_rtcp_one_parts, Hparts. run.
  rewrite write_rtcp_packet_app.
  destruct (IH (out ++ write_rtcp_packet [] fmt ty body)) as (raw & -> & Hraw).
  exists (write_rtcp_packet [] fmt ty body ++ raw). split; [by rewrite <- app_assoc|].
  rewrite parse_written_packet, Hone by done. run. by rewrite Hraw.
Qed.

(** C2: A compound RTCP datagram built by marshal_rtcp_packets from any list of
    well-formed packets is parsed by parse_rtcp_packets to the same packets, up
    to the normal form the wire imposes on each (rtcp_normal). *)
Theorem rtcp_roundtrip ps :
  Forall wf_rtcp ps →
  (raw ← marshal_rtcp_packets ps; parse_rtcp_packets raw) = Ok (rtcp_normal <$> ps).
Proof.
  intros Hwf. unfold marshal_rtcp_packets.
  destruct (marshal_rtcp_go_parse [] ps Hwf) as (raw & -> & Hraw). exact Hraw.
Qed.

Definition sample_block : ReportBlock := {|
  rb_ssrc := 0xCAFEBABE; fraction_lost := 12; packets_lost := -9000000;
  highest_sequence := 70000; rb_jitter := 33; last_sender_report := 0x12345678;
  delay_since_last_sender_report := 65536 |}.

(** A compound packet with one packet of every kind. *)
Definition sample_compound : list RtcpPacket := [
  RtcpSenderReport {| sr_sender_ssrc := 1; ntp_most := 2; ntp_least := 3; rtp_timestamp := 4;
    packet_count := 5; octet_count := 6; sr_report_blocks := [sample_block; sample_block] |};
  RtcpReceiverReport {| rr_sender_ssrc := 7; rr_report_blocks := [sample_block] |};
  RtcpSourceDescription {| sdes_chunks := [
    {| chunk_ssrc := 7; chunk_items := [{| item_ty := 1; item_text := [0x61; 0xC3; 0xA9] |};
                                        {| item_ty := 2; item_text := [] |}] |};
    {| chunk_ssrc := 8; chunk_items := [] |}] |};
  RtcpGoodbye {| bye_sources := [9; 10]; bye_reason := Some [0x6F; 0x6B] |};
  RtcpPictureLossIndication {| pli_sender_ssrc := 1; pli_media_ssrc := 2 |};
  RtcpFullIntraRequest {| fir_sender_ssrc := 1;
    fir_requests := [{| fr_ssrc := 5; fr_sequence_number := 255 |}] |};
  RtcpGenericNack {| nack_sender_ssrc := 1; nack_media_ssrc := 2;
    lost_packets := [65535; 3; 1; 3; 40] |};
  RtcpRemoteBitrateEstimate {| remb_sender_ssrc := 1; bitrate_bps := 2500001;
    remb_ssrcs := [3; 4] |};
  RtcpTransportWideCc {| twcc_sender_ssrc := 1; twcc_media_ssrc := 2; base_sequence := 100;
    packet_status_count := 3; reference_time_64ms := 0xABCDEF; feedback_packet_count := 9;
    twcc_payload := [0x20; 3; 1; 2; 3] |}].

Lemma rtcp_roundtrip_witness :
  (raw ← marshal_rtcp_packets sample_compound; parse_rtcp_packets raw)
  = Ok (rtcp_normal <$> sample_compound).
Proof.
  apply rtcp_roundtrip.
  assert (wf_block sample_block) by (split; unfold_ints; cbn; lia).
  repeat constructor; unfold_ints; cbn; try lia; try done.
Defined.

(** parse_rtcp_packets returns a result on every byte string: no index or
    slice of it goes out of bounds. *)
Theorem rtcp_parse_no_panic raw : parse_rtcp_packets raw ≠ Panic.
Proof. apply parse_rtcp_packets_np. Qed.

(** The scaled mantissa determines the exponent. *)
Lemma remb_scale_unique m e k :
  0 ≤ e → 0 ≤ k → 2 ^ 17 ≤ m < 2 ^ 18 → 2 ^ 17 ≤ m * 2 ^ e / 2 ^ k < 2 ^ 18 → k = e.
Proof.
  intros He Hk Hm Hd. destruct (Z.lt_trichotomy k e) as [Hlt|[?|Hlt]]; [exfalso|done|exfalso].
  - replace e with (k + (1 + (e - k - 1))) in Hd by lia.
    rewrite Z.pow_add_r, (Z.mul_comm m), <- Z.mul_assoc, (Z.mul_comm (2 ^ k)), Z.div_mul in Hd
      by (try apply Z.pow_nonzero; lia).
    rewrite Z.pow_add_r in Hd by lia. pose proof (Z.pow_pos_nonneg 2 (e - k - 1)). nia.
  - replace k with (e + (1 + (k - e - 1))) in Hd by lia.
    rewrite Z.pow_add_r, <- Z.div_div, Z.div_mul in Hd
      by (try apply Z.pow_nonzero; try apply Z.pow_pos_nonneg; lia).
    assert (m / 2 ^ (1 + (k - e - 1)) < 2 ^ 17); [|lia].
    apply Z.div_lt_upper_bound; [apply Z.pow_pos_nonneg; lia|].
    rewrite Z.pow_add_r by lia. pose proof (Z.pow_pos_nonneg 2 (k - e - 1)). nia.
Qed.

(** The bit rate a REMB message carries (mantissa and exponent as
    build_remb_body computes them) is at most the requested one, within one part
    in 2^17 of it, and is carried unchanged when encoded again. *)
Theorem remb_precision bps (v := remb_value bps) :
  u64 bps → v ≤ bps ∧ (bps - v) * 2 ^ 17 < Z.max bps 1 ∧ remb_value v = v.
Proof.
  intros Hb. subst v. unfold remb_value at 1 2 4 5.
  destruct (remb_scale_u64 bps Hb) as (m & e & -> & He & Hm & Hdiv & Hbig).
  rewrite Z.shiftl_mul_pow2 by lia. pose proof (Z.pow_pos_nonneg 2 e) as Hpos.
  pose proof (Z.mul_div_le bps (2 ^ e)). pose proof (Z.mul_succ_div_gt bps (2 ^ e)).
  unfold u64 in Hb. split; [nia|]. split.
  - destruct Hbig as [->|?]; [rewrite Z.div_1_r in Hdiv; lia|nia].
  - unfold remb_value. destruct (remb_scale_u64 (m * 2 ^ e)) as (m' & k & -> & Hk & Hm' & Hdiv' & Hbig').
    { unfold u64. nia. }
    rewrite Z.shiftl_mul_pow2 by lia. subst m'.
    destruct Hbig' as [->|Hbig']; [by rewrite Z.div_1_r, Z.mul_1_r|].
    destruct Hbig as [->|Hbig].
    + rewrite Z.mul_1_r in *. assert (m / 2 ^ k ≤ m / 2 ^ 1 ∨ k = 0) as [Hle| ->];
        [|pose proof (Z.div_lt m 2)|by rewrite Z.div_1_r, Z.mul_1_r].
      * destruct (decide (k = 0)); [by right|left]. apply Z.div_le_compat_l; [lia|].
        split; [done|]. apply Z.pow_le_mono_r; lia.
      * change (2 ^ 1) with 2 in *. exfalso.
        assert (m / 2 < 2 ^ 17) by (apply Z.div_lt_upper_bound; lia). lia.
    + rewrite (remb_scale_unique m e k) by lia.
      by rewrite Z.div_mul by (apply Z.pow_nonzero; lia).
Qed.

