(* ===== verification/Rtx.v ===== *)
(** * RTX retransmission ([src/rtx.rs])

    Wrapping a primary packet into an RFC 4588 retransmission packet and back,
    and the payload-type associations carried in SDP attributes. *)
From stdpp Require Import sorting sets.
From S2P Require Import Prelude BytesCrate Rtp BTree Str.

Record RtxSenderConfig := { rtx_ssrc : Z; rtx_payload_type : Z }.

(** [sdp::Attribute] *)
Record Attribute := { key : str; value : option str }.

#[export] Instance Attribute_eq_dec : EqDecision Attribute.
Proof. solve_decision. Defined.

Definition set_marker (m : bool) (h : RtpHeader) : RtpHeader := {|
  marker := m; payload_type := payload_type h; sequence_number := sequence_number h;
  timestamp := timestamp h; ssrc := ssrc h; csrcs := csrcs h; extension := extension h |}.

Section wrap.
Context `{BytesCrate}.

Definition wrap_rtx_packet (original : RtpPacket) (config : RtxSenderConfig)
    (rtx_sequence_number : Z) : RtpPacket :=
  let pl := put_u16 [] (sequence_number (header original)) in
  let pl := put_slice pl (payload original) in
  let h := RtpHeader_new (rtx_payload_type config) rtx_sequence_number
             (timestamp (header original)) (rtx_ssrc config) in
  {| header := set_marker (marker (header original)) h; payload := pl; padding_len := 0 |}.

Definition unwrap_rtx_packet (rtx : RtpPacket) (primary_ssrc primary_payload_type : Z)
    : res Empty_set (option RtpPacket) :=
  if (length (payload rtx) <? 2)%nat then Ok None else
  osn ← be_at 2 (payload rtx) 0;
  let h := RtpHeader_new primary_payload_type osn (timestamp (header rtx)) primary_ssrc in
  rest ← or_panic (bytes_slice (payload rtx) 2 (length (payload rtx)));
  Ok (Some {| header := set_marker (marker (header rtx)) h; payload := rest; padding_len := 0 |}).
End wrap.

Definition encode_osn (osn : Z) : list Z := to_be 2 osn.

Definition decode_osn (pl : list Z) : res Empty_set (option Z) :=
  if (length pl <? 2)%nat then Ok None else osn ← be_at 2 pl 0; Ok (Some osn).

(** ** Payload-type associations *)

(** The loop over the parameters: the first one with the prefix decides. *)
Fixpoint parse_apt_parts (parts : list str) : option Z :=
  match parts with
  | [] => None
  | part :: parts =>
      let part := trim part in
      match (match strip_prefix (lit "apt=") part with
             | Some r => Some r
             | None => strip_prefix (lit "APT=") part
             end) with
      | Some r => parse_uint 256 (trim r)
      | None => parse_apt_parts parts
      end
  end.

(** [';'] is 59, [' '] is 32 *)
Definition parse_apt (fmtp : str) : option Z := parse_apt_parts (split_char 59 fmtp).

(** One turn of the attribute loop; [splitn(2, ' ')] gives two pieces exactly
    when there is a blank. *)
Definition apt_step (map : list (Z * Z)) (kv : str * option str) : list (Z * Z) :=
  if negb (bool_decide (kv.1 = lit "fmtp")) then map else
  match kv.2 with
  | None => map
  | Some val =>
      match split_once 32 val with
      | None => map
      | Some (pt_str, fmtp) =>
          match parse_uint 256 pt_str with
          | None => map
          | Some pt =>
              match parse_apt fmtp with
              | Some primary => bt_insert pt primary map
              | None => map
              end
          end
      end
  end.

Definition extract_rtx_apt_map (attributes : list (str * option str)) : list (Z * Z) :=
  foldl apt_step [] attributes.

Definition extract_rtx_apt_map_from_attrs (attrs : list Attribute) : list (Z * Z) :=
  extract_rtx_apt_map ((λ a, (key a, value a)) <$> attrs).

(** [(96u8..=127).find(|pt| !used.contains(pt))] *)
Definition allocate_rtx_payload_type (used : list Z) : option Z :=
  head (filter (λ pt, pt ∉ used) (seqZ 96 32)).

Definition append_rtx_to_section (formats : list str) (attributes : list Attribute)
    (primary_pt rtx_pt clock_rate : Z) : list str * list Attribute :=
  let rtx_pt_str := show_uint rtx_pt in
  let formats := if bool_decide (rtx_pt_str ∈ formats) then formats
                 else formats ++ [rtx_pt_str] in
  let rtpmap := show_uint rtx_pt ++ lit " rtx/" ++ show_uint clock_rate in
  let already := bool_decide (Exists (λ a, key a = lit "rtpmap" ∧ value a = Some rtpmap) attributes) in
  let attributes :=
    if already then attributes else
    attributes ++ [{| key := lit "rtpmap"; value := Some rtpmap |};
                   {| key := lit "fmtp";
                      value := Some (show_uint rtx_pt ++ lit " apt=" ++ show_uint primary_pt) |}] in
  (formats, attributes).

(** [find_map] in key order *)
Fixpoint rtx_pt_for_primary (apt_map : list (Z * Z)) (primary_pt : Z) : option Z :=
  match apt_map with
  | [] => None
  | (rtx_pt, primary) :: m =>
      if primary =? primary_pt then Some rtx_pt else rtx_pt_for_primary m primary_pt
  end.

(** ** Wrapping *)

(** What a receiver recovers: the media, without CSRCs, extensions and padding. *)
Definition primary_view (p : RtpPacket) : RtpPacket :=
  let h := header p in
  {| header := set_marker (marker h)
       (RtpHeader_new (payload_type h) (sequence_number h) (timestamp h) (ssrc h));
     payload := payload p; padding_len := 0 |}.

Section wrap_facts.
Context `{BytesCrate, !BytesLaws}.

Lemma wrap_payload p c n :
  payload (wrap_rtx_packet p c n) = to_be 2 (sequence_number (header p)) ++ payload p.
Proof. unfold wrap_rtx_packet. cbn. autorewrite with crate. done. Qed.

Lemma wrap_wf p c n :
  wf_packet p → u16 n → u32 (rtx_ssrc c) → 0 ≤ rtx_payload_type c < 128 →
  wf_packet (wrap_rtx_packet p c n).
Proof.
  intros [[] Hpl _] Hn Hs Hpt. split; [split; cbn; try done; lia| |done].
  rewrite wrap_payload. auto with wire.
Qed.

Lemma unwrap_wrap p c n :
  u16 (sequence_number (header p)) →
  unwrap_rtx_packet (wrap_rtx_packet p c n) (ssrc (header p)) (payload_type (header p))
  = Ok (Some (primary_view p)).
Proof.
  intros Hs. unfold unwrap_rtx_packet. rewrite wrap_payload.
  rewrite (proj2 (Nat.ltb_ge _ _)) by (rewrite length_app, length_to_be; lia).
  fields. rewrite bytes_slice_spec, decide_True by (rewrite length_app, length_to_be; lia). run.
  rewrite of_be_to_be_16, length_app, length_to_be, drop_app_length', take_ge
    by (done || rewrite ?length_to_be; lia). done.
Qed.

(** C24: A media packet wrapped as an RTX packet, marshalled, parsed and
    unwrapped with the primary SSRC and payload type gives back the media packet
    without its CSRCs, extension and padding. *)
Theorem rtx_recovers_media p c n :
  wf_packet p → u16 n → u32 (rtx_ssrc c) → 0 ≤ rtx_payload_type c < 128 →
  ∃ raw rtx,
    RtpPacket_marshal (wrap_rtx_packet p c n) = Ok raw ∧ RtpPacket_parse raw = Ok rtx ∧
    unwrap_rtx_packet rtx (ssrc (header p)) (payload_type (header p)) = Ok (Some (primary_view p)).
Proof.
  intros Hp Hn Hs Hpt. pose proof (wrap_wf p c n Hp Hn Hs Hpt) as Hw.
  eexists _, _. rewrite marshal_ok, parse_packet_bytes by done. split; [done|]. split; [done|].
  apply unwrap_wrap, Hp.
Qed.
End wrap_facts.

Lemma rtx_recovers_media_witness :
  ∃ raw rtx,
    @RtpPacket_marshal vec_crate (@wrap_rtx_packet vec_crate sample_packet
      {| rtx_ssrc := 7; rtx_payload_type := 97 |} 65535) = Ok raw ∧
    @RtpPacket_parse vec_crate raw = Ok rtx ∧
    @unwrap_rtx_packet vec_crate rtx 0x12345678 96 = Ok (Some (primary_view sample_packet)).
Proof.
  apply (@rtx_recovers_media vec_crate vec_laws sample_packet); [apply wf_sample_packet|done..].
Defined.

(** ** Associations *)

Lemma parse_apt_line primary_pt :
  u8 primary_pt → parse_apt (lit "apt=" ++ show_uint primary_pt) = Some primary_pt.
Proof.
  intros Hp. pose proof (show_uint_digits primary_pt ltac:(ulia)) as Hd.
  unfold parse_apt. rewrite split_char_none.
  2:{ apply Forall_app. split; [by repeat constructor|].
      eapply Forall_impl; [exact Hd|]. unfold digit. cbn. lia. }
  cbn [parse_apt_parts]. rewrite trim_none.
  2:{ apply Forall_app. split; [by repeat constructor|].
      eapply Forall_impl; [exact Hd|]. intros. by apply digit_not_blank. }
  rewrite strip_prefix_app, trim_none.
  2:{ eapply Forall_impl; [exact Hd|]. intros. by apply digit_not_blank. }
  apply parse_show_uint; ulia.
Qed.

Lemma apt_step_rtpmap m v : apt_step m (lit "rtpmap", v) = m.
Proof. done. Qed.

Lemma apt_step_line m rtx_pt primary_pt :
  u8 rtx_pt → u8 primary_pt →
  apt_step m (lit "fmtp", Some (show_uint rtx_pt ++ lit " apt=" ++ show_uint primary_pt))
  = bt_insert rtx_pt primary_pt m.
Proof.
  intros Hr Hp. unfold apt_step; cbn [fst snd]. rewrite bool_decide_true by done. cbn [negb].
  change (lit " apt=") with (32 :: lit "apt="). rewrite <- app_comm_cons, split_once_app.
  2:{ eapply Forall_impl; [apply show_uint_digits; ulia|]. unfold digit. cbn. lia. }
  rewrite parse_show_uint, parse_apt_line by ulia. done.
Qed.

Lemma apt_step_wf m kv : bt_wf m → bt_wf (apt_step m kv).
Proof. intros. unfold apt_step. repeat case_match; auto using bt_insert_wf. Qed.

Lemma extract_wf attrs : bt_wf (extract_rtx_apt_map attrs).
Proof.
  unfold extract_rtx_apt_map. assert (bt_wf (V:=Z) []) as Hwf by constructor.
  revert Hwf. generalize (@nil (Z * Z)). induction attrs as [|kv attrs IH]; intros m Hm; cbn; [done|].
  apply IH, apt_step_wf, Hm.
Qed.

Lemma rtx_pt_for_primary_spec m pt primary_pt :
  bt_wf m → bt_get pt m = Some primary_pt →
  ∃ pt', rtx_pt_for_primary m primary_pt = Some pt' ∧ bt_get pt' m = Some primary_pt.
Proof.
  induction m as [|[k v] m IH]; [done|]. intros [Hm Hall]%bt_wf_cons. cbn.
  destruct (Z.eqb_spec v primary_pt) as [->|Hne].
  { exists k. by rewrite Z.eqb_refl. }
  destruct (Z.eqb_spec pt k); [naive_solver|]. intros (pt' & ? & Hg)%IH; [|done].
  exists pt'. split; [done|]. destruct (Z.eqb_spec pt' k) as [->|]; [|done].
  by rewrite bt_get_lt in Hg.
Qed.

Lemma head_filter_seqZ (P : Z → Prop) `{∀ x, Decision (P x)} a n :
  match head (filter P (seqZ a (Z.of_nat n))) with
  | Some x => a ≤ x < a + Z.of_nat n ∧ P x ∧ (∀ y, a ≤ y < x → ¬ P y)
  | None => ∀ y, a ≤ y < a + Z.of_nat n → ¬ P y
  end.
Proof.
  revert a. induction n as [|n IH]; intros a; [intros y ?; lia|].
  rewrite seqZ_cons, filter_cons by lia. case_decide as HP.
  { cbn [head]. split_and!; [lia|lia|done|intros y ?; lia]. }
  specialize (IH (Z.succ a)). rewrite Nat2Z.inj_succ, Z.pred_succ.
  destruct (head _) as [x|].
  - destruct IH as (? & ? & Hlt). split_and!; [lia|lia|done|]. intros y Hy.
    destruct (decide (y = a)) as [->|]; [done|]. apply Hlt. lia.
  - intros y Hy. destruct (decide (y = a)) as [->|]; [done|]. apply IH. lia.
Qed.

(** allocate_rtx_payload_type returns the least free dynamic payload type
    (96 to 127), and none exactly when all are used. *)
Theorem allocate_rtx_payload_type_spec used :
  match allocate_rtx_payload_type used with
  | Some pt => 96 ≤ pt ≤ 127 ∧ (pt ∉ used) ∧ (∀ pt', 96 ≤ pt' < pt → pt' ∈ used)
  | None => ∀ pt, 96 ≤ pt ≤ 127 → pt ∈ used
  end.
Proof.
  unfold allocate_rtx_payload_type.
  pose proof (head_filter_seqZ (λ pt, pt ∉ used) 96 32) as Hs.
  change (Z.of_nat 32) with 32 in Hs. destruct (head _) as [pt|].
  - destruct Hs as (? & ? & Hlt). split_and!; [lia|lia|done|].
    intros pt' ?. by apply dec_stable, Hlt.
  - intros pt ?. apply dec_stable, Hs. lia.
Qed.

(** Appending an RTX payload type to a media section puts it among the
    formats and makes the apt map read from the attributes associate it with the
    primary one, leaving other associations alone; or the section already had it
    and its attributes are unchanged. *)
Theorem rtx_section_roundtrip formats attrs primary_pt rtx_pt clock_rate :
  u8 rtx_pt → u8 primary_pt →
  let m := extract_rtx_apt_map_from_attrs attrs in
  let '(formats', attrs') := append_rtx_to_section formats attrs primary_pt rtx_pt clock_rate in
  let m' := extract_rtx_apt_map_from_attrs attrs' in
  show_uint rtx_pt ∈ formats' ∧
  (m' = m ∧ attrs' = attrs ∨
   bt_get rtx_pt m' = Some primary_pt ∧
   (∀ pt, pt ≠ rtx_pt → bt_get pt m' = bt_get pt m) ∧
   ∃ pt, rtx_pt_for_primary m' primary_pt = Some pt ∧ bt_get pt m' = Some primary_pt).
Proof.
  intros Hr Hp m. unfold append_rtx_to_section. split.
  { case_bool_decide; set_solver. }
  case_bool_decide; [by left|right]. unfold extract_rtx_apt_map_from_attrs, extract_rtx_apt_map.
  rewrite fmap_app, foldl_app. fold (extract_rtx_apt_map ((λ a, (key a, value a)) <$> attrs)).
  fold (extract_rtx_apt_map_from_attrs attrs). fold m. cbn [fmap list_fmap key value foldl].
  rewrite apt_step_rtpmap, apt_step_line by done.
  assert (bt_wf m) as Hwf by apply extract_wf.
  assert (bt_get rtx_pt (bt_insert rtx_pt primary_pt m) = Some primary_pt) as Hget
    by (by rewrite bt_get_insert, Z.eqb_refl).
  split; [done|]. split.
  - intros pt Hne. by rewrite bt_get_insert, (proj2 (Z.eqb_neq _ _)).
  - by eapply rtx_pt_for_primary_spec; [apply bt_insert_wf|].
Qed.

(** A video section that offers payload type 96 and already maps 99 to 98. *)
Definition sample_attrs : list Attribute := [
  {| key := lit "rtpmap"; value := Some (lit "96 VP8/90000") |};
  {| key := lit "fmtp"; value := Some (lit "99 apt=98;rtx-time=3000") |};
  {| key := lit "sendrecv"; value := None |}].

