(* ===== verification/Twcc.v ===== *)
(** * Transport-wide congestion control feedback

    The feedback generator of [src/media/twcc_feedback.rs] and the decoder
    [decode_twcc_feedback] of [src/rtp.rs]. *)
From Equations Require Import Equations.
From stdpp Require Import gmap.
From S2P Require Import Prelude BytesCrate Rtp RtpExt Rtcp RtcpFacts.

Definition MAX_STATUSES_PER_REPORT : nat := 480.

Inductive DeltaSize :=
| Lost
| Small (us : Z)
| Large (us : Z).

Record PendingRecord := { pr_seq : Z; arrival_us : Z }.

(** The generator; [pending] maps the media SSRC to its records in arrival
    order. *)
Record TwccFeedbackGenerator := {
  ext_id : Z;
  feedback_ssrc : Z;
  feedback_seq : Z;
  pending : gmap Z (list PendingRecord);
  packets_observed : Z;
  feedback_sent : Z;
}.

(** [rand_u16()] is the argument [seq0]. *)
Definition TwccFeedbackGenerator_new (seq0 : Z) : TwccFeedbackGenerator := {|
  ext_id := 0; feedback_ssrc := 0; feedback_seq := seq0; pending := ∅;
  packets_observed := 0; feedback_sent := 0 |}.

Definition set_ext_id (g : TwccFeedbackGenerator) (id : Z) : TwccFeedbackGenerator := {|
  ext_id := id; feedback_ssrc := feedback_ssrc g; feedback_seq := feedback_seq g;
  pending := pending g; packets_observed := packets_observed g; feedback_sent := feedback_sent g |}.

Definition set_feedback_ssrc (g : TwccFeedbackGenerator) (ssrc : Z) : TwccFeedbackGenerator := {|
  ext_id := ext_id g; feedback_ssrc := ssrc; feedback_seq := feedback_seq g;
  pending := pending g; packets_observed := packets_observed g; feedback_sent := feedback_sent g |}.

Section observe.
Context `{BytesCrate}.

Definition extract_tcc_seq (g : TwccFeedbackGenerator) (packet : RtpPacket)
    : res RtpError (option Z) :=
  if ext_id g =? 0 then Ok None else
  o ← RtpHeader_get_extension (header packet) (ext_id g);
  match o with
  | None => Ok None
  | Some data =>
      if (length data <? 2)%nat then Ok None else seq ← be_at 2 data 0; Ok (Some seq)
  end.

(** [now_us] is the reading of the generator's clock. *)
Definition observe (g : TwccFeedbackGenerator) (packet : RtpPacket) (now_us : Z)
    : res RtpError TwccFeedbackGenerator :=
  o ← extract_tcc_seq g packet;
  match o with
  | None => Ok g
  | Some seq =>
      let queue := default [] (pending g !! ssrc (header packet)) in
      let queue :=
        if bool_decide ((pr_seq <$> last queue) = Some seq) then queue
        else queue ++ [{| pr_seq := seq; arrival_us := now_us |}] in
      Ok {| ext_id := ext_id g; feedback_ssrc := feedback_ssrc g; feedback_seq := feedback_seq g;
            pending := <[ssrc (header packet) := queue]> (pending g);
            packets_observed := as_u64 (packets_observed g + 1);
            feedback_sent := feedback_sent g |}
  end.
End observe.

Definition pending_count (g : TwccFeedbackGenerator) : nat :=
  sum_list ((λ kq, length kq.2) <$> map_to_list (pending g)).

(** Wire symbol (2-bit) for a status *)
Definition symbol_bits (s : DeltaSize) : Z :=
  match s with Lost => 0 | Small _ => 1 | Large _ => 2 end.

Definition delta_size (delta_us : Z) : DeltaSize :=
  let units := Z.quot delta_us 250 in
  if (0 <=? units) && (units <=? 255) then Small delta_us else
  if (-32768 <=? units) && (units <=? 32767) then Large delta_us else
  Large (Z.max (-8190000) (Z.min delta_us 8191750)).

(** The loop over the records: what is pushed on [statuses] and [deltas_us]. *)
Fixpoint status_loop (expected prev_arrival : Z) (records : list PendingRecord)
    : list DeltaSize * list (option Z) :=
  match records with
  | [] => ([], [])
  | r :: records =>
      let offset := wsub16 (pr_seq r) expected in
      if negb (offset =? 0) && negb (offset <? 1000)
      then status_loop expected prev_arrival records
      else
        let lost := Z.to_nat offset in
        let delta_us := as_i64 (Z.max 0 (arrival_us r - prev_arrival)) in
        let '(ss, ds) := status_loop (wadd16 (pr_seq r) 1) (arrival_us r) records in
        (replicate lost Lost ++ delta_size delta_us :: ss,
         replicate lost None ++ Some delta_us :: ds)
  end.

(** The inner [while]: how many of the following statuses have the same symbol *)
Fixpoint same_run (sym : Z) (l : list DeltaSize) : nat :=
  match l with
  | [] => 0
  | s :: l => if symbol_bits s =? sym then S (same_run sym l) else 0
  end.

Definition run_chunk (sym : Z) (run : nat) : Z :=
  Z.lor (Z.shiftl sym 13) (Z.land (as_u16 (Z.of_nat run)) 0x1fff).

(** [for i in 0..7]: the symbol of the [i]-th status, zero past the end *)
Definition vector_chunk (l : list DeltaSize) : Z :=
  foldl (λ chunk i, Z.lor chunk
           (Z.shiftl (default 0 (symbol_bits <$> l !! i)) (12 - 2 * Z.of_nat i)))
    (Z.shiftl 3 14) (seq 0 7).

Equations? encode_chunks (statuses : list DeltaSize) : list Z
  by wf (length statuses) lt :=
encode_chunks [] := [];
encode_chunks (s :: l) :=
  let sym := symbol_bits s in
  let run := S (same_run sym l) in
  if (3 <=? run)%nat
  then to_be 2 (run_chunk sym run) ++ encode_chunks (drop run (s :: l))
  else to_be 2 (vector_chunk (s :: l)) ++ encode_chunks (drop 7 (s :: l)).
Proof. all: cbn; rewrite ?length_drop; lia. Qed.

Fixpoint encode_deltas (statuses : list DeltaSize) (deltas_us : list (option Z)) : list Z :=
  match statuses, deltas_us with
  | s :: ss, d :: ds =>
      match s, d with
      | Lost, _ | _, None => []
      | Small _, Some us => [as_u8 (Z.quot us 250)]
      | Large _, Some us => to_be 2 (as_u16 (as_i16 (Z.quot us 250)))
      end ++ encode_deltas ss ds
  | _, _ => []
  end.

Definition build_feedback (g : TwccFeedbackGenerator) (media_ssrc fb_ssrc : Z)
    (records : list PendingRecord) : option TransportWideCc * TwccFeedbackGenerator :=
  match records with
  | [] => (None, g)
  | r0 :: _ =>
      let base_seq := pr_seq r0 in
      let first_arrival := arrival_us r0 in
      let '(statuses, deltas_us) := status_loop base_seq first_arrival records in
      let '(statuses, deltas_us) :=
        if (MAX_STATUSES_PER_REPORT <? length statuses)%nat
        then (take MAX_STATUSES_PER_REPORT statuses, take MAX_STATUSES_PER_REPORT deltas_us)
        else (statuses, deltas_us) in
      let packet_status_count := as_u16 (Z.of_nat (length statuses)) in
      let payload := encode_chunks statuses ++ encode_deltas statuses deltas_us in
      let seq := feedback_seq g in
      (Some {| twcc_sender_ssrc := fb_ssrc; twcc_media_ssrc := media_ssrc;
               base_sequence := base_seq; packet_status_count := packet_status_count;
               reference_time_64ms := Z.land (as_u32 (first_arrival / 64000)) 0x00FFFFFF;
               feedback_packet_count := as_u8 (Z.land seq 0xff);
               twcc_payload := payload |},
       {| ext_id := ext_id g; feedback_ssrc := feedback_ssrc g; feedback_seq := wadd16 seq 1;
          pending := pending g; packets_observed := packets_observed g;
          feedback_sent := feedback_sent g |})
  end.

(** [owned.chunks(n)] *)
Equations? chunks (n : nat) (l : list PendingRecord) : list (list PendingRecord)
  by wf (length l) lt :=
chunks n [] := [];
chunks n (r :: l) := take (S n) (r :: l) :: chunks n (drop (S n) (r :: l)).
Proof. cbn. rewrite ?length_drop. lia. Qed.

Section flush.
(** Whether the transport accepts the packet ([transport.send_rtcp(..).is_ok()]). *)
Context (send_rtcp : list RtcpPacket → bool).

Fixpoint flush_chunks (media_ssrc fb_ssrc : Z) (cs : list (list PendingRecord))
    (g : TwccFeedbackGenerator) (sent : Z) : TwccFeedbackGenerator * Z :=
  match cs with
  | [] => (g, sent)
  | chunk :: cs =>
      let '(o, g) := build_feedback g media_ssrc fb_ssrc chunk in
      match o with
      | Some feedback =>
          if send_rtcp [RtcpTransportWideCc feedback]
          then flush_chunks media_ssrc fb_ssrc cs
                 {| ext_id := ext_id g; feedback_ssrc := feedback_ssrc g;
                    feedback_seq := feedback_seq g; pending := pending g;
                    packets_observed := packets_observed g;
                    feedback_sent := as_u64 (feedback_sent g + 1) |} (sent + 1)
          else flush_chunks media_ssrc fb_ssrc cs g sent
      | None => flush_chunks media_ssrc fb_ssrc cs g sent
      end
  end.

Fixpoint flush_queues (fb_ssrc : Z) (records : list (Z * list PendingRecord))
    (g : TwccFeedbackGenerator) (sent : Z) : TwccFeedbackGenerator * Z :=
  match records with
  | [] => (g, sent)
  | (media_ssrc, queue) :: records =>
      let '(g, sent) := flush_chunks media_ssrc fb_ssrc
                          (chunks (pred MAX_STATUSES_PER_REPORT) queue) g sent in
      flush_queues fb_ssrc records g sent
  end.

(** [pending.drain()] yields the queues in some order and leaves the map empty. *)
Definition flush (g : TwccFeedbackGenerator) : TwccFeedbackGenerator * Z :=
  let records := map_to_list (pending g) in
  let g := {| ext_id := ext_id g; feedback_ssrc := feedback_ssrc g;
              feedback_seq := feedback_seq g; pending := ∅;
              packets_observed := packets_observed g; feedback_sent := feedback_sent g |} in
  flush_queues (feedback_ssrc g) records g 0.
End flush.

(** ** Decoding *)

(** The symbols one status chunk stands for. *)
Definition chunk_symbols (chunk : Z) : list Z :=
  if Z.shiftr chunk 15 =? 0 then
    replicate (Z.to_nat (Z.land chunk 0x1fff)) (Z.land (Z.shiftr chunk 13) 3)
  else if Z.land (Z.shiftr chunk 14) 1 =? 0 then
    (λ i, if Z.land (Z.shiftr chunk (13 - i)) 1 =? 0 then 1 else 0) <$> seqZ 0 14
  else
    (λ i, Z.land (Z.shiftr chunk (12 - 2 * i)) 3) <$> seqZ 0 7.

(** The first pass: symbols and the bytes from [offset] on. *)
Fixpoint decode_symbols (count : nat) (symbols payload : list Z) : list Z * list Z :=
  if (length symbols <? count)%nat then
    match payload with
    | hi :: lo :: rest => decode_symbols count (symbols ++ chunk_symbols (of_be [hi; lo])) rest
    | _ => (symbols, payload)
    end
  else (symbols, payload).

(** The second pass, from index [i] on. *)
Fixpoint decode_deltas (base i : Z) (symbols payload : list Z) : list (Z * option Z) :=
  match symbols with
  | [] => []
  | sym :: symbols =>
      let seq := wadd16 base (as_u16 i) in
      if sym =? 0 then (seq, None) :: decode_deltas base (i + 1) symbols payload else
      if sym =? 1 then
        match payload with
        | b :: rest => (seq, Some (b * 250)) :: decode_deltas base (i + 1) symbols rest
        | [] => []
        end
      else
        match payload with
        | b0 :: b1 :: rest =>
            (seq, Some (as_i16 (of_be [b0; b1]) * 250)) :: decode_deltas base (i + 1) symbols rest
        | _ => []
        end
  end.

Definition decode_twcc_feedback (feedback : TransportWideCc) : list (Z * option Z) :=
  let count := Z.to_nat (packet_status_count feedback) in
  let '(symbols, rest) := decode_symbols count [] (twcc_payload feedback) in
  decode_deltas (base_sequence feedback) 0 (take count symbols) rest.

Example twcc_example :
  let rec s a := {| pr_seq := s; arrival_us := a |} in
  decode_twcc_feedback <$>
    (build_feedback (TwccFeedbackGenerator_new 0) 1 2
       [rec 65534 0; rec 0 1000; rec 1 100000; rec 2 101000]).1
  = Some [(65534, Some 0); (65535, None); (0, Some 1000); (1, Some 99000); (2, Some 1000)].
Proof. vm_compute. reflexivity. Qed.

(** ** Status chunks *)

(** The symbols the encoder uses. *)
Definition enc_sym (x : Z) : Prop := 0 ≤ x ≤ 2.

Lemma symbol_bits_enc s : enc_sym (symbol_bits s).
Proof. unfold enc_sym. destruct s; cbn; lia. Qed.

(** Every list of [n] symbols, to check the seven-symbol chunks by running them. *)
Fixpoint sym_lists (n : nat) : list (list DeltaSize) :=
  match n with
  | O => [[]]
  | S n => l ← sym_lists n; [Lost :: l; Small 0 :: l; Large 0 :: l]
  end.

(** Only the symbols of the statuses matter. *)
Definition rep (s : DeltaSize) : DeltaSize :=
  match s with Lost => Lost | Small _ => Small 0 | Large _ => Large 0 end.

Lemma symbol_bits_rep s : symbol_bits (rep s) = symbol_bits s.
Proof. by destruct s. Qed.

Lemma sym_lists_elem l : rep <$> l ∈ sym_lists (length l).
Proof.
  induction l as [|s l IH]; [by left|]. cbn [length sym_lists].
  apply list_elem_of_bind. exists (rep <$> l). split; [|done]. destruct s; cbn; set_solver.
Qed.

Lemma vector_chunk_rep l : vector_chunk (rep <$> l) = vector_chunk l.
Proof.
  unfold vector_chunk. generalize (Z.shiftl 3 14), (seq 0 7).
  intros c ks. revert c. induction ks as [|i ks IH]; intros c; cbn [foldl]; [done|].
  rewrite IH, list_lookup_fmap. do 3 f_equal. destruct (l !! i); cbn; [|done].
  by rewrite symbol_bits_rep.
Qed.

Definition vector_ok (l : list DeltaSize) : bool :=
  (vector_chunk l <? 65536) && (0 <=? vector_chunk l) &&
  bool_decide (chunk_symbols (vector_chunk l) = resize 7 0 (symbol_bits <$> l)).

Lemma vector_ok_check : forallb vector_ok (mjoin (sym_lists <$> seq 0 8)) = true.
Proof. vm_compute. reflexivity. Qed.

Lemma vector_chunk_symbols l :
  (length l ≤ 7)%nat →
  u16 (vector_chunk l) ∧ chunk_symbols (vector_chunk l) = resize 7 0 (symbol_bits <$> l).
Proof.
  intros Hl. pose proof vector_ok_check as Hc. rewrite forallb_forall in Hc.
  specialize (Hc (rep <$> l)). unfold vector_ok in Hc.
  rewrite !andb_true_iff, bool_decide_eq_true, vector_chunk_rep in Hc.
  destruct Hc as [[? ?] Hs].
  - apply list_elem_of_In, list_elem_of_join. exists (sym_lists (length l)).
    split; [apply sym_lists_elem|]. apply list_elem_of_fmap. exists (length l).
    split; [done|]. apply elem_of_seq. lia.
  - split; [ulia|]. rewrite Hs. f_equal. rewrite <- list_fmap_compose. apply list_fmap_ext.
    intros i s _. apply symbol_bits_rep.
Qed.

Lemma vector_chunk_take l : vector_chunk (take 7 l) = vector_chunk l.
Proof. unfold vector_chunk. cbn [seq foldl]. by rewrite !lookup_take_lt by lia. Qed.

Lemma run_chunk_symbols sym run :
  enc_sym sym → Z.of_nat run ≤ 8191 →
  u16 (run_chunk sym run) ∧ chunk_symbols (run_chunk sym run) = replicate run sym.
Proof.
  intros Hs Hr. unfold enc_sym in Hs.
  assert (run_chunk sym run = sym * 8192 + Z.of_nat run) as ->.
  { unfold run_chunk. rewrite (Z.land_ones _ 13) by lia. change (2 ^ 13) with 8192.
    rewrite lor_shiftl_add by (change (2 ^ 13) with 8192; mlia). change (2 ^ 13) with 8192. mlia. }
  unfold chunk_symbols. rewrite !Z.shiftr_div_pow2, (Z.land_ones _ 13), (Z.land_ones _ 2) by lia.
  change (2 ^ 15) with 32768. change (2 ^ 13) with 8192. change (2 ^ 2) with 4.
  rewrite (Z.div_small _ 32768) by lia. split; [ulia|]. cbn [Z.eqb].
  f_equal; mlia.
Qed.

Lemma same_run_take sym l :
  symbol_bits <$> take (same_run sym l) l = replicate (same_run sym l) sym.
Proof.
  induction l as [|s l IH]; cbn; [done|].
  destruct (Z.eqb_spec (symbol_bits s) sym); cbn; [by f_equal|done].
Qed.

Lemma same_run_le sym l : (same_run sym l ≤ length l)%nat.
Proof. induction l as [|s l IH]; cbn; [lia|]. destruct (_ =? _); cbn; lia. Qed.

Lemma decode_symbols_step count acc c p :
  u16 c → (length acc < count)%nat →
  decode_symbols count acc (to_be 2 c ++ p) = decode_symbols count (acc ++ chunk_symbols c) p.
Proof.
  intros Hc Hl. pose proof (length_to_be 2 c) as Hlen.
  destruct (to_be 2 c) as [|a [|b [|]]] eqn:He; try done. cbn [app decode_symbols].
  rewrite (proj2 (Nat.ltb_lt _ _)) by done. by rewrite <- He, of_be_to_be_16.
Qed.

Lemma decode_symbols_done count acc p : (count ≤ length acc)%nat → decode_symbols count acc p = (acc, p).
Proof. intros. destruct p; cbn [decode_symbols]; by rewrite (proj2 (Nat.ltb_ge _ _)). Qed.

Lemma decode_encode_chunks sts count acc p :
  Z.of_nat (length sts) ≤ 8191 → count = (length acc + length sts)%nat →
  ∃ junk, decode_symbols count acc (encode_chunks sts ++ p)
    = (acc ++ (symbol_bits <$> sts) ++ junk, p).
Proof.
  revert acc. induction sts as [sts IH] using list_len_ind. intros acc Hl Hc.
  destruct sts as [|s l]; simp encode_chunks.
  { exists []. rewrite !app_nil_r. apply decode_symbols_done. cbn in Hc. lia. }
  cbn zeta. set (sym := symbol_bits s). set (run := S (same_run sym l)).
  assert (run ≤ length (s :: l))%nat as Hrun by (subst run; pose proof (same_run_le sym l); cbn; lia).
  assert (symbol_bits <$> take run (s :: l) = replicate run sym) as Htake.
  { subst run. cbn. f_equal. apply same_run_take. }
  destruct (Nat.leb_spec 3 run) as [H3|H3]; rewrite <- app_assoc.
  - destruct (run_chunk_symbols sym run) as [Hu Hsym]; [apply symbol_bits_enc|lia|].
    rewrite decode_symbols_step, Hsym by (done || cbn in *; lia).
    destruct (IH (drop run (s :: l)) ltac:(rewrite length_drop; cbn; lia) (acc ++ replicate run sym))
      as [junk ->].
    { rewrite length_drop. lia. }
    { rewrite length_app, length_replicate, length_drop. lia. }
    exists junk. f_equal. rewrite <- app_assoc. f_equal.
    rewrite <- (take_drop run (s :: l)) at 2. by rewrite fmap_app, Htake, <- app_assoc.
  - rewrite <- vector_chunk_take.
    destruct (vector_chunk_symbols (take 7 (s :: l))) as [Hu Hsym]; [rewrite length_take; lia|].
    rewrite decode_symbols_step, Hsym by (done || cbn in *; lia).
    destruct (decide (7 ≤ length (s :: l))%nat) as [H7|H7].
    + rewrite resize_all_alt by (rewrite length_fmap, length_take; lia).
      destruct (IH (drop 7 (s :: l)) ltac:(rewrite length_drop; cbn; lia)
        (acc ++ (symbol_bits <$> take 7 (s :: l)))) as [junk ->].
      { rewrite length_drop. lia. }
      { rewrite length_app, length_fmap, length_take, length_drop. lia. }
      exists junk. f_equal. rewrite <- app_assoc. f_equal.
      rewrite <- (take_drop 7 (s :: l)) at 3. by rewrite fmap_app, <- app_assoc.
    + rewrite drop_ge, take_ge by lia. simp encode_chunks.
      exists (replicate (7 - length (s :: l)) 0).
      rewrite resize_ge, length_fmap by (rewrite length_fmap; lia).
      apply decode_symbols_done. rewrite !length_app, length_fmap. lia.
Qed.

(** ** Receive deltas *)

Definition status_of (d : option Z) : DeltaSize :=
  match d with None => Lost | Some us => delta_size us end.

Definition delta_ok (d : option Z) : Prop :=
  match d with None => True | Some us => 0 ≤ us < 8192000 end.

(** What a decoder reports for the deltas from index [i] on: arrival deltas in
    whole 250 us units. *)
Fixpoint entries (base i : Z) (ds : list (option Z)) : list (Z * option Z) :=
  match ds with
  | [] => []
  | d :: ds => (wadd16 base i, (λ us, us / 250 * 250) <$> d) :: entries base (i + 1) ds
  end.

Lemma delta_size_cases us :
  0 ≤ us < 8192000 →
  delta_size us = Small us ∧ u8 (us / 250) ∨ delta_size us = Large us ∧ 256 ≤ us / 250 < 32768.
Proof.
  intros Hus. unfold delta_size. rewrite Z.quot_div_nonneg by lia.
  destruct (decide (us / 250 ≤ 255)).
  - left. split; [|mlia]. rewrite (proj2 (Z.leb_le _ _)), (proj2 (Z.leb_le _ _)) by mlia. done.
  - right. split; [|mlia]. rewrite (proj2 (Z.leb_gt (us / 250) 255)), andb_false_r by mlia.
    rewrite (proj2 (Z.leb_le _ _)), (proj2 (Z.leb_le _ _)) by mlia. done.
Qed.

Lemma wadd16_as_u16 a b : wadd16 a (as_u16 b) = wadd16 a b.
Proof. unfold wadd16, as_u16. by rewrite Zplus_mod_idemp_r. Qed.

Lemma decode_encode_deltas base i ds p :
  Forall delta_ok ds →
  decode_deltas base i (symbol_bits <$> (status_of <$> ds)) (encode_deltas (status_of <$> ds) ds ++ p)
  = entries base i ds.
Proof.
  intros Hds. revert i. induction Hds as [|d ds Hd _ IH]; intros i; [done|].
  rewrite !fmap_cons. cbn [encode_deltas decode_deltas entries]. rewrite wadd16_as_u16.
  destruct d as [us|]; cbn [status_of fmap option_fmap option_map]; [|by rewrite IH].
  unfold delta_ok in Hd.
  destruct (delta_size_cases us Hd) as [[-> Hu]|[-> Hu]]; cbn [symbol_bits Z.eqb Pos.eqb];
    rewrite Z.quot_div_nonneg by lia.
  - cbn [app]. rewrite IH. do 3 f_equal. f_equal. mlia.
  - assert (as_u16 (as_i16 (us / 250)) = us / 250) as -> by mlia.
    pose proof (length_to_be 2 (us / 250)) as Hlen.
    destruct (to_be 2 (us / 250)) as [|a [|b [|]]] eqn:He; try done. cbn [app].
    rewrite <- He, of_be_to_be_16 by ulia. rewrite IH. do 3 f_equal. f_equal. mlia.
Qed.

Lemma entries_app base i ds es :
  entries base i (ds ++ es) = entries base i ds ++ entries base (i + Z.of_nat (length ds)) es.
Proof.
  revert i. induction ds as [|d ds IH]; intros i; cbn [app entries length].
  - f_equal. lia.
  - rewrite IH. do 3 f_equal. lia.
Qed.

Lemma entries_take base i n ds : entries base i (take n ds) = take n (entries base i ds).
Proof.
  revert i n. induction ds as [|d ds IH]; intros i [|n]; cbn; try done. by rewrite IH.
Qed.

(** ** What a report means *)

(** The reference report of a batch of records: every sequence number from the
    first one on, lost ones without an arrival, received ones with the time
    since the previous arrival in whole 250 us units.  A record more than 999
    ahead of the expected sequence number is stale and skipped. *)
Fixpoint report (expected prev : Z) (records : list PendingRecord) : list (Z * option Z) :=
  match records with
  | [] => []
  | r :: records =>
      let gap := wsub16 (pr_seq r) expected in
      if gap <? 1000 then
        ((λ k, (wadd16 expected k, None)) <$> seqZ 0 gap)
        ++ (pr_seq r, Some (Z.max 0 (arrival_us r - prev) / 250 * 250))
        :: report (wadd16 (pr_seq r) 1) (arrival_us r) records
      else report expected prev records
  end.

Definition in_batch (t : Z) (r : PendingRecord) : Prop :=
  u16 (pr_seq r) ∧ t ≤ arrival_us r < t + 8192000 ∧ u48 (arrival_us r).

Lemma entries_lost base i n :
  entries base i (replicate n None) = (λ k, (wadd16 (wadd16 base i) k, None)) <$> seqZ 0 (Z.of_nat n).
Proof.
  revert i. induction n as [|n IH]; intros i; [done|].
  rewrite Nat2Z.inj_succ, seqZ_cons, Z.pred_succ by lia. cbn [replicate entries]. rewrite fmap_cons.
  f_equal; [f_equal; mlia|]. rewrite IH.
  change (Z.succ 0) with (1 + 0). rewrite <- fmap_add_seqZ, <- list_fmap_compose. apply list_fmap_ext.
  intros j k _. cbn. f_equal. mlia.
Qed.

Lemma status_loop_report t base i prev records :
  t ≤ prev < t + 8192000 → Forall (in_batch t) records →
  ∃ ds, status_loop (wadd16 base i) prev records = (status_of <$> ds, ds) ∧
    Forall delta_ok ds ∧ entries base i ds = report (wadd16 base i) prev records.
Proof.
  intros Hprev Hrs. revert i prev Hprev. induction Hrs as [|r rs Hr _ IH]; intros i prev Hprev.
  { by exists []. }
  destruct Hr as (Hs & Ht & Hu). cbn [status_loop report].
  set (gap := wsub16 (pr_seq r) (wadd16 base i)).
  assert (0 ≤ gap) as Hgap by (subst gap; mlia).
  destruct (Z.ltb_spec gap 1000) as [Hlt|Hge]; cbn [negb]; rewrite ?andb_false_r.
  - destruct (IH (i + gap + 1) (arrival_us r)) as (ds & Hloop & Hok & Hent); [lia|].
    assert (wadd16 base (i + gap) = pr_seq r) as Hseq by (subst gap; mlia).
    assert (wadd16 base (i + gap + 1) = wadd16 (pr_seq r) 1) as Hnext by (subst gap; mlia).
    rewrite Hnext in Hloop, Hent. rewrite Hloop.
    replace (as_i64 (Z.max 0 (arrival_us r - prev))) with (Z.max 0 (arrival_us r - prev)) by mlia.
    exists (replicate (Z.to_nat gap) None ++ Some (Z.max 0 (arrival_us r - prev)) :: ds).
    split_and!.
    + rewrite fmap_app, fmap_replicate. done.
    + apply Forall_app. split; [by apply Forall_replicate|]. constructor; [cbn; lia|done].
    + rewrite entries_app, entries_lost, length_replicate, Z2Nat.id by done.
      cbn [entries fmap option_fmap option_map]. rewrite Hseq. by rewrite Hent.
  - rewrite (proj2 (Z.eqb_neq _ _)) by lia. cbn [negb andb].
    destruct (IH i prev Hprev) as (ds & ? & ? & ?). by exists ds.
Qed.

(** ** The generator and the decoder agree *)

Lemma encode_chunks_length sts : (length (encode_chunks sts) ≤ 2 * length sts)%nat.
Proof.
  induction sts as [sts IH] using list_len_ind. destruct sts as [|s l]; simp encode_chunks; [done|].
  cbn zeta. set (run := S (same_run (symbol_bits s) l)).
  destruct (3 <=? run)%nat; rewrite length_app, length_to_be.
  - specialize (IH (drop run (s :: l))). rewrite length_drop in IH. cbn [length] in *. lia.
  - specialize (IH (drop 7 (s :: l))). rewrite length_drop in IH. cbn [length] in *. lia.
Qed.

Lemma encode_deltas_length sts ds : (length (encode_deltas sts ds) ≤ 2 * length sts)%nat.
Proof.
  revert ds. induction sts as [|s sts IH]; intros [|d ds]; cbn [encode_deltas length]; try lia.
  rewrite length_app. specialize (IH ds).
  destruct s, d; cbn [length]; rewrite ?length_to_be; lia.
Qed.

Lemma decode_built base count ds p fb :
  Forall delta_ok ds → (length ds ≤ 480)%nat →
  base_sequence fb = base → count = Z.of_nat (length ds) → packet_status_count fb = count →
  twcc_payload fb = encode_chunks (status_of <$> ds) ++ encode_deltas (status_of <$> ds) ds ++ p →
  decode_twcc_feedback fb = entries base 0 ds.
Proof.
  intros Hok Hlen <- -> Hcount Hp. unfold decode_twcc_feedback. rewrite Hcount, Hp, Nat2Z.id.
  destruct (decode_encode_chunks (status_of <$> ds) (length ds) []
    (encode_deltas (status_of <$> ds) ds ++ p)) as [junk ->];
    [rewrite length_fmap; lia|by rewrite length_fmap|].
  rewrite app_nil_l, take_app_length' by (by rewrite !length_fmap).
  by apply decode_encode_deltas.
Qed.

Lemma build_feedback_spec t g media fbs r0 rs :
  u32 media → u32 fbs → Forall (in_batch t) (r0 :: rs) →
  ∃ fb g' ds, build_feedback g media fbs (r0 :: rs) = (Some fb, g') ∧
    wf_rtcp (RtcpTransportWideCc fb) ∧ twcc_media_ssrc fb = media ∧
    base_sequence fb = pr_seq r0 ∧ packet_status_count fb = Z.of_nat (length ds) ∧
    (length ds ≤ 480)%nat ∧ Forall delta_ok ds ∧
    twcc_payload fb = encode_chunks (status_of <$> ds) ++ encode_deltas (status_of <$> ds) ds ∧
    entries (pr_seq r0) 0 ds = take 480 (report (pr_seq r0) (arrival_us r0) (r0 :: rs)).
Proof.
  intros Hm Hf Hrs. pose proof Hrs as [(Hs0 & Ht0 & Hu0) _]%Forall_cons.
  unfold build_feedback. set (recs := r0 :: rs) in *.
  destruct (status_loop_report t (pr_seq r0) 0 (arrival_us r0) recs) as (ds & Hloop & Hok & Hent);
    [done..|].
  assert (wadd16 (pr_seq r0) 0 = pr_seq r0) as Hb by mlia. rewrite Hb in Hloop, Hent. rewrite Hloop.
  set (ds' := take MAX_STATUSES_PER_REPORT ds).
  assert ((if (MAX_STATUSES_PER_REPORT <? length (status_of <$> ds))%nat
           then (take MAX_STATUSES_PER_REPORT (status_of <$> ds), ds')
           else (status_of <$> ds, ds)) = (status_of <$> ds', ds')) as ->.
  { rewrite length_fmap. subst ds'. destruct (Nat.ltb_spec MAX_STATUSES_PER_REPORT (length ds)).
    - by rewrite fmap_take.
    - by rewrite take_ge. }
  assert (length ds' ≤ 480)%nat as Hlen by (subst ds'; rewrite length_take; unfold MAX_STATUSES_PER_REPORT; lia).
  assert (as_u16 (Z.of_nat (length (status_of <$> ds'))) = Z.of_nat (length ds')) as Hcnt
    by (rewrite length_fmap; mlia).
  pose proof (encode_chunks_length (status_of <$> ds')) as Hc.
  pose proof (encode_deltas_length (status_of <$> ds') ds') as Hd. rewrite length_fmap in Hc, Hd.
  eexists _, _, ds'. split; [done|]. cbn [twcc_media_ssrc base_sequence packet_status_count twcc_payload].
  rewrite Hcnt. split_and!; try done.
  - rewrite (Z.land_ones _ 24) by lia. change (2 ^ 24) with 16777216.
    cbn [wf_rtcp twcc_sender_ssrc twcc_media_ssrc base_sequence packet_status_count
         reference_time_64ms feedback_packet_count twcc_payload].
    do 6 (split; [done || mlia|]). rewrite length_app. lia.
  - by apply Forall_take.
  - subst ds'. by rewrite entries_take, Hent.
Qed.

(** C22: The feedback that the TWCC generator builds from a batch of arrivals
    within 8.192 s, marshalled, parsed and decoded by decode_twcc_feedback, is
    the reference report of the batch: each sequence number from the first on,
    lost or with its arrival delta, up to 480 entries. *)
Theorem twcc_roundtrip t g media fbs r0 rs :
  u32 media → u32 fbs → Forall (in_batch t) (r0 :: rs) →
  ∃ fb g' raw fb',
    build_feedback g media fbs (r0 :: rs) = (Some fb, g') ∧
    marshal_rtcp_packets [RtcpTransportWideCc fb] = Ok raw ∧
    parse_rtcp_packets raw = Ok [RtcpTransportWideCc fb'] ∧
    twcc_media_ssrc fb' = media ∧
    decode_twcc_feedback fb' = take 480 (report (pr_seq r0) (arrival_us r0) (r0 :: rs)).
Proof.
  intros Hm Hf Hrs.
  destruct (build_feedback_spec t g media fbs r0 rs Hm Hf Hrs)
    as (fb & g' & ds & Hb & Hwf & Hmed & Hbase & Hcnt & Hlen & Hok & Hpay & Hent).
  destruct (marshal_rtcp_go_parse [] [RtcpTransportWideCc fb]) as (raw & Hraw & Hparse);
    [by apply Forall_singleton|].
  exists fb, g', raw, (normal_twcc fb). split_and!; try done.
  rewrite <- Hent. eapply decode_built; try done. cbn [twcc_payload normal_twcc].
  rewrite Hpay at 1. by rewrite <- app_assoc.
Qed.

Definition sample_records : list PendingRecord :=
  (λ p : Z * Z, {| pr_seq := p.1; arrival_us := p.2 |}) <$>
    [(65530, 1000000); (65531, 1000900); (2, 1090000); (1, 1090100); (3, 1090000); (4, 1200000)].

Lemma twcc_roundtrip_witness :
  ∃ fb g' raw fb',
    build_feedback (TwccFeedbackGenerator_new 41) 7 8 sample_records = (Some fb, g') ∧
    marshal_rtcp_packets [RtcpTransportWideCc fb] = Ok raw ∧
    parse_rtcp_packets raw = Ok [RtcpTransportWideCc fb'] ∧
    twcc_media_ssrc fb' = 7 ∧
    decode_twcc_feedback fb' = take 480 (report 65530 1000000 sample_records).
Proof.
  apply (twcc_roundtrip 1000000 (TwccFeedbackGenerator_new 41) 7 8); [done..|].
  repeat constructor; cbn; lia.
Defined.
