(* ===== verification/Frame.v ===== *)
(** * Media samples ([src/media/frame.rs])

    Audio and video frames and their conversion from and to RTP packets. *)
From S2P Require Import Prelude Core BytesCrate Rtp.

Inductive MediaKind := KindAudio | KindVideo.

Inductive VideoPixelFormat := I420 | Nv12 | Rgba | Bgra | Unspecified.

Record AudioFrame := {
  af_rtp_timestamp : Z;
  af_clock_rate : Z;
  af_data : list Z;
  af_sequence_number : option Z;
  af_payload_type : option Z;
  af_marker : bool;
  af_header_extension : option RtpHeaderExtension;
  af_source_addr : option SocketAddr;
  af_raw_packet : option RtpPacket;
}.

Record VideoFrame := {
  vf_rtp_timestamp : Z;
  vf_width : Z;
  vf_height : Z;
  vf_format : VideoPixelFormat;
  vf_rotation_deg : Z;
  vf_is_last_packet : bool;
  vf_data : list Z;
  vf_header_extension : option RtpHeaderExtension;
  vf_csrcs : list Z;
  vf_sequence_number : option Z;
  vf_payload_type : option Z;
  vf_source_addr : option SocketAddr;
  vf_raw_packet : option RtpPacket;
}.

Inductive MediaSample :=
| SampleAudio (f : AudioFrame)
| SampleVideo (f : VideoFrame).

Definition MediaSample_kind (s : MediaSample) : MediaKind :=
  match s with SampleAudio _ => KindAudio | SampleVideo _ => KindVideo end.

(** The packet and the caller's sequence counter afterwards. *)
Definition into_rtp_packet (s : MediaSample) (sr default_payload_type sequence_number : Z)
    : RtpPacket * Z :=
  let '(pl, m, ts, cs, frame_seq, frame_pt, ext) :=
    match s with
    | SampleAudio f => (af_data f, af_marker f, af_rtp_timestamp f, [], af_sequence_number f,
                        af_payload_type f, af_header_extension f)
    | SampleVideo f => (vf_data f, vf_is_last_packet f, vf_rtp_timestamp f, vf_csrcs f,
                        vf_sequence_number f, vf_payload_type f, vf_header_extension f)
    end in
  let seq := default sequence_number frame_seq in
  let sequence_number :=
    match frame_seq with Some _ => sequence_number | None => wadd16 sequence_number 1 end in
  let pt := default default_payload_type frame_pt in
  let h := {| marker := m; payload_type := pt; Rtp.sequence_number := seq; timestamp := ts;
              ssrc := sr; csrcs := cs; extension := ext |} in
  ({| header := h; payload := pl; padding_len := 0 |}, sequence_number).

Definition from_rtp_packet (packet : RtpPacket) (kind : MediaKind) (clock_rate : Z)
    (addr : SocketAddr) : MediaSample :=
  let h := header packet in
  match kind with
  | KindAudio => SampleAudio {|
      af_rtp_timestamp := timestamp h; af_clock_rate := clock_rate; af_data := payload packet;
      af_sequence_number := Some (sequence_number h);
      af_payload_type := Some (payload_type h); af_marker := marker h;
      af_header_extension := extension h; af_source_addr := Some addr;
      af_raw_packet := Some packet |}
  | KindVideo => SampleVideo {|
      vf_rtp_timestamp := timestamp h; vf_width := 0; vf_height := 0;
      vf_format := Unspecified; vf_rotation_deg := 0; vf_is_last_packet := marker h;
      vf_data := payload packet; vf_header_extension := extension h; vf_csrcs := csrcs h;
      vf_sequence_number := Some (sequence_number h);
      vf_payload_type := Some (payload_type h); vf_source_addr := Some addr;
      vf_raw_packet := Some packet |}
  end.

(** Forwarding an RTP packet as a media sample and turning it back into a
    packet keeps its marker, payload type, sequence number, timestamp, extension
    and payload (and CSRCs for video), replaces the SSRC and drops the padding.
    *)
Theorem sample_forwarding p kind clock_rate addr sr pt seq :
  into_rtp_packet (from_rtp_packet p kind clock_rate addr) sr pt seq =
  ({| header := {| marker := marker (header p); payload_type := payload_type (header p);
                   sequence_number := sequence_number (header p);
                   timestamp := timestamp (header p); ssrc := sr;
                   csrcs := match kind with KindAudio => [] | KindVideo => csrcs (header p) end;
                   extension := extension (header p) |};
      payload := payload p; padding_len := 0 |}, seq).
Proof. by destruct kind. Qed.
