(* ===== verification/Jitter.v ===== *)
(** * The jitter buffer ([src/media/jitter_buffer.rs])

    Samples are kept in a [BTreeMap] keyed by sequence number and delivered in
    order; a gap is waited for until the maximal delay.  [Instant]s and
    [Duration]s are numbers of nanoseconds; the clock reading of a call is an
    argument. *)
From stdpp Require Import sorting sets.
From S2P Require Import Prelude Core BytesCrate Rtp Frame BTree.

Record BufferedSample := { sample : MediaSample; arrival : Z }.

Record JitterBuffer := {
  samples : list (Z * BufferedSample);
  last_delivered_seq : option Z;
  last_delivered_timestamp : option Z;
  last_ssrc : option Z;
  max_delay : Z;
  min_delay : Z;
  capacity : nat;
}.

Definition MAX_SEQ_GAP : Z := 64.
Definition AUDIO_TS_JUMP_SECS : Z := 2.
Definition VIDEO_TS_JUMP_SECS : Z := 5.
Definition U32_MAX : Z := 4294967295.

(** [a.saturating_mul(b)] on [u32] *)
Definition sat_mul32 (a b : Z) : Z := Z.min (a * b) U32_MAX.

Definition JitterBuffer_new (min_delay max_delay : Z) (capacity : nat) : JitterBuffer := {|
  samples := []; last_delivered_seq := None; last_delivered_timestamp := None;
  last_ssrc := None; max_delay := max_delay; min_delay := min_delay; capacity := capacity |}.

Definition reset (jb : JitterBuffer) : JitterBuffer := {|
  samples := []; last_delivered_seq := None; last_delivered_timestamp := None;
  last_ssrc := None; max_delay := max_delay jb; min_delay := min_delay jb;
  capacity := capacity jb |}.

Definition with_samples (jb : JitterBuffer) (m : list (Z * BufferedSample)) : JitterBuffer := {|
  samples := m; last_delivered_seq := last_delivered_seq jb;
  last_delivered_timestamp := last_delivered_timestamp jb; last_ssrc := last_ssrc jb;
  max_delay := max_delay jb; min_delay := min_delay jb; capacity := capacity jb |}.

Definition with_last_ssrc (jb : JitterBuffer) (s : option Z) : JitterBuffer := {|
  samples := samples jb; last_delivered_seq := last_delivered_seq jb;
  last_delivered_timestamp := last_delivered_timestamp jb; last_ssrc := s;
  max_delay := max_delay jb; min_delay := min_delay jb; capacity := capacity jb |}.

Definition sample_ssrc (s : MediaSample) : option Z :=
  match s with
  | SampleAudio f => (λ p, ssrc (header p)) <$> af_raw_packet f
  | SampleVideo f => (λ p, ssrc (header p)) <$> vf_raw_packet f
  end.

Definition is_newer (seq last : Z) : bool :=
  if seq =? last then false else wsub16 seq last <? 32768.

Definition sample_timestamp (s : MediaSample) : Z :=
  match s with SampleAudio f => af_rtp_timestamp f | SampleVideo f => vf_rtp_timestamp f end.

Definition sample_seq (s : MediaSample) : option Z :=
  match s with SampleAudio f => af_sequence_number f | SampleVideo f => vf_sequence_number f end.

Definition sample_marker (s : MediaSample) : bool :=
  match s with SampleAudio f => af_marker f | SampleVideo f => vf_is_last_packet f end.

Definition sample_clock_rate (s : MediaSample) : Z :=
  match s with
  | SampleAudio f => if af_clock_rate f =? 0 then 8000 else af_clock_rate f
  | SampleVideo _ => 90000
  end.

(** [samples.insert(seq, BufferedSample { sample, arrival: now })] *)
Definition insert_sample (jb : JitterBuffer) (seq : Z) (s : MediaSample) (now : Z) : JitterBuffer :=
  with_samples jb (bt_insert seq {| sample := s; arrival := now |} (samples jb)).

(** The restart every discontinuity branch performs: reset, keep the SSRC, and
    start over with the new sample. *)
Definition restart (jb : JitterBuffer) (sr : option Z) (seq : Z) (s : MediaSample) (now : Z)
    : JitterBuffer :=
  let jb := reset jb in
  let jb := match sr with Some _ => with_last_ssrc jb sr | None => jb end in
  insert_sample jb seq s now.

(** The insertion at the end of [push]: a full buffer first drops its lowest
    key. *)
Definition insert_capped (jb : JitterBuffer) (seq : Z) (s : MediaSample) (now : Z) : JitterBuffer :=
  let jb := if (capacity jb <=? length (samples jb))%nat
            then with_samples jb (tail (samples jb)) else jb in
  insert_sample jb seq s now.

(** The part of [push] after the sequence checks. *)
Definition push_checked (jb : JitterBuffer) (sr : option Z) (seq : Z) (s : MediaSample) (now : Z)
    : JitterBuffer :=
  match last_delivered_timestamp jb with
  | None => insert_capped jb seq s now
  | Some last_ts =>
      let max_reasonable_jump :=
        match s with
        | SampleAudio _ => sat_mul32 (sample_clock_rate s) AUDIO_TS_JUMP_SECS
        | SampleVideo _ => sat_mul32 90000 VIDEO_TS_JUMP_SECS
        end in
      let ts_diff := wsub32 (sample_timestamp s) last_ts in
      if (max_reasonable_jump <? ts_diff) && (ts_diff <? U32_MAX / 2)
      then restart jb sr seq s now
      else if (U32_MAX / 2 <? ts_diff)
              && (max_reasonable_jump <? wsub32 last_ts (sample_timestamp s))
      then restart jb sr seq s now
      else
        let half_sec := sample_clock_rate s / 2 in
        let jb :=
          if sample_marker s && (half_sec <? ts_diff) && (ts_diff <? U32_MAX / 2)
             && negb (length (samples jb) =? 0)%nat
          then with_samples jb [] else jb in
        insert_capped jb seq s now
  end.

Definition push (jb : JitterBuffer) (s : MediaSample) (now : Z) : JitterBuffer :=
  let sr := sample_ssrc s in
  match sample_seq s with
  | None => jb
  | Some seq =>
      if match sr, last_ssrc jb with
         | Some sr, Some prev => negb (prev =? sr)
         | _, _ => false
         end
      then restart jb sr seq s now
      else
        let jb :=
          match sr, last_ssrc jb with
          | Some _, None => with_last_ssrc jb sr
          | _, _ => jb
          end in
        match last_delivered_seq jb with
        | Some last =>
            if negb (is_newer seq last) then jb else
            let gap := wsub16 seq last in
            if (MAX_SEQ_GAP <? gap) && (gap <? 32768) then restart jb sr seq s now else
            push_checked jb sr seq s now
        | None => push_checked jb sr seq s now
        end
  end.

Definition get_first_seq (jb : JitterBuffer) : option Z :=
  match samples jb with
  | [] => None
  | _ =>
      match last_delivered_seq jb with
      | None =>
          k0 ← bt_first (samples jb);
          kn ← bt_last (samples jb);
          if is_newer k0 kn then Some kn else Some k0
      | Some last =>
          let next_expected := wadd16 last 1 in
          if last <? next_expected then
            match bt_first (bt_from next_expected (samples jb)) with
            | Some s => Some s
            | None => bt_first (samples jb)
            end
          else bt_first (bt_from 0 (samples jb))
      end
  end.

(** Whether the first sample continues the delivered sequence. *)
Definition is_next (jb : JitterBuffer) (first_seq : Z) : bool :=
  match last_delivered_seq jb with
  | Some last => first_seq =? wadd16 last 1
  | None => true
  end.

(** [unwrap] of a missing entry would abort. *)
Definition pop (jb : JitterBuffer) (now : Z) : res Empty_set (option MediaSample * JitterBuffer) :=
  match get_first_seq jb with
  | None => Ok (None, jb)
  | Some first_seq =>
      buffered ← or_panic (bt_get first_seq (samples jb));
      let age := duration_since now (arrival buffered) in
      let should_deliver :=
        if is_next jb first_seq then min_delay jb <=? age else max_delay jb <=? age in
      if should_deliver then
        Ok (Some (sample buffered),
            {| samples := bt_remove first_seq (samples jb);
               last_delivered_seq := Some first_seq;
               last_delivered_timestamp := Some (sample_timestamp (sample buffered));
               last_ssrc := last_ssrc jb; max_delay := max_delay jb;
               min_delay := min_delay jb; capacity := capacity jb |})
      else Ok (None, jb)
  end.

Definition next_pop_wait (jb : JitterBuffer) (now : Z) : res Empty_set (option Z) :=
  match get_first_seq jb with
  | None => Ok None
  | Some first_seq =>
      buffered ← or_panic (bt_get first_seq (samples jb));
      let age := duration_since now (arrival buffered) in
      let target_delay := if is_next jb first_seq then min_delay jb else max_delay jb in
      if target_delay <=? age then Ok (Some 0) else Ok (Some (target_delay - age))
  end.

Definition awaiting_next (jb : JitterBuffer) : bool :=
  bool_decide (is_Some (last_delivered_seq jb)) && (length (samples jb) =? 0)%nat.

Definition is_empty (jb : JitterBuffer) : bool := (length (samples jb) =? 0)%nat.

(** ** The buffer invariant

    Every key is a sequence number.  Before the first delivery of a stream the
    buffered numbers lie within [W] of each other, without wrap-around; after
    it, the buffer only holds numbers 1 to [W] ahead of the last delivered one,
    modulo 2^16.  [push] itself admits numbers up to [MAX_SEQ_GAP] ahead. *)

Definition keys (jb : JitterBuffer) : list Z := (samples jb).*1.

Section window.
Context (W : Z) (HW : 64 ≤ W < 32768).

Record jb_ok (jb : JitterBuffer) : Prop := {
  ok_sorted : bt_wf (samples jb);
  ok_u16 : Forall u16 (keys jb);
  ok_seq : ∀ k b, (k, b) ∈ samples jb → sample_seq (sample b) = Some k;
  ok_window : match last_delivered_seq jb with
              | Some l => u16 l ∧ ∀ k, k ∈ keys jb → 1 ≤ wsub16 k l ≤ W
              | None => ∀ k k', k ∈ keys jb → k' ∈ keys jb → k' - k ≤ W
              end;
}.

(** What a sample must satisfy to be pushed: its sequence number is a [u16],
    and before the first delivery it is within [W] of the buffered ones. *)
Definition pushable (jb : JitterBuffer) (s : MediaSample) : Prop :=
  ∀ seq, sample_seq s = Some seq →
    u16 seq ∧ (last_delivered_seq jb = None → ∀ k, k ∈ keys jb → Z.abs (seq - k) ≤ W).

Lemma restart_ok jb sr seq s now :
  u16 seq → sample_seq s = Some seq → jb_ok (restart jb sr seq s now).
Proof.
  intros Hu Hs. destruct sr; (split; cbn; [by repeat constructor|by apply Forall_singleton| |]);
    (intros k b [= -> ->]%list_elem_of_singleton; done) ||
    (intros k k' ->%list_elem_of_singleton ->%list_elem_of_singleton; lia).
Qed.

(** Inserting a sequence number of the window. *)
Lemma insert_ok jb seq s now :
  jb_ok jb → u16 seq → sample_seq s = Some seq →
  match last_delivered_seq jb with
  | Some l => 1 ≤ wsub16 seq l ≤ W
  | None => ∀ k, k ∈ keys jb → Z.abs (seq - k) ≤ W
  end → jb_ok (insert_sample jb seq s now).
Proof.
  intros [Hw Hu Hsq Hwin] Hs Hss Hseq. split; cbn.
  - by apply bt_insert_wf.
  - apply Forall_forall. intros k [->|Hk]%bt_insert_keys; [done|].
    rewrite Forall_forall in Hu. by apply Hu.
  - intros k b [[= -> ->]|Hk]%bt_insert_elem; [done|]. by apply Hsq.
  - unfold keys; cbn. destruct (last_delivered_seq jb) as [l|].
    + destruct Hwin as [Hl Hwin]. split; [done|].
      intros k [->|Hk]%bt_insert_keys; [done|]. by apply Hwin.
    + intros k k' [->|Hk]%bt_insert_keys [->|Hk']%bt_insert_keys; [lia| | |by apply Hwin].
      * specialize (Hseq k' Hk'). lia.
      * specialize (Hseq k Hk). lia.
Qed.

(** Dropping entries keeps the invariant. *)
Lemma with_samples_ok jb m :
  jb_ok jb → bt_wf m → (∀ kv, kv ∈ m → kv ∈ samples jb) → jb_ok (with_samples jb m).
Proof.
  intros [Hw Hu Hsq Hwin] Hm Hsub.
  assert (∀ k, k ∈ m.*1 → k ∈ keys jb) as Hkeys.
  { intros k (kv & -> & Hkv)%list_elem_of_fmap. apply list_elem_of_fmap. eauto. }
  split; [done| | |].
  - rewrite Forall_forall in *. intros k Hk. by apply Hu, Hkeys.
  - intros k b Hk. by apply Hsq, Hsub.
  - unfold keys; cbn. destruct (last_delivered_seq jb) as [l|].
    + destruct Hwin as [Hl Hwin]. split; [done|]. intros k Hk. by apply Hwin, Hkeys.
    + intros k k' Hk Hk'. apply Hwin; by apply Hkeys.
Qed.

Lemma bt_tail_wf {V} (m : list (Z * V)) : bt_wf m → bt_wf (tail m).
Proof. destruct m as [|[k v] m]; [done|]. by intros [? _]%bt_wf_cons. Qed.

Lemma tail_elem {A} (m : list A) x : x ∈ tail m → x ∈ m.
Proof. destruct m; [done|]. cbn. by right. Qed.

Lemma tail_keys {V} (m : list (Z * V)) k : k ∈ (tail m).*1 → k ∈ m.*1.
Proof. destruct m; [done|]. cbn. by right. Qed.

Lemma push_checked_ok jb sr seq s now :
  jb_ok jb → u16 seq → sample_seq s = Some seq →
  match last_delivered_seq jb with
  | Some l => 1 ≤ wsub16 seq l ≤ W
  | None => ∀ k, k ∈ keys jb → Z.abs (seq - k) ≤ W
  end → jb_ok (push_checked jb sr seq s now).
Proof.
  intros Hok Hs Hss Hseq. unfold push_checked.
  assert (∀ jb', jb_ok jb' → last_delivered_seq jb' = last_delivered_seq jb →
    (∀ k, k ∈ keys jb' → k ∈ keys jb) →
    jb_ok (insert_capped jb' seq s now)) as Hins.
  { intros jb' Hok' Hl Hsub. unfold insert_capped. destruct (_ <=? _)%nat; apply insert_ok; try done.
    - apply with_samples_ok; [done|apply bt_tail_wf, Hok'|apply tail_elem].
    - cbn. rewrite Hl. destruct (last_delivered_seq jb); [done|].
      intros k Hk. apply Hseq, Hsub, tail_keys, Hk.
    - rewrite Hl. destruct (last_delivered_seq jb); [done|]. auto. }
  destruct (last_delivered_timestamp jb); [|by apply Hins].
  destruct (_ && _); [by apply restart_ok|]. destruct (_ && _); [by apply restart_ok|].
  destruct (_ && negb _); [|by apply Hins].
  assert (∀ k, k ∈ keys (with_samples jb []) → k ∈ keys jb) by (cbn; set_solver).
  apply Hins; [|done..]. apply with_samples_ok; [done|constructor|set_solver].
Qed.

Lemma push_ok jb s now : jb_ok jb → pushable jb s → jb_ok (push jb s now).
Proof.
  intros Hok Hp. unfold push. destruct (sample_seq s) as [seq|] eqn:Hseq; [|done].
  destruct (Hp seq Hseq) as [Hu Hnear].
  destruct (match sample_ssrc s with Some _ => _ | None => _ end); [by apply restart_ok|].
  set (jb' := match sample_ssrc s with Some _ => _ | None => _ end).
  assert (jb_ok jb' ∧ last_delivered_seq jb' = last_delivered_seq jb ∧ keys jb' = keys jb)
    as (Hok' & Hl & Hk).
  { subst jb'. destruct (sample_ssrc s), (last_ssrc jb); try done.
    split; [|done]. by destruct Hok. }
  clearbody jb'. destruct (last_delivered_seq jb') as [l|] eqn:Hlast.
  - destruct (is_newer seq l) eqn:Hnew; cbn [negb]; [|done].
    destruct (_ && _) eqn:Hgap; [by apply restart_ok|].
    apply push_checked_ok; [done..|]. rewrite Hlast. unfold is_newer in Hnew.
    destruct (Z.eqb_spec seq l); [done|]. unfold MAX_SEQ_GAP in Hgap.
    destruct Hok' as [_ _ _ Hwin]. rewrite Hlast in Hwin. destruct Hwin as [Hul _]. mlia.
  - apply push_checked_ok; [done..|]. rewrite Hlast, Hk. apply Hnear. congruence.
Qed.

(** ** Delivery order *)

(** Every other buffered sequence number follows [f] within the window. *)
Definition circular_first (jb : JitterBuffer) (f : Z) : Prop :=
  f ∈ keys jb ∧ (∀ k, k ∈ keys jb → k ≠ f → 1 ≤ wsub16 k f ≤ W) ∧
  (∀ l, last_delivered_seq jb = Some l → 1 ≤ wsub16 f l ≤ W).

Lemma get_first_seq_None jb : jb_ok jb → get_first_seq jb = None ↔ samples jb = [].
Proof.
  intros [Hw Hu _ Hwin]. unfold get_first_seq, keys in *. destruct (samples jb) as [|[k0 v0] m]; [done|].
  split; [|done]. destruct (last_delivered_seq jb) as [l|].
  - cbn [bt_first head fmap option_fmap option_map fst]. destruct (l <? wadd16 l 1).
    + by destruct (bt_first _).
    + unfold bt_from. rewrite filter_cons_True; [done|]. cbn. cbn in Hu. apply Forall_cons in Hu as [? _]. ulia.
  - cbn [bt_first head fmap option_fmap option_map fst mbind option_bind]. unfold bt_last.
    destruct (last ((k0, v0) :: m)) eqn:Hlast; [cbn; by case_match|]. by apply last_None in Hlast.
Qed.

Lemma get_first_seq_spec jb f : jb_ok jb → get_first_seq jb = Some f → circular_first jb f.
Proof.
  intros [Hw Hu _ Hwin] Hf. rewrite Forall_forall in Hu. unfold circular_first.
  unfold get_first_seq in Hf. destruct (samples jb) as [|kv m] eqn:Hm; [done|].
  rewrite <- Hm in Hf, Hw. clear Hm kv m. fold (keys jb) in *.
  destruct (last_delivered_seq jb) as [l|].
  - destruct Hwin as [Hl Hwin].
    assert (f ∈ keys jb ∧ ∀ k, k ∈ keys jb → (f ≤ k ∨ k ≤ l) ∧ (l < f ∨ f ≤ k ≤ l)) as [Hin Hleast].
    { destruct (Z.ltb_spec l (wadd16 l 1)).
      - assert (wadd16 l 1 = l + 1) as Hn by mlia. rewrite Hn in Hf.
        destruct (bt_first (bt_from (l + 1) (samples jb))) as [f'|] eqn:Hr.
        + injection Hf as ->. apply bt_from_first in Hr as (? & ? & Hleast); [|done].
          split; [done|]. intros k Hk. specialize (Hleast k Hk). lia.
        + apply bt_first_least in Hf as [? Hleast]; [|done]. split; [done|]. intros k Hk.
          specialize (Hleast k Hk). pose proof (bt_from_first_None _ _ k Hr Hk). lia.
      - apply bt_from_first in Hf as (? & ? & Hleast); [|done]. split; [done|].
        intros k Hk. pose proof (Hu k Hk). specialize (Hleast k Hk). assert (l = 65535) by mlia. ulia. }
    pose proof (Hwin f Hin). pose proof (Hu f Hin). split_and!; [done| |].
    + intros k Hk Hne. specialize (Hwin k Hk). specialize (Hleast k Hk). specialize (Hu k Hk). mlia.
    + by intros l' [= ->].
  - destruct (bt_first (samples jb)) as [k0|] eqn:H0; [|done].
    destruct (bt_last (samples jb)) as [kn|] eqn:Hn; [|done]. cbn in Hf.
    apply bt_first_least in H0 as [Hk0 Hleast]; [|done].
    apply bt_last_greatest in Hn as [Hkn Hgreatest]; [|done].
    assert (is_newer k0 kn = false) as Hnew.
    { unfold is_newer. destruct (Z.eqb_spec k0 kn); [done|]. apply Z.ltb_ge.
      pose proof (Hwin k0 kn Hk0 Hkn). pose proof (Hleast kn Hkn).
      pose proof (Hu k0 Hk0). pose proof (Hu kn Hkn). mlia. }
    rewrite Hnew in Hf. injection Hf as <-. split_and!; [done| |done].
    intros k Hk Hne. pose proof (Hwin k0 k Hk0 Hk). pose proof (Hleast k Hk).
    pose proof (Hu k Hk). pose proof (Hu k0 Hk0). mlia.
Qed.

Lemma pop_ok jb now :
  jb_ok jb →
  ∃ o jb', pop jb now = Ok (o, jb') ∧ jb_ok jb' ∧ capacity jb' = capacity jb ∧
    (length (samples jb') ≤ length (samples jb))%nat ∧
    match o with
    | None => jb' = jb
    | Some s => ∃ f, circular_first jb f ∧ sample_seq s = Some f ∧
        last_delivered_seq jb' = Some f ∧ ∀ k, k ∈ keys jb' ↔ k ≠ f ∧ k ∈ keys jb
    end.
Proof.
  intros Hok. unfold pop. destruct (get_first_seq jb) as [f|] eqn:Hf.
  2:{ exists None, jb. by split_and!. }
  apply get_first_seq_spec in Hf as (Hin & Hfirst & Hnew); [|done].
  destruct (proj2 (bt_get_elem f (samples jb)) Hin) as [b Hb]. rewrite Hb. run.
  destruct (if is_next jb f then _ else _).
  2:{ exists None, jb. by split_and!. }
  pose proof Hok as [Hw Hu Hsq Hwin]. eexists _, _. split; [done|].
  unfold keys in *. cbn [samples last_delivered_seq capacity].
  assert (∀ k, k ∈ (bt_remove f (samples jb)).*1 ↔ k ≠ f ∧ k ∈ (samples jb).*1) as Hrem
    by (intros; by apply bt_remove_keys).
  split_and!; [|done|apply bt_remove_length|].
  - rewrite Forall_forall in Hu. split; cbn; [by apply bt_remove_wf| | |].
    + apply Forall_forall. intros k [_ Hk]%Hrem. by apply Hu.
    + intros k b' Hk%bt_remove_elem. by apply Hsq.
    + split; [by apply Hu|]. intros k [Hne Hk]%Hrem. by apply Hfirst.
  - exists f. split_and!; try done. by apply Hsq, bt_get_Some_elem.
Qed.

(** ** The buffer stays within its capacity *)

(** A buffer of capacity 0 still holds one sample. *)
Definition capped (cap : nat) (jb : JitterBuffer) : Prop :=
  capacity jb = cap ∧ (length (samples jb) ≤ Nat.max 1 cap)%nat.

Lemma restart_capped jb sr seq s now : capped (capacity jb) (restart jb sr seq s now).
Proof. split; [by destruct sr|]. destruct sr; cbn; lia. Qed.

Lemma insert_capped_capped cap jb seq s now :
  capped cap jb → capped cap (insert_capped jb seq s now).
Proof.
  intros [Hc Hl]. unfold insert_capped.
  destruct (Nat.leb_spec (capacity jb) (length (samples jb))); (split; [done|]); cbn;
    (etrans; [apply bt_insert_length|]); [|lia].
  destruct (samples jb); cbn in *; lia.
Qed.

#[local] Hint Resolve restart_capped insert_capped_capped : wire.

Lemma push_checked_capped cap jb sr seq s now :
  capped cap jb → capped cap (push_checked jb sr seq s now).
Proof.
  intros Hc. pose proof Hc as [<- _]. unfold push_checked.
  destruct (last_delivered_timestamp jb); [|auto with wire].
  repeat (destruct (_ && _); [by auto with wire|]).
  destruct (_ && negb _); auto with wire.
  apply insert_capped_capped. split; cbn; [done|lia].
Qed.

Lemma push_capped cap jb s now : capped cap jb → capped cap (push jb s now).
Proof.
  intros Hc. pose proof Hc as [Hcap _]. unfold push. destruct (sample_seq s) as [seq|]; [|done].
  destruct (match sample_ssrc s with Some _ => _ | None => _ end).
  { subst cap. apply restart_capped. }
  set (jb' := match sample_ssrc s with Some _ => _ | None => _ end).
  assert (capped cap jb') as Hc' by (subst jb'; by destruct (sample_ssrc s), (last_ssrc jb)).
  pose proof Hc' as [<- _]. destruct (last_delivered_seq jb'); [|by apply push_checked_capped].
  destruct (negb _); [done|]. destruct (_ && _); auto using push_checked_capped with wire.
Qed.

(** ** Every run of the buffer *)

(** What makes [push] give up the stream it was delivering: another SSRC, a
    number more than 64 ahead of the last delivered one, or a time stamp more
    than two (audio) or five (video) seconds from that one's. *)
Definition time_jump (jb : JitterBuffer) (s : MediaSample) : Prop :=
  ∃ t, last_delivered_timestamp jb = Some t ∧
    let limit := match s with
                 | SampleAudio _ => sat_mul32 (sample_clock_rate s) AUDIO_TS_JUMP_SECS
                 | SampleVideo _ => sat_mul32 90000 VIDEO_TS_JUMP_SECS
                 end in
    limit < wsub32 (sample_timestamp s) t ∧ limit < wsub32 t (sample_timestamp s).
Definition discontinuous (jb : JitterBuffer) (s : MediaSample) : Prop :=
  (∃ a b, sample_ssrc s = Some a ∧ last_ssrc jb = Some b ∧ a ≠ b) ∨
  (∃ seq l, sample_seq s = Some seq ∧ last_delivered_seq jb = Some l ∧ MAX_SEQ_GAP < wsub16 seq l < 32768) ∨
  time_jump jb s.

(** The sequence numbers delivered in each stream, the latest first. *)
Definition pushed_streams (before after : option Z) (streams : list (list Z)) : list (list Z) :=
  match before, after with
  | Some _, None => [] :: streams
  | _, _ => streams
  end.
Definition popped_streams (o : option Z) (streams : list (list Z)) : list (list Z) :=
  match o, streams with
  | Some f, current :: old => (f :: current) :: old
  | _, _ => streams
  end.

(** The states reached from a new buffer by pushes and pops, with everything
    delivered on the way *)
Inductive reach (min_delay max_delay : Z) (cap : nat) : JitterBuffer → list (list Z) → Prop :=
| reach_new : reach min_delay max_delay cap (JitterBuffer_new min_delay max_delay cap) [[]]
| reach_push jb ds s now :
    reach min_delay max_delay cap jb ds → pushable jb s →
    reach min_delay max_delay cap (push jb s now)
      (pushed_streams (last_delivered_seq jb) (last_delivered_seq (push jb s now)) ds)
| reach_pop jb ds now jb' o :
    reach min_delay max_delay cap jb ds → pop jb now = Ok (o, jb') →
    reach min_delay max_delay cap jb' (popped_streams (o ≫= sample_seq) ds).

(** Consecutive deliveries advance by 1 to [W]. *)
Fixpoint advancing (ds : list Z) : Prop :=
  match ds with
  | a :: ((b :: _) as r) => 1 ≤ wsub16 a b ≤ W ∧ advancing r
  | _ => True
  end.

Lemma restart_last jb sr seq s now : last_delivered_seq (restart jb sr seq s now) = None.
Proof. by destruct sr. Qed.
Lemma insert_capped_last jb seq s now : last_delivered_seq (insert_capped jb seq s now) = last_delivered_seq jb.
Proof. unfold insert_capped. by destruct (_ <=? _)%nat. Qed.

Lemma push_checked_last jb sr seq s now :
  last_delivered_seq (push_checked jb sr seq s now) = last_delivered_seq jb ∨
  last_delivered_seq (push_checked jb sr seq s now) = None ∧ time_jump jb s.
Proof.
  unfold push_checked. destruct (last_delivered_timestamp jb) as [t|] eqn:Et; [|left; apply insert_capped_last].
  set (limit := match s with SampleAudio _ => _ | SampleVideo _ => _ end).
  destruct ((limit <? _) && _) eqn:E1; [|destruct ((_ <? _) && (limit <? _)) eqn:E2].
  1,2: right; split; [apply restart_last|exists t; split; [done|]; cbv zeta; fold limit].
  - apply andb_true_iff in E1 as [E1%Z.ltb_lt E2%Z.ltb_lt]. clearbody limit.
    change (U32_MAX / 2) with 2147483647 in *. unfold wsub32, as_u32 in *. lia.
  - apply andb_true_iff in E2 as [E2%Z.ltb_lt E3%Z.ltb_lt]. clearbody limit.
    change (U32_MAX / 2) with 2147483647 in *. unfold wsub32, as_u32 in *. lia.
  - left. rewrite insert_capped_last. by destruct (_ && negb _).
Qed.

Lemma push_last jb s now :
  last_delivered_seq (push jb s now) = last_delivered_seq jb ∨
  last_delivered_seq (push jb s now) = None ∧ discontinuous jb s.
Proof.
  unfold push. destruct (sample_seq s) as [seq|] eqn:Es; [|by left].
  destruct (match sample_ssrc s with Some _ => _ | None => _ end) eqn:Er.
  { right. split; [apply restart_last|]. left. destruct (sample_ssrc s) as [a|]; [|done]. destruct (last_ssrc jb) as [b|]; [|done].
    exists a, b. split_and!; try done. intros ->. by rewrite Z.eqb_refl in Er. }
  set (jb' := match sample_ssrc s with Some _ => _ | None => _ end).
  assert (last_delivered_seq jb' = last_delivered_seq jb ∧ last_delivered_timestamp jb' = last_delivered_timestamp jb) as [El Et]
    by (subst jb'; by destruct (sample_ssrc s), (last_ssrc jb)).
  assert (last_delivered_seq (push_checked jb' (sample_ssrc s) seq s now) = last_delivered_seq jb ∨
          last_delivered_seq (push_checked jb' (sample_ssrc s) seq s now) = None ∧ discontinuous jb s) as Hpc.
  { rewrite <- El. destruct (push_checked_last jb' (sample_ssrc s) seq s now) as [?|[? Hj]]; [by left|]. right. split; [done|]. right. right. unfold time_jump in *. by rewrite <- Et. }
  rewrite El in *. destruct (last_delivered_seq jb) as [l|] eqn:Hl; [|done].
  destruct (negb _); [left; congruence|]. destruct (_ && _) eqn:Eg; [|done].
  right. split; [apply restart_last|]. right. left. exists seq, l. apply andb_true_iff in Eg as [?%Z.ltb_lt ?%Z.ltb_lt]. done.
Qed.

Lemma reach_inv mind maxd cap jb ds :
  reach mind maxd cap jb ds →
  jb_ok jb ∧ capped cap jb ∧ head ds ≫= head = last_delivered_seq jb ∧ ds ≠ [] ∧ Forall advancing ds.
Proof.
  induction 1 as [|jb ds s now _ (Hok & Hc & Hh & Hne & Ha) Hp|jb ds now jb' o _ (Hok & Hc & Hh & Hne & Ha) Hpop].
  - split; [split; cbn; [constructor|constructor|set_solver|set_solver]|].
    split; [split; cbn; [done|lia]|]. by repeat constructor.
  - split; [by apply push_ok|]. split; [by apply push_capped|]. unfold pushed_streams.
    destruct (push_last jb s now) as [Hl|[Hl _]]; rewrite Hl; destruct (last_delivered_seq jb); try done. by repeat constructor.
  - destruct (pop_ok jb now Hok) as (o' & jb2 & Hpop' & Hok' & Hcap & Hlen & Ho).
    rewrite Hpop in Hpop'. injection Hpop' as <- <-. destruct Hc as [Hc1 Hc2].
    split; [done|]. split; [split; [congruence|lia]|].
    destruct o as [s|]; [|by subst jb'].
    destruct Ho as (f & (_ & _ & Hnew) & Hs & Hl & _). cbn. rewrite Hs, Hl. unfold popped_streams.
    destruct ds as [|cur old]; [done|]. cbn in Hh. apply Forall_cons in Ha as [Ha1 Ha2].
    split; [done|]. split; [done|]. constructor; [|done]. destruct cur as [|l cur]; [done|]. cbn in Hh. split; [by apply Hnew|done].
Qed.

(** C20: In every state that pushes and pops reach, when the numbers buffered
    before the first delivery of a stream are within W of each other without
    wrapping (64 to 32767): in each stream the delivered numbers advance by 1 to
    W each; a stream ends, and a push forgets the last delivered number, only at
    a sample with another SSRC, a number more than 64 ahead or a time stamp out
    of range; the buffer holds at most its capacity (one sample when that is 0);
    and pop never aborts and delivers a buffered packet that no remaining one
    precedes. *)
Theorem jitter_delivery_order mind maxd cap jb ds now :
  reach mind maxd cap jb ds →
  Forall advancing ds ∧ head ds ≫= head = last_delivered_seq jb ∧
  (length (samples jb) ≤ Nat.max 1 cap)%nat ∧
  (∀ s, last_delivered_seq (push jb s now) = last_delivered_seq jb ∨ discontinuous jb s) ∧
  ∃ o jb', pop jb now = Ok (o, jb') ∧
    match o with
    | None => jb' = jb
    | Some s => ∃ f, sample_seq s = Some f ∧ f ∈ keys jb ∧
        (∀ k, k ∈ keys jb' ↔ k ≠ f ∧ k ∈ keys jb) ∧
        (∀ k, k ∈ keys jb' → is_newer k f = true)
    end.
Proof.
  intros (Hok & [_ Hlen] & Hh & _ & Ha)%reach_inv. split_and!; [done..| |].
  { intros s. destruct (push_last jb s now) as [?|[_ ?]]; auto. }
  destruct (pop_ok jb now Hok) as (o & jb' & Hpop & _ & _ & _ & Ho). exists o, jb'.
  split; [done|]. destruct o as [s|]; [|done].
  destruct Ho as (f & (Hin & Hfirst & _) & Hs & _ & Hk). exists f. split_and!; try done.
  intros k [Hne Hkk]%Hk. unfold is_newer. rewrite (proj2 (Z.eqb_neq _ _)) by done.
  specialize (Hfirst k Hkk Hne). lia.
Qed.

(** In a well-formed buffer pop delivers exactly when next_pop_wait is
    zero, next_pop_wait is None exactly when the buffer is empty, and is never
    negative. *)
Theorem jitter_pop_wait jb now :
  jb_ok jb →
  ∃ o jb' w, pop jb now = Ok (o, jb') ∧ next_pop_wait jb now = Ok w ∧
    (is_Some o ↔ w = Some 0) ∧ (w = None ↔ is_empty jb = true) ∧
    (∀ d, w = Some d → 0 ≤ d).
Proof.
  intros Hok. unfold pop, next_pop_wait, is_empty.
  destruct (get_first_seq jb) as [f|] eqn:Hf.
  - pose proof (get_first_seq_spec jb f Hok Hf) as (Hin & _ & _).
    destruct (proj2 (bt_get_elem f (samples jb)) Hin) as [b Hb]. rewrite Hb. run.
    assert ((length (samples jb) =? 0)%nat = false) as ->.
    { unfold keys in Hin. destruct (samples jb); [set_solver|done]. }
    set (age := duration_since now (arrival b)).
    set (delay := if is_next jb f then min_delay jb else max_delay jb).
    assert ((if is_next jb f then min_delay jb <=? age else max_delay jb <=? age) = (delay <=? age))
      as -> by (subst delay; by destruct (is_next jb f)).
    destruct (Z.leb_spec delay age); eexists _, _, _; split_and!; try done.
    + intros d [= <-]. lia.
    + split; [by intros [? [=]]|]. intros [=]. lia.
    + intros d [= <-]. lia.
  - eexists _, _, _. apply get_first_seq_None in Hf; [|done]. rewrite Hf.
    split_and!; try done.
Qed.

End window.

(** ** Example runs *)

Definition audio (seq ts : Z) : MediaSample := SampleAudio {|
  af_rtp_timestamp := ts; af_clock_rate := 8000; af_data := []; af_sequence_number := Some seq;
  af_payload_type := Some 0; af_marker := false; af_header_extension := None;
  af_source_addr := None; af_raw_packet := None |}.

(** Ten milliseconds of delay before a sample in order is delivered. *)
Definition ms : Z := 1000000.
Definition sample_jb0 : JitterBuffer := push (JitterBuffer_new (10 * ms) (60 * ms) 8) (audio 65535 0) 0.
Definition sample_jb1 : JitterBuffer :=
  match pop sample_jb0 (10 * ms) with Ok (_, jb) => jb | _ => sample_jb0 end.
Definition sample_jb2 : JitterBuffer := push (push sample_jb1 (audio 2 480) (20 * ms)) (audio 0 160) (21 * ms).
Definition sample_jb3 : JitterBuffer :=
  match pop sample_jb2 (31 * ms) with Ok (_, jb) => jb | _ => sample_jb2 end.

(** A new stream, 200 ahead, starts with packets that are 200 apart. *)
Definition sample_jb4 : JitterBuffer := push (push sample_jb3 (audio 202 32000) (40 * ms)) (audio 402 64000) (41 * ms).

Lemma sample_pushable W jb seq ts l :
  last_delivered_seq jb = Some l → u16 seq → pushable W jb (audio seq ts).
Proof. intros Hl Hs seq' [= <-]. split; [done|]. by rewrite Hl. Qed.

Lemma sample_reach : reach 200 (10 * ms) (60 * ms) 8 sample_jb4 [[]; [0; 65535]].
Proof.
  assert (reach 200 (10 * ms) (60 * ms) 8 sample_jb1 [[65535]]) as H1.
  { eapply (reach_pop _ _ _ _ sample_jb0 [[]] (10 * ms) sample_jb1 (Some (audio 65535 0))); [|done].
    refine (reach_push _ _ _ _ (JitterBuffer_new (10 * ms) (60 * ms) 8) [[]] (audio 65535 0) 0 _ _);
      [constructor|]. intros ? [= <-]. split; [done|]. set_solver. }
  assert (reach 200 (10 * ms) (60 * ms) 8 sample_jb3 [[0; 65535]]) as H3.
  { eapply (reach_pop _ _ _ _ sample_jb2 [[65535]] (31 * ms) sample_jb3 (Some (audio 0 160))); [|done].
    refine (reach_push _ _ _ _ (push sample_jb1 (audio 2 480) (20 * ms)) [[65535]] (audio 0 160) (21 * ms) _ _);
      [|by eapply (sample_pushable _ _ _ _ 65535)].
    refine (reach_push _ _ _ _ sample_jb1 [[65535]] (audio 2 480) (20 * ms) _ _);
      [done|by eapply (sample_pushable _ _ _ _ 65535)]. }
  refine (reach_push _ _ _ _ (push sample_jb3 (audio 202 32000) (40 * ms)) [[]; [0; 65535]] (audio 402 64000) (41 * ms) _ _).
  - refine (reach_push _ _ _ _ sample_jb3 [[0; 65535]] (audio 202 32000) (40 * ms) _ _); [done|by eapply (sample_pushable _ _ _ _ 0)].
  - intros ? [= <-]. split; [done|]. intros _ k Hk.
    change (keys _) with [202] in Hk. apply list_elem_of_singleton in Hk as ->. lia.
Qed.

Lemma jitter_delivery_order_witness :
  ∃ s jb', pop sample_jb4 (100 * ms) = Ok (Some s, jb') ∧ sample_seq s = Some 202 ∧ keys jb' = [402].
Proof.
  destruct (jitter_delivery_order 200 ltac:(lia) (10 * ms) (60 * ms) 8 sample_jb4 [[]; [0; 65535]] (100 * ms) sample_reach)
    as (_ & _ & _ & _ & o & jb' & E & Ho).
  destruct o as [s|]; [|by vm_compute in E]. exists s, jb'. split; [exact E|]. vm_compute in E. injection E as <- <-. done.
Defined.

(** The sequence numbers delivered by repeated pops at one instant. *)
Fixpoint drain (fuel : nat) (jb : JitterBuffer) (now : Z) : list Z :=
  match fuel with
  | O => []
  | S fuel =>
      match pop jb now with
      | Ok (Some s, jb) => default 0 (sample_seq s) :: drain fuel jb now
      | _ => []
      end
  end.

(** Packets 65534, 65535 and 0 buffered before the first delivery leave the
    jitter buffer as 65535, 0, 65534, although the first precedes both others.
    *)
Theorem jitter_startup_wrap :
  let jb := JitterBuffer_new (10 * ms) (60 * ms) 8 in
  let jb := push (push (push jb (audio 65534 0) 0) (audio 65535 160) 0) (audio 0 320) 0 in
  drain 3 jb (100 * ms) = [65535; 0; 65534] ∧
  is_newer 65535 65534 = true ∧ is_newer 0 65534 = true.
Proof. vm_compute. done. Qed.
