(* ===== verification/Stun.v ===== *)
(** * STUN messages ([src/transports/ice/stun.rs])

    Encoding and decoding of STUN/TURN messages.  The HMAC-SHA1 and CRC-32
    implementations (crates [hmac], [sha1] and [crc32fast]) are parameters.
    Strings are their UTF-8 bytes. *)
From Equations Require Import Equations.
From S2P Require Import Prelude Core Utf8.

Definition MAGIC_COOKIE : Z := 0x2112A442.
Definition FINGERPRINT_XOR : Z := 0x5354554e.

Inductive StunClass := Request | Indication | SuccessResponse | ErrorResponse.

Inductive StunMethod :=
| Binding | Allocate | Refresh | CreatePermission | ChannelBind | Send | MethodData.

Inductive StunAttribute :=
| Username (s : list Z)
| Realm (s : list Z)
| Nonce (s : list Z)
| Software (s : list Z)
| RequestedTransport (v : Z)
| Lifetime (v : Z)
| Priority (v : Z)
| IceControlling (v : Z)
| IceControlled (v : Z)
| UseCandidate
| XorPeerAddress (a : SocketAddr)
| XorMappedAddress (a : SocketAddr)
| ChannelNumber (v : Z)
| Data (v : list Z).

Record StunMessage := {
  msg_class : StunClass;
  msg_method : StunMethod;
  msg_transaction_id : list Z;
  attributes : list StunAttribute;
}.

Record StunDecoded := {
  class : StunClass;
  method : StunMethod;
  transaction_id : list Z;
  xor_mapped_address : option SocketAddr;
  xor_relayed_address : option SocketAddr;
  xor_peer_address : option SocketAddr;
  error_code : option Z;
  realm : option (list Z);
  nonce : option (list Z);
  data : option (list Z);
  use_candidate : bool;
  lifetime : option Z;
}.

Definition binding_request (tid : list Z) (software : option (list Z)) : StunMessage := {|
  msg_class := Request; msg_method := Binding; msg_transaction_id := tid;
  attributes := match software with Some name => [Software name] | None => [] end |}.

Definition binding_success_response (tid : list Z) (xor_addr : SocketAddr) : StunMessage := {|
  msg_class := SuccessResponse; msg_method := Binding; msg_transaction_id := tid;
  attributes := [XorMappedAddress xor_addr] |}.

Definition allocate_request (tid : list Z) (attrs : list StunAttribute) : StunMessage := {|
  msg_class := Request; msg_method := Allocate; msg_transaction_id := tid; attributes := attrs |}.

(** ** Encoding *)

(** [buffer[a..a + src.len()].copy_from_slice(src)] *)
Definition copy_at (buffer : list Z) (a : nat) (src : list Z) : list Z :=
  take a buffer ++ src ++ drop (a + length src) buffer.

Definition pad_four_bytes (buffer : list Z) : list Z :=
  buffer ++ replicate ((4 - length buffer mod 4) mod 4)%nat 0.

Definition write_length_field (buffer : list Z) (len : nat) : list Z :=
  copy_at buffer 2 (to_be 2 (as_u16 (Z.of_nat len))).

Definition update_length_field (buffer : list Z) : list Z :=
  write_length_field buffer (length buffer - 20).

Definition append_raw_attribute (buffer : list Z) (typ : Z) (value : list Z) : list Z :=
  pad_four_bytes (buffer ++ to_be 2 typ ++ to_be 2 (as_u16 (Z.of_nat (length value))) ++ value).

Definition append_string_attr (buffer : list Z) (typ : Z) (value : list Z) : list Z :=
  append_raw_attribute buffer typ value.

(** [byte ^ mask[i]] along two byte strings *)
Definition xor_bytes (a b : list Z) : list Z := zip_with Z.lxor a b.

Definition append_xor_address (buffer : list Z) (typ : Z) (addr : SocketAddr) (tx_id : list Z)
    : list Z :=
  let cookie := to_be 4 MAGIC_COOKIE in
  pad_four_bytes
    (buffer ++ to_be 2 typ ++
     match addr with
     | AddrV4 octets port =>
         to_be 2 8 ++ [0; 0x01] ++ to_be 2 (Z.lxor port (as_u16 (Z.shiftr MAGIC_COOKIE 16)))
         ++ xor_bytes octets cookie
     | AddrV6 octets port =>
         to_be 2 20 ++ [0; 0x02] ++ to_be 2 (Z.lxor port (as_u16 (Z.shiftr MAGIC_COOKIE 16)))
         ++ xor_bytes (take 4 octets) cookie ++ xor_bytes (drop 4 octets) tx_id
     end).

Definition append_attribute (buffer : list Z) (attr : StunAttribute) (tx_id : list Z) : list Z :=
  match attr with
  | Username v => pad_four_bytes (append_string_attr buffer 0x0006 v)
  | Realm v => pad_four_bytes (append_string_attr buffer 0x0014 v)
  | Nonce v => pad_four_bytes (append_string_attr buffer 0x0015 v)
  | Software v => pad_four_bytes (append_string_attr buffer 0x8022 v)
  | RequestedTransport v =>
      pad_four_bytes (buffer ++ to_be 2 0x0019 ++ to_be 2 4 ++ [v] ++ [0; 0; 0])
  | Lifetime v => pad_four_bytes (buffer ++ to_be 2 0x000D ++ to_be 2 4 ++ to_be 4 v)
  | Priority v => pad_four_bytes (buffer ++ to_be 2 0x0024 ++ to_be 2 4 ++ to_be 4 v)
  | IceControlling v => pad_four_bytes (buffer ++ to_be 2 0x802A ++ to_be 2 8 ++ to_be 8 v)
  | IceControlled v => pad_four_bytes (buffer ++ to_be 2 0x8029 ++ to_be 2 8 ++ to_be 8 v)
  | UseCandidate => pad_four_bytes (buffer ++ to_be 2 0x0025 ++ to_be 2 0)
  | XorPeerAddress addr => append_xor_address buffer 0x0012 addr tx_id
  | XorMappedAddress addr => append_xor_address buffer 0x0020 addr tx_id
  | ChannelNumber v =>
      pad_four_bytes (buffer ++ to_be 2 0x000C ++ to_be 2 4 ++ to_be 2 v ++ [0; 0])
  | Data v => pad_four_bytes (append_raw_attribute buffer 0x0013 v)
  end.

Definition method_bits (m : StunMethod) : Z :=
  match m with
  | Binding => 0x0001 | Allocate => 0x0003 | Refresh => 0x0004 | CreatePermission => 0x0008
  | ChannelBind => 0x0009 | Send => 0x0006 | MethodData => 0x0007
  end.

Definition class_bits (c : StunClass) : Z :=
  match c with
  | Request => 0x0000 | Indication => 0x0010 | SuccessResponse => 0x0100 | ErrorResponse => 0x0110
  end.

Section crypto.
(** [Hmac<Sha1>] and [crc32fast::Hasher] *)
Context (hmac_sha1 : list Z → list Z → list Z) (crc32 : list Z → Z).

Definition encode_stun_message (msg : StunMessage) (integrity_key : option (list Z))
    (fingerprint : bool) : res RtcError (list Z) :=
  let buffer := replicate 20 0 in
  let msg_type := Z.lor (method_bits (msg_method msg)) (class_bits (msg_class msg)) in
  let buffer := copy_at buffer 0 (to_be 2 (as_u16 msg_type)) in
  let buffer := copy_at buffer 4 (to_be 4 MAGIC_COOKIE) in
  let buffer := copy_at buffer 8 (msg_transaction_id msg) in
  let buffer := foldl (λ b a, append_attribute b a (msg_transaction_id msg)) buffer (attributes msg) in
  let buffer := update_length_field buffer in
  let buffer :=
    match integrity_key with
    | Some key =>
        let len_including_mi := (length buffer - 20 + 24)%nat in
        let buffer := write_length_field buffer len_including_mi in
        let hmac := hmac_sha1 key buffer in
        let buffer := append_raw_attribute buffer 0x0008 hmac in
        update_length_field buffer
    | None => buffer
    end in
  let buffer :=
    if fingerprint then
      let len_including_fp := (length buffer - 20 + 8)%nat in
      let buffer := write_length_field buffer len_including_fp in
      let crc := Z.lxor (crc32 buffer) FINGERPRINT_XOR in
      append_raw_attribute buffer 0x8028 (to_be 4 crc)
    else buffer in
  Ok (update_length_field buffer).
End crypto.

(** ** Decoding *)

Definition parse_xor_address (value transaction_id : list Z) : res RtcError (option SocketAddr) :=
  if (length value <? 4)%nat then Ok None else
  family ← idx value 1;
  port ← be_at 2 value 2;
  let port := Z.lxor port (as_u16 (Z.shiftr MAGIC_COOKIE 16)) in
  let cookie := to_be 4 MAGIC_COOKIE in
  if family =? 0x01 then
    if (length value <? 8)%nat then Ok None else
    addr ← slice value 4 8;
    Ok (Some (AddrV4 (xor_bytes addr cookie) port))
  else if family =? 0x02 then
    if (length value <? 20)%nat then Ok None else
    addr ← slice value 4 20;
    Ok (Some (AddrV6 (xor_bytes (take 4 addr) cookie ++ xor_bytes (drop 4 addr) transaction_id) port))
  else Ok None.

Definition decode_method (msg_type : Z) : option StunMethod :=
  let m := Z.land msg_type 0x3EEF in
  if m =? 0x0001 then Some Binding else
  if m =? 0x0003 then Some Allocate else
  if m =? 0x0004 then Some Refresh else
  if m =? 0x0008 then Some CreatePermission else
  if m =? 0x0009 then Some ChannelBind else
  if m =? 0x0006 then Some Send else
  if m =? 0x0007 then Some MethodData else None.

Definition decode_class (msg_type : Z) : option StunClass :=
  let c := Z.land msg_type 0x0110 in
  if c =? 0x0000 then Some Request else
  if c =? 0x0010 then Some Indication else
  if c =? 0x0100 then Some SuccessResponse else
  if c =? 0x0110 then Some ErrorResponse else None.

(** The [match typ] of the attribute loop. *)
Definition decode_attr (typ : Z) (value : list Z) (d : StunDecoded) : res RtcError StunDecoded :=
  let set_addr (f : SocketAddr → StunDecoded) : res RtcError StunDecoded :=
    o ← parse_xor_address value (transaction_id d);
    Ok (match o with Some addr => f addr | None => d end) in
  if typ =? 0x0020 then
    set_addr (λ a, {| class := class d; method := method d; transaction_id := transaction_id d;
      xor_mapped_address := Some a; xor_relayed_address := xor_relayed_address d;
      xor_peer_address := xor_peer_address d; error_code := error_code d; realm := realm d;
      nonce := nonce d; data := data d; use_candidate := use_candidate d; lifetime := lifetime d |})
  else if typ =? 0x0016 then
    set_addr (λ a, {| class := class d; method := method d; transaction_id := transaction_id d;
      xor_mapped_address := xor_mapped_address d; xor_relayed_address := Some a;
      xor_peer_address := xor_peer_address d; error_code := error_code d; realm := realm d;
      nonce := nonce d; data := data d; use_candidate := use_candidate d; lifetime := lifetime d |})
  else if typ =? 0x0012 then
    set_addr (λ a, {| class := class d; method := method d; transaction_id := transaction_id d;
      xor_mapped_address := xor_mapped_address d; xor_relayed_address := xor_relayed_address d;
      xor_peer_address := Some a; error_code := error_code d; realm := realm d;
      nonce := nonce d; data := data d; use_candidate := use_candidate d; lifetime := lifetime d |})
  else if typ =? 0x0009 then
    if (4 <=? length value)%nat then
      v2 ← idx value 2;
      v3 ← idx value 3;
      Ok {| class := class d; method := method d; transaction_id := transaction_id d;
        xor_mapped_address := xor_mapped_address d; xor_relayed_address := xor_relayed_address d;
        xor_peer_address := xor_peer_address d; error_code := Some (v2 * 100 + v3); realm := realm d;
        nonce := nonce d; data := data d; use_candidate := use_candidate d; lifetime := lifetime d |}
    else Ok d
  else if typ =? 0x0014 then
    Ok match from_utf8 value with
       | Some text => {| class := class d; method := method d; transaction_id := transaction_id d;
           xor_mapped_address := xor_mapped_address d; xor_relayed_address := xor_relayed_address d;
           xor_peer_address := xor_peer_address d; error_code := error_code d; realm := Some text;
           nonce := nonce d; data := data d; use_candidate := use_candidate d; lifetime := lifetime d |}
       | None => d
       end
  else if typ =? 0x0015 then
    Ok match from_utf8 value with
       | Some text => {| class := class d; method := method d; transaction_id := transaction_id d;
           xor_mapped_address := xor_mapped_address d; xor_relayed_address := xor_relayed_address d;
           xor_peer_address := xor_peer_address d; error_code := error_code d; realm := realm d;
           nonce := Some text; data := data d; use_candidate := use_candidate d; lifetime := lifetime d |}
       | None => d
       end
  else if typ =? 0x0013 then
    Ok {| class := class d; method := method d; transaction_id := transaction_id d;
      xor_mapped_address := xor_mapped_address d; xor_relayed_address := xor_relayed_address d;
      xor_peer_address := xor_peer_address d; error_code := error_code d; realm := realm d;
      nonce := nonce d; data := Some value; use_candidate := use_candidate d; lifetime := lifetime d |}
  else if typ =? 0x000D then
    if (4 <=? length value)%nat then
      v ← be_at 4 value 0;
      Ok {| class := class d; method := method d; transaction_id := transaction_id d;
        xor_mapped_address := xor_mapped_address d; xor_relayed_address := xor_relayed_address d;
        xor_peer_address := xor_peer_address d; error_code := error_code d; realm := realm d;
        nonce := nonce d; data := data d; use_candidate := use_candidate d; lifetime := Some v |}
    else Ok d
  else if typ =? 0x0025 then
    Ok {| class := class d; method := method d; transaction_id := transaction_id d;
      xor_mapped_address := xor_mapped_address d; xor_relayed_address := xor_relayed_address d;
      xor_peer_address := xor_peer_address d; error_code := error_code d; realm := realm d;
      nonce := nonce d; data := data d; use_candidate := true; lifetime := lifetime d |}
  else Ok d.

(** The attribute loop over the bytes from [offset] on. *)
Equations? decode_attrs (rest : list Z) (d : StunDecoded) : res RtcError StunDecoded
  by wf (length rest) lt :=
decode_attrs (t0 :: t1 :: l0 :: l1 :: rest) d :=
  let typ := of_be [t0; t1] in
  let len := Z.to_nat (of_be [l0; l1]) in
  if (length rest <? len)%nat then Ok d else
  value ← slice rest 0 len;
  d ← decode_attr typ value d;
  decode_attrs (drop (len + (4 - len mod 4) mod 4) rest) d;
decode_attrs _ d := Ok d.
Proof. rewrite length_drop. cbn. lia. Qed.

Definition decode_stun_message (raw : list Z) : res RtcError StunDecoded :=
  if (length raw <? 20)%nat then Err (Internal "STUN message too short") else
  msg_type ← be_at 2 raw 0;
  len ← be_at 2 raw 2;
  if negb (Z.to_nat len + 20 =? length raw)%nat
  then Err (Internal "STUN message length mismatch") else
  method ← ok_or (decode_method msg_type) (Internal "unsupported STUN method");
  class ← ok_or (decode_class msg_type) (Internal "unsupported STUN class");
  tid ← slice raw 8 20;
  decode_attrs (drop 20 raw) {|
    class := class; method := method; transaction_id := tid;
    xor_mapped_address := None; xor_relayed_address := None; xor_peer_address := None;
    error_code := None; realm := None; nonce := None; data := None;
    use_candidate := false; lifetime := None |}.

Example stun_example :
  let tid := seqZ 1 12 in
  (raw ← encode_stun_message (λ _ _, replicate 20 7) (λ _, 0xCBF43926)
     {| msg_class := SuccessResponse; msg_method := Allocate; msg_transaction_id := tid;
        attributes := [XorMappedAddress (AddrV4 [192; 0; 2; 1] 50000); Realm [0x61; 0x62; 0x63];
          Lifetime 600] |} (Some [1; 2]) true;
   d ← decode_stun_message raw;
   Ok (xor_mapped_address d, realm d, lifetime d, length raw))
  = Ok (Some (AddrV4 [192; 0; 2; 1] 50000), Some [0x61; 0x62; 0x63], Some 600, 80%nat).
Proof. vm_compute. reflexivity. Qed.

(** ** The wire form of attributes *)

Definition raw_attr (typ : Z) (v : list Z) : list Z :=
  to_be 2 typ ++ to_be 2 (Z.of_nat (length v)) ++ v ++ replicate (pad4 (length v)) 0.

Definition attr_type (a : StunAttribute) : Z :=
  match a with
  | Username _ => 0x0006 | Realm _ => 0x0014 | Nonce _ => 0x0015 | Software _ => 0x8022
  | RequestedTransport _ => 0x0019 | Lifetime _ => 0x000D | Priority _ => 0x0024
  | IceControlling _ => 0x802A | IceControlled _ => 0x8029 | UseCandidate => 0x0025
  | XorPeerAddress _ => 0x0012 | XorMappedAddress _ => 0x0020 | ChannelNumber _ => 0x000C
  | Data _ => 0x0013
  end.

Definition cookie_port : Z := as_u16 (Z.shiftr MAGIC_COOKIE 16).

Definition addr_value (a : SocketAddr) (tx_id : list Z) : list Z :=
  match a with
  | AddrV4 o p => [0; 1] ++ to_be 2 (Z.lxor p cookie_port) ++ xor_bytes o (to_be 4 MAGIC_COOKIE)
  | AddrV6 o p => [0; 2] ++ to_be 2 (Z.lxor p cookie_port)
      ++ xor_bytes (take 4 o) (to_be 4 MAGIC_COOKIE) ++ xor_bytes (drop 4 o) tx_id
  end.

Definition attr_value (a : StunAttribute) (tx_id : list Z) : list Z :=
  match a with
  | Username v | Realm v | Nonce v | Software v | Data v => v
  | RequestedTransport v => [v; 0; 0; 0]
  | Lifetime v | Priority v => to_be 4 v
  | IceControlling v | IceControlled v => to_be 8 v
  | UseCandidate => []
  | XorPeerAddress addr | XorMappedAddress addr => addr_value addr tx_id
  | ChannelNumber v => to_be 2 v ++ [0; 0]
  end.

Definition attr_bytes (tx_id : list Z) (a : StunAttribute) : list Z :=
  raw_attr (attr_type a) (attr_value a tx_id).

(** The Rust types of the attribute values; strings are UTF-8. *)
Definition wf_attr (a : StunAttribute) : Prop :=
  match a with
  | Username v | Realm v | Nonce v | Software v => bytes v ∧ valid_utf8 v = true
  | Data v => bytes v
  | RequestedTransport v => u8 v
  | Lifetime v | Priority v => u32 v
  | IceControlling v | IceControlled v => u64 v
  | UseCandidate => True
  | XorPeerAddress addr | XorMappedAddress addr => wf_addr addr
  | ChannelNumber v => u16 v
  end.

Lemma pad_four_bytes_pad b : pad_four_bytes b = b ++ replicate (pad4 (length b)) 0.
Proof. done. Qed.

Lemma pad_four_bytes_id b : (length b mod 4 = 0)%nat → pad_four_bytes b = b.
Proof. intros. by rewrite pad_four_bytes_pad, pad4_aligned, app_nil_r. Qed.

Lemma pad_four_bytes_aligned b : (length (pad_four_bytes b) mod 4 = 0)%nat.
Proof. rewrite pad_four_bytes_pad, length_app, length_replicate. apply pad4_mult. Qed.

Lemma append_raw_attr buffer typ v :
  (length buffer mod 4 = 0)%nat → Z.of_nat (length v) < 65536 →
  append_raw_attribute buffer typ v = buffer ++ raw_attr typ v.
Proof.
  intros Hb Hv. unfold append_raw_attribute, raw_attr. rewrite pad_four_bytes_pad.
  rewrite !length_app, !length_to_be, pad4_add by done.
  change (2 + (2 + length v))%nat with (4 + length v)%nat. rewrite pad4_add by done.
  replace (as_u16 (Z.of_nat (length v))) with (Z.of_nat (length v)) by mlia.
  by rewrite <- !app_assoc.
Qed.

Lemma length_raw_attr typ v : length (raw_attr typ v) = (4 + length v + pad4 (length v))%nat.
Proof. unfold raw_attr. autorewrite with wire. lia. Qed.

Lemma raw_attr_aligned typ v : (length (raw_attr typ v) mod 4 = 0)%nat.
Proof.
  rewrite length_raw_attr, <- Nat.add_assoc, Nat.Div0.add_mod, pad4_mult. done.
Qed.

Lemma attr_bytes_aligned tx a : (length (attr_bytes tx a) mod 4 = 0)%nat.
Proof. apply raw_attr_aligned. Qed.

Lemma xor_bytes_length a b : length (xor_bytes a b) = Nat.min (length a) (length b).
Proof. apply length_zip_with. Qed.

Lemma length_addr_value a tx :
  wf_addr a → length tx = 12%nat →
  length (addr_value a tx) = match a with AddrV4 _ _ => 8%nat | AddrV6 _ _ => 20%nat end.
Proof.
  intros Ha Htx. destruct a as [o p|o p]; destruct Ha as (_ & Ho & _); unfold addr_value;
    rewrite !length_app, ?xor_bytes_length, ?length_take, ?length_drop, !length_to_be; cbn [length]; lia.
Qed.

Lemma append_attribute_bytes buffer a tx :
  (length buffer mod 4 = 0)%nat → wf_attr a → length tx = 12%nat →
  Z.of_nat (length (attr_value a tx)) < 65536 →
  append_attribute buffer a tx = buffer ++ attr_bytes tx a.
Proof.
  intros Hb Ha Htx Hv.
  assert (∀ typ v, Z.of_nat (length v) < 65536 →
    pad_four_bytes (append_raw_attribute buffer typ v) = buffer ++ raw_attr typ v) as Hraw.
  { intros typ v ?. rewrite pad_four_bytes_id by apply pad_four_bytes_aligned.
    by apply append_raw_attr. }
  assert (∀ typ n v, length v = n → Z.of_nat n < 65536 →
    pad_four_bytes (buffer ++ to_be 2 typ ++ to_be 2 (Z.of_nat n) ++ v) = buffer ++ raw_attr typ v) as Hfix.
  { intros typ n v <- ?. rewrite <- Hraw by done. unfold append_raw_attribute.
    rewrite (pad_four_bytes_id (pad_four_bytes _)) by apply pad_four_bytes_aligned.
    do 4 f_equal. f_equal. mlia. }
  unfold attr_bytes. destruct a; cbn [append_attribute attr_type attr_value] in *;
    try (by apply Hraw); try (by apply (Hfix _ 4%nat)); try (by apply (Hfix _ 8%nat));
    try (by apply (Hfix _ 0%nat)).
  - pose proof (Hfix 0x0025 0%nat [] eq_refl ltac:(lia)) as Hu. by rewrite app_nil_r in Hu.
  - pose proof (length_addr_value _ tx Ha Htx) as Hl. unfold append_xor_address.
    destruct a; [by apply (Hfix _ 8%nat)|by apply (Hfix _ 20%nat)].
  - pose proof (length_addr_value _ tx Ha Htx) as Hl. unfold append_xor_address.
    destruct a; [by apply (Hfix _ 8%nat)|by apply (Hfix _ 20%nat)].
Qed.

(** ** The wire form of messages *)

Definition stun_header (typ len : Z) (tx_id : list Z) : list Z :=
  to_be 2 typ ++ to_be 2 len ++ to_be 4 MAGIC_COOKIE ++ tx_id.

Definition stun_type (msg : StunMessage) : Z :=
  Z.lor (method_bits (msg_method msg)) (class_bits (msg_class msg)).

Definition stun_body (msg : StunMessage) : list Z :=
  concat (attr_bytes (msg_transaction_id msg) <$> attributes msg).

Definition wf_msg (msg : StunMessage) : Prop :=
  length (msg_transaction_id msg) = 12%nat ∧ bytes (msg_transaction_id msg) ∧
  Forall wf_attr (attributes msg) ∧ Z.of_nat (length (stun_body msg)) ≤ 65500.

Lemma length_stun_header typ len tx : length tx = 12%nat → length (stun_header typ len tx) = 20%nat.
Proof. intros Htx. unfold stun_header. autorewrite with wire. lia. Qed.

Lemma write_length_header typ n tx rest len :
  write_length_field (stun_header typ n tx ++ rest) len
  = stun_header typ (as_u16 (Z.of_nat len)) tx ++ rest.
Proof.
  unfold write_length_field, copy_at, stun_header. rewrite length_to_be, <- !app_assoc.
  rewrite take_app_length' by flen. do 2 f_equal.
Qed.

Lemma update_length_header typ n tx rest :
  length tx = 12%nat → Z.of_nat (length rest) < 65536 →
  update_length_field (stun_header typ n tx ++ rest)
  = stun_header typ (Z.of_nat (length rest)) tx ++ rest.
Proof.
  intros Htx Hr. unfold update_length_field. rewrite write_length_header.
  rewrite length_app, length_stun_header by done. do 2 f_equal. mlia.
Qed.

Lemma initial_buffer typ tx :
  length tx = 12%nat →
  copy_at (copy_at (copy_at (replicate 20 0) 0 (to_be 2 typ)) 4 (to_be 4 MAGIC_COOKIE)) 8 tx
  = stun_header typ 0 tx.
Proof.
  intros Htx. pose proof (length_to_be 2 typ) as Hl. unfold stun_header.
  destruct (to_be 2 typ) as [|a [|b [|]]]; try done.
  replace (to_be 4 MAGIC_COOKIE) with [0x21; 0x12; 0xA4; 0x42] by (by vm_compute).
  replace (to_be 2 0) with [0; 0] by (by vm_compute).
  unfold copy_at. rewrite Htx. cbn. by rewrite app_nil_r.
Qed.

Lemma append_attributes typ n tx pre attrs :
  length tx = 12%nat → Forall wf_attr attrs → (length pre mod 4 = 0)%nat →
  Z.of_nat (length (concat (attr_bytes tx <$> attrs))) < 65536 →
  foldl (λ b a, append_attribute b a tx) (stun_header typ n tx ++ pre) attrs
  = stun_header typ n tx ++ pre ++ concat (attr_bytes tx <$> attrs).
Proof.
  intros Htx Hwf. revert pre. induction Hwf as [|a attrs Ha _ IH]; intros pre Hp Hlen; cbn [foldl].
  { by rewrite app_nil_r. }
  rewrite fmap_cons in *. cbn [concat] in *. rewrite length_app in Hlen.
  unfold attr_bytes in Hlen at 1. rewrite length_raw_attr in Hlen.
  rewrite append_attribute_bytes; try done; [..|lia].
  - rewrite <- app_assoc, IH; [by rewrite <- app_assoc| |lia].
    by rewrite length_app, Nat.Div0.add_mod, Hp, attr_bytes_aligned.
  - by rewrite length_app, length_stun_header, Nat.Div0.add_mod, Hp.
Qed.

Lemma body_aligned msg : (length (stun_body msg) mod 4 = 0)%nat.
Proof.
  unfold stun_body. induction (attributes msg) as [|a l IH]; [done|]. rewrite fmap_cons. cbn [concat].
  by rewrite length_app, Nat.Div0.add_mod, IH, attr_bytes_aligned.
Qed.

Section layout.
Context (hmac_sha1 : list Z → list Z → list Z) (crc32 : list Z → Z).
Hypothesis hmac_length : ∀ key d, length (hmac_sha1 key d) = 20%nat.

(** The attributes that follow the body: the MAC covers the header with the
    length up to and including it and the body, the fingerprint covers
    everything before it. *)
Definition integrity_attr (msg : StunMessage) (key : option (list Z)) : list Z :=
  match key with
  | Some key => raw_attr 0x0008 (hmac_sha1 key
      (stun_header (stun_type msg) (Z.of_nat (length (stun_body msg)) + 24) (msg_transaction_id msg)
       ++ stun_body msg))
  | None => []
  end.

Definition fingerprint_attr (msg : StunMessage) (key : option (list Z)) (fp : bool) : list Z :=
  let body := stun_body msg ++ integrity_attr msg key in
  if fp then raw_attr 0x8028 (to_be 4 (Z.lxor (crc32
      (stun_header (stun_type msg) (Z.of_nat (length body) + 8) (msg_transaction_id msg) ++ body))
      FINGERPRINT_XOR))
  else [].

Definition stun_bytes (msg : StunMessage) (key : option (list Z)) (fp : bool) : list Z :=
  let all := (stun_body msg ++ integrity_attr msg key) ++ fingerprint_attr msg key fp in
  stun_header (stun_type msg) (Z.of_nat (length all)) (msg_transaction_id msg) ++ all.

Lemma length_integrity_attr msg key :
  length (integrity_attr msg key) = match key with Some _ => 24%nat | None => 0%nat end.
Proof. destruct key; [|done]. cbn. by rewrite length_raw_attr, hmac_length. Qed.

Lemma length_fingerprint_attr msg key fp :
  length (fingerprint_attr msg key fp) = if fp then 8%nat else 0%nat.
Proof. destruct fp; [|done]. unfold fingerprint_attr. by rewrite length_raw_attr, length_to_be. Qed.

Lemma stun_type_u16 msg : as_u16 (stun_type msg) = stun_type msg.
Proof. unfold stun_type. by destruct (msg_method msg), (msg_class msg). Qed.

Lemma append_integrity msg key (t := stun_type msg) (tx := msg_transaction_id msg) :
  wf_msg msg →
  let buffer := stun_header t (Z.of_nat (length (stun_body msg))) tx ++ stun_body msg in
  match key with
  | Some k =>
      let buffer := write_length_field buffer (length buffer - 20 + 24) in
      update_length_field (append_raw_attribute buffer 0x0008 (hmac_sha1 k buffer))
  | None => buffer
  end = (let body := stun_body msg ++ integrity_attr msg key in
         stun_header t (Z.of_nat (length body)) tx ++ body).
Proof.
  intros (Htx & _ & _ & Hlen) buffer. destruct key as [k|]; [|by rewrite app_nil_r].
  cbn zeta. subst buffer. rewrite write_length_header, length_app, length_stun_header by done.
  replace (as_u16 _) with (Z.of_nat (length (stun_body msg)) + 24) by mlia.
  rewrite append_raw_attr, <- app_assoc by (rewrite ?hmac_length; try lia;
    rewrite length_app, length_stun_header, Nat.Div0.add_mod, body_aligned by done; done).
  apply update_length_header; [done|].
  rewrite length_app, length_integrity_attr. lia.
Qed.

Lemma append_fingerprint msg key (fp : bool) (t := stun_type msg) (tx := msg_transaction_id msg) :
  wf_msg msg →
  let body := stun_body msg ++ integrity_attr msg key in
  let buffer := stun_header t (Z.of_nat (length body)) tx ++ body in
  update_length_field
    (if fp then
       let buffer := write_length_field buffer (length buffer - 20 + 8) in
       append_raw_attribute buffer 0x8028 (to_be 4 (Z.lxor (crc32 buffer) FINGERPRINT_XOR))
     else buffer) = stun_bytes msg key fp.
Proof.
  intros (Htx & _ & _ & Hlen) body buffer. subst t tx buffer. unfold stun_bytes. fold body.
  assert (Z.of_nat (length body) ≤ 65524) as Hb.
  { subst body. rewrite length_app, length_integrity_attr. destruct key; lia. }
  assert (length body mod 4 = 0)%nat as Ha.
  { subst body. rewrite length_app, Nat.Div0.add_mod, body_aligned, length_integrity_attr. by destruct key. }
  destruct fp; unfold fingerprint_attr; fold body.
  - cbn zeta. rewrite write_length_header, length_app, length_stun_header by done.
    replace (as_u16 _) with (Z.of_nat (length body) + 8) by mlia.
    rewrite append_raw_attr, <- app_assoc by (rewrite ?length_to_be; try lia;
      rewrite length_app, length_stun_header, Nat.Div0.add_mod, Ha by done; done).
    apply update_length_header; [done|].
    rewrite length_app, length_raw_attr, length_to_be. unfold pad4. cbn. lia.
  - rewrite app_nil_r. apply update_length_header; [done|lia].
Qed.

Lemma encode_layout msg key fp :
  wf_msg msg → encode_stun_message hmac_sha1 crc32 msg key fp = Ok (stun_bytes msg key fp).
Proof.
  intros Hwf. pose proof Hwf as (Htx & _ & Hattrs & Hlen).
  unfold encode_stun_message. fold (stun_type msg). rewrite stun_type_u16, initial_buffer by done.
  pose proof (append_attributes (stun_type msg) 0 _ [] (attributes msg) Htx Hattrs eq_refl) as Happ.
  rewrite app_nil_r, app_nil_l in Happ. rewrite Happ by (fold (stun_body msg); lia).
  fold (stun_body msg). rewrite update_length_header by (done || lia).
  f_equal. rewrite append_integrity by done. by apply append_fingerprint.
Qed.
End layout.

(** ** Decoding what was encoded *)

Lemma decode_raw_attr typ v rest d :
  u16 typ → Z.of_nat (length v) < 65536 →
  decode_attrs (raw_attr typ v ++ rest) d = (d ← decode_attr typ v d; decode_attrs rest d).
Proof.
  intros Ht Hv. unfold raw_attr. rewrite <- !app_assoc.
  pose proof (length_to_be 2 typ) as Hlt. pose proof (length_to_be 2 (Z.of_nat (length v))) as Hll.
  destruct (to_be 2 typ) as [|t0 [|t1 [|]]] eqn:Het; try done.
  destruct (to_be 2 (Z.of_nat (length v))) as [|l0 [|l1 [|]]] eqn:Hel; try done.
  cbn [app]. simp decode_attrs. cbn zeta.
  rewrite <- Het, <- Hel, !of_be_to_be_16, Nat2Z.id by (done || ulia).
  rewrite (proj2 (Nat.ltb_ge _ _)) by (rewrite length_app; lia).
  rewrite slice_app_hd by done. run. destruct (decode_attr typ v d); [|done..]. run.
  f_equal. rewrite app_assoc. apply drop_app_length'.
  rewrite length_app, length_replicate. done.
Qed.

Lemma xor_bytes_twice a b : (length a ≤ length b)%nat → xor_bytes (xor_bytes a b) b = a.
Proof.
  revert b. induction a as [|x a IH]; intros [|y b] Hl; cbn in *; try done; [lia|].
  f_equal; [|apply IH; lia]. by rewrite Z.lxor_assoc, Z.lxor_nilpotent, Z.lxor_0_r.
Qed.

Lemma lxor_port p : u16 p → u16 (Z.lxor p cookie_port) ∧ Z.lxor (Z.lxor p cookie_port) cookie_port = p.
Proof.
  intros Hp. split; [by apply (lxor_bound 16)|].
  by rewrite Z.lxor_assoc, Z.lxor_nilpotent, Z.lxor_0_r.
Qed.

Lemma addr_value_reads a tx :
  wf_addr a → length tx = 12%nat →
  let '(family, port, o) :=
    match a with
    | AddrV4 o p => (1, p, xor_bytes o (to_be 4 MAGIC_COOKIE))
    | AddrV6 o p => (2, p, xor_bytes (take 4 o) (to_be 4 MAGIC_COOKIE) ++ xor_bytes (drop 4 o) tx)
    end in
  let v := addr_value a tx in
  @idx RtcError v 1 = Ok family ∧ @be_at RtcError 2 v 2 = Ok (Z.lxor port cookie_port) ∧
  @slice RtcError Z v 4 (length v) = Ok o.
Proof.
  intros Ha Htx. pose proof (length_addr_value a tx Ha Htx) as Hl.
  destruct a as [o p|o p]; destruct Ha as (Ho & Hlen & Hp); destruct (lxor_port p Hp) as [Hu Hx];
    cbn zeta; (split_and!; [done| |]).
  1,3: cbn [addr_value app]; rewrite !be_at_tl, be_at_hd, of_be_to_be_16 by (done || flen); done.
  all: rewrite slice_ok by lia; f_equal; rewrite take_ge by (rewrite length_drop; lia);
    cbn [addr_value app]; cbn [drop]; rewrite (drop_next (to_be 2 _) _ 2 0) by flen; by rewrite drop_0.
Qed.

Lemma parse_addr_value a tx :
  wf_addr a → length tx = 12%nat → parse_xor_address (addr_value a tx) tx = Ok (Some a).
Proof.
  intros Ha Htx. pose proof (length_addr_value a tx Ha Htx) as Hl.
  pose proof (addr_value_reads a tx Ha Htx) as Hr. unfold parse_xor_address.
  destruct a as [o p|o p]; destruct Ha as (Ho & Hlen & Hp); destruct (lxor_port p Hp) as [Hu Hx];
    destruct Hr as (Hf & Hport & Hs); rewrite Hl in Hs |- *; cbn [Nat.ltb Nat.leb];
    rewrite Hf; run; rewrite Hport; run; cbn [Z.eqb Pos.eqb]; rewrite Hs; run; fold cookie_port;
    rewrite Hx; do 3 f_equal.
  - apply xor_bytes_twice. rewrite length_to_be. lia.
  - rewrite take_app_length', drop_app_length' by
      (rewrite xor_bytes_length, length_to_be, length_take; lia).
    rewrite !xor_bytes_twice by (rewrite ?length_to_be, ?length_take, ?length_drop; lia).
    apply take_drop.
Qed.

(** What a decoder learns from attributes: the last one of a kind wins, and
    kinds it does not know are skipped. *)
Definition or_last {A} (o : option A) (f : StunAttribute → option A) (l : list StunAttribute) : option A :=
  match last (omap f l) with Some x => Some x | None => o end.

Definition learn (d : StunDecoded) (l : list StunAttribute) : StunDecoded := {|
  class := class d; method := method d; transaction_id := transaction_id d;
  xor_mapped_address := or_last (xor_mapped_address d)
    (λ a, match a with XorMappedAddress x => Some x | _ => None end) l;
  xor_relayed_address := xor_relayed_address d;
  xor_peer_address := or_last (xor_peer_address d)
    (λ a, match a with XorPeerAddress x => Some x | _ => None end) l;
  error_code := error_code d;
  realm := or_last (realm d) (λ a, match a with Realm x => Some x | _ => None end) l;
  nonce := or_last (nonce d) (λ a, match a with Nonce x => Some x | _ => None end) l;
  data := or_last (data d) (λ a, match a with Data x => Some x | _ => None end) l;
  use_candidate := use_candidate d || existsb (λ a, match a with UseCandidate => true | _ => false end) l;
  lifetime := or_last (lifetime d) (λ a, match a with Lifetime x => Some x | _ => None end) l |}.

Definition decoded_empty (msg : StunMessage) : StunDecoded := {|
  class := msg_class msg; method := msg_method msg; transaction_id := msg_transaction_id msg;
  xor_mapped_address := None; xor_relayed_address := None; xor_peer_address := None;
  error_code := None; realm := None; nonce := None; data := None;
  use_candidate := false; lifetime := None |}.

Lemma or_last_cons {A} o (f : StunAttribute → option A) a l :
  or_last o f (a :: l) = or_last (or_last o f [a]) f l.
Proof.
  unfold or_last. change (a :: l) with ([a] ++ l). rewrite omap_app, last_app.
  by destruct (last (omap f l)).
Qed.

Lemma learn_cons d a l : learn d (a :: l) = learn (learn d [a]) l.
Proof.
  unfold learn; cbn. f_equal; try apply or_last_cons. by rewrite orb_assoc, orb_false_r.
Qed.

Lemma decode_attr_learn a d :
  wf_attr a → length (transaction_id d) = 12%nat →
  decode_attr (attr_type a) (attr_value a (transaction_id d)) d = Ok (learn d [a]).
Proof.
  intros Ha Htx. unfold decode_attr, learn.
  destruct a as [| | | | | | | | | |x|x| |]; cbn [attr_type Z.eqb Pos.eqb attr_value];
    try (rewrite parse_addr_value by done; run; by rewrite orb_false_r);
    try (by destruct d; cbn; rewrite orb_false_r).
  - rewrite from_utf8_valid by apply Ha. by destruct d; cbn; rewrite orb_false_r.
  - rewrite from_utf8_valid by apply Ha. by destruct d; cbn; rewrite orb_false_r.
  - rewrite length_to_be. cbn [Nat.leb]. rewrite be_at_all by flen. run.
    rewrite of_be_to_be_32 by done. by destruct d; cbn; rewrite orb_false_r.
  - by destruct d; cbn; rewrite orb_true_r.
Qed.

Lemma attr_type_u16 a : u16 (attr_type a).
Proof. destruct a; done. Qed.

Lemma decode_attrs_learn tx attrs rest d :
  Forall wf_attr attrs → length tx = 12%nat → transaction_id d = tx →
  Z.of_nat (length (concat (attr_bytes tx <$> attrs))) < 65536 →
  decode_attrs (concat (attr_bytes tx <$> attrs) ++ rest) d = decode_attrs rest (learn d attrs).
Proof.
  intros Hwf Htx. revert d. induction Hwf as [|a attrs Ha _ IH]; intros d Hd Hlen.
  { destruct d. unfold learn, or_last. cbn. by rewrite orb_false_r. }
  rewrite fmap_cons in *. cbn [concat] in *. rewrite length_app in Hlen. rewrite <- app_assoc.
  unfold attr_bytes at 1. unfold attr_bytes in Hlen at 1. rewrite length_raw_attr in Hlen.
  rewrite decode_raw_attr by (apply attr_type_u16 || lia). subst tx.
  rewrite decode_attr_learn by done. run. rewrite (learn_cons d a attrs). apply IH; [done|lia].
Qed.

Lemma decode_type msg :
  u16 (stun_type msg) ∧ decode_method (stun_type msg) = Some (msg_method msg) ∧
  decode_class (stun_type msg) = Some (msg_class msg).
Proof. unfold stun_type. by destruct (msg_method msg), (msg_class msg). Qed.

Section roundtrip.
Context (hmac_sha1 : list Z → list Z → list Z) (crc32 : list Z → Z).
Hypothesis hmac_length : ∀ key d, length (hmac_sha1 key d) = 20%nat.

(** The integrity and fingerprint attributes are unknown to the decoder. *)
Lemma decode_trailer msg key fp d :
  decode_attrs (integrity_attr hmac_sha1 msg key ++ fingerprint_attr hmac_sha1 crc32 msg key fp) d = Ok d.
Proof.
  assert (decode_attrs (fingerprint_attr hmac_sha1 crc32 msg key fp) d = Ok d) as Hfp.
  { destruct fp; unfold fingerprint_attr; [|done].
    rewrite <- (app_nil_r (raw_attr 0x8028 _)), decode_raw_attr by (rewrite ?length_to_be; done || lia).
    done. }
  destruct key as [k|]; cbn [integrity_attr]; [|done].
  rewrite decode_raw_attr by (rewrite ?hmac_length; done || lia). exact Hfp.
Qed.

Lemma decode_stun_bytes msg key fp :
  wf_msg msg →
  decode_stun_message (stun_bytes hmac_sha1 crc32 msg key fp)
  = Ok (learn (decoded_empty msg) (attributes msg)).
Proof.
  intros (Htx & _ & Hattrs & Hlen). unfold stun_bytes.
  set (all := (stun_body msg ++ _) ++ _). set (t := stun_type msg).
  assert (Z.of_nat (length all) ≤ 65532) as Hall.
  { subst all. rewrite !length_app, length_integrity_attr, length_fingerprint_attr by done.
    destruct key, fp; lia. }
  destruct (decode_type msg) as (Ht & Hm & Hc). fold t in Ht, Hm, Hc.
  unfold decode_stun_message. rewrite length_app, length_stun_header by done.
  rewrite (proj2 (Nat.ltb_ge _ _)) by lia. unfold stun_header. rewrite <- !app_assoc. fields.
  rewrite !of_be_to_be_16 by (done || ulia). rewrite Nat2Z.id, Nat.add_comm, Nat.eqb_refl. run.
  rewrite Hm, Hc. run.
  rewrite (slice_next _ _ 8 20 6 18), (slice_next _ _ 6 18 4 16), (slice_next _ _ 4 16 0 12),
    slice_app_hd by (done || flen). run.
  rewrite (drop_next (to_be 2 t) _ 20 18), (drop_next _ _ 18 16), (drop_next _ _ 16 12) by flen.
  rewrite drop_app_length' by done. subst all. rewrite <- app_assoc.
  fold (decoded_empty msg). unfold stun_body at 1.
  rewrite decode_attrs_learn by (done || (fold (stun_body msg); lia)). apply decode_trailer.
Qed.

(** C3: Every well-formed STUN message, with or without integrity and
    fingerprint, is encoded to bytes that decode_stun_message accepts, with the
    class, method, transaction id and the last value of each attribute
    recovered. *)
Theorem stun_roundtrip msg key fp :
  wf_msg msg →
  (raw ← encode_stun_message hmac_sha1 crc32 msg key fp; decode_stun_message raw)
  = Ok (learn (decoded_empty msg) (attributes msg)).
Proof. intros Hwf. rewrite encode_layout by done. run. by apply decode_stun_bytes. Qed.

(** With a key and a fingerprint the encoded message ends in MESSAGE-
    INTEGRITY and FINGERPRINT: the HMAC covers the message with the length
    counting itself, and the CRC covers everything before it with the final
    length, XORed with the STUN constant. *)
Theorem stun_protected_layout msg k :
  wf_msg msg →
  ∃ covered mac crc,
    encode_stun_message hmac_sha1 crc32 msg (Some k) true
      = Ok (write_length_field covered (length covered - 20 + 32) ++ mac ++ crc) ∧
    mac = to_be 2 0x0008 ++ to_be 2 20 ++
      hmac_sha1 k (write_length_field covered (length covered - 20 + 24)) ∧
    crc = to_be 2 0x8028 ++ to_be 2 4 ++ to_be 4 (Z.lxor
      (crc32 (write_length_field covered (length covered - 20 + 32) ++ mac)) FINGERPRINT_XOR).
Proof.
  intros Hwf. pose proof Hwf as (Htx & _ & _ & Hlen). rewrite encode_layout by done.
  set (t := stun_type msg). set (tx := msg_transaction_id msg).
  exists (stun_header t 0 tx ++ stun_body msg). rewrite !write_length_header.
  rewrite length_app, length_stun_header by done.
  replace (as_u16 (Z.of_nat (20 + length (stun_body msg) - 20 + 24)))
    with (Z.of_nat (length (stun_body msg)) + 24) by mlia.
  replace (as_u16 (Z.of_nat (20 + length (stun_body msg) - 20 + 32)))
    with (Z.of_nat (length (stun_body msg)) + 32) by mlia.
  eexists _, _. split; [|split; [done|done]]. f_equal.
  unfold stun_bytes. rewrite !length_app, length_integrity_attr, length_fingerprint_attr by done.
  unfold fingerprint_attr. rewrite length_app, length_integrity_attr by done.
  unfold integrity_attr, raw_attr. rewrite hmac_length, length_to_be. cbn [pad4 replicate].
  rewrite <- !app_assoc, !app_nil_r.
  replace (Z.of_nat (length (stun_body msg) + 24 + 8)) with (Z.of_nat (length (stun_body msg)) + 32) by lia.
  replace (Z.of_nat (length (stun_body msg) + 24) + 8) with (Z.of_nat (length (stun_body msg)) + 32) by lia.
  done.
Qed.
End roundtrip.

(** decode_stun_message returns a result on every byte string: no index or
    slice of it goes out of bounds. *)
Theorem stun_decode_no_panic raw : decode_stun_message raw ≠ Panic.
Proof.
  assert (∀ v tx, parse_xor_address v tx ≠ Panic) as Haddr.
  { intros. unfold parse_xor_address. np. }
  assert (∀ typ v d, decode_attr typ v d ≠ Panic) as Hattr.
  { intros. unfold decode_attr. np. }
  assert (∀ rest d, decode_attrs rest d ≠ Panic) as Hattrs.
  { induction rest as [rest IH] using list_len_ind. intros d.
    destruct rest as [|t0 [|t1 [|l0 [|l1 rest]]]]; simp decode_attrs; try done.
    cbn zeta. np. apply IH. rewrite length_drop. cbn. lia. }
  unfold decode_stun_message. np.
  - by destruct (decode_method _).
  - by destruct (decode_class _).
Qed.

(** ** Sample messages *)

Definition sample_msg : StunMessage := {|
  msg_class := SuccessResponse; msg_method := Allocate; msg_transaction_id := seqZ 1 12;
  attributes := [XorMappedAddress (AddrV4 [192; 0; 2; 1] 50000);
    XorPeerAddress (AddrV6 (seqZ 200 16) 443); Realm [0x61; 0x62; 0x63]; Realm [0x64];
    Lifetime 600; UseCandidate; Priority 0x6E7F1EFF; Data [1; 2; 3; 4; 5]] |}.

Lemma wf_sample_msg : wf_msg sample_msg.
Proof.
  split; [done|]. split; [by vm_compute; repeat constructor|]. split; [|by vm_compute].
  repeat constructor; cbn; try (by vm_compute); lia.
Qed.

Lemma stun_roundtrip_witness :
  (raw ← encode_stun_message (λ _ _, replicate 20 7) (λ _, 0xCBF43926) sample_msg (Some [1]) true;
   decode_stun_message raw)
  = Ok (learn (decoded_empty sample_msg) (attributes sample_msg)).
Proof. apply stun_roundtrip; [done|apply wf_sample_msg]. Defined.

