(* ===== verification/Srtp.v ===== *)
(** * SRTP and SRTCP ([src/srtp.rs])

    Packet protection: key derivation, the rollover counter, the layouts of
    the four profiles with and without MKI, and the sessions that hold a
    context per SSRC.

    AES-CTR, AES-GCM and HMAC-SHA1 come from third-party crates; they are the
    class [SrtpCrypto], with their documented behaviour in [SrtpCryptoLaws].  A
    cached cipher object is represented by its key.  The scratch buffer of a
    context, overwritten before each use, is left out, and so is what a
    caller's buffer holds after an error.  Time is an argument, read once per
    call. *)
From stdpp Require Import pretty.
From S2P Require Import Prelude BytesCrate BTree Rtp.

(** ** The cryptographic crates *)

Class SrtpCrypto := {
  (* the first bytes of the AES-128-CTR key stream (128-bit big-endian counter) *)
  ctr_stream : list Z → list Z → nat → list Z;
  hmac_sha1 : list Z → list Z → list Z;
  (* [encrypt_in_place_detached] and [decrypt_in_place_detached]:
     key, nonce, associated data, message (and tag) *)
  gcm_encrypt_detached : list Z → list Z → list Z → list Z → option (list Z * list Z);
  gcm_decrypt_detached : list Z → list Z → list Z → list Z → list Z → option (list Z);
  (* [encrypt] and [decrypt], where the tag follows the message *)
  gcm_encrypt : list Z → list Z → list Z → list Z → option (list Z);
  gcm_decrypt : list Z → list Z → list Z → list Z → option (list Z);
}.

(** The bound of the crate on messages and associated data, 2^36 bytes *)
Definition gcm_fits (aad msg : list Z) : Prop :=
  Z.of_nat (length aad) ≤ 2 ^ 36 ∧ Z.of_nat (length msg) ≤ 2 ^ 36.

Class SrtpCryptoLaws `{SrtpCrypto} : Prop := {
  ctr_length k iv n : length (ctr_stream k iv n) = n;
  hmac_length k d : length (hmac_sha1 k d) = 20%nat;
  gcm_detached_ok k n a m :
    gcm_fits a m → ∃ c t, gcm_encrypt_detached k n a m = Some (c, t) ∧
      length c = length m ∧ length t = 16%nat ∧ gcm_decrypt_detached k n a c t = Some m;
  gcm_ok k n a m :
    gcm_fits a m → ∃ c, gcm_encrypt k n a m = Some c ∧
      length c = (length m + 16)%nat ∧ gcm_decrypt k n a c = Some m;
}.

(** ** Data *)

Inductive SrtpError :=
| UnsupportedProfile
| SrtpPacketTooShort
| AuthenticationFailed
| SrtpInternal (s : string).

(** [impl From<RtpError> for SrtpError], through the [Display] texts *)
Definition RtpError_display (e : RtpError) : string :=
  match e with
  | PacketTooShort => "RTP packet too short"
  | UnsupportedVersion v => "unsupported RTP version " +:+ pretty v
  | InvalidHeader s => "invalid RTP header: " +:+ s
  | InvalidRtcp s => "invalid RTCP packet: " +:+ s
  | LengthMismatch => "buffer length mismatch"
  end.

Definition from_rtp {A} (r : res RtpError A) : res SrtpError A :=
  match r with Ok a => Ok a | Err e => Err (SrtpInternal (RtpError_display e)) | Panic => Panic end.

Record SrtpPacket := {
  sp_header : RtpHeader;
  sp_body : list Z;
  sp_has_padding : bool;
}.

Inductive SrtpProfile := Aes128Sha1_80 | Aes128Sha1_32 | AeadAes128Gcm | NullCipherHmac.

#[export] Instance SrtpProfile_eq_dec : EqDecision SrtpProfile.
Proof. solve_decision. Defined.

Definition tag_len (p : SrtpProfile) : nat :=
  match p with Aes128Sha1_80 | NullCipherHmac => 10 | Aes128Sha1_32 => 4 | AeadAes128Gcm => 16 end.

Definition salt_len (p : SrtpProfile) : nat := match p with AeadAes128Gcm => 12 | _ => 14 end.

Definition key_len (p : SrtpProfile) : nat := 16.

Definition auth_key_len (p : SrtpProfile) : nat :=
  match p with Aes128Sha1_80 | NullCipherHmac => 20 | Aes128Sha1_32 => 20 | AeadAes128Gcm => 0 end.

Record SrtpKeyingMaterial := { master_key : list Z; master_salt : list Z }.

Inductive SrtpDirection := Sender | Receiver.

Definition MKI_MAX_LEN : nat := 128.

Record MkiParams := { mki_tx : option (list Z * nat); mki_rx_len : option nat }.

Definition MkiParams_default : MkiParams := {| mki_tx := None; mki_rx_len := None |}.
Definition tx_len (m : MkiParams) : nat := match mki_tx m with Some (_, len) => len | None => 0 end.
Definition rx_len (m : MkiParams) : nat := default 0%nat (mki_rx_len m).

Record SessionKeys := { cipher_key : list Z; auth_key : list Z; salt : list Z }.

Record SrtpContext := {
  ctx_ssrc : Z;
  ctx_profile : SrtpProfile;
  rtp_keys : SessionKeys;
  rtcp_keys : SessionKeys;
  rtp_aes_key : list Z;
  rtcp_aes_key : list Z;
  rtp_gcm_cipher : option (list Z);
  rtcp_gcm_cipher : option (list Z);
  rtp_auth_prototype : option (list Z);
  rtcp_auth_prototype : option (list Z);
  ctx_direction : SrtpDirection;
  rollover_counter : Z;
  last_sequence : option Z;
  rtcp_index : Z;
  last_used : Z;
  ctx_mki : MkiParams;
  rx_mki_active : option bool;
}.

(** Replacing the mutable part of a context *)
Definition with_state (c : SrtpContext) (roc : Z) (last : option Z) (index : Z) (active : option bool)
    : SrtpContext := {|
  ctx_ssrc := ctx_ssrc c; ctx_profile := ctx_profile c; rtp_keys := rtp_keys c;
  rtcp_keys := rtcp_keys c; rtp_aes_key := rtp_aes_key c; rtcp_aes_key := rtcp_aes_key c;
  rtp_gcm_cipher := rtp_gcm_cipher c; rtcp_gcm_cipher := rtcp_gcm_cipher c;
  rtp_auth_prototype := rtp_auth_prototype c; rtcp_auth_prototype := rtcp_auth_prototype c;
  ctx_direction := ctx_direction c; rollover_counter := roc; last_sequence := last;
  rtcp_index := index; last_used := last_used c; ctx_mki := ctx_mki c; rx_mki_active := active |}.

Definition with_use (c : SrtpContext) (now : Z) (mki : MkiParams) : SrtpContext := {|
  ctx_ssrc := ctx_ssrc c; ctx_profile := ctx_profile c; rtp_keys := rtp_keys c;
  rtcp_keys := rtcp_keys c; rtp_aes_key := rtp_aes_key c; rtcp_aes_key := rtcp_aes_key c;
  rtp_gcm_cipher := rtp_gcm_cipher c; rtcp_gcm_cipher := rtcp_gcm_cipher c;
  rtp_auth_prototype := rtp_auth_prototype c; rtcp_auth_prototype := rtcp_auth_prototype c;
  ctx_direction := ctx_direction c; rollover_counter := rollover_counter c;
  last_sequence := last_sequence c; rtcp_index := rtcp_index c; last_used := now;
  ctx_mki := mki; rx_mki_active := rx_mki_active c |}.

Definition constant_time_eq (a b : list Z) : bool :=
  if negb (length a =? length b)%nat then false
  else foldl (λ diff xy, Z.lor diff (Z.lxor xy.1 xy.2)) 0 (zip a b) =? 0.

(** Key stream applied in place *)
Definition xor_with (d ks : list Z) : list Z := zip_with Z.lxor d ks.

(** ** The rollover counter *)

Definition estimate_roc (c : SrtpContext) (sequence : Z) : Z :=
  match last_sequence c with
  | None => rollover_counter c
  | Some last_seq =>
      let roc := rollover_counter c in
      let diff := sequence - last_seq in
      if diff <? -32768 then wadd32 roc 1
      else if 32768 <? diff then wsub32 roc 1
      else roc
  end.

Definition update (c : SrtpContext) (sequence roc : Z) : SrtpContext :=
  match last_sequence c with
  | None => with_state c roc (Some sequence) (rtcp_index c) (rx_mki_active c)
  | Some last =>
      let current_index := Z.lor (Z.shiftl (rollover_counter c) 16) last in
      let new_index := Z.lor (Z.shiftl roc 16) sequence in
      if current_index <? new_index
      then with_state c roc (Some sequence) (rtcp_index c) (rx_mki_active c) else c
  end.

(** ** Initialisation vectors *)

Definition build_iv (c : SrtpContext) (sequence roc : Z) : res SrtpError (list Z) :=
  let index := Z.lor (Z.shiftl roc 16) sequence in
  s ← slice (salt (rtp_keys c)) 0 14;
  let block := replicate 4 0 ++ to_be 4 (ctx_ssrc c) ++ to_be 8 (as_u64 (Z.shiftl index 16)) in
  Ok (xor_with (s ++ [0; 0]) block).

Definition build_gcm_nonce (c : SrtpContext) (sequence roc : Z) : res SrtpError (list Z) :=
  s ← slice (salt (rtp_keys c)) 0 12;
  Ok (xor_with s (replicate 2 0 ++ to_be 4 (ctx_ssrc c) ++ to_be 4 roc ++ to_be 2 sequence)).

Definition build_gcm_rtcp_nonce (c : SrtpContext) (index : Z) : res SrtpError (list Z) :=
  s ← slice (salt (rtcp_keys c)) 0 12;
  Ok (xor_with s (replicate 2 0 ++ to_be 4 (ctx_ssrc c) ++ replicate 2 0 ++ to_be 4 index)).

Definition rtcp_iv (c : SrtpContext) (index : Z) : res SrtpError (list Z) :=
  s ← slice (salt (rtcp_keys c)) 0 14;
  Ok (xor_with (s ++ [0; 0])
        (replicate 4 0 ++ to_be 4 (ctx_ssrc c) ++ replicate 2 0 ++ to_be 4 index ++ replicate 2 0)).

(** ** Contexts *)

Section context.
Context `{SrtpCrypto}.

Definition kdf (len : nat) (label : Z) (mkey msalt : list Z) : res SrtpError (list Z) :=
  let iv := resize 16 0 (take 14 msalt) in
  let iv := alter (λ b, Z.lxor b label) 7%nat iv in
  key ← slice mkey 0 16;
  Ok (xor_with (replicate len 0) (ctr_stream key iv len)).

Definition derive_keys (profile : SrtpProfile) (keying : SrtpKeyingMaterial)
    : res SrtpError (SessionKeys * SessionKeys) :=
  let derive len label := kdf len label (master_key keying) (master_salt keying) in
  let derive_auth label := if (0 <? auth_key_len profile)%nat then derive (auth_key_len profile) label else Ok [] in
  rtp_cipher ← derive (key_len profile) 0x00;
  rtp_auth ← derive_auth 0x01;
  rtp_salt ← derive (salt_len profile) 0x02;
  rtcp_cipher ← derive (key_len profile) 0x03;
  rtcp_auth ← derive_auth 0x04;
  rtcp_salt ← derive (salt_len profile) 0x05;
  Ok ({| cipher_key := rtp_cipher; auth_key := rtp_auth; salt := rtp_salt |},
      {| cipher_key := rtcp_cipher; auth_key := rtcp_auth; salt := rtcp_salt |}).

(** [Aes128Gcm::new_from_slice] accepts keys of 16 bytes. *)
Definition gcm_cipher (profile : SrtpProfile) (key : list Z) : res SrtpError (option (list Z)) :=
  match profile with
  | AeadAes128Gcm => if (length key =? 16)%nat then Ok (Some key) else Err UnsupportedProfile
  | _ => Ok None
  end.

(** HMAC takes keys of any length. *)
Definition auth_prototype (key : list Z) : option (list Z) :=
  match key with [] => None | _ => Some key end.

Definition SrtpContext_new (ssrc : Z) (profile : SrtpProfile) (keying : SrtpKeyingMaterial)
    (direction : SrtpDirection) (now : Z) : res SrtpError SrtpContext :=
  if (length (master_key keying) <? key_len profile)%nat || (length (master_salt keying) <? salt_len profile)%nat
  then Err UnsupportedProfile else
  '(rtp, rtcp) ← derive_keys profile keying;
  rtp_aes ← slice (cipher_key rtp) 0 16;
  rtcp_aes ← slice (cipher_key rtcp) 0 16;
  rtp_gcm ← gcm_cipher profile (cipher_key rtp);
  rtcp_gcm ← gcm_cipher profile (cipher_key rtcp);
  Ok {| ctx_ssrc := ssrc; ctx_profile := profile; rtp_keys := rtp; rtcp_keys := rtcp;
        rtp_aes_key := rtp_aes; rtcp_aes_key := rtcp_aes;
        rtp_gcm_cipher := rtp_gcm; rtcp_gcm_cipher := rtcp_gcm;
        rtp_auth_prototype := auth_prototype (auth_key rtp);
        rtcp_auth_prototype := auth_prototype (auth_key rtcp);
        ctx_direction := direction; rollover_counter := 0; last_sequence := None;
        rtcp_index := 0; last_used := now; ctx_mki := MkiParams_default; rx_mki_active := None |}.

(** [&value[..mki_len]] of the outbound MKI, nothing when not negotiated *)
Definition mki_bytes (m : MkiParams) : res SrtpError (list Z) :=
  match mki_tx m with Some (value, _) => slice value 0 (tx_len m) | None => Ok [] end.

Definition cipher_rtcp (c : SrtpContext) (packet : list Z) (index : Z) : res SrtpError (list Z) :=
  iv ← rtcp_iv c index;
  let body := drop 8 packet in
  Ok (take 8 packet ++ xor_with body (ctr_stream (rtcp_aes_key c) iv (length body))).

Definition auth_tag_rtcp (c : SrtpContext) (data : list Z) : res SrtpError (list Z) :=
  key ← ok_or (rtcp_auth_prototype c) UnsupportedProfile;
  Ok (hmac_sha1 key data).

(** The packet that [protect_rtcp] builds for an index *)
Definition protect_rtcp_with (c : SrtpContext) (index : Z) (packet : list Z) : res SrtpError (list Z) :=
  let index_with_e := Z.lor index 0x80000000 in
  match ctx_profile c with
  | AeadAes128Gcm =>
      nonce ← build_gcm_rtcp_nonce c index;
      cipher ← ok_or (rtcp_gcm_cipher c) UnsupportedProfile;
      hdr ← slice packet 0 8;
      let aad := hdr ++ to_be 4 index_with_e in
      ciphertext ← ok_or (gcm_encrypt cipher nonce aad (drop 8 packet)) AuthenticationFailed;
      mki ← mki_bytes (ctx_mki c);
      Ok (hdr ++ ciphertext ++ to_be 4 index_with_e ++ mki)
  | _ =>
      packet ← (if (8 <? length packet)%nat then cipher_rtcp c packet index else Ok packet);
      let packet := packet ++ to_be 4 index_with_e in
      tag ← auth_tag_rtcp c packet;
      mki ← mki_bytes (ctx_mki c);
      Ok (packet ++ mki ++ take (tag_len (ctx_profile c)) tag)
  end.

(** The index is used up also when protection fails. *)
Definition protect_rtcp (c : SrtpContext) (packet : list Z) : SrtpContext * res SrtpError (list Z) :=
  if rtcp_index c =? 4294967295 then (c, Panic) else
  let c := with_state c (rollover_counter c) (last_sequence c) (rtcp_index c + 1) (rx_mki_active c) in
  (c, protect_rtcp_with c (rtcp_index c) packet).

(** [if index > self.rtcp_index { self.rtcp_index = index; }] *)
Definition note_index (c : SrtpContext) (index : Z) : SrtpContext :=
  if rtcp_index c <? index
  then with_state c (rollover_counter c) (last_sequence c) index (rx_mki_active c) else c.

Definition unprotect_rtcp_with_mki (c : SrtpContext) (packet : list Z) (mki_len : nat)
    : res SrtpError (list Z * SrtpContext) :=
  let tlen := tag_len (ctx_profile c) in
  if (length packet <? tlen + mki_len + 4)%nat then Err SrtpPacketTooShort else
  match ctx_profile c with
  | AeadAes128Gcm =>
      let mki_start := (length packet - mki_len)%nat in
      let index_start := (mki_start - 4)%nat in
      index_with_e ← be_at 4 packet index_start;
      let index := Z.land index_with_e 0x7FFFFFFF in
      nonce ← build_gcm_rtcp_nonce c index;
      cipher ← ok_or (rtcp_gcm_cipher c) UnsupportedProfile;
      hdr ← slice packet 0 8;
      let aad := hdr ++ to_be 4 index_with_e in
      ct ← slice packet 8 index_start;
      plaintext ← ok_or (gcm_decrypt cipher nonce aad ct) AuthenticationFailed;
      Ok (hdr ++ plaintext, note_index c index)
  | _ =>
      let tag_start := (length packet - tlen)%nat in
      tag ← slice packet tag_start (tag_start + tlen);
      let packet := take tag_start packet in
      let packet := take (length packet - mki_len) packet in
      expected ← auth_tag_rtcp c packet;
      if negb (constant_time_eq tag (take tlen expected)) then Err AuthenticationFailed else
      index_with_e ← be_at 4 packet (length packet - 4);
      let packet := take (length packet - 4) packet in
      let e_bit := negb (Z.land index_with_e 0x80000000 =? 0) in
      let index := Z.land index_with_e 0x7FFFFFFF in
      let c := note_index c index in
      packet ← (if e_bit && (8 <? length packet)%nat then cipher_rtcp c packet index else Ok packet);
      Ok (packet, c)
  end.
End context.

(** ** RTP packets *)

Section rtp.
Context `{BytesCrate, SrtpCrypto}.

Definition SrtpPacket_parse (raw : list Z) : res RtpError SrtpPacket :=
  '(h, has_padding, rest) ← RtpHeader_parse raw;
  Ok {| sp_header := h; sp_body := rest; sp_has_padding := has_padding |}.

(** The clear header, as [marshal_header_into] reconstructs it *)
Definition marshal_header (p : SrtpPacket) : res SrtpError (list Z) :=
  from_rtp (RtpHeader_write_to (sp_header p) (sp_has_padding p)
              (replicate (RtpHeader_encoded_len (sp_header p)) 0)).

Definition body_len (p : RtpPacket) : nat := (length (payload p) + Z.to_nat (padding_len p))%nat.

Definition protected_rtp_len (c : SrtpContext) (p : RtpPacket) : nat :=
  (RtpHeader_encoded_len (header p) + body_len p + tag_len (ctx_profile c) + tx_len (ctx_mki c))%nat.

Definition encrypts (p : SrtpProfile) : bool := match p with NullCipherHmac => false | _ => true end.

(** Header and body in the clear to header, body and trailer protected *)
Definition protect_body (c : SrtpContext) (seq roc : Z) (hdr body : list Z) : res SrtpError (list Z) :=
  match ctx_profile c with
  | AeadAes128Gcm =>
      nonce ← build_gcm_nonce c seq roc;
      cipher ← ok_or (rtp_gcm_cipher c) UnsupportedProfile;
      '(ct, tag) ← ok_or (gcm_encrypt_detached cipher nonce hdr body) AuthenticationFailed;
      mki ← mki_bytes (ctx_mki c);
      Ok (hdr ++ ct ++ tag ++ mki)
  | prof =>
      body ← (if negb (length body =? 0)%nat && encrypts prof then
                iv ← build_iv c seq roc;
                Ok (xor_with body (ctr_stream (rtp_aes_key c) iv (length body)))
              else Ok body);
      key ← ok_or (rtp_auth_prototype c) UnsupportedProfile;
      let result := hmac_sha1 key (hdr ++ body ++ to_be 4 roc) in
      mki ← mki_bytes (ctx_mki c);
      Ok (hdr ++ body ++ mki ++ take (tag_len prof) result)
  end.

Definition protect (c : SrtpContext) (p : RtpPacket) (output : list Z)
    : res SrtpError (list Z * SrtpContext) :=
  _ ← from_rtp (RtpHeader_validate (header p));
  let seq := sequence_number (header p) in
  let roc := estimate_roc c seq in
  let header_len := RtpHeader_encoded_len (header p) in
  if negb (length output =? protected_rtp_len c p)%nat
  then Err (SrtpInternal "protected RTP output length mismatch") else
  hdr ← from_rtp (RtpHeader_write_to (header p) (negb (padding_len p =? 0)) (take header_len output));
  out ← protect_body c seq roc hdr (payload p ++ replicate (Z.to_nat (padding_len p)) (padding_len p));
  Ok (out, update c seq roc).

(** The decrypted body of a packet, once authenticated *)
Definition unprotect_body (c : SrtpContext) (seq roc : Z) (hdr body : list Z) (mki_len : nat)
    : res SrtpError (list Z) :=
  let tlen := tag_len (ctx_profile c) in
  let split := (length body - tlen - mki_len)%nat in
  match ctx_profile c with
  | AeadAes128Gcm =>
      nonce ← build_gcm_nonce c seq roc;
      cipher ← ok_or (rtp_gcm_cipher c) UnsupportedProfile;
      tag ← slice body split (split + tlen);
      ok_or (gcm_decrypt_detached cipher nonce hdr (take split body) tag) AuthenticationFailed
  | prof =>
      if match rtp_auth_prototype c with
         | Some key =>
             constant_time_eq (drop (split + mki_len) body)
               (take tlen (hmac_sha1 key (hdr ++ take split body ++ to_be 4 roc)))
         | None => true
         end
      then
        let body := take split body in
        if negb (length body =? 0)%nat && encrypts prof then
          iv ← build_iv c seq roc;
          Ok (xor_with body (ctr_stream (rtp_aes_key c) iv (length body)))
        else Ok body
      else Err AuthenticationFailed
  end.

(** Removing the padding: the payload and the padding length *)
Definition strip_padding (has_padding : bool) (body : list Z) : res SrtpError (list Z * Z) :=
  if has_padding then
    n ← ok_or (last body) SrtpPacketTooShort;
    if (n =? 0) || (Z.of_nat (length body) <? n)
    then Err (SrtpInternal "invalid decrypted RTP padding length")
    else Ok (take (length body - Z.to_nat n) body, n)
  else Ok (body, 0).

Definition unprotect_with_mki (c : SrtpContext) (p : SrtpPacket) (mki_len : nat)
    : res SrtpError (RtpPacket * SrtpContext) :=
  if (length (sp_body p) <? tag_len (ctx_profile c) + mki_len)%nat then Err SrtpPacketTooShort else
  let seq := sequence_number (sp_header p) in
  let roc := estimate_roc c seq in
  hdr ← marshal_header p;
  body ← unprotect_body c seq roc hdr (sp_body p) mki_len;
  '(pl, padding) ← strip_padding (sp_has_padding p) body;
  Ok ({| header := sp_header p; payload := pl; padding_len := padding |}, update c seq roc).

(** The MKI lengths to try *)
Definition mki_candidates (active : option bool) (advertised : nat) : list nat :=
  match active with
  | Some true => [advertised]
  | Some false => [0%nat]
  | None => (if (0 <? advertised)%nat then [advertised] else []) ++ [0%nat]
  end.

(** Trying them in order: the first that succeeds, or the last error *)
Fixpoint try_mki {A} (f : nat → res SrtpError A) (candidates : list nat) (last_err : SrtpError)
    : res SrtpError (A * bool) :=
  match candidates with
  | [] => Err last_err
  | n :: candidates =>
      match f n with
      | Ok a => Ok (a, (0 <? n)%nat)
      | Err e => try_mki f candidates e
      | Panic => Panic
      end
  end.

Definition set_rx_mki_active (c : SrtpContext) (active : bool) : SrtpContext :=
  with_state c (rollover_counter c) (last_sequence c) (rtcp_index c) (Some active).

Definition unprotect (c : SrtpContext) (p : SrtpPacket) : res SrtpError (RtpPacket * SrtpContext) :=
  '(pkt, c', active) ← try_mki (unprotect_with_mki c p)
    (mki_candidates (rx_mki_active c) (rx_len (ctx_mki c))) AuthenticationFailed;
  Ok (pkt, set_rx_mki_active c' active).
End rtp.

(** ** Sessions *)

Record SrtpSession := {
  session_profile : SrtpProfile;
  tx_keying : SrtpKeyingMaterial;
  rx_keying : SrtpKeyingMaterial;
  tx_contexts : list (Z * SrtpContext);
  rx_contexts : list (Z * SrtpContext);
  session_mki : MkiParams;
  rtcp_rx_mki_active : option bool;
}.

Definition SrtpSession_new (profile : SrtpProfile) (tx rx : SrtpKeyingMaterial) : SrtpSession := {|
  session_profile := profile; tx_keying := tx; rx_keying := rx; tx_contexts := []; rx_contexts := [];
  session_mki := MkiParams_default; rtcp_rx_mki_active := None |}.

Definition with_session (s : SrtpSession) (tx rx : list (Z * SrtpContext)) (mki : MkiParams)
    (active : option bool) : SrtpSession := {|
  session_profile := session_profile s; tx_keying := tx_keying s; rx_keying := rx_keying s;
  tx_contexts := tx; rx_contexts := rx; session_mki := mki; rtcp_rx_mki_active := active |}.

Definition set_tx_mki (s : SrtpSession) (value : list Z) (len : nat) : res SrtpError SrtpSession :=
  if (len =? 0)%nat || (MKI_MAX_LEN <? len)%nat then Err (SrtpInternal "MKI length out of range") else
  if negb (length value =? len)%nat then Err (SrtpInternal "MKI value does not have the negotiated length") else
  Ok (with_session s (tx_contexts s) (rx_contexts s)
        {| mki_tx := Some (value, len); mki_rx_len := mki_rx_len (session_mki s) |} (rtcp_rx_mki_active s)).

Definition set_rx_mki_len (s : SrtpSession) (len : nat) : res SrtpError SrtpSession :=
  if (len =? 0)%nat || (MKI_MAX_LEN <? len)%nat then Err (SrtpInternal "MKI length out of range") else
  Ok (with_session s (tx_contexts s) (rx_contexts s)
        {| mki_tx := mki_tx (session_mki s); mki_rx_len := Some len |} (rtcp_rx_mki_active s)).

Definition session_protected_rtp_len (s : SrtpSession) (p : RtpPacket) : nat :=
  (RtpHeader_encoded_len (header p) + body_len p + tag_len (session_profile s) + tx_len (session_mki s))%nat.

Definition SSRC_CONTEXT_HIGH_WATERMARK : nat := 32.
(** 60 s, in nanoseconds *)
Definition SSRC_INACTIVITY_EVICT : Z := 60000000000.

(** [evict_stale_tx] and [evict_stale_rx] *)
Definition evict_stale (now keep_ssrc : Z) (m : list (Z * SrtpContext)) : list (Z * SrtpContext) :=
  if (length m <=? SSRC_CONTEXT_HIGH_WATERMARK)%nat then m else
  filter (λ sc, sc.1 = keep_ssrc ∨ Z.max 0 (now - last_used sc.2) < SSRC_INACTIVITY_EVICT) m.

Section session.
Context `{BytesCrate, SrtpCrypto}.

(** The context of an SSRC, made when there is none, and marked as used *)
Definition context_for (s : SrtpSession) (dir : SrtpDirection) (m : list (Z * SrtpContext)) (now ssrc : Z)
    : res SrtpError SrtpContext :=
  match bt_get ssrc m with
  | Some c => Ok (with_use c now (ctx_mki c))
  | None =>
      c ← SrtpContext_new ssrc (session_profile s)
            (match dir with Sender => tx_keying s | Receiver => rx_keying s end) dir now;
      Ok (with_use c now (session_mki s))
  end.

Definition put_tx (s : SrtpSession) (m : list (Z * SrtpContext)) : SrtpSession :=
  with_session s m (rx_contexts s) (session_mki s) (rtcp_rx_mki_active s).

Definition put_rx (s : SrtpSession) (m : list (Z * SrtpContext)) : SrtpSession :=
  with_session s (tx_contexts s) m (session_mki s) (rtcp_rx_mki_active s).

(** The failure of [r] as one of another type; [d] stands for success. *)
Definition fails {A B} (r : res SrtpError A) (d : res SrtpError B) : res SrtpError B :=
  match r with Ok _ => d | Err e => Err e | Panic => Panic end.

Definition protect_rtp (s : SrtpSession) (now : Z) (p : RtpPacket) (output : list Z)
    : SrtpSession * res SrtpError (list Z) :=
  let sr := ssrc (header p) in
  let m := evict_stale now sr (tx_contexts s) in
  match context_for s Sender m now sr with
  | Ok c =>
      match protect c p output with
      | Ok (out, c) => (put_tx s (bt_insert sr c m), Ok out)
      | r => (put_tx s (bt_insert sr c m), fails r Panic)
      end
  | r => (put_tx s m, fails r Panic)
  end.

Definition unprotect_rtp (s : SrtpSession) (now : Z) (p : SrtpPacket)
    : SrtpSession * res SrtpError RtpPacket :=
  let sr := ssrc (sp_header p) in
  let m := evict_stale now sr (rx_contexts s) in
  match context_for s Receiver m now sr with
  | Ok c =>
      match unprotect c p with
      | Ok (pkt, c) => (put_rx s (bt_insert sr c m), Ok pkt)
      | r => (put_rx s (bt_insert sr c m), fails r Panic)
      end
  | r => (put_rx s m, fails r Panic)
  end.

Definition session_protect_rtcp (s : SrtpSession) (now : Z) (packet : list Z)
    : SrtpSession * res SrtpError (list Z) :=
  if (length packet <? 8)%nat then (s, Err SrtpPacketTooShort) else
  let sr := of_be (take 4 (drop 4 packet)) in
  let m := evict_stale now sr (tx_contexts s) in
  match context_for s Sender m now sr with
  | Ok c => let '(c, r) := protect_rtcp c packet in (put_tx s (bt_insert sr c m), r)
  | r => (put_tx s m, fails r Panic)
  end.

Definition session_unprotect_rtcp (s : SrtpSession) (now : Z) (packet : list Z)
    : SrtpSession * res SrtpError (list Z) :=
  if (length packet <? 14)%nat then (s, Err SrtpPacketTooShort) else
  let sr := of_be (take 4 (drop 4 packet)) in
  let m := evict_stale now sr (rx_contexts s) in
  match context_for s Receiver m now sr with
  | Ok c =>
      match try_mki (unprotect_rtcp_with_mki c packet)
              (mki_candidates (rtcp_rx_mki_active s) (rx_len (session_mki s))) AuthenticationFailed with
      | Ok (out, c, active) =>
          (with_session s (tx_contexts s) (bt_insert sr c m) (session_mki s) (Some active), Ok out)
      | r => (put_rx s (bt_insert sr c m), fails r Panic)
      end
  | r => (put_rx s m, fails r Panic)
  end.
End session.
