(* ===== verification/SrtpFacts.v ===== *)
(** * SRTP: what the protection guarantees

    The rollover counter follows the sender; a stream that loses and reorders
    packets within half the sequence number space is recovered exactly;
    initialisation vectors do not repeat; only authenticated packets are
    accepted.  Also what is missing: replays are accepted, and an evicted
    context starts again with the same SRTCP indices. *)
From stdpp Require Import sets.
From S2P Require Import Prelude BytesCrate BTree Rtp Srtp.

(** ** Byte strings *)

Lemma foldl_lor_zero (l : list (Z * Z)) acc :
  foldl (λ diff xy, Z.lor diff (Z.lxor xy.1 xy.2)) acc l = 0 ↔ acc = 0 ∧ Forall (λ xy, xy.1 = xy.2) l.
Proof.
  revert acc. induction l as [|[x y] l IH]; intros acc; cbn [foldl]; [naive_solver|].
  rewrite IH, Z.lor_eq_0_iff, Z.lxor_eq_0_iff, Forall_cons. naive_solver.
Qed.

Lemma constant_time_eq_spec a b : constant_time_eq a b = true ↔ a = b.
Proof.
  unfold constant_time_eq. destruct (Nat.eqb_spec (length a) (length b)) as [Hl|Hl]; cbn [negb].
  - rewrite Z.eqb_eq, foldl_lor_zero. split; [intros [_ Hall]|intros ->; split; [done|]].
    + revert b Hl Hall. induction a as [|x a IH]; intros [|y b] Hl; try done. cbn.
      intros [Hxy Hall]%Forall_cons. cbn in *. f_equal; [done|]. apply IH; [lia|done].
    + clear. induction b; constructor; auto.
  - split; [done|]. by intros ->.
Qed.

Lemma xor_with_length d ks : length d = length ks → length (xor_with d ks) = length d.
Proof. intros. unfold xor_with. rewrite length_zip_with. lia. Qed.

(** Applying a key stream twice *)
Lemma xor_with_twice d ks : length d = length ks → xor_with (xor_with d ks) ks = d.
Proof.
  unfold xor_with. revert ks. induction d as [|x d IH]; intros [|k ks] Hl; cbn in *; try done.
  rewrite IH by lia. f_equal. by rewrite Z.lxor_assoc, Z.lxor_nilpotent, Z.lxor_0_r.
Qed.

Lemma xor_with_inj s a b :
  length s = length a → length s = length b → xor_with s a = xor_with s b → a = b.
Proof.
  unfold xor_with. revert a b. induction s as [|x s IH]; intros [|a aa] [|b bb] Ha Hb; cbn in *; try done.
  intros [= Hx Hr]. f_equal; [|apply IH; [lia..|done]].
  apply (f_equal (Z.lxor x)) in Hx. by rewrite <- !Z.lxor_assoc, Z.lxor_nilpotent, !Z.lxor_0_l in Hx.
Qed.

(** ** The rollover counter *)

(** The highest index seen, as a 48-bit number *)
Record at_index (c : SrtpContext) (h : Z) : Prop := {
  ai_range : u48 h;
  ai_roc : rollover_counter c = h / 65536;
  ai_last : last_sequence c = Some (h mod 65536);
}.

Lemma lor_index roc seq : u16 seq → Z.lor (Z.shiftl roc 16) seq = roc * 65536 + seq.
Proof. intros. rewrite (lor_shiftl_add 16 roc seq); unfold u16 in *; lia. Qed.

Lemma estimate_roc_ok c h i :
  at_index c h → u48 i → Z.abs (i - h) < 32768 → estimate_roc c (i mod 65536) = i / 65536.
Proof.
  intros [Hh Hr Hl] Hi Hw. unfold estimate_roc. rewrite Hl, Hr. unfold u48 in *.
  destruct (Z.ltb_spec (i mod 65536 - h mod 65536) (-32768)); [mlia|].
  destruct (Z.ltb_spec 32768 (i mod 65536 - h mod 65536)); mlia.
Qed.

Lemma update_ok c h i :
  at_index c h → u48 i → at_index (update c (i mod 65536) (i / 65536)) (Z.max h i).
Proof.
  intros [Hh Hr Hl] Hi. unfold update. rewrite Hl, Hr, !lor_index by mlia.
  replace (h / 65536 * 65536 + h mod 65536) with h by lia.
  replace (i / 65536 * 65536 + i mod 65536) with i by lia.
  destruct (Z.ltb_spec h i).
  - rewrite Z.max_r by lia. by split.
  - rewrite Z.max_l by lia. by split.
Qed.

Lemma update_first c i :
  last_sequence c = None → u48 i → at_index (update c (i mod 65536) (i / 65536)) i.
Proof. intros Hl Hi. unfold update. rewrite Hl. by split. Qed.

(** ** Contexts *)

(** What a context keeps for its whole life *)
Definition statics (c : SrtpContext) :=
  (ctx_ssrc c, ctx_profile c, rtp_keys c, rtcp_keys c, rtp_aes_key c, rtcp_aes_key c,
   (rtp_gcm_cipher c, rtcp_gcm_cipher c, rtp_auth_prototype c, rtcp_auth_prototype c)).

Record ctx_ok (c : SrtpContext) : Prop := {
  ok_salt : length (salt (rtp_keys c)) = salt_len (ctx_profile c);
  ok_rtcp_salt : length (salt (rtcp_keys c)) = salt_len (ctx_profile c);
  ok_gcm : ctx_profile c = AeadAes128Gcm → is_Some (rtp_gcm_cipher c) ∧ is_Some (rtcp_gcm_cipher c);
  ok_auth : ctx_profile c ≠ AeadAes128Gcm → is_Some (rtp_auth_prototype c) ∧ is_Some (rtcp_auth_prototype c);
}.

Definition mki_ok (m : MkiParams) : Prop :=
  match mki_tx m with Some (v, n) => length v = n | None => True end.

Lemma mki_bytes_ok m : mki_ok m → ∃ v, mki_bytes m = Ok v ∧ length v = tx_len m.
Proof.
  unfold mki_ok, mki_bytes, tx_len. destruct (mki_tx m) as [[v n]|]; [|by exists []].
  intros <-. rewrite slice_ok by lia. rewrite drop_0, Nat.sub_0_r, take_ge by lia. by exists v.
Qed.

Lemma statics_update c seq roc : statics (update c seq roc) = statics c.
Proof. unfold update. repeat case_match; done. Qed.

Lemma mki_update c seq roc :
  ctx_mki (update c seq roc) = ctx_mki c ∧ rx_mki_active (update c seq roc) = rx_mki_active c.
Proof. unfold update. repeat case_match; done. Qed.

Lemma ctx_ok_statics c c' : statics c = statics c' → ctx_ok c → ctx_ok c'.
Proof.
  unfold statics. intros Heq [H1 H2 H3 H4]. injection Heq as _ Hp Hr Hc _ _ Hg Hg' Ha Ha'.
  rewrite Hp, ?Hr, ?Hc, ?Hg, ?Hg', ?Ha, ?Ha' in *. by split.
Qed.

Lemma build_iv_ok c seq roc :
  ctx_ok c → ctx_profile c ≠ AeadAes128Gcm → ∃ iv, build_iv c seq roc = Ok iv.
Proof.
  intros [Hs _ _ _] Hp. unfold build_iv. rewrite slice_ok; [by eexists|lia|].
  rewrite Hs. by destruct (ctx_profile c).
Qed.

Lemma gcm_nonce_ok c seq roc :
  ctx_ok c → ∃ nonce, build_gcm_nonce c seq roc = Ok nonce.
Proof.
  intros [Hs _ _ _]. unfold build_gcm_nonce. rewrite slice_ok; [by eexists|lia|].
  rewrite Hs. destruct (ctx_profile c); cbn; lia.
Qed.

Section protection.
Context `{SrtpCryptoLaws}.

Lemma slice_mid {E} (a d r : list Z) i j :
  i = length a → j = (length a + length d)%nat → slice (E := E) (a ++ d ++ r) i j = Ok d.
Proof.
  intros -> ->. rewrite (slice_next a (d ++ r) _ _ 0 (length d)) by lia. apply slice_app_hd. done.
Qed.

(** Encryption in counter mode is its own inverse. *)
Lemma ctr_twice key iv d :
  xor_with (xor_with d (ctr_stream key iv (length d)))
    (ctr_stream key iv (length (xor_with d (ctr_stream key iv (length d))))) = d.
Proof.
  rewrite (xor_with_length d) by (by rewrite ctr_length). apply xor_with_twice. by rewrite ctr_length.
Qed.

Lemma protect_body_roundtrip c c' seq roc hdr body :
  statics c = statics c' → ctx_ok c → mki_ok (ctx_mki c) → gcm_fits hdr body →
  ∃ ct, protect_body c seq roc hdr body = Ok (hdr ++ ct) ∧
    length ct = (length body + tag_len (ctx_profile c) + tx_len (ctx_mki c))%nat ∧
    unprotect_body c' seq roc hdr ct (tx_len (ctx_mki c)) = Ok body.
Proof.
  intros Hst Hok Hmki Hfit. destruct (mki_bytes_ok _ Hmki) as (mki & Hm & Hml).
  unfold protect_body, unprotect_body. unfold statics in Hst. injection Hst as Hssrc Hp Hk _ Ha _ Hg _ Hau _.
  assert (build_iv c' seq roc = build_iv c seq roc) as Hiv by (unfold build_iv; by rewrite Hssrc, Hk).
  assert (build_gcm_nonce c' seq roc = build_gcm_nonce c seq roc) as Hno by (unfold build_gcm_nonce; by rewrite Hssrc, Hk).
  rewrite Hm, Hno, Hiv, <- Hp, <- Ha, <- Hg, <- Hau.
  destruct (decide (ctx_profile c = AeadAes128Gcm)) as [Hgcm|Hgcm].
  - rewrite Hgcm. destruct (gcm_nonce_ok c seq roc Hok) as (nonce & ->). run.
    destruct (ok_gcm c Hok Hgcm) as [[key ->] _]. run.
    destruct (gcm_detached_ok key nonce hdr body Hfit) as (ct & tag & -> & Hlc & Hlt & Hdec). run.
    exists (ct ++ tag ++ mki). rewrite !length_app, Hlc, Hlt, Hml. split_and!; [done|cbn; lia|].
    replace (length body + (16 + tx_len (ctx_mki c)) - tag_len AeadAes128Gcm - tx_len (ctx_mki c))%nat
      with (length ct) by (cbn; lia).
    rewrite slice_mid by (cbn; lia). run. by rewrite take_app_length, Hdec.
  - destruct (build_iv_ok c seq roc Hok Hgcm) as (iv & ->).
    destruct (ok_auth c Hok Hgcm) as [[key ->] _].
    set (prof := ctx_profile c) in *.
    set (ks := if negb (length body =? 0)%nat && encrypts prof
               then xor_with body (ctr_stream (rtp_aes_key c) iv (length body)) else body).
    set (tag := take (tag_len prof) (hmac_sha1 key (hdr ++ ks ++ to_be 4 roc))).
    assert (length ks = length body) as Hks.
    { unfold ks. case_match; [|done]. apply xor_with_length. by rewrite ctr_length. }
    assert (length tag = tag_len prof) as Htag.
    { unfold tag. rewrite length_take, hmac_length. destruct prof; cbn; lia. }
    exists (ks ++ mki ++ tag). rewrite !length_app, Hks, Htag, Hml.
    replace (length body + (tx_len (ctx_mki c) + tag_len prof) - tag_len prof - tx_len (ctx_mki c))%nat
      with (length ks) by lia.
    assert (drop (length ks + tx_len (ctx_mki c)) (ks ++ mki ++ tag) = tag) as Hdrop.
    { by rewrite <- drop_drop, drop_app_length, <- Hml, drop_app_length. }
    rewrite Hdrop, take_app_length, (proj2 (constant_time_eq_spec _ _)) by done.
    rewrite Hks. split_and!; [|lia|].
    + unfold tag, ks. destruct prof; try done; run; by destruct (negb (length body =? 0)%nat).
    + unfold ks. destruct prof; try done; cbn [encrypts]; rewrite ?andb_true_r, ?andb_false_r; try done;
        destruct (negb (length body =? 0)%nat); try done; run; by rewrite <- Hks at 2; rewrite ctr_twice.
Qed.
End protection.

(** ** RTP packets *)

Section packets.
Context `{BytesCrate, !BytesLaws, SrtpCrypto, !SrtpCryptoLaws}.

(** The clear body: payload and padding *)
Definition clear_body (p : RtpPacket) : list Z :=
  payload p ++ replicate (Z.to_nat (padding_len p)) (padding_len p).

Lemma strip_clear_body p :
  u8 (padding_len p) →
  strip_padding (negb (padding_len p =? 0)) (clear_body p) = Ok (payload p, padding_len p).
Proof.
  intros Hp. unfold strip_padding, clear_body, u8 in *. destruct (Z.eqb_spec (padding_len p) 0) as [Hz|Hz].
  - rewrite Hz. cbn. by rewrite app_nil_r.
  - cbn [negb]. destruct (Z.to_nat (padding_len p)) as [|n] eqn:En; [lia|].
    rewrite last_app, last_replicate_S. run.
    rewrite (proj2 (Z.eqb_neq _ _)), length_app, length_replicate by done. cbn [orb].
    rewrite (proj2 (Z.ltb_ge _ _)) by lia. do 2 f_equal. rewrite take_app_le by lia. apply take_ge. lia.
Qed.

Lemma header_len_bound h : wf_header h → Z.of_nat (RtpHeader_encoded_len h) < 300000.
Proof.
  intros [_ _ _ _ _ Hn He]. unfold RtpHeader_encoded_len. destruct (extension h) as [e|]; [|lia].
  destruct (He e eq_refl) as [_ _ _ Hl]. unfold u16 in Hl.
  pose proof (Nat.div_mod_eq (length (ext_data e)) 4). pose proof (Nat.mod_upper_bound (length (ext_data e)) 4). lia.
Qed.

(** The MKI lengths of the two sides agree, and the receiver has not settled
    on another one. *)
Definition mki_agree (tx rx : SrtpContext) : Prop :=
  let n := tx_len (ctx_mki tx) in
  rx_len (ctx_mki rx) = n ∧ (rx_mki_active rx = None ∨ rx_mki_active rx = Some (0 <? n)%nat).

Lemma mki_agree_candidates tx rx :
  mki_agree tx rx →
  ∃ rest, mki_candidates (rx_mki_active rx) (rx_len (ctx_mki rx)) = tx_len (ctx_mki tx) :: rest.
Proof.
  intros [-> Ha]. unfold mki_candidates. destruct (tx_len (ctx_mki tx)) as [|n]; destruct Ha as [-> | ->]; cbn; eauto.
Qed.

(** A packet protected by [tx] at rollover count [roc], seen by any receiver
    with the same keys that estimates the same count *)
Lemma protect_opens tx p roc :
  ctx_ok tx → mki_ok (ctx_mki tx) → wf_packet p → Z.of_nat (length (payload p)) ≤ 65535 →
  estimate_roc tx (sequence_number (header p)) = roc →
  ∃ raw sp,
    protect tx p (replicate (protected_rtp_len tx p) 0) = Ok (raw, update tx (sequence_number (header p)) roc) ∧
    length raw = protected_rtp_len tx p ∧ SrtpPacket_parse raw = Ok sp ∧
    ∀ rx, statics tx = statics rx → mki_agree tx rx →
      estimate_roc rx (sequence_number (header p)) = roc →
      unprotect rx sp = Ok (p, set_rx_mki_active (update rx (sequence_number (header p)) roc)
                                 (0 <? tx_len (ctx_mki tx))%nat).
Proof.
  intros Hok Hmki [Hh Hpl Hpad] Hlen Hroc. set (h := header p) in *. set (pad := negb (padding_len p =? 0)).
  assert (length (clear_body p) = body_len p) as Hbl.
  { unfold clear_body, body_len. by rewrite length_app, length_replicate. }
  assert (gcm_fits (header_bytes h pad) (clear_body p)) as Hfit.
  { unfold gcm_fits. rewrite length_header_bytes, Hbl. pose proof (header_len_bound h Hh).
    unfold body_len, u8 in *. lia. }
  destruct (protect_body_roundtrip tx tx (sequence_number h) roc _ _ eq_refl Hok Hmki Hfit)
    as (ct & Hprot & Hct & _).
  exists (header_bytes h pad ++ ct), {| sp_header := h; sp_body := ct; sp_has_padding := pad |}.
  split_and!.
  - unfold protect. fold h. rewrite validate_wf by done. run. rewrite Hroc, length_replicate, Nat.eqb_refl. run.
    rewrite write_to_ok by (rewrite length_take, length_replicate; unfold protected_rtp_len; fold h; lia).
    cbn [from_rtp]. run. fold pad. fold (clear_body p). by rewrite Hprot.
  - rewrite length_app, length_header_bytes, Hct, Hbl. unfold protected_rtp_len. fold h. lia.
  - unfold SrtpPacket_parse. by rewrite parse_header_bytes.
  - intros rx Hst Hagree Hest. unfold unprotect.
    destruct (mki_agree_candidates _ _ Hagree) as (rest & ->). cbn [try_mki].
    assert (ctx_profile rx = ctx_profile tx) as Hprof by (unfold statics in Hst; by simplify_eq).
    destruct (protect_body_roundtrip tx rx (sequence_number h) roc _ _ Hst Hok Hmki Hfit) as (ct' & Hprot' & _ & Hun).
    rewrite Hprot in Hprot'. injection Hprot' as Heq. apply app_inv_head in Heq as <-.
    unfold unprotect_with_mki, marshal_header. cbn [sp_body sp_header sp_has_padding].
    rewrite Hprof, (proj2 (Nat.ltb_ge _ _)), Hest by lia.
    rewrite write_to_ok by (by rewrite length_replicate). cbn [from_rtp]. run. rewrite Hun. run.
    unfold pad. rewrite strip_clear_body by done. run. by destruct p.
Qed.
(** ** Streams *)

Fixpoint protect_all (tx : SrtpContext) (ps : list RtpPacket) : res SrtpError (list (list Z)) :=
  match ps with
  | [] => Ok []
  | p :: ps =>
      '(raw, tx) ← protect tx p (replicate (protected_rtp_len tx p) 0);
      raws ← protect_all tx ps;
      Ok (raw :: raws)
  end.

Fixpoint unprotect_all (rx : SrtpContext) (raws : list (list Z)) : res SrtpError (list RtpPacket) :=
  match raws with
  | [] => Ok []
  | raw :: raws =>
      sp ← from_rtp (SrtpPacket_parse raw);
      '(p, rx) ← unprotect rx sp;
      ps ← unprotect_all rx raws;
      Ok (p :: ps)
  end.

(** Packets with consecutive sequence numbers from [i] on *)
Fixpoint numbered (i : Z) (ps : list RtpPacket) : Prop :=
  match ps with
  | [] => True
  | p :: ps =>
      wf_packet p ∧ Z.of_nat (length (payload p)) ≤ 65535 ∧
      sequence_number (header p) = i mod 65536 ∧ numbered (i + 1) ps
  end.

(** A receiver or sender that has seen indices up to [h], or none *)
Definition seen (h : option Z) (c : SrtpContext) : Prop :=
  match h with
  | None => last_sequence c = None ∧ rollover_counter c = 0
  | Some h => at_index c h
  end.

(** An index whose rollover count is estimated right: in the first cycle at
    the start, then within half a cycle of the highest *)
Definition near (h : option Z) (i : Z) : Prop :=
  u48 i ∧ match h with None => i < 65536 | Some h => Z.abs (i - h) < 32768 end.

Definition highest (h : option Z) (i : Z) : Z := match h with None => i | Some h => Z.max h i end.

Lemma seen_step h c i :
  seen h c → near h i →
  estimate_roc c (i mod 65536) = i / 65536 ∧ seen (Some (highest h i)) (update c (i mod 65536) (i / 65536)).
Proof.
  destruct h as [h|]; cbn; intros Hc [Hi Hn].
  - split; [by apply (estimate_roc_ok c h)|by apply update_ok].
  - destruct Hc as [Hl Hr]. split; [|by apply update_first].
    unfold estimate_roc. rewrite Hl, Hr. unfold u48 in Hi. mlia.
Qed.

Lemma seen_active h c b : seen h c → seen h (set_rx_mki_active c b).
Proof. destruct h; [|done]. by intros []. Qed.

(** What the sender emits opens, packet by packet. *)
Definition opens (tx : SrtpContext) (i : Z) (p : RtpPacket) (raw : list Z) : Prop :=
  ∃ sp, SrtpPacket_parse raw = Ok sp ∧
    ∀ rx, statics tx = statics rx → mki_agree tx rx → estimate_roc rx (i mod 65536) = i / 65536 →
      unprotect rx sp = Ok (p, set_rx_mki_active (update rx (i mod 65536) (i / 65536))
                                 (0 <? tx_len (ctx_mki tx))%nat).

Lemma opens_update tx seq roc i p raw : opens (update tx seq roc) i p raw → opens tx i p raw.
Proof.
  unfold opens, mki_agree. rewrite statics_update. by destruct (mki_update tx seq roc) as [-> _].
Qed.

Lemma protect_all_opens tx ps i :
  ctx_ok tx → mki_ok (ctx_mki tx) → numbered i ps → 0 ≤ i → i + Z.of_nat (length ps) ≤ 2 ^ 48 →
  (seen None tx ∧ i < 65536 ∨ seen (Some (i - 1)) tx) →
  ∃ raws, protect_all tx ps = Ok raws ∧ length raws = length ps ∧
    ∀ k raw, raws !! k = Some raw → ∃ p, ps !! k = Some p ∧ opens tx (i + Z.of_nat k) p raw.
Proof.
  revert tx i. induction ps as [|p ps IH]; intros tx i Hok Hmki Hps Hi Hb Hseen; cbn [protect_all].
  { by exists []. }
  destruct Hps as (Hwf & Hlen & Hseq & Hps). cbn [length] in Hb.
  assert (∃ h, seen h tx ∧ near h i ∧ highest h i = i) as (h & Hs & Hnear & Hh).
  { destruct Hseen as [[Hs Hlt]|Hs]; [exists None|exists (Some (i - 1))]; (split; [done|]);
      unfold near, u48; cbn; split_and!; lia. }
  destruct (seen_step h tx i Hs Hnear) as [Hest Hupd]. rewrite Hh in Hupd.
  destruct (protect_opens tx p (i / 65536) Hok Hmki Hwf Hlen) as (raw & sp & Hprot & _ & Hparse & Hopen);
    [by rewrite Hseq|].
  rewrite Hprot. run. rewrite Hseq in *. set (tx' := update tx (i mod 65536) (i / 65536)) in *.
  destruct (IH tx' (i + 1)) as (raws & -> & Hrl & Hall).
  { eapply ctx_ok_statics; [symmetry; apply statics_update|done]. }
  { unfold tx'. by destruct (mki_update tx (i mod 65536) (i / 65536)) as [-> _]. }
  { done. } { lia. } { lia. } { right. by replace (i + 1 - 1) with i by lia. }
  run. exists (raw :: raws). split_and!; [done|cbn; by rewrite Hrl|].
  intros [|k] r; cbn [lookup list_lookup]; intros Hr.
  - simplify_eq. exists p. split; [done|]. rewrite Z.add_0_r. exists sp. auto.
  - destruct (Hall k r Hr) as (q & Hq & Ho). exists q. split; [done|].
    replace (i + Z.of_nat (S k)) with (i + 1 + Z.of_nat k) by lia. by eapply opens_update.
Qed.

(** Arrivals, by position in the stream, each near what was seen before *)
Fixpoint tracked (s0 : Z) (h : option Z) (ks : list nat) : Prop :=
  match ks with
  | [] => True
  | k :: ks =>
      let i := s0 + Z.of_nat k in near h i ∧ tracked s0 (Some (highest h i)) ks
  end.

Lemma unprotect_all_tracked tx rx s0 ps raws ks h :
  statics tx = statics rx → mki_agree tx rx → seen h rx → tracked s0 h ks →
  (∀ k raw, raws !! k = Some raw → ∃ p, ps !! k = Some p ∧ opens tx (s0 + Z.of_nat k) p raw) →
  Forall (λ k, (k < length raws)%nat) ks → length raws = length ps →
  unprotect_all rx (omap (raws !!.) ks) = Ok (omap (ps !!.) ks).
Proof.
  intros Hst Hag Hseen Htr Hop Hlt Hlen. revert rx h Hst Hag Hseen Htr.
  induction Hlt as [|k ks Hk _ IH]; intros rx h Hst Hag Hseen Htr; [done|].
  destruct Htr as [Hnear Htr]. cbn [omap list_omap].
  destruct (lookup_lt_is_Some_2 raws k Hk) as [raw Hraw]. rewrite Hraw. cbn [unprotect_all].
  destruct (Hop k raw Hraw) as (p & Hp & sp & Hparse & Hun). rewrite Hp, Hparse. cbn [from_rtp]. run.
  destruct (seen_step h rx _ Hseen Hnear) as [Hest Hupd]. rewrite (Hun rx Hst Hag Hest). run.
  erewrite IH; [done|..].
  - by etrans; [exact Hst|symmetry; apply statics_update].
  - unfold mki_agree in *. cbn.
    destruct (mki_update rx ((s0 + Z.of_nat k) mod 65536) ((s0 + Z.of_nat k) / 65536)) as [-> _]. naive_solver.
  - apply seen_active, Hupd.
  - exact Htr.
Qed.
(** ** New contexts *)

Lemma kdf_ok len label mkey msalt :
  (16 ≤ length mkey)%nat → ∃ k, kdf len label mkey msalt = Ok k ∧ length k = len.
Proof.
  intros Hk. unfold kdf. rewrite slice_ok by lia. run. eexists. split; [done|].
  rewrite xor_with_length; [apply length_replicate|]. by rewrite length_replicate, ctr_length.
Qed.

(** Both sides make the same keys. *)
Lemma context_new_ok ssrc profile keying :
  (16 ≤ length (master_key keying))%nat → (salt_len profile ≤ length (master_salt keying))%nat →
  ∃ st, ∀ dir now, ∃ c, SrtpContext_new ssrc profile keying dir now = Ok c ∧
    statics c = st ∧ ctx_ok c ∧ seen None c ∧ rx_mki_active c = None ∧ ctx_mki c = MkiParams_default.
Proof.
  intros Hk Hs. unfold SrtpContext_new, derive_keys.
  rewrite (proj2 (Nat.ltb_ge _ _)), (proj2 (Nat.ltb_ge _ _)) by (done || exact Hk). cbn [orb].
  pose proof (λ len label, kdf_ok len label (master_key keying) (master_salt keying) Hk) as Hkdf.
  destruct (Hkdf (key_len profile) 0x00) as (k0 & -> & L0), (Hkdf (auth_key_len profile) 0x01) as (k1 & -> & L1),
    (Hkdf (salt_len profile) 0x02) as (k2 & -> & L2), (Hkdf (key_len profile) 0x03) as (k3 & -> & L3),
    (Hkdf (auth_key_len profile) 0x04) as (k4 & -> & L4), (Hkdf (salt_len profile) 0x05) as (k5 & -> & L5).
  unfold key_len in L0, L3. run. destruct profile; cbn in L0, L1, L2, L3, L4, L5 |- *;
    rewrite !slice_ok by (cbn; lia); run; cbn [gcm_cipher cipher_key];
    rewrite ?L0, ?L3; run; eexists; intros dir now; eexists; (split; [reflexivity|]);
    (split; [unfold statics; cbn; reflexivity|]); split_and!; try done; split; cbn; try done; intros _;
    destruct k1, k4; cbn in *; try lia; eauto.
Qed.

(** The two ends agree on the MKI, if any. *)
Definition mki_pair (m m' : MkiParams) : Prop := mki_ok m ∧ rx_len m' = tx_len m.

(** C4: Two SRTP contexts made from the same keys, for any profile and matching
    MKI: packets with consecutive sequence numbers, protected in order and
    delivered with any loss, duplication and reordering in which each stays
    within 32767 of the highest index seen (and the first is from the first
    cycle), are all recovered exactly. *)
Theorem srtp_stream ssrc profile keying m m' now now' tx rx s0 ps :
  (16 ≤ length (master_key keying))%nat → (salt_len profile ≤ length (master_salt keying))%nat →
  mki_pair m m' → numbered s0 ps → u16 s0 → s0 + Z.of_nat (length ps) ≤ 2 ^ 48 →
  SrtpContext_new ssrc profile keying Sender now = Ok tx →
  SrtpContext_new ssrc profile keying Receiver now' = Ok rx →
  ∃ raws, protect_all (with_use tx now m) ps = Ok raws ∧ length raws = length ps ∧
    ∀ ks, Forall (λ k, (k < length ps)%nat) ks → tracked s0 None ks →
      unprotect_all (with_use rx now' m') (omap (raws !!.) ks) = Ok (omap (ps !!.) ks).
Proof.
  intros Hk Hs [Hm Hmm] Hps Hs0 Hb Htx Hrx.
  destruct (context_new_ok ssrc profile keying Hk Hs) as (st & Hnew).
  destruct (Hnew Sender now) as (c & Hc & Hst & Hok & Hseen & _). rewrite Htx in Hc. injection Hc as <-.
  destruct (Hnew Receiver now') as (c & Hc & Hst' & _ & Hseen' & Hact & _). rewrite Hrx in Hc. injection Hc as <-.
  destruct (protect_all_opens (with_use tx now m) ps s0) as (raws & Hraws & Hlen & Hop);
    [by apply (ctx_ok_statics tx)|done..|unfold u16 in Hs0; lia|done|left; split; [done|apply Hs0]|].
  exists raws. split_and!; [done..|]. intros ks Hks Htr.
  apply (unprotect_all_tracked (with_use tx now m) (with_use rx now' m') s0 ps raws ks None).
  - change (statics tx = statics rx). congruence.
  - split; [exact Hmm|by left].
  - exact Hseen'.
  - exact Htr.
  - exact Hop.
  - by rewrite Hlen.
  - done.
Qed.
End packets.

(** ** Initialisation vectors do not repeat *)

Lemma to_be_inj n x y :
  0 ≤ x < 256 ^ Z.of_nat n → 0 ≤ y < 256 ^ Z.of_nat n → to_be n x = to_be n y → x = y.
Proof.
  intros Hx Hy Heq. apply (f_equal of_be) in Heq. rewrite !of_be_to_be in Heq.
  by rewrite !Z.mod_small in Heq.
Qed.

Lemma to_be_u16_inj x y : u16 x → u16 y → to_be 2 x = to_be 2 y → x = y.
Proof. intros Hx Hy. by apply to_be_inj. Qed.

Lemma to_be_u32_inj x y : u32 x → u32 y → to_be 4 x = to_be 4 y → x = y.
Proof. intros Hx Hy. by apply to_be_inj. Qed.

(** A block is recovered from its combination with a salt. *)
Lemma masked_inj (sal : list Z) n m (f : list Z → list Z) blk blk' :
  (n ≤ length sal)%nat → (∀ s, length s = n → length (f s) = m) → length blk = m → length blk' = m →
  (s ← slice sal 0 n; Ok (xor_with (f s) blk) : res SrtpError _) = (s ← slice sal 0 n; Ok (xor_with (f s) blk')) →
  blk = blk'.
Proof.
  intros Hn Hf Hb Hb'. rewrite slice_ok by lia. run. intros [= Heq]. eapply xor_with_inj; [| |exact Heq].
  - rewrite Hb. apply Hf. rewrite length_take, length_drop. lia.
  - rewrite Hb'. apply Hf. rewrite length_take, length_drop. lia.
Qed.

Ltac split_fields H :=
  repeat match type of H with
    | ?a ++ _ = ?b ++ _ =>
        apply app_inj_1 in H as [? H]; [|rewrite ?length_to_be, ?length_replicate; reflexivity]
    end.

Lemma build_iv_inj c c' seq seq' roc roc' :
  (14 ≤ length (salt (rtp_keys c)))%nat → rtp_keys c = rtp_keys c' → u32 (ctx_ssrc c) → u32 (ctx_ssrc c') →
  u16 seq → u16 seq' → u32 roc → u32 roc' → build_iv c seq roc = build_iv c' seq' roc' →
  ctx_ssrc c = ctx_ssrc c' ∧ seq = seq' ∧ roc = roc'.
Proof.
  intros Hs Hk H1 H2 Hq Hq' Hr Hr' Heq. unfold build_iv in Heq. rewrite <- Hk, !lor_index in Heq by done.
  apply (masked_inj _ 14 16 (λ s, s ++ [0; 0])) in Heq;
    [|done|intros; rewrite length_app; cbn; lia|rewrite !length_app, !length_to_be; reflexivity..].
  split_fields Heq. split; [by apply to_be_u32_inj|].
  rewrite !Z.shiftl_mul_pow2 in Heq by lia. unfold u16, u32 in *.
  apply to_be_inj in Heq; [|mlia..]. mlia.
Qed.

Lemma build_gcm_nonce_inj c c' seq seq' roc roc' :
  (12 ≤ length (salt (rtp_keys c)))%nat → rtp_keys c = rtp_keys c' → u32 (ctx_ssrc c) → u32 (ctx_ssrc c') →
  u16 seq → u16 seq' → u32 roc → u32 roc' → build_gcm_nonce c seq roc = build_gcm_nonce c' seq' roc' →
  ctx_ssrc c = ctx_ssrc c' ∧ seq = seq' ∧ roc = roc'.
Proof.
  intros Hs Hk H1 H2 Hq Hq' Hr Hr' Heq. unfold build_gcm_nonce in Heq. rewrite <- Hk in Heq.
  apply (masked_inj _ 12 12 (λ s, s)) in Heq;
    [|done|done|rewrite !length_app, !length_to_be; reflexivity..].
  split_fields Heq. split_and!; [by apply to_be_u32_inj|by apply to_be_u16_inj|by apply to_be_u32_inj].
Qed.

Lemma rtcp_iv_inj c c' index index' :
  (14 ≤ length (salt (rtcp_keys c)))%nat → rtcp_keys c = rtcp_keys c' → u32 (ctx_ssrc c) → u32 (ctx_ssrc c') →
  u32 index → u32 index' → rtcp_iv c index = rtcp_iv c' index' → ctx_ssrc c = ctx_ssrc c' ∧ index = index'.
Proof.
  intros Hs Hk H1 H2 Hi Hi' Heq. unfold rtcp_iv in Heq. rewrite <- Hk in Heq.
  apply (masked_inj _ 14 16 (λ s, s ++ [0; 0])) in Heq;
    [|done|intros; rewrite length_app; cbn; lia|rewrite !length_app, !length_to_be; reflexivity..].
  split_fields Heq. split; by apply to_be_u32_inj.
Qed.

Lemma build_gcm_rtcp_nonce_inj c c' index index' :
  (12 ≤ length (salt (rtcp_keys c)))%nat → rtcp_keys c = rtcp_keys c' → u32 (ctx_ssrc c) → u32 (ctx_ssrc c') →
  u32 index → u32 index' → build_gcm_rtcp_nonce c index = build_gcm_rtcp_nonce c' index' →
  ctx_ssrc c = ctx_ssrc c' ∧ index = index'.
Proof.
  intros Hs Hk H1 H2 Hi Hi' Heq. unfold build_gcm_rtcp_nonce in Heq. rewrite <- Hk in Heq.
  apply (masked_inj _ 12 12 (λ s, s)) in Heq;
    [|done|done|rewrite !length_app, !length_to_be; reflexivity..].
  split_fields Heq. split; by apply to_be_u32_inj.
Qed.

(** C17: Under one set of session keys, the initialisation vectors (nonces for
    AES-GCM) of two RTP packets are equal only for the same SSRC, sequence
    number and rollover count, and those of two SRTCP packets only for the same
    SSRC and index. *)
Theorem srtp_iv_unique c c' seq seq' roc roc' index index' :
  ctx_ok c → rtp_keys c = rtp_keys c' → rtcp_keys c = rtcp_keys c' →
  u32 (ctx_ssrc c) → u32 (ctx_ssrc c') → u16 seq → u16 seq' → u32 roc → u32 roc' → u32 index → u32 index' →
  let same := ctx_ssrc c = ctx_ssrc c' in
  if decide (ctx_profile c = AeadAes128Gcm) then
    (build_gcm_nonce c seq roc = build_gcm_nonce c' seq' roc' → same ∧ seq = seq' ∧ roc = roc') ∧
    (build_gcm_rtcp_nonce c index = build_gcm_rtcp_nonce c' index' → same ∧ index = index')
  else
    (build_iv c seq roc = build_iv c' seq' roc' → same ∧ seq = seq' ∧ roc = roc') ∧
    (rtcp_iv c index = rtcp_iv c' index' → same ∧ index = index').
Proof.
  intros [Hs Hs' _ _] Hk Hk' Hr Hr' Hq Hq' Ho Ho' Hi Hi'. cbv zeta. case_decide as Hp.
  - rewrite Hp in Hs, Hs'. cbn in Hs, Hs'.
    split; [apply build_gcm_nonce_inj|apply build_gcm_rtcp_nonce_inj]; done || lia.
  - assert (salt_len (ctx_profile c) = 14%nat) as Hl by (by destruct (ctx_profile c)).
    rewrite Hl in Hs, Hs'. split; [apply build_iv_inj|apply rtcp_iv_inj]; done || lia.
Qed.

(** ** SRTCP *)

Lemma index_flag i : 0 ≤ i < 2 ^ 31 →
  Z.lor i 0x80000000 = i + 2 ^ 31 ∧ Z.land (i + 2 ^ 31) 0x7FFFFFFF = i ∧ Z.land (i + 2 ^ 31) 0x80000000 = 2 ^ 31.
Proof.
  intros Hi. assert (Z.lor i 0x80000000 = i + 2 ^ 31) as Hl.
  { rewrite Z.lor_comm. change 0x80000000 with (Z.shiftl 1 31). rewrite (lor_shiftl_add 31) by lia. lia. }
  split_and!; [done| |].
  - change 0x7FFFFFFF with (Z.ones 31). rewrite Z.land_ones by lia. rewrite Z.add_mod, Z.mod_same, Z.add_0_r by lia.
    rewrite !Z.mod_small; lia.
  - rewrite <- Hl, Z.land_lor_distr_l. change (Z.land 0x80000000 0x80000000) with (2 ^ 31).
    assert (Z.land i 0x80000000 = 0) as ->; [|done].
    change 0x80000000 with (2 ^ 31). apply Z.bits_inj'. intros n Hn.
    rewrite Z.land_spec, Z.bits_0, Z.pow2_bits_eqb by lia.
    destruct (Z.eqb_spec 31 n) as [<-|]; [|by rewrite andb_false_r].
    rewrite andb_true_r. apply Z.bits_above_log2; [lia|]. destruct (decide (i = 0)) as [->|]; [cbn; lia|].
    apply Z.log2_lt_pow2; lia.
Qed.

Section rtcp.
Context `{SrtpCryptoLaws}.

Lemma gcm_rtcp_nonce_ok c index : ctx_ok c → ∃ nonce, build_gcm_rtcp_nonce c index = Ok nonce.
Proof.
  intros [_ Hs _ _]. unfold build_gcm_rtcp_nonce. rewrite slice_ok; [by eexists|lia|].
  rewrite Hs. destruct (ctx_profile c); cbn; lia.
Qed.

Lemma rtcp_iv_ok c index : ctx_ok c → ctx_profile c ≠ AeadAes128Gcm → ∃ iv, rtcp_iv c index = Ok iv.
Proof.
  intros [_ Hs _ _] Hp. unfold rtcp_iv. rewrite slice_ok; [by eexists|lia|].
  rewrite Hs. by destruct (ctx_profile c).
Qed.

Lemma cipher_rtcp_twice c c' packet index :
  statics c = statics c' → ctx_ok c → ctx_profile c ≠ AeadAes128Gcm →
  ∃ ct, cipher_rtcp c packet index = Ok ct ∧ length ct = length packet ∧ cipher_rtcp c' ct index = Ok packet.
Proof.
  intros Hst Hok Hp. unfold statics in Hst. injection Hst as Hs _ _ Hk _ Ha _ _ _ _.
  assert (rtcp_iv c' index = rtcp_iv c index) as Hiv by (unfold rtcp_iv; by rewrite Hs, Hk).
  unfold cipher_rtcp. rewrite Hiv, <- Ha. destruct (rtcp_iv_ok c index Hok Hp) as (iv & ->). run.
  set (body := xor_with (drop 8 packet) _).
  assert (length body = length (drop 8 packet)) as Hb by (apply xor_with_length; by rewrite ctr_length).
  eexists. split; [done|]. split; [rewrite length_app, Hb, <- length_app; by rewrite take_drop|].
  destruct (decide (8 ≤ length packet)%nat).
  - rewrite take_app_length', drop_app_length' by (rewrite length_take; lia).
    unfold body. by rewrite ctr_twice, take_drop.
  - assert (drop 8 packet = []) as Hd by (apply drop_ge; lia).
    unfold body. rewrite Hd. cbn. rewrite app_nil_r, (take_ge packet) by lia.
    rewrite Hd. cbn. by rewrite app_nil_r, take_ge by lia.
Qed.

Lemma srtcp_gcm_roundtrip tx rx index packet :
  statics tx = statics rx → ctx_ok tx → mki_ok (ctx_mki tx) → ctx_profile tx = AeadAes128Gcm →
  0 ≤ index < 2 ^ 31 → (8 ≤ length packet)%nat → Z.of_nat (length packet) ≤ 2 ^ 36 →
  ∃ raw, protect_rtcp_with tx index packet = Ok raw ∧
    unprotect_rtcp_with_mki rx raw (tx_len (ctx_mki tx)) = Ok (packet, note_index rx index).
Proof.
  intros Hst Hok Hmki Hp Hi H8 Hlen. destruct (mki_bytes_ok _ Hmki) as (mki & Hm & Hml).
  destruct (index_flag index Hi) as (Hl & Hland & _). unfold statics in Hst.
  injection Hst as Hs Hprof _ Hk _ _ _ Hg _ _.
  assert (build_gcm_rtcp_nonce rx index = build_gcm_rtcp_nonce tx index) as Hno
    by (unfold build_gcm_rtcp_nonce; by rewrite Hs, Hk).
  unfold protect_rtcp_with, unprotect_rtcp_with_mki. rewrite <- Hprof, Hp, Hm.
  destruct (gcm_rtcp_nonce_ok tx index Hok) as (nonce & Hn). rewrite Hn in *. run.
  destruct (ok_gcm tx Hok Hp) as [_ [key Hkey]]. rewrite <- Hg, Hkey. run.
  rewrite slice_ok by lia. run. rewrite drop_0, Nat.sub_0_r, Hl.
  set (hdr := take 8 packet). set (ix := to_be 4 (index + 2 ^ 31)).
  assert (length hdr = 8%nat) as Hh by (unfold hdr; rewrite length_take; lia).
  assert (length ix = 4%nat) as Hix by apply length_to_be.
  destruct (gcm_ok key nonce (hdr ++ ix) (drop 8 packet)) as (ct & -> & Hct & Hdec).
  { split; [rewrite length_app, Hh, Hix; lia|rewrite length_drop; lia]. }
  run. eexists. split; [done|].
  rewrite (proj2 (Nat.ltb_ge _ _)) by (rewrite !length_app, Hct, Hml, Hix; cbn; lia).
  assert (length (hdr ++ ct ++ ix ++ mki) - tx_len (ctx_mki tx) - 4 = length (hdr ++ ct))%nat as ->
    by (rewrite !length_app; lia).
  rewrite (app_assoc hdr ct) at 1. rewrite (be_at_next 4 (hdr ++ ct) _ _ 0) by lia.
  rewrite be_at_hd by done. run. cbv zeta.
  assert (of_be ix = index + 2 ^ 31) as -> by (apply of_be_to_be_32; unfold u32; lia).
  rewrite Hland, Hno. run. rewrite slice_app_hd by done. run.
  rewrite slice_mid by (rewrite ?length_app; lia). run. fold ix. rewrite Hdec. run.
  unfold hdr. by rewrite take_drop.
Qed.

Lemma note_index_statics c index : statics (note_index c index) = statics c.
Proof. unfold note_index. by case_match. Qed.

Lemma srtcp_hmac_roundtrip tx rx index packet :
  statics tx = statics rx → ctx_ok tx → mki_ok (ctx_mki tx) → ctx_profile tx ≠ AeadAes128Gcm →
  0 ≤ index < 2 ^ 31 →
  ∃ raw, protect_rtcp_with tx index packet = Ok raw ∧
    unprotect_rtcp_with_mki rx raw (tx_len (ctx_mki tx)) = Ok (packet, note_index rx index).
Proof.
  intros Hst Hok Hmki Hp Hi. destruct (mki_bytes_ok _ Hmki) as (mki & Hm & Hml).
  destruct (index_flag index Hi) as (Hl & Hland & Hbit).
  destruct (ok_auth tx Hok Hp) as [_ [key Hkey]].
  destruct (cipher_rtcp_twice tx (note_index rx index) packet index) as (ct & Hct & Hcl & Hdec);
    [by rewrite note_index_statics|done..|].
  set (body := if (8 <? length packet)%nat then ct else packet).
  assert (length body = length packet) as Hbl by (unfold body; by case_match).
  set (ix := to_be 4 (index + 2 ^ 31)). set (prof := ctx_profile tx).
  set (tag := take (tag_len prof) (hmac_sha1 key (body ++ ix))).
  assert (length ix = 4%nat) as Hix by apply length_to_be.
  assert (length tag = tag_len prof) as Htag.
  { unfold tag. rewrite length_take, hmac_length. unfold prof. destruct (ctx_profile tx); cbn; lia. }
  exists ((body ++ ix) ++ mki ++ tag). split.
  - unfold protect_rtcp_with, auth_tag_rtcp. rewrite Hl, Hct, Hkey, Hm. fold prof ix.
    assert ((if (8 <? length packet)%nat then Ok ct else Ok packet) = (Ok body : res SrtpError _)) as ->
      by (unfold body; by case_match).
    unfold prof in *. destruct (ctx_profile tx); done.
  - assert (ctx_profile rx = prof ∧ rtcp_auth_prototype rx = Some key) as [Hprof Hau].
    { unfold statics in Hst. injection Hst as _ Hst1 _ _ _ _ _ _ _ Hst2. split; [done|congruence]. }
    unfold unprotect_rtcp_with_mki, auth_tag_rtcp. rewrite Hprof, Hau.
    set (raw := (body ++ ix) ++ mki ++ tag).
    assert (length raw = length body + 4 + tx_len (ctx_mki tx) + tag_len prof)%nat as Hrl.
    { unfold raw. rewrite !length_app. lia. }
    rewrite (proj2 (Nat.ltb_ge _ _)) by lia.
    assert (length raw - tag_len prof = length ((body ++ ix) ++ mki))%nat as -> by (rewrite Hrl, !length_app; lia).
    assert (slice (E := SrtpError) raw (length ((body ++ ix) ++ mki)) (length ((body ++ ix) ++ mki) + tag_len prof) = Ok tag) as ->.
    { unfold raw. rewrite app_assoc, <- Htag, <- (app_nil_r tag) at 1. by apply slice_mid. }
    assert (take (length ((body ++ ix) ++ mki)) raw = (body ++ ix) ++ mki) as ->
      by (unfold raw; by rewrite app_assoc, take_app_length).
    rewrite (take_app_length' (body ++ ix)) by (rewrite !length_app; lia).
    run. cbv zeta. rewrite (proj2 (constant_time_eq_spec _ _)) by done. run.
    rewrite (be_at_next 4 body ix _ 0), be_at_all by (rewrite ?length_app; lia). run.
    assert (of_be ix = index + 2 ^ 31) as -> by (apply of_be_to_be_32; unfold u32; lia).
    rewrite Hland, Hbit, take_app_length' by (rewrite length_app; lia).
    assert ((if negb (2 ^ 31 =? 0) && (8 <? length body)%nat
             then cipher_rtcp (note_index rx index) body index else Ok body) = Ok packet) as Hfin.
    { rewrite Hbl. unfold body. cbn [andb negb]. by destruct (8 <? length packet)%nat. }
    unfold prof in *. destruct (ctx_profile tx); try done; by rewrite Hfin.
Qed.

(** C19: An RTCP packet protected for any profile and MKI is restored exactly by
    unprotecting it with the same keys, while indices are below 2^31; each
    packet uses the next index. *)
Theorem srtcp_roundtrip tx rx packet :
  statics tx = statics rx → ctx_ok tx → mki_ok (ctx_mki tx) →
  0 ≤ rtcp_index tx < 2 ^ 31 - 1 → (8 ≤ length packet)%nat → Z.of_nat (length packet) ≤ 2 ^ 36 →
  ∃ tx' raw, protect_rtcp tx packet = (tx', Ok raw) ∧ rtcp_index tx' = rtcp_index tx + 1 ∧
    unprotect_rtcp_with_mki rx raw (tx_len (ctx_mki tx)) = Ok (packet, note_index rx (rtcp_index tx + 1)).
Proof.
  intros Hst Hok Hmki Hi H8 Hlen. unfold protect_rtcp. rewrite (proj2 (Z.eqb_neq _ _)) by lia.
  set (tx' := with_state _ _ _ _ _). exists tx'.
  assert (ctx_ok tx') as Hok' by (by apply (ctx_ok_statics tx)).
  destruct (decide (ctx_profile tx = AeadAes128Gcm)).
  - destruct (srtcp_gcm_roundtrip tx' rx (rtcp_index tx + 1) packet) as (raw & Hr & Hu); [done..|lia|done|done|].
    exists raw. split_and!; [|done|done]. f_equal. exact Hr.
  - destruct (srtcp_hmac_roundtrip tx' rx (rtcp_index tx + 1) packet) as (raw & Hr & Hu); [done..|lia|].
    exists raw. split_and!; [|done|done]. f_equal. exact Hr.
Qed.
End rtcp.

(** ** Acceptance *)

Lemma try_mki_inv {A} (f : nat → res SrtpError A) cs e a b :
  try_mki f cs e = Ok (a, b) → ∃ n, n ∈ cs ∧ f n = Ok a ∧ b = (0 <? n)%nat.
Proof.
  revert e. induction cs as [|n cs IH]; intros e; cbn; [done|]. destruct (f n) as [a'|e'|] eqn:Ef; [|..|done].
  - intros [= -> <-]. exists n. split_and!; [left|done..].
  - intros (m & Hm & ?)%IH. exists m. split; [by right|done].
Qed.

Lemma update_idem c seq roc : update (update c seq roc) seq roc = update c seq roc.
Proof.
  unfold update. destruct (last_sequence c) as [l|] eqn:El.
  - destruct (_ <? _) eqn:Elt; cbn; [by rewrite Z.ltb_irrefl|]. by rewrite El, Elt.
  - cbn. by rewrite Z.ltb_irrefl.
Qed.

Lemma estimate_update c seq :
  estimate_roc (update c seq (estimate_roc c seq)) seq = estimate_roc c seq.
Proof.
  set (roc := estimate_roc c seq). assert (∀ c', last_sequence c' = Some seq → rollover_counter c' = roc →
    estimate_roc c' seq = roc) as Hsame.
  { intros c' Hl Hr. unfold estimate_roc. by rewrite Hl, Hr, Z.sub_diag. }
  unfold update. destruct (last_sequence c) as [l|]; [destruct (_ <? _)|]; [by apply Hsame|done|by apply Hsame].
Qed.

Section acceptance.
Context `{BytesCrate, SrtpCrypto}.

(** Only the keys and the estimate matter. *)
Lemma unprotect_with_mki_statics c c' p n :
  statics c = statics c' →
  estimate_roc c' (sequence_number (sp_header p)) = estimate_roc c (sequence_number (sp_header p)) →
  (fst <$> match unprotect_with_mki c' p n with Ok a => Some a | _ => None end) =
  (fst <$> match unprotect_with_mki c p n with Ok a => Some a | _ => None end).
Proof.
  intros Hst He. unfold statics in Hst. injection Hst as Hs Hp Hk _ Ha _ Hg _ Hau _.
  unfold unprotect_with_mki, unprotect_body, build_iv, build_gcm_nonce.
  rewrite He, <- Hs, <- Hp, <- Hk, <- Ha, <- Hg, <- Hau.
  destruct (length (sp_body p) <? tag_len (ctx_profile c) + n)%nat; [done|].
  destruct (marshal_header p); try done. run.
  match goal with |- _ = (fst <$> match ?m ≫= _ with _ => _ end) => destruct m as [body|e|]; try done end.
  run. by destruct (strip_padding (sp_has_padding p) body) as [[? ?]| |].
Qed.

Lemma unprotect_with_mki_state c p n pkt c' :
  unprotect_with_mki c p n = Ok (pkt, c') →
  c' = update c (sequence_number (sp_header p)) (estimate_roc c (sequence_number (sp_header p))).
Proof. unfold unprotect_with_mki. intros Hu. case_match; [done|]. res_inv. by simplify_eq. Qed.

(** C36: A packet that unprotect accepts is accepted again, with the same
    result, when it is replayed right afterwards. *)
Theorem srtp_replay_accepted c p pkt c' :
  unprotect c p = Ok (pkt, c') → unprotect c' p = Ok (pkt, c').
Proof.
  unfold unprotect at 1. intros Hu. apply bind_Ok in Hu as ([[pkt0 c0] b] & Htry & [= -> <-]).
  destruct (try_mki_inv _ _ _ _ _ Htry) as (n & Hn & Hf & ->).
  pose proof (unprotect_with_mki_state _ _ _ _ _ Hf) as ->.
  set (seq := sequence_number (sp_header p)) in *. set (roc := estimate_roc c seq) in *.
  set (c1 := set_rx_mki_active (update c seq roc) (0 <? n)%nat).
  assert (mki_candidates (rx_mki_active c1) (rx_len (ctx_mki c1)) = [n]) as Hcs.
  { unfold c1. cbn. destruct (mki_update c seq roc) as [-> _].
    unfold mki_candidates in *. destruct n as [|n]; cbn; [done|].
    destruct (rx_mki_active c) as [[]|], (rx_len (ctx_mki c)); cbn in *; set_solver. }
  assert (estimate_roc c1 seq = roc) as He by (apply (estimate_update c seq)).
  unfold unprotect. rewrite Hcs. cbn [try_mki].
  pose proof (unprotect_with_mki_statics c c1 p n) as Hsame. fold seq roc in Hsame.
  rewrite Hf in Hsame. specialize (Hsame (eq_sym (statics_update c seq roc)) He).
  destruct (unprotect_with_mki c1 p n) as [[pkt' c']| |] eqn:Hf'; cbn in Hsame; [|done..].
  injection Hsame as ->. apply unprotect_with_mki_state in Hf' as ->. fold seq. rewrite He. run.
  do 2 f_equal. unfold c1. rewrite <- (update_idem c seq roc) at 2.
  unfold update at 1 3. cbn. destruct (last_sequence (update c seq roc)); [|done].
  by destruct (_ <? _).
Qed.

(** C18: With an HMAC profile, unprotect accepts a packet only when its tag is
    the truncated HMAC of the header, the encrypted body and the estimated
    rollover count, for one of the MKI lengths it tries, and returns the header
    unchanged. *)
Theorem srtp_authentic c p pkt c' :
  ctx_ok c → ctx_profile c ≠ AeadAes128Gcm → unprotect c p = Ok (pkt, c') →
  ∃ key hdr n, rtp_auth_prototype c = Some key ∧ marshal_header p = Ok hdr ∧
    n ∈ mki_candidates (rx_mki_active c) (rx_len (ctx_mki c)) ∧
    let tlen := tag_len (ctx_profile c) in
    let split := (length (sp_body p) - tlen - n)%nat in
    (tlen + n ≤ length (sp_body p))%nat ∧ header pkt = sp_header p ∧
    drop (split + n) (sp_body p) =
      take tlen (hmac_sha1 key (hdr ++ take split (sp_body p) ++
                   to_be 4 (estimate_roc c (sequence_number (sp_header p))))).
Proof.
  intros Hok Hp Hu. unfold unprotect in Hu. apply bind_Ok in Hu as ([[pkt0 c0] b] & Htry & [= -> <-]).
  destruct (try_mki_inv _ _ _ _ _ Htry) as (n & Hn & Hf & _).
  destruct (ok_auth c Hok Hp) as [[key Hkey] _].
  unfold unprotect_with_mki in Hf. destruct (Nat.ltb_spec (length (sp_body p)) (tag_len (ctx_profile c) + n)); [done|].
  apply bind_Ok in Hf as (hdr & Hhdr & Hf). apply bind_Ok in Hf as (body & Hbody & Hf).
  apply bind_Ok in Hf as ([pl padl] & _ & [= <- _]).
  exists key, hdr, n. split_and!; [done..|]. cbv zeta. split_and!; [done..|]. apply constant_time_eq_spec.
  unfold unprotect_body in Hbody. rewrite Hkey in Hbody.
  destruct (ctx_profile c); try done; by case_match.
Qed.
End acceptance.

(** ** Witnesses *)

(** A stand-in for the cryptographic crates that meets their laws *)
Definition byte_sum (l : list Z) : Z := foldr Z.add 0 l mod 256.

Definition toy_crypto : SrtpCrypto := {|
  ctr_stream k iv n := (λ j, (byte_sum (k ++ iv) + 7 * j) mod 256) <$> seqZ 0 (Z.of_nat n);
  hmac_sha1 k d := replicate 20 (byte_sum (k ++ d));
  gcm_encrypt_detached k n a m := Some (m, replicate 16 (byte_sum (k ++ n ++ a ++ m)));
  gcm_decrypt_detached k n a c t :=
    if decide (t = replicate 16 (byte_sum (k ++ n ++ a ++ c))) then Some c else None;
  gcm_encrypt k n a m := Some (m ++ replicate 16 (byte_sum (k ++ n ++ a ++ m)));
  gcm_decrypt k n a c :=
    let m := take (length c - 16) c in
    if decide (drop (length c - 16) c = replicate 16 (byte_sum (k ++ n ++ a ++ m))) then Some m else None;
|}.

Lemma toy_laws : @SrtpCryptoLaws toy_crypto.
Proof.
  split; cbn -[replicate].
  - intros. rewrite length_fmap, length_seqZ. lia.
  - intros. apply length_replicate.
  - intros k n a m _. do 2 eexists. split_and!; [done|done|apply length_replicate|]. by rewrite decide_True.
  - intros k n a m _. eexists. split_and!; [done|by rewrite length_app, length_replicate|].
    rewrite length_app, length_replicate, Nat.add_sub, take_app_length, drop_app_length.
    by rewrite decide_True.
Qed.

Definition toy_keying : SrtpKeyingMaterial := {| master_key := replicate 16 1; master_salt := replicate 14 2 |}.

Definition toy_context (profile : SrtpProfile) (dir : SrtpDirection) (mki : MkiParams) : SrtpContext :=
  match SrtpContext_new (H := toy_crypto) 0xCAFE profile toy_keying dir 0 with
  | Ok c => with_use c 0 mki
  | _ => {| ctx_ssrc := 0; ctx_profile := profile;
            rtp_keys := {| cipher_key := []; auth_key := []; salt := [] |};
            rtcp_keys := {| cipher_key := []; auth_key := []; salt := [] |};
            rtp_aes_key := []; rtcp_aes_key := []; rtp_gcm_cipher := None; rtcp_gcm_cipher := None;
            rtp_auth_prototype := None; rtcp_auth_prototype := None; ctx_direction := dir;
            rollover_counter := 0; last_sequence := None; rtcp_index := 0; last_used := 0;
            ctx_mki := mki; rx_mki_active := None |}
  end.

Definition media (seq : Z) : RtpPacket :=
  {| header := RtpHeader_new 96 seq (seq * 160) 0xCAFE; payload := [seq mod 256; 2; 3]; padding_len := 2 |}.

Lemma toy_new dir : SrtpContext_new (H := toy_crypto) 0xCAFE Aes128Sha1_80 toy_keying dir 0 =
  Ok (toy_context Aes128Sha1_80 dir MkiParams_default).
Proof. by destruct dir; vm_compute. Qed.

Lemma wf_media seq : u16 seq → wf_packet (media seq).
Proof.
  intros Hs. split; [split| |]; cbn; unfold u16, u32, u8 in *; try lia; [constructor|done|].
  repeat constructor; unfold u8; mlia.
Qed.

Definition mki_sent : MkiParams := {| mki_tx := Some ([7; 7], 2%nat); mki_rx_len := None |}.
Definition mki_expected : MkiParams := {| mki_tx := None; mki_rx_len := Some 2%nat |}.

(** Three packets across the wrap of the sequence number, with an MKI; the
    second and third arrive in reverse order. *)
Lemma srtp_stream_witness :
  ∃ raws, protect_all (H := vec_crate) (H1 := toy_crypto)
      (toy_context Aes128Sha1_80 Sender mki_sent) [media 65534; media 65535; media 0] = Ok raws ∧
    unprotect_all (H := vec_crate) (H1 := toy_crypto)
      (toy_context Aes128Sha1_80 Receiver mki_expected) (omap (raws !!.) [0; 2; 1]%nat) =
      Ok [media 65534; media 0; media 65535].
Proof.
  destruct (srtp_stream (H := vec_crate) (H0 := vec_laws) (H1 := toy_crypto) (H2 := toy_laws)
    0xCAFE Aes128Sha1_80 toy_keying mki_sent mki_expected 0 0
    (toy_context Aes128Sha1_80 Sender MkiParams_default) (toy_context Aes128Sha1_80 Receiver MkiParams_default)
    65534 [media 65534; media 65535; media 0]) as (raws & Hp & _ & Hun).
  - cbn. lia.
  - cbn. lia.
  - by split.
  - cbn [numbered]. split_and!; try (apply wf_media; unfold u16; lia); cbn; lia || done.
  - unfold u16. lia.
  - cbn. lia.
  - apply toy_new.
  - apply toy_new.
  - exists raws. split; [exact Hp|]. apply (Hun [0; 2; 1]%nat).
    + repeat constructor.
    + cbn. unfold near, u48. cbn. lia.
Defined.

Lemma toy_ok dir mki : ctx_ok (toy_context Aes128Sha1_80 dir mki).
Proof.
  split; [by destruct dir; vm_compute|by destruct dir; vm_compute|by destruct dir|].
  intros _. split; destruct dir; vm_compute; eauto.
Qed.

Lemma srtp_iv_unique_witness :
  let c := toy_context Aes128Sha1_80 Sender MkiParams_default in
  build_iv c 5 0 ≠ build_iv c 5 1 ∧ rtcp_iv c 1 ≠ rtcp_iv c 2.
Proof.
  intros c. destruct (srtp_iv_unique c c 5 5 0 1 1 2) as [H1 H2];
    [apply toy_ok|done|done|split; [by vm_compute|by vm_compute]..|unfold u16; lia|unfold u16; lia|
     unfold u32; lia|unfold u32; lia|unfold u32; lia|unfold u32; lia|].
  split; intros Heq; [apply H1 in Heq|apply H2 in Heq]; lia.
Defined.

Definition report (ssrc : Z) (body : list Z) : list Z := [0x80; 201; 0; 2] ++ to_be 4 ssrc ++ body.

Lemma srtcp_roundtrip_witness :
  let tx := toy_context Aes128Sha1_80 Sender mki_sent in
  let rx := toy_context Aes128Sha1_80 Receiver mki_expected in
  ∃ tx' raw, protect_rtcp (H := toy_crypto) tx (report 0xCAFE [1; 2; 3; 4]) = (tx', Ok raw) ∧ rtcp_index tx' = 1 ∧
    unprotect_rtcp_with_mki (H := toy_crypto) rx raw 2 = Ok (report 0xCAFE [1; 2; 3; 4], note_index rx 1).
Proof.
  apply (srtcp_roundtrip (H := toy_crypto) (H0 := toy_laws) (toy_context Aes128Sha1_80 Sender mki_sent)
    (toy_context Aes128Sha1_80 Receiver mki_expected) (report 0xCAFE [1; 2; 3; 4])).
  - by vm_compute.
  - apply toy_ok.
  - done.
  - split; by vm_compute.
  - unfold report. rewrite !length_app, length_to_be. cbn. lia.
  - unfold report. rewrite !length_app, length_to_be. cbn. lia.
Defined.

(** A protected packet and what the receiver makes of it *)
Definition sent_media : SrtpPacket :=
  match protect (H := vec_crate) (H0 := toy_crypto) (toy_context Aes128Sha1_80 Sender MkiParams_default) (media 9)
          (replicate 27 0) with
  | Ok (raw, _) =>
      match SrtpPacket_parse (H := vec_crate) raw with
      | Ok sp => sp
      | _ => {| sp_header := header (media 9); sp_body := []; sp_has_padding := false |}
      end
  | _ => {| sp_header := header (media 9); sp_body := []; sp_has_padding := false |}
  end.

Definition after_media : SrtpContext :=
  let rx := toy_context Aes128Sha1_80 Receiver MkiParams_default in
  set_rx_mki_active (update rx 9 0) false.

Lemma srtp_replay_accepted_witness :
  unprotect (H := vec_crate) (H0 := toy_crypto) after_media sent_media = Ok (media 9, after_media).
Proof.
  apply (srtp_replay_accepted (H := vec_crate) (H0 := toy_crypto)
    (toy_context Aes128Sha1_80 Receiver MkiParams_default)).
  by vm_compute.
Defined.

Lemma srtp_authentic_witness :
  ∃ key hdr n, rtp_auth_prototype (toy_context Aes128Sha1_80 Receiver MkiParams_default) = Some key ∧
    marshal_header (H := vec_crate) sent_media = Ok hdr ∧ n ∈ [0%nat] ∧
    drop (length (sp_body sent_media) - 10 - n + n) (sp_body sent_media) =
      take 10 (hmac_sha1 (SrtpCrypto := toy_crypto) key
        (hdr ++ take (length (sp_body sent_media) - 10 - n) (sp_body sent_media) ++ to_be 4 0)).
Proof.
  destruct (srtp_authentic (H := vec_crate) (H0 := toy_crypto)
    (toy_context Aes128Sha1_80 Receiver MkiParams_default) sent_media (media 9) after_media)
    as (key & hdr & n & Hkey & Hhdr & Hn & _ & _ & Htag); [apply toy_ok|done|by vm_compute|].
  exists key, hdr, n. split_and!; [exact Hkey|exact Hhdr|exact Hn|exact Htag].
Defined.

(** ** Where state is lost *)

(** A context that sees sequence number 0 first and then 65535 sets its
    rollover counter to 2^32-1 and no longer follows the stream: later low
    numbers do not move it, and 40000 is again given the count 2^32-1. *)
Theorem srtp_roc_underflow c :
  last_sequence c = None → rollover_counter c = 0 →
  let see c s := update c s (estimate_roc c s) in
  let c := see (see c 0) 65535 in
  rollover_counter c = 4294967295 ∧ last_sequence c = Some 65535 ∧
  see c 1 = c ∧ estimate_roc c 1 = 0 ∧ estimate_roc c 40000 = 4294967295.
Proof.
  intros Hl Hr. destruct c. cbn in Hl, Hr. subst. split_and!; reflexivity.
Qed.

(** Reports of 33 sources at time 0, then of another source after 61 s *)
Definition busy_session : SrtpSession :=
  let send s now ssrc := (session_protect_rtcp (H0 := toy_crypto) s now (report ssrc [1; 2; 3; 4])).1 in
  send (foldl (λ s ssrc, send s 0 ssrc) (SrtpSession_new Aes128Sha1_80 toy_keying toy_keying) (seqZ 1 33))
    61000000000 1000.

(** After more than 32 other contexts and 60 s of silence the send context
    of an SSRC is evicted, and its next RTCP packet is encrypted with the same
    index and key stream as its first. *)
Theorem srtcp_index_reused :
  ∃ first second,
    (session_protect_rtcp (H0 := toy_crypto) (SrtpSession_new Aes128Sha1_80 toy_keying toy_keying) 0
       (report 1 [1; 2; 3; 4])).2 = Ok first ∧
    (session_protect_rtcp (H0 := toy_crypto) busy_session 61000000000 (report 1 [9; 9; 9; 9])).2 = Ok second ∧
    take 4 (drop 12 first) = take 4 (drop 12 second) ∧
    xor_with (take 4 (drop 8 first)) (take 4 (drop 8 second)) = xor_with [1; 2; 3; 4] [9; 9; 9; 9].
Proof.
  do 2 eexists. split; [vm_compute; reflexivity|]. split; [vm_compute; reflexivity|]. by vm_compute.
Qed.
