(* ===== verification/Per.v ===== *)
(** * ASN.1 PER bit streams ([src/t38/per.rs])

    The bit writer and reader and the PER encodings built on them.  The
    formatted parts of error messages are left out. *)
From S2P Require Import Prelude Core.

Record BitWriter := { wdata : list Z; wpos : nat }.
Record BitReader := { rdata : list Z; rpos : nat }.

Definition BitWriter_new : BitWriter := {| wdata := []; wpos := 0 |}.
Definition BitReader_new (data : list Z) : BitReader := {| rdata := data; rpos := 0 |}.

(** [self.pos >> 3] and [self.pos & 7] *)
Definition byte_idx (pos : nat) : nat := (pos / 8)%nat.
Definition bit_off (pos : nat) : nat := (pos mod 8)%nat.

(** [self.data[byte_idx] |= 1 << bit_idx] after the push that makes room *)
Definition write_bit (w : BitWriter) (bit : bool) : BitWriter :=
  let bi := byte_idx (wpos w) in
  let bit_idx := 7 - Z.of_nat (bit_off (wpos w)) in
  let data := if (length (wdata w) <=? bi)%nat then wdata w ++ [0] else wdata w in
  let data := if bit then alter (λ b, Z.lor b (as_u8 (Z.shiftl 1 bit_idx))) bi data else data in
  {| wdata := data; wpos := wpos w + 1 |}.

(** [for i in (0..count).rev()] *)
Fixpoint write_bits (w : BitWriter) (val : Z) (count : nat) : BitWriter :=
  match count with
  | O => w
  | S i => write_bits (write_bit w (Z.land (Z.shiftr val (Z.of_nat i)) 1 =? 1)) val i
  end.

Fixpoint write_zeros (n : nat) (w : BitWriter) : BitWriter :=
  match n with O => w | S n => write_zeros n (write_bit w false) end.

Definition writer_align (w : BitWriter) : BitWriter :=
  let remainder := bit_off (wpos w) in
  if negb (remainder =? 0)%nat then write_zeros (8 - remainder) w else w.

Definition into_bytes (w : BitWriter) : list Z := resize ((wpos w + 7) / 8)%nat 0 (wdata w).

Definition bit_pos (w : BitWriter) : nat := wpos w.
Definition byte_len (w : BitWriter) : nat := ((wpos w + 7) / 8)%nat.

Definition read_bit (r : BitReader) : res RtcError (bool * BitReader) :=
  let bi := byte_idx (rpos r) in
  let bit_idx := 7 - Z.of_nat (bit_off (rpos r)) in
  if (length (rdata r) <=? bi)%nat then Err (Protocol "PER: unexpected end of data") else
  b ← idx (rdata r) bi;
  Ok (Z.land (Z.shiftr b bit_idx) 1 =? 1, {| rdata := rdata r; rpos := rpos r + 1 |}).

(** The loop of [read_bits], with the reader also after a failure: the bits
    read before it stay consumed. *)
Fixpoint read_bits_go (count : nat) (val : Z) (r : BitReader) : res RtcError Z * BitReader :=
  match count with
  | O => (Ok val, r)
  | S count =>
      match read_bit r with
      | Ok (bit, r) => read_bits_go count (Z.lor (as_u64 (Z.shiftl val 1)) (Z.b2z bit)) r
      | Err e => (Err e, r)
      | Panic => (Panic, r)
      end
  end.

(** [buf.read_bits(count)?] *)
Definition read_bits (r : BitReader) (count : nat) : res RtcError (Z * BitReader) :=
  let '(v, r) := read_bits_go count 0 r in v ← v; Ok (v, r).

Definition reader_align (r : BitReader) : BitReader :=
  let remainder := bit_off (rpos r) in
  if negb (remainder =? 0)%nat
  then {| rdata := rdata r; rpos := rpos r + (8 - remainder) |} else r.

Definition remaining_bits (r : BitReader) : Z := Z.of_nat (length (rdata r) * 8) - Z.of_nat (rpos r).
Definition reader_is_empty (r : BitReader) : bool := remaining_bits r <=? 0.

(** [while r > 0 { bits += 1; r >>= 1 }]; a [u64] needs at most 64 turns. *)
Fixpoint count_bits (fuel : nat) (r : Z) : nat :=
  match fuel with
  | O => 0
  | S fuel => if r >? 0 then S (count_bits fuel (Z.shiftr r 1)) else 0
  end.

Definition bits_needed (range : Z) : nat :=
  if range <=? 1 then 0%nat else count_bits 64 (range - 1).

(** ** Encodings *)

Definition encode_bool (val : bool) (buf : BitWriter) : BitWriter := write_bit buf val.
Definition decode_bool (buf : BitReader) : res RtcError (bool * BitReader) := read_bit buf.

Definition encode_int (val min max : Z) (buf : BitWriter) : res RtcError BitWriter :=
  if (val <? as_u64 min) || (as_u64 max <? val)
  then Err (Protocol "PER integer out of range") else
  let range := as_u64 (max - min + 1) in
  let bits := bits_needed range in
  let offset := val - as_u64 min in
  Ok (if (0 <? bits)%nat then write_bits buf offset bits else buf).

Definition decode_int (buf : BitReader) (min max : Z) : res RtcError (Z * BitReader) :=
  let range := as_u64 (max - min + 1) in
  let bits := bits_needed range in
  '(offset, buf) ← (if (0 <? bits)%nat then read_bits buf bits else Ok (0, buf));
  let v := offset + as_u64 min in
  if 18446744073709551616 <=? v then Panic else Ok (v, buf).

(** [for &byte in data { buf.write_bits(byte as u64, 8) }] *)
Fixpoint write_octets (data : list Z) (buf : BitWriter) : BitWriter :=
  match data with
  | [] => buf
  | b :: data => write_octets data (write_bits buf b 8)
  end.

Definition encode_octet_string (data : list Z) (max_len : Z) (buf : BitWriter)
    : res RtcError BitWriter :=
  let len := as_u16 (Z.of_nat (length data)) in
  if max_len <? len then Err (Protocol "PER octet string length exceeds max") else
  let len_bits := bits_needed (max_len + 1) in
  let buf := if (0 <? len_bits)%nat then write_bits buf len len_bits else buf in
  let buf := writer_align buf in
  Ok (write_octets data buf).

Fixpoint read_octets (n : nat) (buf : BitReader) : res RtcError (list Z * BitReader) :=
  match n with
  | O => Ok ([], buf)
  | S n =>
      '(b, buf) ← read_bits buf 8;
      '(data, buf) ← read_octets n buf;
      Ok (as_u8 b :: data, buf)
  end.

Definition decode_octet_string (buf : BitReader) (max_len : Z) : res RtcError (list Z * BitReader) :=
  let len_bits := bits_needed (max_len + 1) in
  '(len, buf) ← (if (0 <? len_bits)%nat then read_bits buf len_bits else Ok (0, buf));
  let buf := reader_align buf in
  read_octets (Z.to_nat len) buf.

Definition encode_choice_index (i num_choices : nat) (buf : BitWriter) : res RtcError BitWriter :=
  if (num_choices <=? i)%nat then Err (Protocol "PER choice index out of range") else
  let bits := bits_needed (Z.of_nat num_choices) in
  Ok (if (0 <? bits)%nat then write_bits buf (Z.of_nat i) bits else buf).

Definition decode_choice_index (buf : BitReader) (num_choices : nat) : res RtcError (nat * BitReader) :=
  let bits := bits_needed (Z.of_nat num_choices) in
  if (0 <? bits)%nat then '(i, buf) ← read_bits buf bits; Ok (Z.to_nat i, buf) else Ok (0%nat, buf).

(** [max.unwrap_or(65535)] *)
Definition length_limit (max : option Z) : Z := default 65535 max.

Definition encode_length (len : nat) (max : option Z) (buf : BitWriter) : res RtcError BitWriter :=
  let limit := length_limit max in
  if limit <? Z.of_nat len then Err (Protocol "PER length exceeds limit") else
  let bits := bits_needed (limit + 1) in
  Ok (if (0 <? bits)%nat then write_bits buf (Z.of_nat len) bits else buf).

Definition decode_length (buf : BitReader) (max : option Z) : res RtcError (nat * BitReader) :=
  let bits := bits_needed (length_limit max + 1) in
  if (0 <? bits)%nat then '(n, buf) ← read_bits buf bits; Ok (Z.to_nat n, buf) else Ok (0%nat, buf).

(** [u8] arithmetic aborts on overflow: [max - min + 1] and [val - min]. *)
Definition encode_small_int (val min max : Z) (buf : BitWriter) : res RtcError BitWriter :=
  if (max <? min) || (255 <? max - min + 1) then Panic else
  let bits := bits_needed (max - min + 1) in
  if (0 <? bits)%nat then
    if val <? min then Panic else Ok (write_bits buf (val - min) bits)
  else Ok buf.

(** [read_bits(bits).unwrap_or(0) as u8 + min]: a read past the end counts as 0. *)
Definition decode_small_int (buf : BitReader) (min max : Z) : res RtcError (Z * BitReader) :=
  if (max <? min) || (255 <? max - min + 1) then Panic else
  let bits := bits_needed (max - min + 1) in
  if (0 <? bits)%nat then
    let '(v, buf) := read_bits_go bits 0 buf in
    let v := match v with Ok v => v | _ => 0 end in
    if 255 <? as_u8 v + min then Panic else Ok (as_u8 v + min, buf)
  else Ok (min, buf).

(** ** Bit streams as lists of bits *)

Definition byte_bits (b : Z) : list bool := (λ i, Z.testbit b (7 - i)) <$> seqZ 0 8.
Definition bits (d : list Z) : list bool := concat (byte_bits <$> d).

(** The [n] low bits of a value, most significant first *)
Fixpoint nbits (n : nat) (v : Z) : list bool :=
  match n with
  | O => []
  | S n => Z.testbit v (Z.of_nat n) :: nbits n v
  end.

Lemma length_byte_bits b : length (byte_bits b) = 8%nat.
Proof. done. Qed.

Lemma length_bits d : length (bits d) = (8 * length d)%nat.
Proof.
  unfold bits. induction d as [|b d IH]; [done|]. rewrite fmap_cons. cbn [concat length].
  rewrite length_app, length_byte_bits, IH. lia.
Qed.

Lemma length_nbits n v : length (nbits n v) = n.
Proof. induction n; cbn; congruence. Qed.

Lemma bits_app d e : bits (d ++ e) = bits d ++ bits e.
Proof. unfold bits. by rewrite fmap_app, concat_app. Qed.

Lemma bit_is_test a i : 0 ≤ i → (Z.land (Z.shiftr a i) 1 =? 1) = Z.testbit a i.
Proof.
  intros Hi. change 1 with (Z.ones 1) at 1. rewrite Z.land_ones, Z.shiftr_div_pow2 by lia.
  rewrite Z.testbit_eqb by lia. done.
Qed.

Lemma bits_lookup d i j x :
  d !! i = Some x → (j < 8)%nat →
  bits d !! (8 * i + j)%nat = Some (Z.testbit x (7 - Z.of_nat j)).
Proof.
  unfold bits. revert i. induction d as [|b d IH]; intros [|i] Hx Hj; cbn in Hx; try done;
    rewrite fmap_cons; cbn [concat].
  - injection Hx as ->. rewrite lookup_app_l by (rewrite length_byte_bits; lia).
    unfold byte_bits. rewrite list_lookup_fmap.
    rewrite (proj2 (lookup_seqZ 0 8 _ (Z.of_nat j))) by lia. done.
  - rewrite lookup_app_r by (rewrite length_byte_bits; lia).
    rewrite length_byte_bits. replace (8 * S i + j - 8)%nat with (8 * i + j)%nat by lia. by apply IH.
Qed.

Lemma byte_bits_set x j :
  u8 x → (j < 8)%nat →
  u8 (Z.lor x (as_u8 (Z.shiftl 1 (7 - Z.of_nat j)))) ∧
  byte_bits (Z.lor x (as_u8 (Z.shiftl 1 (7 - Z.of_nat j)))) = <[j := true]> (byte_bits x).
Proof.
  intros Hx Hj.
  enough (forallb (λ j, let y := Z.lor x (as_u8 (Z.shiftl 1 (7 - Z.of_nat j))) in
    (0 <=? y) && (y <? 256) && bool_decide (byte_bits y = <[j := true]> (byte_bits x))) (seq 0 8) = true)
    as Ht.
  { rewrite forallb_forall in Ht. specialize (Ht j).
    rewrite !andb_true_iff, bool_decide_eq_true in Ht.
    destruct Ht as [[? ?] ?]; [apply in_seq; lia|]. split; [ulia|done]. }
  byte_check x; [by vm_compute|done].
Qed.

Lemma bits_set d i j x :
  bytes d → d !! i = Some x → (j < 8)%nat →
  let d' := alter (λ b, Z.lor b (as_u8 (Z.shiftl 1 (7 - Z.of_nat j)))) i d in
  bytes d' ∧ bits d' = <[(8 * i + j)%nat := true]> (bits d).
Proof.
  intros Hd Hx Hj. unfold bits. revert i Hx.
  induction Hd as [|b d Hb Hd IH]; intros [|i] Hx; cbn in Hx; try done; cbn [alter list_alter];
    rewrite !fmap_cons; cbn [concat].
  - injection Hx as ->. destruct (byte_bits_set x j Hb Hj) as [Hu Hs].
    split; [by constructor|]. rewrite Hs. rewrite insert_app_l by (rewrite length_byte_bits; lia).
    done.
  - destruct (IH i Hx) as [Hb' Hs]. split; [by constructor|].
    cbn zeta in Hs. rewrite Hs. rewrite insert_app_r_alt by (rewrite length_byte_bits; lia).
    rewrite length_byte_bits. do 2 f_equal. lia.
Qed.

(** ** The writer appends to a list of bits, the reader consumes one *)

(** The writer has written [bs]; the rest of its last byte is zero. *)
Record writes (w : BitWriter) (bs : list bool) : Prop := {
  wr_pos : wpos w = length bs;
  wr_bytes : bytes (wdata w);
  wr_len : length (wdata w) = ((length bs + 7) / 8)%nat;
  wr_bits : bits (wdata w) = bs ++ replicate (8 * length (wdata w) - length bs) false;
}.

(** The reader has read [pre] and still has [l] to read. *)
Record reads (r : BitReader) (pre l : list bool) : Prop := {
  rd_pos : rpos r = length pre;
  rd_bits : bits (rdata r) = pre ++ l;
}.

Lemma writes_new : writes BitWriter_new [].
Proof. by split. Qed.

Lemma write_bit_room w bs (data := if (length (wdata w) <=? byte_idx (wpos w))%nat
                                   then wdata w ++ [0] else wdata w) :
  writes w bs →
  bytes data ∧ length data = ((length bs + 1 + 7) / 8)%nat ∧
  (byte_idx (wpos w) < length data)%nat ∧
  bits data = bs ++ replicate (8 * length data - length bs) false.
Proof.
  intros [Hp Hb Hl Hbits]. subst data. unfold byte_idx. rewrite Hp.
  destruct (Nat.leb_spec (length (wdata w)) (length bs / 8)) as [Hle|Hlt].
  - assert (length bs = 8 * length (wdata w))%nat as Hn by lia.
    rewrite length_app; cbn [length]. split_and!; [|lia|lia|].
    + apply Forall_app. by repeat constructor.
    + rewrite bits_app, Hbits, Hn, Nat.sub_diag, app_nil_r.
      replace (8 * (length (wdata w) + 1) - 8 * length (wdata w))%nat with 8%nat by lia. done.
  - split_and!; [done|lia|lia|done].
Qed.

Lemma write_bit_writes w bs b : writes w bs → writes (write_bit w b) (bs ++ [b]).
Proof.
  intros Hw. pose proof Hw as [Hp _ _ _]. destruct (write_bit_room w bs Hw) as (Hb & Hl & Hi & Hbits).
  unfold write_bit. set (data := if (_ <=? _)%nat then _ else _) in *.
  assert (∃ n, (8 * length data - length bs = S n)%nat) as [n Hn]
    by (exists (8 * length data - length bs - 1)%nat; lia).
  rewrite Hn in Hbits.
  assert (8 * length data - length (bs ++ [b]) = n)%nat as Hn' by (rewrite length_app; cbn; lia).
  destruct b.
  - destruct (lookup_lt_is_Some_2 data (byte_idx (wpos w)) Hi) as [x Hx].
    destruct (bits_set data _ (bit_off (wpos w)) x Hb Hx) as [Hb' Hset];
      [unfold bit_off; apply Nat.mod_upper_bound; lia|].
    split; cbn [wpos wdata]; [rewrite length_app; cbn; lia|exact Hb'| |];
      rewrite length_alter; [rewrite length_app; exact Hl|].
    rewrite Hn', Hset, Hbits.
    replace (8 * byte_idx (wpos w) + bit_off (wpos w))%nat with (length bs)
      by (unfold byte_idx, bit_off; rewrite Hp; lia).
    rewrite insert_app_r_alt, Nat.sub_diag, <- app_assoc by lia. done.
  - split; cbn [wpos wdata]; [rewrite length_app; cbn; lia|done|rewrite length_app; exact Hl|].
    rewrite Hn', Hbits, <- app_assoc. done.
Qed.

Lemma write_bits_writes w bs v n : writes w bs → writes (write_bits w v n) (bs ++ nbits n v).
Proof.
  revert w bs. induction n as [|n IH]; intros w bs Hw; cbn [write_bits nbits].
  - by rewrite app_nil_r.
  - rewrite bit_is_test by lia. change (Z.testbit v (Z.of_nat n) :: nbits n v)
      with ([Z.testbit v (Z.of_nat n)] ++ nbits n v).
    rewrite app_assoc. by apply IH, write_bit_writes.
Qed.

(** The zero bits up to the next byte boundary *)
Definition align_bits (n : nat) : list bool := replicate ((8 - n mod 8) mod 8)%nat false.

Lemma write_zeros_writes n w bs : writes w bs → writes (write_zeros n w) (bs ++ replicate n false).
Proof.
  revert w bs. induction n as [|n IH]; intros w bs Hw; cbn [write_zeros replicate].
  - by rewrite app_nil_r.
  - change (false :: replicate n false) with ([false] ++ replicate n false).
    rewrite app_assoc. by apply IH, write_bit_writes.
Qed.

Lemma writer_align_writes w bs :
  writes w bs → writes (writer_align w) (bs ++ align_bits (length bs)).
Proof.
  intros Hw. pose proof Hw as [Hp _ _ _]. unfold writer_align, align_bits, bit_off. rewrite Hp.
  destruct (Nat.eqb_spec (length bs mod 8) 0) as [Hz|Hz]; cbn [negb].
  - rewrite Hz. by rewrite app_nil_r.
  - rewrite (Nat.mod_small (8 - _)) by lia. by apply write_zeros_writes.
Qed.

Lemma into_bytes_reads w bs :
  writes w bs → ∃ n, reads (BitReader_new (into_bytes w)) [] (bs ++ replicate n false).
Proof.
  intros [Hp Hb Hl Hbits]. eexists. split; [done|]. cbn [rdata BitReader_new app].
  unfold into_bytes. rewrite resize_all_alt by (rewrite Hp, Hl; done). exact Hbits.
Qed.

Lemma read_bit_reads r pre b l :
  reads r pre (b :: l) →
  read_bit r = Ok (b, {| rdata := rdata r; rpos := rpos r + 1 |}) ∧
  reads {| rdata := rdata r; rpos := rpos r + 1 |} (pre ++ [b]) l.
Proof.
  intros [Hp Hb]. unfold read_bit.
  assert (8 * length (rdata r) = length pre + S (length l))%nat as Hlen.
  { rewrite <- length_bits, Hb, length_app. done. }
  assert (byte_idx (rpos r) < length (rdata r))%nat as Hi by (unfold byte_idx; rewrite Hp; lia).
  rewrite (proj2 (Nat.leb_gt _ _)) by done.
  destruct (lookup_lt_is_Some_2 _ _ Hi) as [x Hx]. unfold idx. rewrite Hx. run.
  assert (bit_off (rpos r) < 8)%nat as Hoff by (apply Nat.mod_upper_bound; lia).
  rewrite bit_is_test by lia.
  pose proof (bits_lookup _ _ (bit_off (rpos r)) _ Hx Hoff) as Hlk. rewrite Hb in Hlk.
  replace (8 * byte_idx (rpos r) + bit_off (rpos r))%nat with (length pre) in Hlk
    by (unfold byte_idx, bit_off; rewrite Hp; lia).
  rewrite list_lookup_middle in Hlk by done. injection Hlk as <-.
  split; [done|]. split; cbn [rpos rdata]; [rewrite length_app; cbn; lia|]. by rewrite Hb, <- app_assoc.
Qed.

Lemma nbits_value n v acc :
  0 ≤ acc → 0 ≤ v → acc * 2 ^ Z.of_nat n + v mod 2 ^ Z.of_nat n < 18446744073709551616 →
  ∀ r pre l, reads r pre (nbits n v ++ l) →
  ∃ r', read_bits_go n acc r = (Ok (acc * 2 ^ Z.of_nat n + v mod 2 ^ Z.of_nat n), r') ∧
    reads r' (pre ++ nbits n v) l.
Proof.
  intros Hacc Hv. revert acc Hacc. induction n as [|n IH]; intros acc Hacc Hlt r pre l Hr;
    cbn [read_bits_go nbits] in *.
  { exists r. rewrite Z.mod_1_r, app_nil_r. split; [f_equal; f_equal; lia|done]. }
  destruct (read_bit_reads r pre _ _ Hr) as [-> Hr']. set (t := Z.testbit v (Z.of_nat n)) in *.
  pose proof (Z.pow_pos_nonneg 2 (Z.of_nat n)).
  assert (v mod 2 ^ Z.of_nat (S n) = Z.b2z t * 2 ^ Z.of_nat n + v mod 2 ^ Z.of_nat n) as Hmod.
  { rewrite Nat2Z.inj_succ, Z.pow_succ_r, (Z.mul_comm 2), Z.rem_mul_r by lia.
    subst t. rewrite Z.testbit_spec' by lia. lia. }
  assert (2 ^ Z.of_nat (S n) = 2 * 2 ^ Z.of_nat n) as Hpow by (rewrite Nat2Z.inj_succ, Z.pow_succ_r; lia).
  pose proof (Z.mod_pos_bound v (2 ^ Z.of_nat n)).
  assert (0 ≤ Z.b2z t ≤ 1) as Ht by (destruct t; cbn; lia).
  assert (Z.lor (as_u64 (Z.shiftl acc 1)) (Z.b2z t) = 2 * acc + Z.b2z t) as ->.
  { assert (as_u64 (Z.shiftl acc 1) = Z.shiftl acc 1) as ->.
    { rewrite Z.shiftl_mul_pow2 by lia. apply Z.mod_small. nia. }
    rewrite lor_shiftl_add by lia. lia. }
  destruct (IH (2 * acc + Z.b2z t)) with (r := {| rdata := rdata r; rpos := rpos r + 1 |})
    (pre := pre ++ [t]) (l := l) as (r' & -> & Hr''); [lia|nia|done|].
  exists r'. rewrite <- app_assoc in Hr''. split; [|done]. do 2 f_equal. rewrite Hmod, Hpow. ring.
Qed.

Lemma read_bits_reads r pre l n v :
  (n ≤ 64)%nat → 0 ≤ v < 2 ^ Z.of_nat n → reads r pre (nbits n v ++ l) →
  ∃ r', read_bits_go n 0 r = (Ok v, r') ∧ reads r' (pre ++ nbits n v) l.
Proof.
  intros Hn Hv Hr. destruct (nbits_value n v 0 ltac:(lia) ltac:(lia)) with (r := r) (pre := pre) (l := l)
    as (r' & Hgo & Hr'); [|done|].
  - assert (2 ^ Z.of_nat n ≤ 2 ^ 64) by (apply Z.pow_le_mono_r; lia).
    rewrite Z.mod_small by lia. lia.
  - exists r'. rewrite Hgo, Z.mod_small by lia. done.
Qed.

Lemma reader_align_reads r pre l :
  reads r pre (align_bits (length pre) ++ l) →
  reads (reader_align r) (pre ++ align_bits (length pre)) l.
Proof.
  intros [Hp Hb]. unfold reader_align, align_bits, bit_off in *. rewrite Hp.
  destruct (Nat.eqb_spec (length pre mod 8) 0) as [Hz|Hz]; cbn [negb].
  - rewrite Hz in *. cbn in *. split; [by rewrite app_nil_r|]. by rewrite app_nil_r.
  - rewrite (Nat.mod_small (8 - _)) in * by lia. split; cbn [rpos rdata].
    + rewrite length_app, length_replicate. lia.
    + by rewrite <- app_assoc.
Qed.

Lemma count_bits_spec fuel r :
  0 ≤ r < 2 ^ Z.of_nat fuel →
  (count_bits fuel r ≤ fuel)%nat ∧ r < 2 ^ Z.of_nat (count_bits fuel r) ∧
  (0 < r → 2 ^ Z.of_nat (count_bits fuel r) ≤ 2 * r).
Proof.
  revert r. induction fuel as [|fuel IH]; intros r Hr; cbn [count_bits].
  { cbn in *. lia. }
  destruct (Z.gtb_spec r 0); [|cbn; lia].
  rewrite Nat2Z.inj_succ, Z.pow_succ_r in Hr by lia. rewrite Z.shiftr_div_pow2 by lia.
  change (2 ^ 1) with 2. destruct (IH (r / 2)) as (Hle & Hlt & Hmin); [lia|].
  rewrite Nat2Z.inj_succ, Z.pow_succ_r by lia. split_and!; [lia|lia|]. intros _.
  destruct (decide (0 < r / 2)) as [Hp|Hp]; [specialize (Hmin Hp); lia|].
  assert (r / 2 = 0) as Hz by lia. rewrite Hz in *.
  replace (count_bits fuel 0) with 0%nat by (by destruct fuel). cbn. lia.
Qed.

(** [bits_needed] is the width of the largest of [range] values. *)
Lemma bits_needed_spec range :
  1 ≤ range ≤ 2 ^ 64 →
  (bits_needed range ≤ 64)%nat ∧ range ≤ 2 ^ Z.of_nat (bits_needed range) ∧
  (1 < range → 2 ^ Z.of_nat (bits_needed range) ≤ 2 * (range - 1)).
Proof.
  intros Hr. unfold bits_needed. destruct (Z.leb_spec range 1); [cbn; lia|].
  destruct (count_bits_spec 64 (range - 1)) as (? & ? & Hmin); [cbn; lia|].
  split_and!; [done|lia|]. intros _. apply Hmin. lia.
Qed.

(** A value below [range] in the bits its range needs *)
Definition range_bits (range v : Z) : list bool := nbits (bits_needed range) v.

Lemma write_range w bs v range :
  writes w bs →
  writes (if (0 <? bits_needed range)%nat then write_bits w v (bits_needed range) else w)
    (bs ++ range_bits range v).
Proof.
  intros Hw. unfold range_bits. destruct (bits_needed range) as [|n] eqn:He.
  - by rewrite app_nil_r.
  - by apply write_bits_writes.
Qed.

Lemma read_range r pre l v range :
  1 ≤ range ≤ 2 ^ 64 → 0 ≤ v < range → reads r pre (range_bits range v ++ l) →
  ∃ r', (if (0 <? bits_needed range)%nat then read_bits r (bits_needed range) else Ok (0, r))
        = Ok (v, r') ∧ reads r' (pre ++ range_bits range v) l.
Proof.
  intros Hr Hv Hrd. unfold range_bits, read_bits in *.
  destruct (bits_needed_spec range Hr) as (Hle & Hup & _).
  destruct (bits_needed range) as [|n] eqn:He.
  - exists r. cbn in Hup. replace v with 0 by lia. by rewrite app_nil_r.
  - destruct (read_bits_reads r pre l (S n) v) as (r' & -> & Hr'); [lia|lia|done|]. by exists r'.
Qed.

(** ** Round trips of the encodings *)

Lemma encode_int_writes w bs v max :
  0 ≤ v ≤ max → max < 2 ^ 63 → writes w bs →
  ∃ w', encode_int v 0 max w = Ok w' ∧ writes w' (bs ++ range_bits (max + 1) v).
Proof.
  intros Hv Hm Hw. unfold encode_int. change (as_u64 0) with 0.
  replace (as_u64 max) with max by mlia. replace (as_u64 (max - 0 + 1)) with (max + 1) by mlia.
  rewrite (proj2 (Z.ltb_ge _ _)), (proj2 (Z.ltb_ge _ _)), Z.sub_0_r by lia. cbn [orb].
  eexists. split; [done|]. by apply write_range.
Qed.

Lemma decode_int_reads r pre l v max :
  0 ≤ v ≤ max → max < 2 ^ 63 → reads r pre (range_bits (max + 1) v ++ l) →
  ∃ r', decode_int r 0 max = Ok (v, r') ∧ reads r' (pre ++ range_bits (max + 1) v) l.
Proof.
  intros Hv Hm Hr. unfold decode_int. change (as_u64 0) with 0.
  replace (as_u64 (max - 0 + 1)) with (max + 1) by mlia.
  destruct (read_range r pre l v (max + 1)) as (r' & -> & Hr'); [lia|lia|done|]. run.
  exists r'. rewrite Z.add_0_r, (proj2 (Z.leb_gt _ _)) by lia. done.
Qed.

Lemma encode_choice_writes w bs i n :
  (i < n)%nat → writes w bs →
  ∃ w', encode_choice_index i n w = Ok w' ∧ writes w' (bs ++ range_bits (Z.of_nat n) (Z.of_nat i)).
Proof.
  intros Hi Hw. unfold encode_choice_index. rewrite (proj2 (Nat.leb_gt _ _)) by done.
  eexists. split; [done|]. by apply write_range.
Qed.

Lemma decode_choice_reads r pre l i n :
  (i < n)%nat → Z.of_nat n ≤ 2 ^ 64 → reads r pre (range_bits (Z.of_nat n) (Z.of_nat i) ++ l) →
  ∃ r', decode_choice_index r n = Ok (i, r') ∧
    reads r' (pre ++ range_bits (Z.of_nat n) (Z.of_nat i)) l.
Proof.
  intros Hi Hn Hr. unfold decode_choice_index.
  destruct (read_range r pre l (Z.of_nat i) (Z.of_nat n)) as (r' & Hrd & Hr'); [lia|lia|done|].
  exists r'. split; [|done]. destruct (0 <? _)%nat.
  - rewrite Hrd. run. by rewrite Nat2Z.id.
  - injection Hrd as Hz ->. by replace i with 0%nat by lia.
Qed.

Lemma encode_length_writes w bs n limit :
  Z.of_nat n ≤ limit → writes w bs →
  ∃ w', encode_length n (Some limit) w = Ok w' ∧ writes w' (bs ++ range_bits (limit + 1) (Z.of_nat n)).
Proof.
  intros Hn Hw. unfold encode_length. change (length_limit (Some limit)) with limit. cbn zeta. rewrite (proj2 (Z.ltb_ge _ _)) by lia.
  eexists. split; [done|]. by apply write_range.
Qed.

Lemma decode_length_reads r pre l n limit :
  Z.of_nat n ≤ limit < 2 ^ 64 → reads r pre (range_bits (limit + 1) (Z.of_nat n) ++ l) →
  ∃ r', decode_length r (Some limit) = Ok (n, r') ∧
    reads r' (pre ++ range_bits (limit + 1) (Z.of_nat n)) l.
Proof.
  intros Hn Hr. unfold decode_length. change (length_limit (Some limit)) with limit. cbn zeta.
  destruct (read_range r pre l (Z.of_nat n) (limit + 1)) as (r' & Hrd & Hr'); [lia|lia|done|].
  exists r'. split; [|done]. destruct (0 <? _)%nat.
  - rewrite Hrd. run. by rewrite Nat2Z.id.
  - injection Hrd as Hz ->. by replace n with 0%nat by lia.
Qed.

Lemma encode_small_writes w bs v max :
  0 ≤ v ≤ max → max < 255 → writes w bs →
  ∃ w', encode_small_int v 0 max w = Ok w' ∧ writes w' (bs ++ range_bits (max + 1) v).
Proof.
  intros Hv Hm Hw. unfold encode_small_int. rewrite Z.sub_0_r.
  rewrite (proj2 (Z.ltb_ge _ _)), (proj2 (Z.ltb_ge _ _)), (proj2 (Z.ltb_ge v 0)), Z.sub_0_r by lia.
  cbn [orb]. exists (if (0 <? bits_needed (max + 1))%nat then write_bits w v (bits_needed (max + 1)) else w).
  split; [by destruct (0 <? _)%nat|]. by apply write_range.
Qed.

Lemma decode_small_reads r pre l v max :
  0 ≤ v ≤ max → max < 255 → reads r pre (range_bits (max + 1) v ++ l) →
  ∃ r', decode_small_int r 0 max = Ok (v, r') ∧ reads r' (pre ++ range_bits (max + 1) v) l.
Proof.
  intros Hv Hm Hr. unfold decode_small_int. rewrite Z.sub_0_r.
  rewrite (proj2 (Z.ltb_ge _ _)), (proj2 (Z.ltb_ge _ _)) by lia. cbn [orb].
  destruct (read_range r pre l v (max + 1)) as (r' & Hrd & Hr'); [lia|lia|done|].
  exists r'. split; [|done]. destruct (0 <? _)%nat; unfold read_bits in Hrd.
  - destruct (read_bits_go _ 0 r) as [o r2]. res_inv. rewrite Z.add_0_r.
    replace (as_u8 v) with v by mlia. by rewrite (proj2 (Z.ltb_ge _ _)) by lia.
  - by injection Hrd as <- ->.
Qed.

(** The bits of an octet string that starts at bit position [pos] *)
Definition octet_bits (pos : nat) (data : list Z) : list bool :=
  let len := range_bits 65536 (Z.of_nat (length data)) in
  len ++ align_bits (pos + length len) ++ bits data.

Lemma byte_bits_nbits b : byte_bits b = nbits 8 b.
Proof. done. Qed.

Lemma write_octets_writes data w bs : writes w bs → writes (write_octets data w) (bs ++ bits data).
Proof.
  revert w bs. induction data as [|b data IH]; intros w bs Hw; cbn [write_octets].
  - by rewrite app_nil_r.
  - unfold bits. rewrite fmap_cons. cbn [concat]. fold (bits data). rewrite byte_bits_nbits, app_assoc.
    by apply IH, write_bits_writes.
Qed.

Lemma read_octets_reads data r pre l :
  bytes data → reads r pre (bits data ++ l) →
  ∃ r', read_octets (length data) r = Ok (data, r') ∧ reads r' (pre ++ bits data) l.
Proof.
  intros Hd. revert r pre. induction Hd as [|b data Hb _ IH]; intros r pre Hr; cbn [length read_octets].
  - exists r. by rewrite app_nil_r.
  - unfold bits in Hr |- *. rewrite fmap_cons in *. cbn [concat] in *. fold (bits data) in *.
    rewrite byte_bits_nbits in *. rewrite <- app_assoc in Hr.
    destruct (read_bits_reads r pre (bits data ++ l) 8 b) as (r' & Hgo & Hr'); [lia|exact Hb|exact Hr|].
    unfold read_bits. rewrite Hgo. run. destruct (IH _ _ Hr') as (r2 & -> & Hr2). run.
    exists r2. rewrite <- app_assoc in Hr2. split; [|done]. do 3 f_equal. mlia.
Qed.

Lemma encode_octets_writes data w bs :
  Z.of_nat (length data) ≤ 65535 → writes w bs →
  ∃ w', encode_octet_string data 65535 w = Ok w' ∧ writes w' (bs ++ octet_bits (length bs) data).
Proof.
  intros Hl Hw. unfold encode_octet_string, octet_bits.
  replace (as_u16 (Z.of_nat (length data))) with (Z.of_nat (length data)) by mlia.
  rewrite (proj2 (Z.ltb_ge _ _)) by lia. eexists. split; [done|].
  rewrite !app_assoc. apply write_octets_writes. rewrite <- length_app.
  by apply writer_align_writes, write_range.
Qed.

Lemma decode_octets_reads data r pre l :
  bytes data → Z.of_nat (length data) ≤ 65535 → reads r pre (octet_bits (length pre) data ++ l) →
  ∃ r', decode_octet_string r 65535 = Ok (data, r') ∧ reads r' (pre ++ octet_bits (length pre) data) l.
Proof.
  intros Hd Hl Hr. unfold decode_octet_string, octet_bits in *. change (65535 + 1) with 65536.
  rewrite <- !app_assoc in Hr.
  destruct (read_range r pre (align_bits (length pre + length (range_bits 65536 (Z.of_nat (length data)))) ++ bits data ++ l)
    (Z.of_nat (length data)) 65536) as (r1 & -> & Hr1); [lia|lia|exact Hr|].
  run. rewrite Nat2Z.id. rewrite <- length_app in *. apply reader_align_reads in Hr1.
  destruct (read_octets_reads data _ _ l Hd Hr1) as (r2 & Hread & Hr2).
  exists r2. rewrite !app_assoc. done.
Qed.

(** ** A bit stream is a queue of fields *)

Definition write_fields (fs : list (Z * nat)) (w : BitWriter) : BitWriter :=
  foldl (λ w f, write_bits w f.1 f.2) w fs.

Fixpoint read_fields (widths : list nat) (r : BitReader) : res RtcError (list Z) :=
  match widths with
  | [] => Ok []
  | n :: ws => '(v, r) ← read_bits r n; vs ← read_fields ws r; Ok (v :: vs)
  end.

Lemma write_fields_writes fs w bs :
  writes w bs → writes (write_fields fs w) (bs ++ concat ((λ f, nbits f.2 f.1) <$> fs)).
Proof.
  revert w bs. induction fs as [|f fs IH]; intros w bs Hw; cbn [write_fields foldl].
  - by rewrite app_nil_r.
  - rewrite fmap_cons. cbn [concat]. rewrite app_assoc. by apply IH, write_bits_writes.
Qed.

Lemma read_fields_reads fs r pre l :
  Forall (λ f : Z * nat, (f.2 ≤ 64)%nat ∧ 0 ≤ f.1 < 2 ^ Z.of_nat f.2) fs →
  reads r pre (concat ((λ f, nbits f.2 f.1) <$> fs) ++ l) →
  read_fields fs.*2 r = Ok fs.*1.
Proof.
  intros Hfs. revert r pre. induction Hfs as [|[v n] fs [Hn Hv] _ IH]; intros r pre Hr; [done|].
  rewrite fmap_cons in Hr. cbn [concat fst snd] in *. rewrite <- app_assoc in Hr.
  change (((v, n) :: fs).*2) with (n :: fs.*2). change (((v, n) :: fs).*1) with (v :: fs.*1).
  cbn [read_fields]. unfold read_bits.
  destruct (read_bits_reads r pre _ n v Hn Hv Hr) as (r' & -> & Hr'). run.
  by rewrite (IH _ _ Hr').
Qed.

(** Bit fields of up to 64 bits written one after the other with BitWriter
    are read back by BitReader to the same values, from the least number of
    bytes. *)
Theorem per_fields_roundtrip fs :
  Forall (λ f : Z * nat, (f.2 ≤ 64)%nat ∧ 0 ≤ f.1 < 2 ^ Z.of_nat f.2) fs →
  let out := into_bytes (write_fields fs BitWriter_new) in
  read_fields fs.*2 (BitReader_new out) = Ok fs.*1 ∧
  length out = ((sum_list fs.*2 + 7) / 8)%nat ∧ bytes out.
Proof.
  intros Hfs out. pose proof (write_fields_writes fs BitWriter_new [] writes_new) as Hw.
  rewrite app_nil_l in Hw. split.
  - destruct (into_bytes_reads _ _ Hw) as [n Hr]. by eapply read_fields_reads.
  - destruct Hw as [Hp Hb Hl _]. subst out. unfold into_bytes.
    assert (length (concat ((λ f, nbits f.2 f.1) <$> fs)) = sum_list fs.*2) as Hlen.
    { clear. induction fs as [|f fs IH]; [done|]. rewrite !fmap_cons. cbn [concat sum_list].
      by rewrite length_app, length_nbits, IH. }
    rewrite resize_all_alt by (rewrite Hp, Hl; done). rewrite Hl, Hlen. done.
Qed.

(** ** Decoders never abort *)

Lemma read_bit_np r : read_bit r ≠ Panic.
Proof. unfold read_bit. np. Qed.

Lemma read_bits_go_np n acc r :
  u64 acc → (read_bits_go n acc r).1 ≠ Panic ∧ ∀ v, (read_bits_go n acc r).1 = Ok v → u64 v.
Proof.
  revert acc r. induction n as [|n IH]; intros acc r Hacc; cbn [read_bits_go].
  { cbn. split; [done|]. by intros v [= <-]. }
  pose proof (read_bit_np r) as Hnp. destruct (read_bit r) as [[b r']| |]; [|done..].
  apply IH. apply (lor_bound 64); [lia| |destruct b; cbn; lia].
  change (2 ^ 64) with 18446744073709551616. mlia.
Qed.

Lemma read_bits_np r n : read_bits r n ≠ Panic.
Proof.
  unfold read_bits. pose proof (read_bits_go_np n 0 r ltac:(ulia)) as [Hnp _].
  destruct (read_bits_go n 0 r) as [v r']. cbn in *. by destruct v.
Qed.

Lemma decode_int_np r max : decode_int r 0 max ≠ Panic.
Proof.
  unfold decode_int. change (as_u64 0) with 0. destruct (0 <? _)%nat; [|run; by cbn].
  unfold read_bits. pose proof (read_bits_go_np (bits_needed (as_u64 (max - 0 + 1))) 0 r ltac:(ulia)) as [Hnp Hv].
  destruct (read_bits_go _ 0 r) as [[v| |] r']; cbn in *; try done.
  specialize (Hv v eq_refl). rewrite (proj2 (Z.leb_gt _ _)) by ulia. done.
Qed.

Lemma read_octets_np n r : read_octets n r ≠ Panic.
Proof.
  revert r. induction n as [|n IH]; intros r; cbn [read_octets]; [done|].
  apply bind_not_panic; [apply read_bits_np|]. intros [b r'] _. np.
Qed.

Lemma decode_octet_string_np r max : decode_octet_string r max ≠ Panic.
Proof.
  unfold decode_octet_string. apply bind_not_panic; [destruct (0 <? _)%nat; [apply read_bits_np|done]|].
  intros [len r'] _. apply read_octets_np.
Qed.

Lemma decode_choice_index_np r n : decode_choice_index r n ≠ Panic.
Proof.
  unfold decode_choice_index. destruct (0 <? _)%nat; [|done].
  apply bind_not_panic; [apply read_bits_np|]. by intros [].
Qed.

Lemma decode_length_np r max : decode_length r max ≠ Panic.
Proof.
  unfold decode_length. destruct (0 <? _)%nat; [|done].
  apply bind_not_panic; [apply read_bits_np|]. by intros [].
Qed.

Lemma decode_small_int_np r max : 0 ≤ max < 255 → decode_small_int r 0 max ≠ Panic.
Proof.
  intros Hm. unfold decode_small_int. rewrite Z.sub_0_r.
  rewrite (proj2 (Z.ltb_ge _ _)), (proj2 (Z.ltb_ge _ _)) by lia. cbn [orb].
  destruct (0 <? _)%nat; [|done]. destruct (read_bits_go _ 0 r) as [v r'].
  rewrite (proj2 (Z.ltb_ge _ _)) by mlia. done.
Qed.
