(* ===== verification/Ifp.v ===== *)
(** * IFP packets ([src/t38/ifp.rs])

    T.38 fax packets: T.30 indicators and T.30 data fields, in ASN.1 PER. *)
From S2P Require Import Prelude Core Per.

Inductive T30Indicator :=
| NoSignal | Cng | Ced | V21Preamble | V27Ter2400Preamble | V27Ter4800Preamble
| V297200Preamble | V299600Preamble | V177200ShortPreamble | V177200LongPreamble
| V179600ShortPreamble | V179600LongPreamble | V1712000ShortPreamble | V1712000LongPreamble
| V1714400ShortPreamble | V1714400LongPreamble | V8AnsAm | V8Signal | V34Preamble
| V34ControlChannel | V34CcRetrain | V3312000Training | V3314400Training.

(** [ind as u8] *)
Definition T30Indicator_u8 (i : T30Indicator) : Z :=
  match i with
  | NoSignal => 0 | Cng => 1 | Ced => 2 | V21Preamble => 3 | V27Ter2400Preamble => 4
  | V27Ter4800Preamble => 5 | V297200Preamble => 6 | V299600Preamble => 7
  | V177200ShortPreamble => 8 | V177200LongPreamble => 9 | V179600ShortPreamble => 10
  | V179600LongPreamble => 11 | V1712000ShortPreamble => 12 | V1712000LongPreamble => 13
  | V1714400ShortPreamble => 14 | V1714400LongPreamble => 15 | V8AnsAm => 16 | V8Signal => 17
  | V34Preamble => 18 | V34ControlChannel => 19 | V34CcRetrain => 20 | V3312000Training => 21
  | V3314400Training => 22
  end.

Definition T30Indicator_MAX_VAL : Z := 22.

Definition T30Indicator_from_u8 (val : Z) : option T30Indicator :=
  if val =? 0 then Some NoSignal else if val =? 1 then Some Cng else
  if val =? 2 then Some Ced else if val =? 3 then Some V21Preamble else
  if val =? 4 then Some V27Ter2400Preamble else if val =? 5 then Some V27Ter4800Preamble else
  if val =? 6 then Some V297200Preamble else if val =? 7 then Some V299600Preamble else
  if val =? 8 then Some V177200ShortPreamble else if val =? 9 then Some V177200LongPreamble else
  if val =? 10 then Some V179600ShortPreamble else if val =? 11 then Some V179600LongPreamble else
  if val =? 12 then Some V1712000ShortPreamble else if val =? 13 then Some V1712000LongPreamble else
  if val =? 14 then Some V1714400ShortPreamble else if val =? 15 then Some V1714400LongPreamble else
  if val =? 16 then Some V8AnsAm else if val =? 17 then Some V8Signal else
  if val =? 18 then Some V34Preamble else if val =? 19 then Some V34ControlChannel else
  if val =? 20 then Some V34CcRetrain else if val =? 21 then Some V3312000Training else
  if val =? 22 then Some V3314400Training else None.

Inductive DataFieldType :=
| HdlcData | HdlcSigEnd | HdlcFcsOk | HdlcFcsBad | HdlcFcsOkSigEnd | HdlcFcsBadSigEnd
| T4NonEcm | T4NonEcmSigEnd.

Definition DataFieldType_u8 (t : DataFieldType) : Z :=
  match t with
  | HdlcData => 0 | HdlcSigEnd => 1 | HdlcFcsOk => 2 | HdlcFcsBad => 3 | HdlcFcsOkSigEnd => 4
  | HdlcFcsBadSigEnd => 5 | T4NonEcm => 6 | T4NonEcmSigEnd => 7
  end.

Definition DataFieldType_MAX_VAL : Z := 7.

Definition DataFieldType_from_u8 (val : Z) : option DataFieldType :=
  if val =? 0 then Some HdlcData else if val =? 1 then Some HdlcSigEnd else
  if val =? 2 then Some HdlcFcsOk else if val =? 3 then Some HdlcFcsBad else
  if val =? 4 then Some HdlcFcsOkSigEnd else if val =? 5 then Some HdlcFcsBadSigEnd else
  if val =? 6 then Some T4NonEcm else if val =? 7 then Some T4NonEcmSigEnd else None.

Record DataField := { field_type : DataFieldType; field_data : list Z }.

Inductive IfpPacket :=
| IfpT30Indicator (l : list T30Indicator)
| IfpT30Data (l : list DataField).

Fixpoint encode_indicators (l : list T30Indicator) (buf : BitWriter) : res RtcError BitWriter :=
  match l with
  | [] => Ok buf
  | ind :: l =>
      buf ← encode_small_int (T30Indicator_u8 ind) 0 T30Indicator_MAX_VAL buf;
      encode_indicators l buf
  end.

Fixpoint encode_data_fields (l : list DataField) (buf : BitWriter) : res RtcError BitWriter :=
  match l with
  | [] => Ok buf
  | field :: l =>
      buf ← encode_small_int (DataFieldType_u8 (field_type field)) 0 DataFieldType_MAX_VAL buf;
      buf ← encode_octet_string (field_data field) 65535 buf;
      encode_data_fields l buf
  end.

Definition IfpPacket_encode (p : IfpPacket) : res RtcError (list Z) :=
  let buf := BitWriter_new in
  let type_of_msg := match p with IfpT30Indicator _ => 0 | IfpT30Data _ => 1 end in
  buf ← encode_int type_of_msg 0 1 buf;
  buf ← match p with
        | IfpT30Indicator indicators =>
            buf ← encode_choice_index 0 2 buf;
            buf ← encode_length (length indicators) (Some 31) buf;
            encode_indicators indicators buf
        | IfpT30Data fields =>
            buf ← encode_choice_index 1 2 buf;
            buf ← encode_length (length fields) (Some 31) buf;
            encode_data_fields fields buf
        end;
  Ok (into_bytes buf).

Fixpoint decode_indicators (count : nat) (buf : BitReader) : res RtcError (list T30Indicator) :=
  match count with
  | O => Ok []
  | S count =>
      '(val, buf) ← decode_small_int buf 0 T30Indicator_MAX_VAL;
      ind ← ok_or (T30Indicator_from_u8 val) (Protocol "invalid T30Indicator");
      inds ← decode_indicators count buf;
      Ok (ind :: inds)
  end.

Fixpoint decode_data_fields (count : nat) (buf : BitReader) : res RtcError (list DataField) :=
  match count with
  | O => Ok []
  | S count =>
      '(ft, buf) ← decode_small_int buf 0 DataFieldType_MAX_VAL;
      ft ← ok_or (DataFieldType_from_u8 ft) (Protocol "invalid DataFieldType");
      '(data, buf) ← decode_octet_string buf 65535;
      fields ← decode_data_fields count buf;
      Ok ({| field_type := ft; field_data := data |} :: fields)
  end.

Definition IfpPacket_decode (data : list Z) : res RtcError IfpPacket :=
  let buf := BitReader_new data in
  '(type_of_msg, buf) ← decode_int buf 0 1;
  if type_of_msg =? 0 then
    '(_, buf) ← decode_choice_index buf 2;
    '(count, buf) ← decode_length buf (Some 31);
    inds ← decode_indicators count buf;
    Ok (IfpT30Indicator inds)
  else if type_of_msg =? 1 then
    '(_, buf) ← decode_choice_index buf 2;
    '(count, buf) ← decode_length buf (Some 31);
    fields ← decode_data_fields count buf;
    Ok (IfpT30Data fields)
  else Err (Protocol "unknown IFP packet type").

(** ** Round trip *)

Definition wf_ifp (p : IfpPacket) : Prop :=
  match p with
  | IfpT30Indicator l => (length l ≤ 31)%nat
  | IfpT30Data l => (length l ≤ 31)%nat ∧
      Forall (λ f, bytes (field_data f) ∧ Z.of_nat (length (field_data f)) ≤ 65535) l
  end.

Lemma indicator_u8 i : 0 ≤ T30Indicator_u8 i ≤ 22 ∧ T30Indicator_from_u8 (T30Indicator_u8 i) = Some i.
Proof. by destruct i. Qed.

Lemma field_type_u8 t : 0 ≤ DataFieldType_u8 t ≤ 7 ∧ DataFieldType_from_u8 (DataFieldType_u8 t) = Some t.
Proof. by destruct t. Qed.

Definition indicator_bits (l : list T30Indicator) : list bool :=
  concat ((λ i, range_bits 23 (T30Indicator_u8 i)) <$> l).

(** The bits of data fields from bit position [pos] on *)
Fixpoint field_bits (pos : nat) (l : list DataField) : list bool :=
  match l with
  | [] => []
  | f :: l =>
      let ty := range_bits 8 (DataFieldType_u8 (field_type f)) in
      let body := ty ++ octet_bits (pos + length ty) (field_data f) in
      body ++ field_bits (pos + length body) l
  end.

Lemma encode_indicators_writes l w bs :
  writes w bs → ∃ w', encode_indicators l w = Ok w' ∧ writes w' (bs ++ indicator_bits l).
Proof.
  unfold indicator_bits. revert w bs. induction l as [|i l IH]; intros w bs Hw; cbn [encode_indicators].
  { exists w. by rewrite app_nil_r. }
  unfold T30Indicator_MAX_VAL. destruct (encode_small_writes w bs (T30Indicator_u8 i) 22) as (w1 & -> & Hw1);
    [apply indicator_u8|done|done|].
  run. destruct (IH _ _ Hw1) as (w2 & -> & Hw2). exists w2. by rewrite <- app_assoc in Hw2.
Qed.

Lemma decode_indicators_reads l r pre t :
  reads r pre (indicator_bits l ++ t) → decode_indicators (length l) r = Ok l.
Proof.
  unfold indicator_bits. revert r pre. induction l as [|i l IH]; intros r pre Hr;
    cbn [length decode_indicators]; [done|].
  rewrite fmap_cons in Hr. cbn [concat] in Hr. rewrite <- app_assoc in Hr.
  destruct (indicator_u8 i) as [Hi Hf].
  unfold T30Indicator_MAX_VAL.
  destruct (decode_small_reads r pre _ (T30Indicator_u8 i) 22 Hi ltac:(done) Hr) as (r1 & -> & Hr1).
  run. rewrite Hf. run. by rewrite (IH _ _ Hr1).
Qed.

Lemma encode_fields_writes l w bs :
  Forall (λ f, bytes (field_data f) ∧ Z.of_nat (length (field_data f)) ≤ 65535) l → writes w bs →
  ∃ w', encode_data_fields l w = Ok w' ∧ writes w' (bs ++ field_bits (length bs) l).
Proof.
  intros Hl. revert w bs. induction Hl as [|f l [_ Hf] _ IH]; intros w bs Hw; cbn [encode_data_fields field_bits].
  { exists w. by rewrite app_nil_r. }
  unfold DataFieldType_MAX_VAL.
  destruct (encode_small_writes w bs (DataFieldType_u8 (field_type f)) 7) as (w1 & -> & Hw1);
    [apply field_type_u8|done|done|]. run.
  destruct (encode_octets_writes (field_data f) _ _ Hf Hw1) as (w2 & -> & Hw2). run.
  destruct (IH _ _ Hw2) as (w3 & -> & Hw3). exists w3. split; [done|].
  change (7 + 1) with 8 in Hw3. rewrite !length_app in Hw3. rewrite <- !app_assoc in Hw3.
  cbn zeta. rewrite !length_app, <- !app_assoc. by rewrite !Nat.add_assoc in *.
Qed.

Lemma decode_fields_reads l r pre t :
  Forall (λ f, bytes (field_data f) ∧ Z.of_nat (length (field_data f)) ≤ 65535) l →
  reads r pre (field_bits (length pre) l ++ t) → decode_data_fields (length l) r = Ok l.
Proof.
  intros Hl. revert r pre. induction Hl as [|f l [Hb Hf] _ IH]; intros r pre Hr;
    cbn [length decode_data_fields field_bits] in *; [done|].
  cbn zeta in Hr. rewrite <- !app_assoc in Hr.
  destruct (field_type_u8 (field_type f)) as [Ht Hft].
  unfold DataFieldType_MAX_VAL.
  destruct (decode_small_reads r pre _ (DataFieldType_u8 (field_type f)) 7 Ht ltac:(done) Hr)
    as (r1 & -> & Hr1). run. rewrite Hft. run. change (7 + 1) with 8 in Hr1.
  rewrite <- length_app in Hr1.
  destruct (decode_octets_reads (field_data f) _ _ _ Hb Hf Hr1) as (r2 & -> & Hr2). run.
  rewrite (IH r2 ((pre ++ range_bits 8 (DataFieldType_u8 (field_type f))) ++
    octet_bits (length (pre ++ range_bits 8 (DataFieldType_u8 (field_type f)))) (field_data f))).
  - run. by destruct f.
  - match type of Hr2 with reads _ _ (field_bits ?m l ++ _) =>
      match goal with |- reads _ _ (field_bits ?n l ++ _) =>
        replace n with m by (rewrite !length_app; lia); exact Hr2
      end
    end.
Qed.

(** The bits of a whole packet *)
Definition ifp_bits (p : IfpPacket) : list bool :=
  match p with
  | IfpT30Indicator l =>
      range_bits 2 0 ++ range_bits 2 0 ++ range_bits 32 (Z.of_nat (length l)) ++ indicator_bits l
  | IfpT30Data l =>
      let hdr := range_bits 2 1 ++ range_bits 2 1 ++ range_bits 32 (Z.of_nat (length l)) in
      hdr ++ field_bits (length hdr) l
  end.

Lemma ifp_encode_writes p :
  wf_ifp p → ∃ w, IfpPacket_encode p = Ok (into_bytes w) ∧ writes w (ifp_bits p).
Proof.
  intros Hwf. unfold IfpPacket_encode, ifp_bits. destruct p as [l|l]; cbn zeta.
  - destruct (encode_int_writes BitWriter_new [] 0 1) as (w1 & -> & H1); [lia|done|apply writes_new|]. run.
    destruct (encode_choice_writes w1 _ 0 2 ltac:(lia) H1) as (w2 & -> & H2). run.
    destruct (encode_length_writes w2 _ (length l) 31 ltac:(cbn in Hwf; lia) H2) as (w3 & -> & H3). run.
    destruct (encode_indicators_writes l w3 _ H3) as (w4 & -> & H4). run. exists w4.
    split; [done|]. by rewrite <- !app_assoc in H4.
  - destruct Hwf as [Hn Hl].
    destruct (encode_int_writes BitWriter_new [] 1 1) as (w1 & -> & H1); [lia|done|apply writes_new|]. run.
    destruct (encode_choice_writes w1 _ 1 2 ltac:(lia) H1) as (w2 & -> & H2). run.
    destruct (encode_length_writes w2 _ (length l) 31 ltac:(lia) H2) as (w3 & -> & H3). run.
    destruct (encode_fields_writes l w3 _ Hl H3) as (w4 & -> & H4). run. exists w4.
    split; [done|]. by rewrite <- !app_assoc in H4 |- *.
Qed.

Lemma ifp_decode_reads p d t :
  wf_ifp p → reads (BitReader_new d) [] (ifp_bits p ++ t) → IfpPacket_decode d = Ok p.
Proof.
  intros Hwf Hr. unfold IfpPacket_decode, ifp_bits in *. destruct p as [l|l]; cbn zeta in Hr.
  - rewrite <- !app_assoc in Hr.
    destruct (decode_int_reads _ _ _ 0 1 ltac:(lia) ltac:(done) Hr) as (r1 & -> & H1).
    cbn [mbind res_bind Z.eqb].
    destruct (decode_choice_reads r1 _ _ 0 2 ltac:(lia) ltac:(done) H1) as (r2 & -> & H2). run.
    destruct (decode_length_reads r2 _ _ (length l) 31 ltac:(cbn in Hwf; lia) H2) as (r3 & -> & H3). run.
    by rewrite (decode_indicators_reads _ _ _ _ H3).
  - destruct Hwf as [Hn Hl]. rewrite <- !app_assoc in Hr.
    destruct (decode_int_reads _ _ _ 1 1 ltac:(lia) ltac:(done) Hr) as (r1 & -> & H1).
    cbn [mbind res_bind Z.eqb Pos.eqb].
    destruct (decode_choice_reads r1 _ _ 1 2 ltac:(lia) ltac:(done) H1) as (r2 & -> & H2). run.
    destruct (decode_length_reads r2 _ _ (length l) 31 ltac:(lia) H2) as (r3 & -> & H3). run.
    rewrite <- !app_assoc in H3. by rewrite (decode_fields_reads l r3 _ _ Hl H3).
Qed.

(** C26: Every well-formed IFP packet encodes, and IfpPacket::decode reads the
    encoding back to the same packet. *)
Theorem ifp_roundtrip p :
  wf_ifp p → ∃ b, IfpPacket_encode p = Ok b ∧ IfpPacket_decode b = Ok p.
Proof.
  intros Hwf. destruct (ifp_encode_writes p Hwf) as (w & Henc & Hw).
  destruct (into_bytes_reads w _ Hw) as [n Hr].
  exists (into_bytes w). split; [done|]. by eapply ifp_decode_reads.
Qed.

Lemma ifp_roundtrip_witness :
  let p := IfpT30Data [{| field_type := HdlcFcsOk; field_data := [0xFF; 0x01; 0x80] |};
                       {| field_type := T4NonEcmSigEnd; field_data := [] |};
                       {| field_type := T4NonEcm; field_data := [7] |}] in
  ∃ b, IfpPacket_encode p = Ok b ∧ IfpPacket_decode b = Ok p.
Proof. apply ifp_roundtrip. split; [cbn; lia|]. repeat constructor; cbn; lia. Defined.

(** An IFP packet of three indicators cut to its first byte still decodes,
    to three indicators that were not sent. *)
Theorem ifp_accepts_truncated :
  let p := IfpT30Indicator [Cng; Ced; V21Preamble] in
  ∃ b, IfpPacket_encode p = Ok b ∧ length b = 3%nat ∧
    IfpPacket_decode (take 1 b) = Ok (IfpT30Indicator [NoSignal; NoSignal; NoSignal]).
Proof. eexists. split; [by vm_compute|]. split; by vm_compute. Qed.

(** IfpPacket::decode returns a result on every byte string: no index,
    shift or arithmetic operation of it aborts. *)
Theorem ifp_decode_no_panic d : IfpPacket_decode d ≠ Panic.
Proof.
  assert (∀ n r, decode_indicators n r ≠ Panic) as Hind.
  { induction n as [|n IH]; intros r; cbn [decode_indicators]; [done|].
    apply bind_not_panic; [by apply decode_small_int_np|]. intros [v r'] _.
    apply bind_not_panic; [by destruct (T30Indicator_from_u8 v)|]. intros. np. }
  assert (∀ n r, decode_data_fields n r ≠ Panic) as Hdata.
  { induction n as [|n IH]; intros r; cbn [decode_data_fields]; [done|].
    apply bind_not_panic; [by apply decode_small_int_np|]. intros [v r'] _.
    apply bind_not_panic; [by destruct (DataFieldType_from_u8 v)|]. intros ft _.
    apply bind_not_panic; [apply decode_octet_string_np|]. intros [] _. np. }
  unfold IfpPacket_decode. apply bind_not_panic; [apply decode_int_np|]. intros [t r] _.
  repeat case_match; try done;
    (apply bind_not_panic; [apply decode_choice_index_np|]; intros [? ?] _;
     apply bind_not_panic; [apply decode_length_np|]; intros [? ?] _; np).
Qed.
