(* ===== verification/T38Wire.v ===== *)
(** * The T.38 wire format ([src/t38/wire.rs])

    Encoding of indicators and data, the receiver [T38CoreRx] with its
    sequence-number bookkeeping, and the one-shot decoder.  [i32] values are
    integers; byte offsets are the bytes still to read. *)
From Equations Require Import Equations.
From S2P Require Import Prelude Core Per Ifp.

Definition ACCEPTABLE_SEQ_NO_OFFSET : Z := 2000.
Definition IND_MAX_BASE : Z := 15.
Definition IND_EXT_BASE : Z := 16.
Definition IND_MAX : Z := 22.
Definition DATA_MAX_BASE : Z := 8.
Definition DATA_EXT_BASE : Z := 9.
Definition DATA_MAX : Z := 14.
Definition FIELD_MAX_BASE : Z := 7.
Definition FIELD_EXT_BASE : Z := 8.
Definition FIELD_MAX : Z := 11.

Record WireDataField := { wf_type : Z; wf_data : list Z }.

Inductive WireRxEvent :=
| EvIndicator (i : Z)
| EvData (data_type field_type : Z) (payload : list Z)
| EvMissing (expected actual : Z).

Inductive WireRxError := Truncated | WireProtocol | BadLength.

(** [(lo..=hi).contains(&x)] *)
Definition contains (lo hi x : Z) : bool := (lo <=? x) && (x <=? hi).

(** ** Encoding *)

Definition encode_wire_indicator (t38_version indicator : Z) : option (list Z) :=
  if contains 0 IND_MAX_BASE indicator then Some [as_u8 (Z.shiftl indicator 1)]
  else if negb (t38_version =? 0) && contains IND_EXT_BASE IND_MAX indicator then
    let v := Z.lor 0x2000 (as_u16 (Z.shiftl (indicator - IND_EXT_BASE) 6)) in
    Some (to_be 2 v)
  else None.

(** The header of one field: type and whether data follows *)
Definition encode_field_header (t38_version : Z) (present : bool) (ft : Z) : option (list Z) :=
  let p := Z.shiftl (Z.b2z present) 7 in
  if t38_version =? 0 then
    if negb (contains 0 FIELD_MAX_BASE ft) then None
    else Some [Z.lor p (as_u8 (Z.shiftl (as_u8 ft) 4))]
  else if contains 0 FIELD_MAX_BASE ft then Some [Z.lor p (as_u8 (Z.shiftl (as_u8 ft) 3))]
  else if contains FIELD_EXT_BASE FIELD_MAX ft then
    let off := as_u8 (ft - FIELD_EXT_BASE) in
    Some [Z.lor (Z.lor p 0x40) (Z.shiftr off 2); Z.land (as_u8 (Z.shiftl off 6)) 0xC0]
  else None.

(** One turn of the field loop. *)
Definition encode_field (t38_version : Z) (f : WireDataField) : option (list Z) :=
  let present := negb (length (wf_data f) =? 0)%nat in
  h ← encode_field_header t38_version present (wf_type f);
  if present then
    if 65535 <? Z.of_nat (length (wf_data f)) then None
    else Some (h ++ to_be 2 (as_u16 (Z.of_nat (length (wf_data f)) - 1)) ++ wf_data f)
  else Some h.

Fixpoint encode_field_list (t38_version : Z) (fields : list WireDataField) : option (list Z) :=
  match fields with
  | [] => Some []
  | f :: fs => b ← encode_field t38_version f; bs ← encode_field_list t38_version fs; Some (b ++ bs)
  end.

(** The fragment loop over the fields not yet encoded: a count below [0x4000]
    is the last fragment, larger ones go in multiples of [0x4000]. *)
Equations? encode_fragments (t38_version : Z) (rest : list WireDataField) : option (list Z)
  by wf (length rest) lt :=
encode_fragments t38_version rest with Z_lt_dec (Z.of_nat (length rest)) 0x4000 := {
  | left _ =>
      let value := Z.of_nat (length rest) in
      bs ← encode_field_list t38_version rest;
      Some ((if value <? 0x80 then [value] else to_be 2 (Z.lor 0x8000 value)) ++ bs);
  | right _ =>
      let multiplier := Z.min (Z.of_nat (length rest) / 0x4000) 4 in
      bs ← encode_field_list t38_version (take (Z.to_nat (0x4000 * multiplier)) rest);
      bs' ← encode_fragments t38_version (drop (Z.to_nat (0x4000 * multiplier)) rest);
      Some ([Z.lor 0xC0 multiplier] ++ bs ++ bs')
}.
Proof. rewrite length_drop. lia. Qed.

Definition encode_wire_data (t38_version data_type : Z) (fields : list WireDataField)
    : option (list Z) :=
  let data_field_present := negb (length fields =? 0)%nat in
  let dfp_bit8 := if data_field_present then 0x80 else 0 in
  h ← (if contains 0 DATA_MAX_BASE data_type
       then Some [Z.lor (Z.lor dfp_bit8 0x40) (as_u8 (Z.shiftl (as_u8 data_type) 1))]
       else if negb (t38_version =? 0) && contains DATA_EXT_BASE DATA_MAX data_type then
         Some (to_be 2 (Z.lor (Z.lor (as_u16 (Z.shiftl dfp_bit8 8)) 0x6000)
                          (as_u16 (Z.shiftl (as_u16 (data_type - DATA_EXT_BASE)) 6))))
       else None);
  if data_field_present then bs ← encode_fragments t38_version fields; Some (h ++ bs)
  else Some h.

(** ** Decoding *)

(** The four bits after an extension bit and the two top bits of the next byte *)
Definition ext_value (b0 b1 : Z) : Z :=
  Z.lor (Z.land (Z.shiftl b0 2) 0x3C) (Z.land (Z.shiftr b1 6) 0x3).

Definition rx_indicator (b0 : Z) (rest : list Z) : res WireRxError (Z * list Z) :=
  if negb (Z.land b0 0x20 =? 0) then
    match rest with
    | [] => Err Truncated
    | b1 :: rest =>
        let v := IND_EXT_BASE + ext_value b0 b1 in
        if v >? IND_MAX then Err WireProtocol else Ok (v, rest)
    end
  else Ok (Z.land (Z.shiftr b0 1) 0xF, rest).

Definition rx_data_type (b0 : Z) (rest : list Z) : res WireRxError (Z * list Z) :=
  if negb (Z.land b0 0x20 =? 0) then
    match rest with
    | [] => Err Truncated
    | b1 :: rest =>
        let v := DATA_EXT_BASE + ext_value b0 b1 in
        if v >? DATA_MAX then Err WireProtocol else Ok (v, rest)
    end
  else
    let v := Z.land (Z.shiftr b0 1) 0xF in
    if v >? DATA_MAX_BASE then Err WireProtocol else Ok (v, rest).

(** The header of one field: presence, type, whether the low half of the byte
    is still to read (version 0), and the rest. *)
Definition rx_field_header (t38_version : Z) (other_half : bool) (b0 : Z) (rest : list Z)
    : res WireRxError (bool * Z * bool * list Z) :=
  if t38_version =? 0 then
    if other_half then
      Ok (Z.land (Z.shiftr b0 3) 1 =? 1, Z.land b0 0x7, false, rest)
    else
      let present := Z.land (Z.shiftr b0 7) 1 =? 1 in
      let ft := Z.land (Z.shiftr b0 4) 0x7 in
      if ft >? FIELD_MAX_BASE then Err WireProtocol
      else if present then Ok (present, ft, false, rest)
      else Ok (present, ft, true, b0 :: rest)
  else
    let present := Z.land (Z.shiftr b0 7) 1 =? 1 in
    if negb (Z.land b0 0x40 =? 0) then
      match rest with
      | [] => Err Truncated
      | b1 :: rest =>
          let ft := FIELD_EXT_BASE + ext_value b0 b1 in
          if ft >? FIELD_MAX then Err WireProtocol else Ok (present, ft, other_half, rest)
      end
    else Ok (present, Z.land (Z.shiftr b0 3) 0x7, other_half, rest).

Definition rx_payload (present : bool) (rest : list Z) : res WireRxError (list Z * list Z) :=
  if present then
    match rest with
    | l0 :: l1 :: rest =>
        let numocts := (Z.to_nat (of_be [l0; l1]) + 1)%nat in
        if (length rest <? numocts)%nat then Err Truncated
        else payload ← slice rest 0 numocts; Ok (payload, drop numocts rest)
    | _ => Err Truncated
    end
  else Ok ([], rest).

Fixpoint rx_fields (t38_version data_type : Z) (count : nat) (other_half : bool) (rest : list Z)
    : res WireRxError (list WireRxEvent * bool * list Z) :=
  match count with
  | O => Ok ([], other_half, rest)
  | S count =>
      match rest with
      | [] => Err Truncated
      | b0 :: rest =>
          '(present, ft, other_half, rest) ← rx_field_header t38_version other_half b0 rest;
          '(payload, rest) ← rx_payload present rest;
          '(events, other_half, rest) ← rx_fields t38_version data_type count other_half rest;
          Ok (EvData data_type ft payload :: events, other_half, rest)
      end
  end.

(** The events and the number of bytes consumed. *)
Definition rx_ifp_stream (t38_version : Z) (buf : list Z) : res WireRxError (list WireRxEvent * nat) :=
  match buf with
  | [] => Err Truncated
  | b0 :: rest =>
      let data_field_present := negb (Z.land b0 0x80 =? 0) in
      let msg_type := Z.land (Z.shiftr b0 6) 1 in
      if msg_type =? 0 then
        if data_field_present then Err WireProtocol else
        '(indicator, rest) ← rx_indicator b0 rest;
        Ok ([EvIndicator indicator], (length buf - length rest)%nat)
      else
        '(data_type, rest) ← rx_data_type b0 rest;
        if negb data_field_present then Ok ([], (length buf - length rest)%nat) else
        match rest with
        | [] => Err Truncated
        | count :: rest =>
            '(events, other_half, rest) ←
              rx_fields t38_version data_type (Z.to_nat count) false rest;
            let rest := if (other_half : bool) then drop 1 rest else rest in
            Ok (events, (length buf - length rest)%nat)
        end
  end.

Inductive WirePacket :=
| WireIndicator (l : list T30Indicator)
| WireData (data_type : Z) (fields : list WireDataField).

Definition decode_wire (buf : list Z) : res WireRxError WirePacket :=
  '(events, consumed) ← rx_ifp_stream 3 buf;
  if negb (consumed =? length buf)%nat then Err BadLength else
  match events with
  | EvIndicator ind :: _ =>
      t ← ok_or (T30Indicator_from_u8 (as_u8 ind)) WireProtocol;
      Ok (WireIndicator [t])
  | EvData data_type _ _ :: _ =>
      Ok (WireData (as_u8 data_type)
            (omap (λ e, match e with
                        | EvData _ ft p => Some {| wf_type := ft; wf_data := p |}
                        | _ => None
                        end) events))
  | EvMissing _ _ :: _ | [] => Err WireProtocol
  end.

(** ** The receiver *)

Definition classify_seq_no_offset (expected actual : Z) : Z :=
  if expected >? actual then
    if expected >? actual + 0x10000 - ACCEPTABLE_SEQ_NO_OFFSET then 1
    else if expected <? actual + ACCEPTABLE_SEQ_NO_OFFSET then -1 else 0
  else
    if expected + ACCEPTABLE_SEQ_NO_OFFSET >? actual then 1
    else if expected + 0x10000 - ACCEPTABLE_SEQ_NO_OFFSET <? actual then -1 else 0.

Record T38CoreRx := {
  t38_version : Z;
  check_sequence_numbers : bool;
  expected_seq_no : Z;
  missing_packets : Z;
}.

Definition T38CoreRx_new (version : Z) : T38CoreRx := {|
  t38_version := version; check_sequence_numbers := true; expected_seq_no := -1; missing_packets := 0 |}.

Definition with_seq (rx : T38CoreRx) (expected missing : Z) : T38CoreRx := {|
  t38_version := t38_version rx; check_sequence_numbers := check_sequence_numbers rx;
  expected_seq_no := expected; missing_packets := missing |}.

(** [a.saturating_add(b)] on [u32] *)
Definition sat_add32 (a b : Z) : Z := Z.min (a + b) 4294967295.

(** The sequence check: [None] when the packet is dropped, or the events so far
    and the receiver. *)
Definition check_seq (rx : T38CoreRx) (seq : Z) : option (list WireRxEvent * T38CoreRx) :=
  if negb (check_sequence_numbers rx) then Some ([], rx) else
  if seq =? expected_seq_no rx then Some ([], rx) else
  if expected_seq_no rx =? -1 then Some ([], with_seq rx seq (missing_packets rx)) else
  if Z.land (seq + 1) 0xFFFF =? expected_seq_no rx then None else
  let c := classify_seq_no_offset (expected_seq_no rx) seq in
  if c =? -1 then None else
  if c =? 1 then
    Some ([EvMissing (expected_seq_no rx) seq],
          with_seq rx seq (sat_add32 (missing_packets rx) (as_u32 (seq - expected_seq_no rx))))
  else Some ([EvMissing (-1) (-1)], with_seq rx seq (sat_add32 (missing_packets rx) 1)).

(** The rest of [feed_bytes], once the sequence number was accepted. *)
Definition feed_accepted (rx : T38CoreRx) (events : list WireRxEvent) (buf : list Z)
    : res WireRxError (list WireRxEvent) * T38CoreRx :=
  match buf with
  | [] => (Err Truncated, rx)
  | _ =>
      let rx := with_seq rx (Z.land (expected_seq_no rx + 1) 0xFFFF) (missing_packets rx) in
      ('(evs, ptr) ← rx_ifp_stream (t38_version rx) buf;
       if negb (ptr =? length buf)%nat then Err BadLength else Ok (events ++ evs),
       rx)
  end.

Definition feed_bytes (rx : T38CoreRx) (seq_no : Z) (buf : list Z)
    : res WireRxError (list WireRxEvent) * T38CoreRx :=
  match check_seq rx seq_no with
  | None => (Ok [], rx)
  | Some (events, rx) => feed_accepted rx events buf
  end.

(** ** Round trips *)

Lemma enum_Z lo n x : lo ≤ x < lo + Z.of_nat n → x ∈ seqZ lo (Z.of_nat n).
Proof. intros. apply elem_of_seqZ. lia. Qed.

(** The header of an indicator, checked on all of them. *)
Lemma indicator_roundtrip version ind :
  version ≠ 0 → 0 ≤ ind ≤ 22 →
  ∃ b, encode_wire_indicator version ind = Some b ∧
    ∀ v', rx_ifp_stream v' b = Ok ([EvIndicator ind], length b).
Proof.
  intros Hv Hi.
  assert (encode_wire_indicator version ind = encode_wire_indicator 3 ind) as ->.
  { unfold encode_wire_indicator. by rewrite (proj2 (Z.eqb_neq _ _)). }
  pose proof (enum_Z 0 23 ind ltac:(lia)) as He. cbn in He.
  repeat (apply elem_of_cons in He as [->|He]; [eexists; (split; [by vm_compute|]); by intros|]).
  by apply elem_of_nil in He.
Qed.

Lemma field_header_roundtrip version present ft :
  version ≠ 0 → 0 ≤ ft ≤ 11 →
  ∃ h, encode_field_header version present ft = Some h ∧
    ∃ b0 h', h = b0 :: h' ∧
      ∀ v' rest, v' ≠ 0 → rx_field_header v' false b0 (h' ++ rest) = Ok (present, ft, false, rest).
Proof.
  intros Hv Hf.
  assert (encode_field_header version present ft = encode_field_header 3 present ft) as ->.
  { unfold encode_field_header. by rewrite (proj2 (Z.eqb_neq _ _)). }
  assert (∀ v' b0 rest, v' ≠ 0 → rx_field_header v' false b0 rest = rx_field_header 3 false b0 rest) as Hrx.
  { intros v' b0 rest ?. unfold rx_field_header. by rewrite (proj2 (Z.eqb_neq v' 0)). }
  pose proof (enum_Z 0 12 ft ltac:(lia)) as He. cbn in He.
  repeat (apply elem_of_cons in He as [->|He]; [destruct present; eexists; (split; [by vm_compute|]);
    eexists _, _; (split; [done|]); intros v' rest ?; rewrite Hrx by done; by vm_compute|]).
  by apply elem_of_nil in He.
Qed.

Lemma data_type_roundtrip version present dt (p := if (present : bool) then 0x80 else 0) :
  version ≠ 0 → 0 ≤ dt ≤ 14 →
  ∃ b0 h,
    (if contains 0 DATA_MAX_BASE dt
     then Some [Z.lor (Z.lor p 0x40) (as_u8 (Z.shiftl (as_u8 dt) 1))]
     else if negb (version =? 0) && contains DATA_EXT_BASE DATA_MAX dt then
       Some (to_be 2 (Z.lor (Z.lor (as_u16 (Z.shiftl p 8)) 0x6000)
                        (as_u16 (Z.shiftl (as_u16 (dt - DATA_EXT_BASE)) 6))))
     else None) = Some (b0 :: h) ∧
    negb (Z.land b0 0x80 =? 0) = present ∧ Z.land (Z.shiftr b0 6) 1 = 1 ∧
    ∀ rest, rx_data_type b0 (h ++ rest) = Ok (dt, rest).
Proof.
  intros Hv Hd. subst p. rewrite (proj2 (Z.eqb_neq version 0)) by done.
  pose proof (enum_Z 0 15 dt ltac:(lia)) as He. cbn in He.
  repeat (apply elem_of_cons in He as [->|He]; [destruct present; eexists _, _;
    (split; [by vm_compute|]); (split; [by vm_compute|]); (split; [by vm_compute|]);
    intros rest; by vm_compute|]).
  by apply elem_of_nil in He.
Qed.

Definition wf_field (f : WireDataField) : Prop :=
  0 ≤ wf_type f ≤ 11 ∧ bytes (wf_data f) ∧ Z.of_nat (length (wf_data f)) ≤ 65535.

Lemma field_roundtrip version f :
  version ≠ 0 → wf_field f →
  ∃ b0 b, encode_field version f = Some (b0 :: b) ∧
    ∀ v' rest, v' ≠ 0 →
      ('(present, ft, oh, rest) ← rx_field_header v' false b0 (b ++ rest);
       '(payload, rest) ← rx_payload present rest;
       Ok (ft, oh, payload, rest)) = Ok (wf_type f, false, wf_data f, rest).
Proof.
  intros Hv (Hf & Hb & Hl). unfold encode_field.
  set (present := negb (length (wf_data f) =? 0)%nat).
  destruct (field_header_roundtrip version present (wf_type f) Hv Hf) as (h & -> & b0 & h' & -> & Hrx).
  cbn [mbind option_bind]. subst present. destruct (wf_data f) as [|x d] eqn:Hd.
  - cbn [length Nat.eqb negb] in *. eexists _, _. split; [done|]. intros v' rest Hv'.
    rewrite Hrx by done. done.
  - rewrite <- Hd in *. assert (length (wf_data f) ≠ 0)%nat as Hne by (by rewrite Hd).
    rewrite (proj2 (Nat.eqb_neq _ _)) in * by done. cbn [negb] in *.
    rewrite (proj2 (Z.ltb_ge _ _)) by lia. eexists _, _. split; [done|]. intros v' rest Hv'.
    rewrite <- !app_assoc, Hrx by done. run. unfold rx_payload.
    set (n := Z.of_nat (length (wf_data f)) - 1).
    replace (as_u16 n) with n by (subst n; mlia).
    pose proof (length_to_be 2 n) as Hlen. destruct (to_be 2 n) as [|l0 [|l1 [|]]] eqn:He; try done.
    cbn [app]. rewrite <- He, of_be_to_be_16 by (subst n; ulia).
    replace (Z.to_nat n + 1)%nat with (length (wf_data f)) by (subst n; lia).
    rewrite (proj2 (Nat.ltb_ge _ _)) by (rewrite length_app; lia).
    rewrite slice_app_hd by done. run. by rewrite drop_app_length.
Qed.

Lemma field_list_roundtrip version dt fs :
  version ≠ 0 → Forall wf_field fs →
  ∃ bs, encode_field_list version fs = Some bs ∧
    ∀ v' rest, v' ≠ 0 →
      rx_fields v' dt (length fs) false (bs ++ rest) =
      Ok ((λ f, EvData dt (wf_type f) (wf_data f)) <$> fs, false, rest).
Proof.
  intros Hv. induction 1 as [|f fs Hf _ (bs & Hbs & IH)]; cbn [encode_field_list].
  { by exists []. }
  destruct (field_roundtrip version f Hv Hf) as (b0 & b & -> & Hrx). cbn [mbind option_bind].
  rewrite Hbs. eexists. split; [done|]. intros v' rest Hv'. cbn [app length rx_fields].
  specialize (Hrx v' (bs ++ rest) Hv'). rewrite app_assoc in Hrx.
  destruct (rx_field_header v' false b0 ((b ++ bs) ++ rest)) as [[[[p ft] oh] r]| |]; try done.
  run in Hrx. run. destruct (rx_payload p r) as [[payload r']| |]; try done.
  run in Hrx. injection Hrx as -> -> -> ->. run. by rewrite IH.
Qed.

Lemma encode_fragments_small version fs bs :
  (length fs < 128)%nat → encode_field_list version fs = Some bs →
  encode_fragments version fs = Some ([Z.of_nat (length fs)] ++ bs).
Proof.
  intros Hn Hbs. funelim (encode_fragments version fs); [|lia].
  rewrite Hbs. cbn [mbind option_bind]. cbn zeta.
  by rewrite (proj2 (Z.ltb_lt _ _)) by lia.
Qed.

Lemma encode_wire_data_ok version dt fs :
  version ≠ 0 → 0 ≤ dt ≤ 14 → (0 < length fs < 128)%nat → Forall wf_field fs →
  ∃ b, encode_wire_data version dt fs = Some b ∧
    ∀ v', v' ≠ 0 →
      rx_ifp_stream v' b = Ok ((λ f, EvData dt (wf_type f) (wf_data f)) <$> fs, length b).
Proof.
  intros Hv Hd Hn Hfs. unfold encode_wire_data.
  rewrite (proj2 (Nat.eqb_neq (length fs) 0)) by lia. cbn [negb].
  destruct (data_type_roundtrip version true dt Hv Hd) as (b0 & h & -> & Hp & Ht & Hrx).
  cbn [mbind option_bind]. destruct (field_list_roundtrip version dt fs Hv Hfs) as (bs & Hbs & Hfl).
  rewrite (encode_fragments_small version fs bs) by (done || lia). cbn [mbind option_bind].
  eexists. split; [done|]. intros v' Hv'.
  cbn [app rx_ifp_stream]. rewrite Hp, Ht. cbn [Z.eqb Pos.eqb negb].
  rewrite Hrx. run. rewrite Nat2Z.id. rewrite <- (app_nil_r bs) at 1.
  rewrite Hfl by done. run. do 2 f_equal; cbn; lia.
Qed.

(** A T.38 data packet of 1 to 127 well-formed fields, in a version other
    than 0, is encoded by encode_wire_data to bytes that decode_wire reads back
    to the same data type and fields. *)
Theorem t38_data_roundtrip version dt fs :
  version ≠ 0 → 0 ≤ dt ≤ 14 → (0 < length fs < 128)%nat → Forall wf_field fs →
  ∃ b, encode_wire_data version dt fs = Some b ∧ decode_wire b = Ok (WireData dt fs).
Proof.
  intros Hv Hd Hn Hfs. destruct (encode_wire_data_ok version dt fs Hv Hd Hn Hfs) as (b & Hb & Hrx).
  exists b. split; [done|]. unfold decode_wire. rewrite Hrx by done. run. rewrite Nat.eqb_refl. cbn [negb].
  destruct fs as [|f fs]; [cbn in Hn; lia|]. rewrite fmap_cons.
  replace (as_u8 dt) with dt by mlia. do 2 f_equal. cbn. f_equal; [by destruct f|].
  clear. induction fs as [|f fs IH]; [done|]. cbn. f_equal; [by destruct f|done].
Qed.

(** Every T.30 indicator reads back, in a version other than 0. *)
Theorem t38_indicator_roundtrip version ind :
  version ≠ 0 → ∃ b, encode_wire_indicator version (T30Indicator_u8 ind) = Some b ∧
    decode_wire b = Ok (WireIndicator [ind]).
Proof.
  intros Hv. destruct (indicator_u8 ind) as [Hi Hf].
  destruct (indicator_roundtrip version _ Hv Hi) as (b & -> & Hrx). exists b. split; [done|].
  unfold decode_wire. rewrite Hrx. run. rewrite Nat.eqb_refl. cbn [negb].
  replace (as_u8 (T30Indicator_u8 ind)) with (T30Indicator_u8 ind) by mlia. by rewrite Hf.
Qed.

(** A T.38 data packet of 128 fields is encoded in a form that decode_wire
    rejects. *)
Theorem t38_many_fields_rejected :
  let fs := replicate 128 {| wf_type := 0; wf_data := [] |} in
  decode_wire <$> encode_wire_data 3 6 fs = Some (Err Truncated).
Proof. vm_compute. reflexivity. Qed.

(** ** Sequence numbers *)

Lemma land_16 x : Z.land x 0xFFFF = x mod 65536.
Proof. change 0xFFFF with (Z.ones 16). by rewrite Z.land_ones by lia. Qed.

Lemma classify_circular expected actual :
  u16 expected → u16 actual →
  classify_seq_no_offset expected actual =
  let d := wsub16 actual expected in
  if d <? 2000 then 1 else if 65536 - d <? 2000 then -1 else 0.
Proof.
  intros He Ha. unfold classify_seq_no_offset, ACCEPTABLE_SEQ_NO_OFFSET. cbn zeta.
  assert (wsub16 actual expected = if expected >? actual then actual - expected + 65536
          else actual - expected) as ->.
  { destruct (Z.gtb_spec expected actual); mlia. }
  destruct (Z.gtb_spec expected actual); repeat case_match; lia.
Qed.

Lemma feed_accepted_spec rx events buf :
  buf ≠ [] →
  let '(r, rx') := feed_accepted rx events buf in
  expected_seq_no rx' = wadd16 (expected_seq_no rx) 1 ∧ missing_packets rx' = missing_packets rx ∧
  ∀ evs, rx_ifp_stream (t38_version rx) buf = Ok (evs, length buf) → r = Ok (events ++ evs).
Proof.
  intros Hb. destruct buf as [|b0 buf]; [done|]. unfold feed_accepted.
  cbn [expected_seq_no missing_packets with_seq t38_version]. rewrite land_16.
  split_and!; [done|done|]. intros evs Hrx. rewrite Hrx. run. by rewrite Nat.eqb_refl.
Qed.

(** The sequence check in circular terms *)
Lemma check_seq_spec rx seq (d := wsub16 seq (expected_seq_no rx)) :
  check_sequence_numbers rx = true → u16 (expected_seq_no rx) → u16 seq →
  if d =? 0 then check_seq rx seq = Some ([], rx)
  else if 63536 <? d then check_seq rx seq = None
  else ∃ n, check_seq rx seq =
    Some ([EvMissing (if d <? 2000 then expected_seq_no rx else -1) (if d <? 2000 then seq else -1)],
          with_seq rx seq n).
Proof.
  intros Hc He Hs. unfold check_seq. rewrite Hc. cbn [negb].
  rewrite classify_circular by done. cbn zeta. fold d. rewrite land_16.
  assert (0 ≤ d < 65536) as Hd by (subst d; mlia).
  rewrite (proj2 (Z.eqb_neq (expected_seq_no rx) (-1))) by ulia.
  destruct (Z.eqb_spec seq (expected_seq_no rx)) as [Heq|Hne].
  { by assert (d = 0) as -> by (subst d; mlia). }
  rewrite (proj2 (Z.eqb_neq d 0)) by (subst d; mlia).
  destruct (Z.eqb_spec ((seq + 1) mod 65536) (expected_seq_no rx)) as [Hdup|Hdup].
  { by rewrite (proj2 (Z.ltb_lt _ _)) by (subst d; mlia). }
  assert (d ≠ 65535) as Hd1 by (subst d; mlia).
  destruct (Z.ltb_spec d 2000); [|destruct (Z.ltb_spec (65536 - d) 2000)]; cbn [Z.eqb Pos.eqb].
  - rewrite (proj2 (Z.ltb_ge _ _)) by lia. by eexists.
  - by rewrite (proj2 (Z.ltb_lt _ _)) by lia.
  - rewrite (proj2 (Z.ltb_ge _ _)) by lia. by eexists.
Qed.

(** T38CoreRx::feed_bytes sorts packets by their distance from the expected
    number: the expected one is delivered, the last 1999 (a repetition or a late
    packet) are dropped without a trace, and a later one is delivered after a
    Missing event, with exact bounds when fewer than 2000 are missing. *)
Theorem t38_rx_sequence rx seq buf :
  check_sequence_numbers rx = true → u16 (expected_seq_no rx) → u16 seq → buf ≠ [] →
  let d := wsub16 seq (expected_seq_no rx) in
  let '(r, rx') := feed_bytes rx seq buf in
  if d =? 0 then
    expected_seq_no rx' = wadd16 seq 1 ∧ missing_packets rx' = missing_packets rx ∧
    ∀ evs, rx_ifp_stream (t38_version rx) buf = Ok (evs, length buf) → r = Ok evs
  else if 63536 <? d then r = Ok [] ∧ rx' = rx
  else
    expected_seq_no rx' = wadd16 seq 1 ∧
    ∀ evs, rx_ifp_stream (t38_version rx) buf = Ok (evs, length buf) →
      r = Ok (EvMissing (if d <? 2000 then expected_seq_no rx else -1)
                        (if d <? 2000 then seq else -1) :: evs).
Proof.
  intros Hc He Hs Hb d. pose proof (check_seq_spec rx seq Hc He Hs) as Hseq. fold d in Hseq.
  unfold feed_bytes. destruct (Z.eqb_spec d 0) as [Hd|Hd].
  - rewrite Hseq. pose proof (feed_accepted_spec rx [] buf Hb) as Hf.
    destruct (feed_accepted rx [] buf) as [r rx']. destruct Hf as (-> & -> & Hr).
    split_and!; [subst d; mlia|done|done].
  - destruct (Z.ltb_spec 63536 d); [by rewrite Hseq|]. destruct Hseq as [n ->].
    pose proof (λ evs, feed_accepted_spec (with_seq rx seq n) evs buf Hb) as Hf.
    specialize (Hf [EvMissing (if d <? 2000 then expected_seq_no rx else -1) (if d <? 2000 then seq else -1)]).
    destruct (feed_accepted _ _ buf) as [r rx']. by destruct Hf as (-> & _ & Hr).
Qed.

Definition sample_rx : T38CoreRx := with_seq (T38CoreRx_new 3) 65534 0.

(** When two packets are lost across the wrap of the sequence number, the
    receiver reports the gap but adds 4294901762 to the count of missing
    packets. *)
Theorem t38_missing_count_wraps :
  let rx := with_seq (T38CoreRx_new 3) 65535 0 in
  let '(r, rx') := feed_bytes rx 1 [0x02] in
  r = Ok [EvMissing 65535 1; EvIndicator 1] ∧ wsub16 1 65535 = 2 ∧
  missing_packets rx' = 4294901762.
Proof. vm_compute. done. Qed.
