(* ===== verification/Udptl.v ===== *)
(** * UDPTL, the fax datagram transport ([src/transports/udptl.rs])

    The sender state and the datagrams it builds, the parsing of a received
    datagram, and the receive buffer.  The socket is a parameter: [send] takes
    the outcome of [send_to] and returns the datagram handed to it, [recv]
    takes the datagram that [recv_from] reads.  Calls run one after the other:
    the interleaving of concurrent calls of [send] is left out.  The statistics
    counters ([u64]) are unbounded here. *)
From stdpp Require Import sorting sets pretty.
From S2P Require Import Prelude Core BytesCrate BTree.

Record UdtlConfig := {
  redundancy_depth : Z;
  cfg_fec_group : Z;
  max_buffer : Z;
  max_datagram : Z;
}.

Definition UdtlConfig_default : UdtlConfig :=
  {| redundancy_depth := 2; cfg_fec_group := 0; max_buffer := 1024; max_datagram := 1400 |}.

Record SentPacket := { sent_seq : Z; sent_data : list Z }.

(** [UdtlTransport] without its socket *)
Record UdtlTransport := {
  local_seq : Z;
  remote_addr : SocketAddr;
  config : UdtlConfig;
  send_history : list SentPacket;
  fec_group : list (Z * list Z);
}.

Definition UdtlTransport_with_config (addr : SocketAddr) (c : UdtlConfig) : UdtlTransport :=
  {| local_seq := 1; remote_addr := addr; config := c; send_history := []; fec_group := [] |}.

Definition UdtlTransport_new (addr : SocketAddr) : UdtlTransport :=
  UdtlTransport_with_config addr UdtlConfig_default.

Definition set_remote_addr (t : UdtlTransport) (addr : SocketAddr) : UdtlTransport :=
  {| local_seq := local_seq t; remote_addr := addr; config := config t;
     send_history := send_history t; fec_group := fec_group t |}.

Definition set_config (t : UdtlTransport) (c : UdtlConfig) : UdtlTransport :=
  {| local_seq := local_seq t; remote_addr := remote_addr t; config := c;
     send_history := send_history t; fec_group := fec_group t |}.

Definition current_seq (t : UdtlTransport) : Z := local_seq t.

(** [dst[i] ^= byte] along [src]; an index past the end aborts, which the
    callers exclude by sizing [dst]. *)
Fixpoint xor_into (dst src : list Z) : list Z :=
  match dst, src with
  | d :: dst, s :: src => Z.lxor d s :: xor_into dst src
  | _, _ => dst
  end.

Definition max_len (frames : list (list Z)) : nat := foldr (λ f n, Nat.max (length f) n) 0%nat frames.

Definition parity_frame (frames : list (list Z)) : list Z :=
  foldl xor_into (replicate (max_len frames) 0) frames.

(** [while history.len() as u8 > depth { history.pop_front() }] *)
Fixpoint trim_history (depth : Z) (h : list SentPacket) : list SentPacket :=
  match h with
  | [] => []
  | _ :: t => if depth <? as_u8 (Z.of_nat (length h)) then trim_history depth t else h
  end.

(** [while fec_group.len() >= n { fec_group.remove(0) }] *)
Fixpoint trim_group (n : Z) (g : list (Z * list Z)) : list (Z * list Z) :=
  match g with
  | [] => []
  | _ :: t => if n <=? Z.of_nat (length g) then trim_group n t else g
  end.

Section transport.
Context `{BytesCrate}.

(** The datagram built for a packet of at most 255 bytes, with the trimmed
    history and the FEC group after it *)
Definition build_datagram (t : UdtlTransport) (ifp_data : list Z)
    : list Z * list SentPacket * list (Z * list Z) :=
  let seq := local_seq t in
  let packet := put_slice [] (to_be 2 seq) in
  let packet := put_slice packet [as_u8 (Z.of_nat (length ifp_data))] in
  let packet := put_slice packet ifp_data in
  if 2 <=? cfg_fec_group (config t) then
    let group := trim_group (cfg_fec_group (config t)) (fec_group t) ++ [(seq, ifp_data)] in
    if Z.of_nat (length group) =? cfg_fec_group (config t) then
      let packet := put_slice packet [0x80] in
      let packet := put_slice packet (to_be 2 seq) in
      let packet := put_slice packet [cfg_fec_group (config t)] in
      (put_slice packet (parity_frame group.*2), send_history t, group)
    else (packet, send_history t, group)
  else
    let history := trim_history (redundancy_depth (config t)) (send_history t) in
    match history with
    | [] => (packet, history, fec_group t)
    | _ =>
        let packet := put_slice packet [0x00; as_u8 (Z.of_nat (length history))] in
        (foldl (λ p s, put_slice (put_slice p [as_u8 (Z.of_nat (length (sent_data s)))]) (sent_data s))
           packet history, history, fec_group t)
    end.

(** [send]: the state afterwards, what went to the socket, and the outcome.
    [send_to] is the failure the socket reports, if any; the state has moved
    on by then. *)
Definition send (send_to : list Z → SocketAddr → option string) (t : UdtlTransport) (ifp_data : list Z)
    : res RtcError (UdtlTransport * list Z * res RtcError unit) :=
  if (255 <? length ifp_data)%nat then
    Err (Transport ("IFP packet too large for UDPTL: " +:+ pretty (N.of_nat (length ifp_data)) +:+ " bytes"))
  else
  let '(packet, history, group) := build_datagram t ifp_data in
  primary ← or_panic (bytes_slice packet 3 (3 + length ifp_data));
  let t' := {| local_seq := wadd16 (local_seq t) 1; remote_addr := remote_addr t; config := config t;
               send_history := history ++ [{| sent_seq := local_seq t; sent_data := primary |}];
               fec_group := group |} in
  Ok (t', packet,
      match send_to packet (remote_addr t) with
      | Some e => Err (Transport ("UDPTL send failed: " +:+ e))
      | None => Ok ()
      end).

Record FecData := { highest_seq : Z; count : Z; parity : list Z }.

(** What [recv] reads out of a datagram *)
Record Datagram := {
  dg_seq : Z;
  dg_primary : list Z;
  dg_redundant : list (Z * list Z);
  dg_fec : option FecData;
}.

(** [for (i, slot) in redundant.iter_mut().enumerate()]: fills the slots that
    exist. *)
Fixpoint fill_slots (datagram : list Z) (first_seq : Z) (i : Z) (pos : nat)
    (slots : list (Z * list Z)) : res RtcError (list (Z * list Z)) :=
  match slots with
  | [] => Ok []
  | slot :: slots' =>
      if (length datagram <=? pos)%nat then Ok slots else
      len ← idx datagram pos;
      let len := Z.to_nat len in
      let pos := (pos + 1)%nat in
      if (length datagram <? pos + len)%nat then Ok slots else
      d ← or_panic (bytes_slice datagram pos (pos + len));
      rest ← fill_slots datagram first_seq (i + 1) (pos + len) slots';
      Ok ((wadd16 first_seq (as_u16 i), d) :: rest)
  end.

(** The parsing part of [recv]; [None] when the datagram is ignored. *)
Definition parse_datagram (datagram : list Z) : res RtcError (option Datagram) :=
  let n := length datagram in
  if (n <? 3)%nat then Ok None else
  seq ← be_at 2 datagram 0;
  primary_len ← idx datagram 2;
  let primary_len := Z.to_nat primary_len in
  let pos := 3%nat in
  if (n <? pos + primary_len)%nat then Ok None else
  primary ← or_panic (bytes_slice datagram pos (pos + primary_len));
  let pos := (pos + primary_len)%nat in
  let redundant := [] in
  if (pos <? n)%nat then
    indicator ← idx datagram pos;
    let pos := (pos + 1)%nat in
    if indicator =? 0x00 then
      '(cnt, pos) ←
        (if (pos <? n)%nat then c ← idx datagram pos; Ok (c, (pos + 1)%nat) else Ok (0, pos));
      redundant ←
        (if 0 <? cnt then fill_slots datagram (wsub16 seq (as_u16 cnt)) 0 pos redundant
         else Ok redundant);
      Ok (Some {| dg_seq := seq; dg_primary := primary; dg_redundant := redundant; dg_fec := None |})
    else if (indicator =? 0x80) && (pos + 3 <=? n)%nat then
      high ← be_at 2 datagram pos;
      cnt ← idx datagram (pos + 2);
      par ← or_panic (bytes_slice datagram (pos + 3) n);
      Ok (Some {| dg_seq := seq; dg_primary := primary; dg_redundant := redundant;
                  dg_fec := Some {| highest_seq := high; count := cnt; parity := par |} |})
    else Ok (Some {| dg_seq := seq; dg_primary := primary; dg_redundant := redundant; dg_fec := None |})
  else Ok (Some {| dg_seq := seq; dg_primary := primary; dg_redundant := redundant; dg_fec := None |}).
End transport.

(** ** The receive buffer *)

Record UdtlReceiveBuffer := {
  expected_seq : Z;
  buffer : list (Z * list Z);
  ready : list (list Z);
  fec_received : list (Z * list Z);
  fec_parity : option (Z * Z * list Z);
  max_size : Z;
  packets_received : Z;
  packets_lost : Z;
  packets_recovered : Z;
  last_delivered_seq : option Z;
}.

Definition UdtlReceiveBuffer_with_max_size (max_size : Z) : UdtlReceiveBuffer := {|
  expected_seq := 1; buffer := []; ready := []; fec_received := []; fec_parity := None;
  max_size := max_size; packets_received := 0; packets_lost := 0; packets_recovered := 0;
  last_delivered_seq := None |}.

Definition UdtlReceiveBuffer_new : UdtlReceiveBuffer := UdtlReceiveBuffer_with_max_size 128.

(** Replacing the delivery state: expected number, buffer, queue, last delivered *)
Definition with_delivery (b : UdtlReceiveBuffer) (e : Z) (m : list (Z * list Z)) (q : list (list Z))
    (l : option Z) : UdtlReceiveBuffer := {|
  expected_seq := e; buffer := m; ready := q; fec_received := fec_received b;
  fec_parity := fec_parity b; max_size := max_size b; packets_received := packets_received b;
  packets_lost := packets_lost b; packets_recovered := packets_recovered b; last_delivered_seq := l |}.

Definition with_counters (b : UdtlReceiveBuffer) (received lost recovered : Z) : UdtlReceiveBuffer := {|
  expected_seq := expected_seq b; buffer := buffer b; ready := ready b;
  fec_received := fec_received b; fec_parity := fec_parity b; max_size := max_size b;
  packets_received := received; packets_lost := lost; packets_recovered := recovered;
  last_delivered_seq := last_delivered_seq b |}.

Definition with_fec (b : UdtlReceiveBuffer) (r : list (Z * list Z)) (p : option (Z * Z * list Z))
    : UdtlReceiveBuffer := {|
  expected_seq := expected_seq b; buffer := buffer b; ready := ready b; fec_received := r;
  fec_parity := p; max_size := max_size b; packets_received := packets_received b;
  packets_lost := packets_lost b; packets_recovered := packets_recovered b;
  last_delivered_seq := last_delivered_seq b |}.

Definition try_deliver_fec (b : UdtlReceiveBuffer) (fec : FecData) : UdtlReceiveBuffer :=
  with_fec b (fec_received b) (Some (highest_seq fec, count fec, parity fec)).

Definition last_delivered_covers (high : Z) (last : option Z) : bool :=
  match last with
  | None => false
  | Some d => (wsub16 high d <? 0x8000) && (d <? high)
  end.

(** The parity of two frames, as long as the longer one *)
Definition xor_frames (prev d : list Z) : list Z :=
  xor_into (xor_into (replicate (Nat.max (length prev) (length d)) 0) prev) d.

Definition xor_group (g : list (Z * list Z)) : option (list Z) :=
  foldl (λ acc kd, Some (match acc with None => kd.2 | Some prev => xor_frames prev kd.2 end)) None g.

(** The FEC step: [count as u16 - 1] and [range(first..=last)] abort when the
    count is zero or the range is reversed. *)
Definition fec_step (b : UdtlReceiveBuffer) : res RtcError UdtlReceiveBuffer :=
  match fec_parity b with
  | None => Ok b
  | Some (high, cnt, par) =>
      if cnt =? 0 then Panic else
      let first := wsub16 high (cnt - 1) in
      let last := high in
      if last <? first then Panic else
      let in_group := filter (λ kd, first ≤ kd.1 ≤ last) (fec_received b) in
      let received_count := Z.of_nat (length in_group) in
      if (cnt <=? received_count + 1) && last_delivered_covers last (last_delivered_seq b) then
        match xor_group in_group with
        | Some acc =>
            let missing := filter (λ s, s ∉ in_group.*1) (seqZ first (last - first + 1)) in
            let b :=
              match missing with
              | [] => b
              | _ :: _ =>
                  let rec_ := xor_into (resize (length acc) 0 par) acc in
                  with_counters
                    (with_delivery b (expected_seq b) (buffer b) (ready b ++ [rec_]) (last_delivered_seq b))
                    (packets_received b) (packets_lost b) (packets_recovered b + 1)
              end in
            Ok (with_fec b (filter (λ kd, last < kd.1) (fec_received b)) (fec_parity b))
        | None => Ok b
        end
      else Ok b
  end.

Definition is_past (b : UdtlReceiveBuffer) (seq : Z) : bool :=
  let diff := wsub16 (expected_seq b) seq in
  negb (diff =? 0) && (diff <? 32768).

(** Inserting a packet that is not there yet, while there is room *)
Definition store (b : UdtlReceiveBuffer) (seq : Z) (d : list Z) : UdtlReceiveBuffer :=
  match bt_get seq (buffer b) with
  | Some _ => b
  | None =>
      if as_u16 (Z.of_nat (length (buffer b))) <? max_size b
      then with_delivery b (expected_seq b) (bt_insert seq d (buffer b)) (ready b) (last_delivered_seq b)
      else b
  end.

Definition store_redundant (b : UdtlReceiveBuffer) (r : Z * list Z) : UdtlReceiveBuffer :=
  if is_past b r.1 then b else store b r.1 r.2.

(** The [while let Some(data) = self.buffer.remove(&self.expected_seq)] loop. *)
Fixpoint deliver_loop (fuel : nat) (b : UdtlReceiveBuffer) (delivered : option (list Z))
    : option (list Z) * UdtlReceiveBuffer :=
  match fuel with
  | O => (delivered, b)
  | S fuel =>
      match bt_get (expected_seq b) (buffer b) with
      | None => (delivered, b)
      | Some d =>
          let m := bt_remove (expected_seq b) (buffer b) in
          let e := wadd16 (expected_seq b) 1 in
          match delivered with
          | None => deliver_loop fuel (with_delivery b e m (ready b) (Some (wsub16 e 1))) (Some d)
          | Some _ =>
              deliver_loop fuel
                (with_counters (with_delivery b e m (ready b ++ [d]) (Some (wsub16 e 1)))
                   (packets_received b) (packets_lost b) (packets_recovered b + 1)) delivered
          end
      end
  end.

(** [range(expected_seq..)]: the entries 32 or more ahead are dropped. *)
Definition cleanup_stale (b : UdtlReceiveBuffer) : UdtlReceiveBuffer :=
  let early := filter (λ seq, let gap := wsub16 seq (expected_seq b) in 32 ≤ gap < 32768)
                 (bt_from (expected_seq b) (buffer b)).*1 in
  let m := foldl (λ m seq, bt_remove seq m) (buffer b) early in
  with_counters (with_delivery b (expected_seq b) m (ready b) (last_delivered_seq b))
    (packets_received b) (packets_lost b + Z.of_nat (length early)) (packets_recovered b).

Definition try_deliver (b : UdtlReceiveBuffer) (seq : Z) (primary : list Z) (redundant : list (Z * list Z))
    : res RtcError (option (list Z) * UdtlReceiveBuffer) :=
  let b := with_counters b (packets_received b + 1) (packets_lost b) (packets_recovered b) in
  let b := with_fec b (bt_insert seq primary (fec_received b)) (fec_parity b) in
  b ← fec_step b;
  let first_ever :=
    bool_decide (last_delivered_seq b = None) && (length (buffer b) =? 0)%nat && (length (ready b) =? 0)%nat in
  let b := if first_ever then with_delivery b seq (buffer b) (ready b) (last_delivered_seq b) else b in
  let b := foldl store_redundant b redundant in
  if is_past b seq then Ok (None, b) else
  let b := store b seq primary in
  let '(delivered, b) := deliver_loop (S (length (buffer b))) b None in
  Ok (delivered, cleanup_stale b).

Definition take_ready (b : UdtlReceiveBuffer) : option (list Z) * UdtlReceiveBuffer :=
  (head (ready b), with_delivery b (expected_seq b) (buffer b) (tail (ready b)) (last_delivered_seq b)).

Definition reset (b : UdtlReceiveBuffer) (e : Z) : UdtlReceiveBuffer := with_delivery b e [] [] None.

Definition buffered_count (b : UdtlReceiveBuffer) : nat := length (buffer b).

(** [recv]: a ready packet is returned first; otherwise the next datagram is
    read, cut to the size of the read buffer. *)
Definition recv `{BytesCrate} (c : UdtlConfig) (b : UdtlReceiveBuffer) (datagram : list Z)
    : res RtcError (option (list Z) * UdtlReceiveBuffer) :=
  match take_ready b with
  | (Some d, b) => Ok (Some d, b)
  | (None, _) =>
      o ← parse_datagram (take (Z.to_nat (max_datagram c)) datagram);
      match o with
      | None => Ok (None, b)
      | Some dg =>
          let b := match dg_fec dg with Some f => try_deliver_fec b f | None => b end in
          try_deliver b (dg_seq dg) (dg_primary dg) (dg_redundant dg)
      end
  end.
