(* ===== verification/UdptlFacts.v ===== *)
(** * UDPTL: what the transport guarantees

    The datagrams of [Udptl.send] read back; parity recovery; the receiver
    hands out a contiguous part of what was sent, whatever the network does;
    and the ways in which it stops: a lost packet and a malformed parity
    trailer. *)
From stdpp Require Import sorting sets.
From S2P Require Import Prelude Core BytesCrate BTree Udptl.

(** ** Receiving a series of datagrams

    [recv] is called until it has handed out the ready packets, then reads the
    next datagram. *)
Fixpoint drain (n : nat) (b : UdtlReceiveBuffer) : list (list Z) * UdtlReceiveBuffer :=
  match n with
  | O => ([], b)
  | S n =>
      match take_ready b with
      | (Some d, b) => let '(ds, b) := drain n b in (d :: ds, b)
      | (None, b) => ([], b)
      end
  end.

Fixpoint receive `{BytesCrate} (c : UdtlConfig) (b : UdtlReceiveBuffer) (dgs : list (list Z))
    : res RtcError (list (list Z) * UdtlReceiveBuffer) :=
  match dgs with
  | [] => Ok ([], b)
  | d :: dgs =>
      '(o, b) ← recv c b d;
      let '(ds, b) := drain (length (ready b)) b in
      '(rest, b) ← receive c b dgs;
      Ok (option_list o ++ ds ++ rest, b)
  end.

(** Sending a series of packets: the datagrams that reach the socket *)
Fixpoint send_all `{BytesCrate} (t : UdtlTransport) (ifps : list (list Z)) : res RtcError (list (list Z)) :=
  match ifps with
  | [] => Ok []
  | ifp :: ifps =>
      '(t, d, _) ← send (λ _ _, None) t ifp;
      ds ← send_all t ifps;
      Ok (d :: ds)
  end.

(** ** Datagrams *)

(** The parity trailer that [send] adds when its group is full *)
Definition fec_of (t : UdtlTransport) (ifp : list Z) : option FecData :=
  let g := cfg_fec_group (config t) in
  let group := trim_group g (fec_group t) ++ [(local_seq t, ifp)] in
  if (2 <=? g) && (Z.of_nat (length group) =? g)
  then Some {| highest_seq := local_seq t; count := g; parity := parity_frame group.*2 |}
  else None.

Section datagrams.
Context `{BytesLaws}.

Lemma put_history h p :
  foldl (λ p s, put_slice (put_slice p [as_u8 (Z.of_nat (length (sent_data s)))]) (sent_data s)) p h =
    p ++ mjoin ((λ s, as_u8 (Z.of_nat (length (sent_data s))) :: sent_data s) <$> h).
Proof.
  revert p. induction h as [|x h IH]; intros p; cbn; [by rewrite app_nil_r|].
  by rewrite IH, !put_slice_spec, <- !app_assoc.
Qed.

Lemma bytes_slice_mid a d r i j :
  i = length a → j = (length a + length d)%nat → bytes_slice (a ++ d ++ r) i j = Some d.
Proof.
  intros -> ->. rewrite bytes_slice_spec, decide_True by (rewrite !length_app; lia).
  rewrite drop_app_length. f_equal. apply take_app_length'. lia.
Qed.

(** The three kinds of datagram that [send] builds *)
Definition trailer (t : UdtlTransport) (ifp : list Z) : list Z :=
  match fec_of t ifp with
  | Some f => 0x80 :: to_be 2 (highest_seq f) ++ [count f] ++ parity f
  | None =>
      if 2 <=? cfg_fec_group (config t) then [] else
      match trim_history (redundancy_depth (config t)) (send_history t) with
      | [] => []
      | h => 0x00 :: as_u8 (Z.of_nat (length h)) ::
               mjoin ((λ s, as_u8 (Z.of_nat (length (sent_data s))) :: sent_data s) <$> h)
      end
  end.

Lemma build_datagram_layout t ifp :
  (build_datagram t ifp).1.1 =
    to_be 2 (local_seq t) ++ [as_u8 (Z.of_nat (length ifp))] ++ ifp ++ trailer t ifp.
Proof.
  unfold build_datagram, trailer, fec_of. cbv zeta. rewrite !put_slice_spec. cbn [app].
  destruct (2 <=? _) eqn:E2; cbn [andb].
  - destruct (_ =? _); cbn [fst highest_seq count parity];
      by rewrite ?put_slice_spec, <- ?app_assoc, ?app_nil_r.
  - destruct (trim_history _ _) as [|s h] eqn:Eh; cbn [fst]; [by rewrite <- ?app_assoc, ?app_nil_r|].
    by rewrite put_history, ?put_slice_spec, <- !app_assoc.
Qed.

(** The parity trailer found after the primary packet *)
Definition trailer_fec (tl : list Z) : option FecData :=
  match tl with
  | i :: a :: b :: c :: r =>
      if i =? 0x80 then Some {| highest_seq := of_be [a; b]; count := c; parity := r |} else None
  | _ => None
  end.

Lemma parse_trailer {A} (pre tl : list Z) (k : list (Z * list Z) → option FecData → A) seq :
  (if (length pre <? length (pre ++ tl))%nat then
    indicator ← idx (pre ++ tl) (length pre);
    let pos := (length pre + 1)%nat in
    if indicator =? 0x00 then
      '(cnt, pos) ←
        (if (pos <? length (pre ++ tl))%nat then c ← idx (pre ++ tl) pos; Ok (c, (pos + 1)%nat)
         else Ok (0, pos));
      redundant ←
        (if 0 <? cnt then fill_slots (pre ++ tl) (wsub16 seq (as_u16 cnt)) 0 pos [] else Ok []);
      Ok (k redundant None)
    else if (indicator =? 0x80) && (pos + 3 <=? length (pre ++ tl))%nat then
      high ← be_at 2 (pre ++ tl) pos;
      cnt ← idx (pre ++ tl) (pos + 2);
      par ← or_panic (bytes_slice (pre ++ tl) (pos + 3) (length (pre ++ tl)));
      Ok (k [] (Some {| highest_seq := high; count := cnt; parity := par |}))
    else Ok (k [] None)
  else Ok (k [] None)) = (Ok (k [] (trailer_fec tl)) : res RtcError A).
Proof.
  rewrite !length_app. destruct tl as [|i tl].
  { rewrite (proj2 (Nat.ltb_ge _ _)) by (cbn; lia). done. }
  rewrite (proj2 (Nat.ltb_lt _ _)) by (cbn; lia).
  rewrite (idx_next pre _ _ 0) by lia. rewrite idx_hd. run. cbv zeta.
  destruct (Z.eqb_spec i 0) as [->|].
  { destruct tl as [|c tl].
    - rewrite (proj2 (Nat.ltb_ge _ _)) by (cbn; lia). by run.
    - rewrite (proj2 (Nat.ltb_lt _ _)) by (cbn; lia).
      rewrite (idx_next pre _ _ 1) by lia. rewrite idx_tl, idx_hd. run.
      destruct (0 <? c); run; by destruct tl as [|? [|? ?]]. }
  destruct (Z.eqb_spec i 0x80) as [->|]; cbn [andb].
  2:{ unfold trailer_fec. by repeat case_match; try lia. }
  destruct tl as [|a [|b [|c r]]];
    [rewrite (proj2 (Nat.leb_gt _ _)) by (cbn; lia); done..|].
  rewrite (proj2 (Nat.leb_le _ _)) by (cbn; lia).
  rewrite (be_at_next 2 pre _ _ 1), be_at_tl by lia.
  change (a :: b :: c :: r) with ([a; b] ++ c :: r). rewrite be_at_hd by done. run.
  rewrite (idx_next pre _ _ 3) by lia. cbn [app]. rewrite !idx_tl, idx_hd. run.
  pose proof (bytes_slice_mid (pre ++ [0x80; a; b; c]) r [] (length pre + 1 + 3)
    (length pre + length (0x80 :: a :: b :: c :: r))) as Hs.
  rewrite app_nil_r, <- app_assoc in Hs. cbn [app] in Hs.
  rewrite Hs by (rewrite length_app; cbn; lia). done.
Qed.

Lemma parse_datagram_layout seq ifp tl :
  u16 seq → (length ifp ≤ 255)%nat →
  parse_datagram (to_be 2 seq ++ [as_u8 (Z.of_nat (length ifp))] ++ ifp ++ tl) =
    Ok (Some {| dg_seq := seq; dg_primary := ifp; dg_redundant := []; dg_fec := trailer_fec tl |}).
Proof.
  intros Hs Hl. unfold parse_datagram.
  assert (as_u8 (Z.of_nat (length ifp)) = Z.of_nat (length ifp)) as -> by mlia.
  set (d := to_be 2 seq ++ _).
  assert (length d = 3 + length ifp + length tl)%nat as Hd.
  { unfold d. rewrite !length_app, length_to_be. cbn. lia. }
  rewrite (proj2 (Nat.ltb_ge _ _)) by lia.
  assert (be_at (E:=RtcError) 2 d 0 = Ok seq) as ->.
  { unfold d. rewrite be_at_hd by apply length_to_be. by rewrite of_be_to_be_16. }
  assert (idx (E:=RtcError) d 2 = Ok (Z.of_nat (length ifp))) as ->.
  { unfold d. by rewrite (idx_next _ _ _ 0) by (rewrite length_to_be; lia). }
  run. cbv zeta. rewrite Nat2Z.id, (proj2 (Nat.ltb_ge _ _)) by lia.
  assert (d = (to_be 2 seq ++ [Z.of_nat (length ifp)]) ++ ifp ++ tl) as Hd'.
  { unfold d. by rewrite <- app_assoc. }
  rewrite Hd' at 1. rewrite bytes_slice_mid by (rewrite length_app, length_to_be; cbn; lia). run.
  rewrite app_assoc in Hd'.
  assert (3 + length ifp = length ((to_be 2 seq ++ [Z.of_nat (length ifp)]) ++ ifp))%nat as ->.
  { rewrite !length_app, length_to_be. cbn. lia. }
  rewrite Hd'.
  apply (parse_trailer _ tl (λ r f, Some {| dg_seq := seq; dg_primary := ifp; dg_redundant := r; dg_fec := f |})).
Qed.

(** Parsing never aborts, and never finds a redundant packet. *)
Lemma parse_datagram_total d :
  bytes d →
  ∃ o, parse_datagram d = Ok o ∧ ∀ dg, o = Some dg → u16 (dg_seq dg) ∧ dg_redundant dg = [].
Proof.
  intros Hb. unfold parse_datagram.
  destruct (Nat.ltb_spec (length d) 3); [eexists; split; [done|by intros]|].
  rewrite be_at_ok by lia. run.
  assert (u16 (of_be (take 2 (drop 0 d)))) as Hs.
  { apply of_be_16; [by apply Forall_take, Forall_drop|]. rewrite length_take, length_drop. lia. }
  destruct (@idx_lt RtcError d 2 ltac:(lia)) as (n & -> & Hn). run. cbv zeta.
  destruct (Nat.ltb_spec (length d) (3 + Z.to_nat n)); [eexists; split; [done|by intros]|].
  rewrite (bytes_slice_spec d 3 (3 + Z.to_nat n)), decide_True by lia. run.
  generalize dependent (of_be (take 2 (drop 0 d))). intros seq Hs.
  generalize (take (3 + Z.to_nat n - 3) (drop 3 d)). intros primary.
  set (pre := take (3 + Z.to_nat n) d). set (tl := drop (3 + Z.to_nat n) d).
  assert (length pre = 3 + Z.to_nat n)%nat as Hpre by (apply length_take_le; lia).
  assert (d = pre ++ tl) as Hd by (symmetry; apply take_drop).
  clearbody pre tl. subst d. rewrite <- Hpre.
  eexists; split.
  - apply (parse_trailer pre tl (λ r f, Some {| dg_seq := seq; dg_primary := primary; dg_redundant := r; dg_fec := f |})).
  - by intros dg [= <-].
Qed.

Lemma trailer_fec_of t ifp : u16 (local_seq t) → trailer_fec (trailer t ifp) = fec_of t ifp.
Proof.
  intros Hs. unfold trailer. destruct (fec_of t ifp) as [f|] eqn:Ef.
  - assert (highest_seq f = local_seq t) as ->.
    { unfold fec_of in Ef. by case_match; simplify_eq. }
    pose proof (length_to_be 2 (local_seq t)). pose proof (of_be_to_be_16 _ Hs) as Hbe.
    destruct (to_be 2 (local_seq t)) as [|x [|y [|]]]; [done..| |done].
    cbn [app trailer_fec]. rewrite Hbe. destruct f. by unfold fec_of in Ef; case_match; simplify_eq.
  - destruct (2 <=? _); [done|]. destruct (trim_history _ _) as [|s h]; [done|].
    unfold trailer_fec. by repeat case_match.
Qed.

Lemma send_ok (send_to : list Z → SocketAddr → option string) t ifp :
  (length ifp ≤ 255)%nat → u16 (local_seq t) →
  ∃ t' d r, send send_to t ifp = Ok (t', d, r) ∧
    local_seq t' = wadd16 (local_seq t) 1 ∧ config t' = config t ∧
    parse_datagram d = Ok (Some {| dg_seq := local_seq t; dg_primary := ifp;
                                   dg_redundant := []; dg_fec := fec_of t ifp |}).
Proof.
  intros Hl Hs. unfold send. rewrite (proj2 (Nat.ltb_ge _ _)) by lia.
  pose proof (build_datagram_layout t ifp) as Hd.
  destruct (build_datagram t ifp) as [[d h] g]. cbn [fst] in Hd. subst d.
  rewrite app_assoc, bytes_slice_mid by (rewrite length_app, length_to_be; cbn; lia). run.
  do 3 eexists. split_and!; [done..|]. rewrite <- app_assoc, parse_datagram_layout by done.
  by rewrite trailer_fec_of.
Qed.
End datagrams.

(** ** Parity *)

Definition byte_at (i : nat) (l : list Z) : Z := default 0 (l !! i).

(** The even parity of the bytes at position [i] of some frames *)
Definition xor_at (i : nat) (fs : list (list Z)) : Z := foldr Z.lxor 0 (byte_at i <$> fs).

Lemma byte_at_ge i l : (length l ≤ i)%nat → byte_at i l = 0.
Proof. intros. unfold byte_at. by rewrite lookup_ge_None_2. Qed.

Lemma byte_at_replicate i n : byte_at i (replicate n 0) = 0.
Proof.
  unfold byte_at. destruct (replicate n 0 !! i) eqn:E; [|done]. by apply lookup_replicate in E as [-> _].
Qed.

Lemma byte_at_resize i n l : (i < n)%nat → byte_at i (resize n 0 l) = byte_at i l.
Proof.
  intros. destruct (decide (i < length l)%nat).
  - unfold byte_at. by rewrite lookup_resize.
  - rewrite (byte_at_ge i l) by lia. unfold byte_at. by rewrite lookup_resize_new by lia.
Qed.

Lemma byte_at_ext l k : length l = length k → (∀ i, (i < length l)%nat → byte_at i l = byte_at i k) → l = k.
Proof.
  intros Hl Hb. apply (list_eq_same_length _ _ (length l)); [by symmetry|done|].
  intros i x y Hi Hx Hy. specialize (Hb i Hi). unfold byte_at in Hb. by rewrite Hx, Hy in Hb.
Qed.

Lemma length_xor_into d s : length (xor_into d s) = length d.
Proof. revert s. induction d as [|x d IH]; intros [|y s]; cbn; auto. Qed.

Lemma byte_at_xor_into i d s :
  (i < length d)%nat → byte_at i (xor_into d s) = Z.lxor (byte_at i d) (byte_at i s).
Proof.
  revert i s. induction d as [|x d IH]; intros i [|y s] Hi; cbn in Hi; [lia..| |].
  - cbn [xor_into]. by rewrite (byte_at_ge i []), Z.lxor_0_r by (cbn; lia).
  - destruct i as [|i]; [done|]. apply (IH i s). lia.
Qed.

Lemma xor_at_cons i f fs : xor_at i (f :: fs) = Z.lxor (byte_at i f) (xor_at i fs).
Proof. done. Qed.

Lemma max_len_cons f fs : max_len (f :: fs) = Nat.max (length f) (max_len fs).
Proof. done. Qed.

Lemma xor_at_app i fs gs : xor_at i (fs ++ gs) = Z.lxor (xor_at i fs) (xor_at i gs).
Proof.
  unfold xor_at. induction fs as [|f fs IH]; cbn; [done|]. by rewrite IH, Z.lxor_assoc.
Qed.

Lemma xor_at_ge i fs : (max_len fs ≤ i)%nat → xor_at i fs = 0.
Proof.
  unfold xor_at, max_len. induction fs as [|f fs IH]; cbn; intros; [done|].
  by rewrite byte_at_ge, IH by lia.
Qed.

Lemma length_foldl_xor fs acc : length (foldl xor_into acc fs) = length acc.
Proof. revert acc. induction fs as [|f fs IH]; intros acc; cbn; [done|]. by rewrite IH, length_xor_into. Qed.

Lemma byte_at_foldl_xor i fs acc :
  (i < length acc)%nat → byte_at i (foldl xor_into acc fs) = Z.lxor (byte_at i acc) (xor_at i fs).
Proof.
  revert acc. induction fs as [|f fs IH]; intros acc Hi; cbn; [by rewrite Z.lxor_0_r|].
  rewrite IH by (by rewrite length_xor_into). by rewrite byte_at_xor_into, Z.lxor_assoc.
Qed.

Lemma length_parity_frame fs : length (parity_frame fs) = max_len fs.
Proof. unfold parity_frame. by rewrite length_foldl_xor, length_replicate. Qed.

Lemma byte_at_parity_frame i fs : byte_at i (parity_frame fs) = xor_at i fs.
Proof.
  destruct (decide (i < max_len fs)%nat).
  - unfold parity_frame. by rewrite byte_at_foldl_xor, byte_at_replicate by (by rewrite length_replicate).
  - rewrite byte_at_ge by (rewrite length_parity_frame; lia). rewrite xor_at_ge; [done|lia].
Qed.

Lemma xor_frames_spec a d : xor_frames a d = parity_frame [a; d].
Proof. unfold xor_frames, parity_frame. cbn. by rewrite Nat.max_0_r. Qed.

Lemma xor_group_from a (g : list (Z * list Z)) :
  foldl (λ acc kd, Some (match acc with None => kd.2 | Some prev => xor_frames prev kd.2 end)) (Some a) g =
    Some (parity_frame (a :: g.*2)).
Proof.
  revert a. induction g as [|[k d] g IH]; intros a; cbn [foldl fmap list_fmap snd].
  - f_equal. apply byte_at_ext; [rewrite length_parity_frame; cbn; lia|].
    intros i _. by rewrite byte_at_parity_frame, xor_at_cons, Z.lxor_0_r.
  - rewrite IH, xor_frames_spec. f_equal. apply byte_at_ext.
    + rewrite !length_parity_frame, !max_len_cons, length_parity_frame, !max_len_cons. cbn. lia.
    + intros i _. rewrite !byte_at_parity_frame, !xor_at_cons, byte_at_parity_frame, !xor_at_cons.
      by rewrite Z.lxor_0_r, Z.lxor_assoc.
Qed.

Lemma xor_group_parity g : g ≠ [] → xor_group g = Some (parity_frame g.*2).
Proof. destruct g as [|[k d] g]; [done|]. intros _. apply xor_group_from. Qed.

(** The parity of a group, combined with the frames that arrived, is the
    missing frame, cut or padded to the longest of those that arrived. *)
Lemma parity_recovers fs f gs :
  let acc := parity_frame (fs ++ gs) in
  xor_into (resize (length acc) 0 (parity_frame (fs ++ f :: gs))) acc = resize (length acc) 0 f.
Proof.
  intros acc. apply byte_at_ext; [by rewrite length_xor_into, !length_resize|].
  intros i. rewrite length_xor_into, length_resize. intros Hi.
  rewrite byte_at_xor_into, !byte_at_resize by (by rewrite ?length_resize).
  unfold acc. rewrite !byte_at_parity_frame, !xor_at_app.
  rewrite xor_at_cons. apply Z.bits_inj'. intros n _. rewrite !Z.lxor_spec.
  by destruct (Z.testbit (xor_at i fs) n), (Z.testbit (xor_at i gs) n), (Z.testbit (byte_at i f) n).
Qed.

(** ** One step of the receiver *)

Lemma deliver_loop_ready fuel b o :
  ready b `prefix_of` ready (deliver_loop fuel b o).2.
Proof.
  revert b o. induction fuel as [|fuel IH]; intros b o; cbn [deliver_loop]; [done|].
  destruct (bt_get _ _); [|done]. destruct o as [d|].
  - etrans; [|apply IH]. by eexists.
  - etrans; [|apply IH]. done.
Qed.

Lemma store_ready b s d : ready (store b s d) = ready b.
Proof. unfold store. repeat case_match; done. Qed.

(** What follows the parity step only adds to the queue. *)
Lemma try_deliver_ready b seq primary b1 :
  fec_step (with_fec (with_counters b (packets_received b + 1) (packets_lost b) (packets_recovered b))
              (bt_insert seq primary (fec_received b)) (fec_parity b)) = Ok b1 →
  ∃ o b', try_deliver b seq primary [] = Ok (o, b') ∧ ready b1 `prefix_of` ready b'.
Proof.
  intros Hf. unfold try_deliver. cbv zeta.
  change (fec_received (with_counters _ _ _ _)) with (fec_received b).
  change (fec_parity (with_counters _ _ _ _)) with (fec_parity b).
  rewrite Hf. run. cbn [foldl].
  match goal with |- context [is_past ?x seq] => set (b2 := x) end.
  assert (ready b2 = ready b1) as Hr by (unfold b2; by case_match).
  destruct (is_past b2 seq); [do 2 eexists; split; [done|by rewrite Hr]|].
  pose proof (deliver_loop_ready (S (length (buffer (store b2 seq primary)))) (store b2 seq primary) None) as Hp.
  destruct (deliver_loop _ _ _) as [o b3]. do 2 eexists. split; [done|].
  cbn [snd] in Hp. rewrite store_ready, Hr in Hp. exact Hp.
Qed.

(** A group with one frame missing: the others arrived. *)
Lemma group_missing (first n : Z) (g1 : list (Z * list Z)) s f g2 :
  (g1 ++ (s, f) :: g2).*1 = seqZ first n →
  s ∈ filter (λ s, s ∉ (g1 ++ g2).*1) (seqZ first n) ∧ length (g1 ++ g2) = Z.to_nat (n - 1).
Proof.
  intros Hg. pose proof (NoDup_seqZ first n) as Hnd. rewrite <- Hg in Hnd.
  pose proof (f_equal length Hg) as Hl. rewrite length_fmap, length_seqZ in Hl.
  rewrite !length_app in *. cbn [length] in Hl. split; [|lia].
  rewrite fmap_app in Hnd. cbn in Hnd. apply NoDup_app in Hnd as (_ & H1 & [H2 _]%NoDup_cons).
  apply list_elem_of_filter. rewrite <- Hg, !fmap_app. cbn. set_solver.
Qed.

Lemma fec_step_recovers b first n g1 s f g2 :
  (g1 ++ (s, f) :: g2).*1 = seqZ first n → 2 ≤ n ≤ 255 → 0 ≤ first → first + n - 1 < 65536 →
  fec_parity b = Some (first + n - 1, n, parity_frame (g1 ++ (s, f) :: g2).*2) →
  filter (λ kd, first ≤ kd.1 ≤ first + n - 1) (fec_received b) = g1 ++ g2 →
  last_delivered_covers (first + n - 1) (last_delivered_seq b) = true →
  ∃ b', fec_step b = Ok b' ∧ ready b' = ready b ++ [resize (max_len (g1 ++ g2).*2) 0 f].
Proof.
  intros Hg Hn Hfirst Hlast Hp Harr Hcov. destruct (group_missing _ _ _ _ _ _ Hg) as [Hmiss Hlen].
  unfold fec_step. rewrite Hp. cbv zeta. rewrite (proj2 (Z.eqb_neq n 0)) by lia.
  assert (wsub16 (first + n - 1) (n - 1) = first) as -> by mlia.
  rewrite (proj2 (Z.ltb_ge _ _)), Harr, Hlen, Hcov by lia.
  rewrite (proj2 (Z.leb_le _ _)) by lia. cbn [andb].
  rewrite xor_group_parity by (intros Hnil; rewrite Hnil in Hlen; cbn in Hlen; lia).
  replace (first + n - 1 - first + 1) with n by lia.
  destruct (filter _ (seqZ first n)) as [|s' ms]; [set_solver|].
  eexists. split; [done|]. cbn [ready with_fec with_counters with_delivery].
  rewrite !fmap_app. cbn [fmap list_fmap snd].
  by rewrite parity_recovers, length_parity_frame.
Qed.

(** When all frames of an FEC group but one have arrived with the parity
    frame and a frame below its highest number was delivered last, the receiver
    queues the missing frame, cut or zero-padded to the longest of the others.
    *)
Theorem udptl_fec_recovers b seq primary first n g1 s f g2 :
  let group := g1 ++ (s, f) :: g2 in
  let arrived := g1 ++ g2 in
  group.*1 = seqZ first n → 2 ≤ n ≤ 255 → 0 ≤ first → first + n - 1 < 65536 →
  fec_parity b = Some (first + n - 1, n, parity_frame group.*2) →
  filter (λ kd, first ≤ kd.1 ≤ first + n - 1) (bt_insert seq primary (fec_received b)) = arrived →
  last_delivered_covers (first + n - 1) (last_delivered_seq b) = true →
  ∃ o b', try_deliver b seq primary [] = Ok (o, b') ∧
    (ready b ++ [resize (max_len arrived.*2) 0 f]) `prefix_of` ready b'.
Proof.
  intros group arrived Hg Hn Hfirst Hlast Hp Harr Hcov.
  destruct (fec_step_recovers
    (with_fec (with_counters b (packets_received b + 1) (packets_lost b) (packets_recovered b))
       (bt_insert seq primary (fec_received b)) (fec_parity b)) first n g1 s f g2) as (b1 & Hs & Hr); [done..|].
  destruct (try_deliver_ready b seq primary b1 Hs) as (o & b' & Ht & Hpre).
  exists o, b'. split; [done|]. by rewrite Hr in Hpre.
Qed.

Definition fec_example : UdtlReceiveBuffer :=
  match try_deliver UdtlReceiveBuffer_new 1 [1; 2] [] with
  | Ok (_, b) =>
      try_deliver_fec b {| highest_seq := 3; count := 3; parity := parity_frame [[1; 2]; [3; 4]; [5; 6]] |}
  | _ => UdtlReceiveBuffer_new
  end.

(** ** Steps without parity *)

(** The state in which an arriving packet is looked at *)
Definition entered (b : UdtlReceiveBuffer) (seq : Z) (primary : list Z) : UdtlReceiveBuffer :=
  let b' := with_fec (with_counters b (packets_received b + 1) (packets_lost b) (packets_recovered b))
              (bt_insert seq primary (fec_received b)) (fec_parity b) in
  if bool_decide (last_delivered_seq b = None) && (length (buffer b) =? 0)%nat && (length (ready b) =? 0)%nat
  then with_delivery b' seq (buffer b) (ready b) (last_delivered_seq b) else b'.

Lemma try_deliver_plain b seq primary :
  fec_parity b = None →
  try_deliver b seq primary [] =
    (let b := entered b seq primary in
     if is_past b seq then Ok (None, b) else
     let '(o, b) := deliver_loop (S (length (buffer (store b seq primary)))) (store b seq primary) None in
     Ok (o, cleanup_stale b)).
Proof.
  intros Hf. unfold try_deliver, fec_step. cbn [fec_parity with_fec with_counters]. rewrite Hf.
  cbv zeta. run. unfold entered. rewrite Hf. reflexivity.
Qed.

Lemma entered_later b seq primary :
  last_delivered_seq b ≠ None →
  entered b seq primary =
    with_fec (with_counters b (packets_received b + 1) (packets_lost b) (packets_recovered b))
      (bt_insert seq primary (fec_received b)) (fec_parity b).
Proof. intros. unfold entered. by rewrite bool_decide_false. Qed.

Lemma foldl_remove_incl (ks : list Z) (m : list (Z * list Z)) :
  bt_wf m → bt_wf (foldl (λ m k, bt_remove k m) m ks) ∧ ∀ kd, kd ∈ foldl (λ m k, bt_remove k m) m ks → kd ∈ m.
Proof.
  revert m. induction ks as [|k ks IH]; intros m Hm; cbn; [done|].
  destruct (IH (bt_remove k m)) as [Hwf Hin]; [by apply bt_remove_wf|].
  split; [done|]. intros kd Hkd. by eapply bt_remove_elem, Hin.
Qed.

Lemma drain_all b n :
  (length (ready b) ≤ n)%nat →
  drain n b = (ready b, with_delivery b (expected_seq b) (buffer b) [] (last_delivered_seq b)).
Proof.
  revert b. induction n as [|n IH]; intros [e m q fr fp ms pr pl pc l]; cbn; intros Hn.
  - destruct q; [done|cbn in Hn; lia].
  - destruct q as [|d q]; cbn in *; [done|]. rewrite IH by (cbn; lia). done.
Qed.

(** ** The receiver over a stream *)

Section stream.
Context (s0 : Z) (ifps : list (list Z)).
Context (Hs0 : u16 s0) (Hn : Z.of_nat (length ifps) < 32768).

(** The sequence number of the [j]-th packet *)
Definition key (j : nat) : Z := wadd16 s0 (Z.of_nat j).

(** A buffered packet is one of the stream, and not yet handed out. *)
Definition entry_ok (k : nat) (kd : Z * list Z) : Prop :=
  ∃ j, (k ≤ j)%nat ∧ kd.1 = key j ∧ ifps !! j = Some kd.2.

Record stream_inv (k : nat) (b : UdtlReceiveBuffer) : Prop := {
  si_wf : bt_wf (buffer b);
  si_expected : expected_seq b = key k;
  si_bound : (k ≤ length ifps)%nat;
  si_entries : Forall (entry_ok k) (buffer b);
  si_fec : fec_parity b = None;
}.

Lemma key_inj i j : (i ≤ length ifps)%nat → (j ≤ length ifps)%nat → key i = key j → i = j.
Proof. unfold key, u16 in *. mlia. Qed.

Lemma key_next k : wadd16 (key k) 1 = key (S k).
Proof. unfold key, u16 in *. mlia. Qed.

Lemma is_past_key b k j :
  expected_seq b = key k → (k ≤ length ifps)%nat → (j ≤ length ifps)%nat →
  is_past b (key j) = (j <? k)%nat.
Proof.
  intros He Hk Hj. unfold is_past. rewrite He. unfold key, u16 in *.
  destruct (Nat.ltb_spec j k); [apply andb_true_iff; split|apply andb_false_iff]; mlia.
Qed.

Lemma entry_ok_le k k' kd : (k' ≤ k)%nat → entry_ok k kd → entry_ok k' kd.
Proof. intros ? (j & ? & ?). exists j. split; [lia|done]. Qed.

(** Handing out the expected packet *)
Lemma stream_remove k b d :
  stream_inv k b → bt_get (expected_seq b) (buffer b) = Some d →
  ifps !! k = Some d ∧ (S k ≤ length ifps)%nat ∧
  bt_wf (bt_remove (expected_seq b) (buffer b)) ∧
  Forall (entry_ok (S k)) (bt_remove (expected_seq b) (buffer b)).
Proof.
  intros [Hwf He Hk Hent Hf] Hget. pose proof (bt_get_Some_elem _ _ _ Hget) as Hin.
  rewrite Forall_forall in Hent. destruct (Hent _ Hin) as (j & Hj & Hkey & Hd). cbn in *.
  pose proof (lookup_lt_Some _ _ _ Hd).
  assert (j = k) as -> by (apply key_inj; [lia..|congruence]).
  split_and!; [done|lia|by apply bt_remove_wf|]. apply Forall_forall. intros kd Hkd.
  destruct (Hent kd) as (i & Hi & Hki & Hdi); [by eapply bt_remove_elem|].
  exists i. split; [|done]. assert (i ≠ k); [|lia]. intros ->.
  assert (kd.1 ∈ (bt_remove (expected_seq b) (buffer b)).*1) as Hin' by by apply list_elem_of_fmap_2.
  apply bt_remove_keys in Hin' as [Hne _]; [|done]. congruence.
Qed.

Lemma take_S_drop k n d :
  ifps !! k = Some d → d :: take n (drop (S k) ifps) = take (S n) (drop k ifps).
Proof. intros Hd. by rewrite (drop_S _ _ _ Hd). Qed.

Lemma deliver_loop_stream fuel b k o :
  stream_inv k b → (o = None → ready b = []) →
  ∃ n, let '(o', b') := deliver_loop fuel b o in
    option_list o' ++ ready b' = option_list o ++ ready b ++ take n (drop k ifps) ∧
    stream_inv (k + n) b' ∧
    (n = 0%nat → (fuel = 0%nat ∨ bt_get (expected_seq b) (buffer b) = None) ∧ b' = b) ∧
    (n ≠ 0%nat → last_delivered_seq b' ≠ None).
Proof.
  revert b k o. induction fuel as [|fuel IH]; intros b k o Hinv Ho; cbn [deliver_loop].
  { exists 0%nat. rewrite app_nil_r, Nat.add_0_r. split_and!; [done..|by auto|done]. }
  destruct (bt_get (expected_seq b) (buffer b)) as [d|] eqn:Hget.
  2:{ exists 0%nat. rewrite app_nil_r, Nat.add_0_r. split_and!; [done..|by auto|done]. }
  destruct (stream_remove k b d Hinv Hget) as (Hd & Hk & Hwf & Hent).
  set (e := wadd16 (expected_seq b) 1). set (m := bt_remove (expected_seq b) (buffer b)).
  assert (∀ b', buffer b' = m → expected_seq b' = e → fec_parity b' = fec_parity b → stream_inv (S k) b') as Hinv'.
  { intros b' Hb He Hf. split; [by rewrite Hb| |done|by rewrite Hb|by rewrite Hf, (si_fec _ _ Hinv)].
    unfold e in He. by rewrite He, (si_expected _ _ Hinv), key_next. }
  destruct o as [x|].
  - destruct (IH (with_counters (with_delivery b e m (ready b ++ [d]) (Some (wsub16 e 1)))
      (packets_received b) (packets_lost b) (packets_recovered b + 1)) (S k) (Some x)) as [n Hn'];
      [by apply Hinv'|done|].
    destruct (deliver_loop _ _ _) as [o' b'], Hn' as (Hout & Hi & H0 & H1). exists (S n).
    rewrite Nat.add_succ_r. split_and!; [|exact Hi|done|].
    + rewrite Hout, <- (take_S_drop _ _ _ Hd). cbn. by rewrite <- app_assoc.
    + intros _. destruct (decide (n = 0%nat)) as [->|]; [|auto]. by destruct H0 as [_ ->].
  - rewrite (Ho eq_refl).
    destruct (IH (with_delivery b e m [] (Some (wsub16 e 1))) (S k) (Some d)) as [n Hn'];
      [by apply Hinv'|done|].
    destruct (deliver_loop _ _ _) as [o' b'], Hn' as (Hout & Hi & H0 & H1). exists (S n).
    rewrite Nat.add_succ_r. split_and!; [|exact Hi|done|].
    + rewrite Hout, <- (take_S_drop _ _ _ Hd). done.
    + intros _. destruct (decide (n = 0%nat)) as [->|]; [|auto]. by destruct H0 as [_ ->].
Qed.
Lemma stream_inv_same k b b' :
  buffer b' = buffer b → expected_seq b' = expected_seq b → fec_parity b' = fec_parity b →
  stream_inv k b → stream_inv k b'.
Proof. intros Hb He Hf []. split; rewrite ?Hb, ?He, ?Hf; done. Qed.

Lemma cleanup_stream k b : stream_inv k b → stream_inv k (cleanup_stale b).
Proof.
  intros []. unfold cleanup_stale. destruct (foldl_remove_incl
    (filter (λ seq, 32 ≤ wsub16 seq (expected_seq b) < 32768) (bt_from (expected_seq b) (buffer b)).*1)
    (buffer b)) as [Hwf Hin]; [done|].
  split; cbn [buffer expected_seq fec_parity with_counters with_delivery]; [done..| |done].
  rewrite Forall_forall in *. auto.
Qed.

Lemma store_stream k b j d :
  stream_inv k b → (k ≤ j)%nat → ifps !! j = Some d → stream_inv k (store b (key j) d).
Proof.
  intros [] Hj Hd. unfold store. destruct (bt_get _ _); [done|]. case_match; [|done].
  split; cbn [buffer expected_seq fec_parity with_delivery]; [by apply bt_insert_wf|done..| |done].
  rewrite Forall_forall in *. intros kd [->|?]%bt_insert_elem; [|auto]. by exists j.
Qed.

Definition fresh (b : UdtlReceiveBuffer) : Prop :=
  last_delivered_seq b = None ∧ buffer b = [] ∧ fec_parity b = None.

(** The receiver before and after its first packet *)
Definition receiver_at (k : option nat) (b : UdtlReceiveBuffer) : Prop :=
  ready b = [] ∧
  match k with
  | None => fresh b
  | Some k => stream_inv k b ∧ last_delivered_seq b ≠ None
  end.
Definition drained (b : UdtlReceiveBuffer) : UdtlReceiveBuffer :=
  with_delivery b (expected_seq b) (buffer b) [] (last_delivered_seq b).

(** Storing and handing out, once the packet is known not to be past *)
Lemma hand_out k b j d :
  stream_inv k b → ready b = [] → (k ≤ j)%nat → ifps !! j = Some d →
  ∃ n o b', (let '(o, b) := deliver_loop (S (length (buffer (store b (key j) d)))) (store b (key j) d) None in
             Ok (o, cleanup_stale b)) = (Ok (o, b') : res RtcError _) ∧
    option_list o ++ ready b' = take n (drop k ifps) ∧ stream_inv (k + n) b' ∧
    (n = 0%nat → b' = cleanup_stale (store b (key j) d) ∧
       bt_get (expected_seq b) (buffer (store b (key j) d)) = None) ∧
    (n ≠ 0%nat → last_delivered_seq b' ≠ None).
Proof.
  intros Hinv Hr Hj Hd. pose proof (store_stream k b j d Hinv Hj Hd) as Hst.
  destruct (deliver_loop_stream (S (length (buffer (store b (key j) d)))) _ k None Hst) as [n Hl].
  { intros _. by rewrite store_ready. }
  destruct (deliver_loop _ _ _) as [o b1], Hl as (Hout & Hi & H0 & H1).
  exists n, o, (cleanup_stale b1). rewrite store_ready, Hr in Hout.
  split_and!; [done|exact Hout|by apply cleanup_stream| |exact H1].
  intros ->. destruct H0 as [[?|Hg] ->]; [done..|]. split; [done|].
  assert (expected_seq (store b (key j) d) = expected_seq b) as He by (unfold store; repeat case_match; done).
  by rewrite He in Hg.
Qed.

Lemma arrive_later k b j d :
  receiver_at (Some k) b → ifps !! j = Some d →
  ∃ n o b', try_deliver b (key j) d [] = Ok (o, b') ∧
    option_list o ++ ready b' = take n (drop k ifps) ∧ receiver_at (Some (k + n)%nat) (drained b').
Proof.
  intros (Hr & Hinv & Hl) Hd. pose proof (lookup_lt_Some _ _ _ Hd) as Hjl.
  rewrite try_deliver_plain by apply Hinv. cbv zeta. rewrite entered_later by done.
  set (b1 := with_fec _ _ _). assert (stream_inv k b1) as Hinv1 by by apply (stream_inv_same k b).
  rewrite (is_past_key b1 k j) by (first [apply Hinv1|lia]). destruct (Nat.ltb_spec j k).
  { exists 0%nat, None, b1. split; [done|]. rewrite Nat.add_0_r. cbn [option_list app].
    split; [exact Hr|]. split; [done|]. split; [by apply (stream_inv_same k b1)|done]. }
  destruct (hand_out k b1 j d) as (n & o & b' & -> & Hout & Hi & Hz & Hnz); [done..|].
  exists n, o, b'. split; [done|]. split; [done|]. split; [done|]. split; [by apply (stream_inv_same _ b')|].
  cbn. destruct (decide (n = 0%nat)) as [->|]; [|auto]. destruct Hz as [-> _]; [done|].
  cbn. unfold store. repeat case_match; done.
Qed.

Lemma arrive_first b j d :
  receiver_at None b → ifps !! j = Some d →
  ∃ n o b', try_deliver b (key j) d [] = Ok (o, b') ∧
    option_list o ++ ready b' = take n (drop j ifps) ∧
    (receiver_at (Some (j + n)%nat) (drained b') ∨ n = 0%nat ∧ receiver_at None (drained b')).
Proof.
  intros (Hr & Hl & Hb & Hf) Hd. pose proof (lookup_lt_Some _ _ _ Hd) as Hjl.
  rewrite try_deliver_plain by done. cbv zeta.
  set (b1 := entered b (key j) d).
  assert (b1 = with_delivery (with_fec (with_counters b (packets_received b + 1) (packets_lost b) (packets_recovered b))
              (bt_insert (key j) d (fec_received b)) (fec_parity b)) (key j) [] [] None) as Hb1.
  { unfold b1, entered. by rewrite Hr, Hl, Hb. }
  clearbody b1. assert (stream_inv j b1) as Hinv1.
  { subst b1. split; cbn; [constructor|done|lia|constructor|done]. }
  rewrite (is_past_key b1 j j), Nat.ltb_irrefl by (first [apply Hinv1|lia]).
  destruct (hand_out j b1 j d) as (n & o & b' & -> & Hout & Hi & Hz & Hnz); [done|by subst b1|done..|].
  exists n, o, b'. split; [done|]. split; [done|]. destruct (decide (n = 0%nat)) as [->|].
  - right. split; [done|]. destruct Hz as [-> Hg]; [done|]. split; [done|].
    subst b1. revert Hg. unfold store. cbn. destruct (_ <? _); cbn.
    + by rewrite Z.eqb_refl.
    + done.
  - left. split; [done|]. split; [by apply (stream_inv_same _ b')|]. by apply Hnz.
Qed.
Lemma take_run n m k : take n (drop k ifps) ++ take m (drop (k + n) ifps) = take (n + m) (drop k ifps).
Proof. by rewrite <- drop_drop, take_take_drop. Qed.

Context `{BytesLaws} (c : UdtlConfig).

(** A datagram that carries the [j]-th packet *)
Definition carries (j : nat) (dg : list Z) : Prop :=
  ∃ d, ifps !! j = Some d ∧
    parse_datagram (take (Z.to_nat (max_datagram c)) dg) =
      Ok (Some {| dg_seq := key j; dg_primary := d; dg_redundant := []; dg_fec := None |}).

Lemma recv_carries b j dg :
  ready b = [] → carries j dg →
  ∃ d, ifps !! j = Some d ∧ recv c b dg = try_deliver b (key j) d [].
Proof.
  intros Hr (d & Hd & Hp). exists d. split; [done|]. unfold recv, take_ready. rewrite Hr. cbn [head].
  by rewrite Hp.
Qed.

Lemma receive_later dgs b k :
  receiver_at (Some k) b → Forall (λ dg, ∃ j, carries j dg) dgs →
  ∃ n b', receive c b dgs = Ok (take n (drop k ifps), b').
Proof.
  revert b k. induction dgs as [|dg dgs IH]; intros b k Hb; [by exists 0%nat, b|].
  intros [[j Hj] Hdgs]%Forall_cons. cbn [receive].
  destruct (recv_carries b j dg (proj1 Hb) Hj) as (d & Hd & ->).
  destruct (arrive_later k b j d Hb Hd) as (n & o & b1 & -> & Hout & Hb1). run.
  rewrite drain_all by done. fold (drained b1).
  destruct (IH _ _ Hb1 Hdgs) as (m & b' & ->). run. exists (n + m)%nat, b'.
  by rewrite app_assoc, Hout, take_run.
Qed.

Lemma receive_first dgs b :
  receiver_at None b → Forall (λ dg, ∃ j, carries j dg) dgs →
  ∃ i n b', receive c b dgs = Ok (take n (drop i ifps), b').
Proof.
  revert b. induction dgs as [|dg dgs IH]; intros b Hb; [by exists 0%nat, 0%nat, b|].
  intros [[j Hj] Hdgs]%Forall_cons. cbn [receive].
  destruct (recv_carries b j dg (proj1 Hb) Hj) as (d & Hd & ->).
  destruct (arrive_first b j d Hb Hd) as (n & o & b1 & -> & Hout & Hb1). run.
  rewrite drain_all by done. fold (drained b1). destruct Hb1 as [Hb1|[-> Hb1]].
  - destruct (receive_later dgs _ _ Hb1 Hdgs) as (m & b' & ->). run. exists j, (n + m)%nat, b'.
    by rewrite app_assoc, Hout, take_run.
  - destruct (IH _ Hb1 Hdgs) as (i & m & b' & ->). run. exists i, m, b'. by rewrite app_assoc, Hout.
Qed.
End stream.

(** ** Sending a series of packets *)

Section session.
Context `{BytesLaws}.

Lemma key_0 s : u16 s → key s 0 = s.
Proof. unfold key, u16. mlia. Qed.

Lemma key_S s j : key (wadd16 s 1) j = key s (S j).
Proof. unfold key. mlia. Qed.

Lemma send_plain t ifp :
  (length ifp ≤ 255)%nat → u16 (local_seq t) → cfg_fec_group (config t) < 2 →
  ∃ t' d r, send (λ _ _, None) t ifp = Ok (t', d, r) ∧
    local_seq t' = wadd16 (local_seq t) 1 ∧ config t' = config t ∧
    parse_datagram d = Ok (Some {| dg_seq := local_seq t; dg_primary := ifp;
                                   dg_redundant := []; dg_fec := None |}).
Proof.
  intros Hl Hs Hc. destruct (send_ok (λ _ _, None) t ifp Hl Hs) as (t' & d & r & Hsend & Hseq & Hcfg & Hp).
  exists t', d, r. split_and!; [done..|]. rewrite Hp. unfold fec_of.
  by rewrite (proj2 (Z.leb_gt _ _)).
Qed.

Lemma send_all_carries t ifps :
  Forall (λ ifp, (length ifp ≤ 255)%nat) ifps → u16 (local_seq t) → cfg_fec_group (config t) < 2 →
  ∃ ds, send_all t ifps = Ok ds ∧ length ds = length ifps ∧
    ∀ j d, ds !! j = Some d → ∃ ifp, ifps !! j = Some ifp ∧
      parse_datagram d = Ok (Some {| dg_seq := key (local_seq t) j; dg_primary := ifp;
                                     dg_redundant := []; dg_fec := None |}).
Proof.
  revert t. induction ifps as [|ifp ifps IH]; intros t Hl Hs Hc; cbn [send_all].
  { by exists []. }
  apply Forall_cons in Hl as [Hl Hls].
  destruct (send_plain t ifp Hl Hs Hc) as (t' & d & r & -> & Hseq & Hcfg & Hp). run.
  destruct (IH t') as (ds & -> & Hlen & Hds); [done|rewrite Hseq; mlia|by rewrite Hcfg|].
  run. exists (d :: ds). split_and!; [done|cbn; by rewrite Hlen|].
  intros [|j] dg; cbn [lookup list_lookup]; intros Hj.
  - simplify_eq. exists ifp. split; [done|]. rewrite Hp. by rewrite key_0.
  - destruct (Hds _ _ Hj) as (x & Hx & ->). exists x. split; [done|].
    by rewrite Hseq, key_S.
Qed.

(** Nothing buffered, nothing queued: the next packet is handed out at once. *)
Record idle (e : Z) (b : UdtlReceiveBuffer) : Prop := {
  id_buffer : buffer b = [];
  id_ready : ready b = [];
  id_fec : fec_parity b = None;
  id_room : 0 < max_size b;
  id_expected : last_delivered_seq b = None ∨ expected_seq b = e;
}.

Lemma idle_arrival e b d :
  u16 e → idle e b → ∃ b', try_deliver b e d [] = Ok (Some d, b') ∧ idle (wadd16 e 1) b'.
Proof.
  intros He [Hb Hr Hf Hm Hx]. rewrite try_deliver_plain by done. cbv zeta.
  assert (∃ b1, entered b e d = b1 ∧ buffer b1 = [] ∧ ready b1 = [] ∧ fec_parity b1 = None ∧
    expected_seq b1 = e ∧ max_size b1 = max_size b) as (b1 & -> & Hb1 & Hr1 & Hf1 & He1 & Hm1).
  { eexists. split; [done|]. unfold entered. rewrite Hb, Hr. destruct (last_delivered_seq b) eqn:El; [|done].
    cbn. rewrite Hb, Hr, Hf. by destruct Hx. }
  assert (is_past b1 e = false) as ->.
  { unfold is_past. rewrite He1. unfold wsub16, as_u16. by rewrite Z.sub_diag. }
  unfold store. rewrite Hb1. cbn [bt_get length]. rewrite Hm1.
  assert ((as_u16 (Z.of_nat 0) <? max_size b) = true) as -> by (apply Z.ltb_lt; exact Hm).
  cbn [deliver_loop bt_insert expected_seq buffer with_delivery bt_get ready length]. rewrite He1, Z.eqb_refl.
  cbn [deliver_loop bt_remove expected_seq buffer with_delivery bt_get]. rewrite Z.eqb_refl.
  eexists. split; [done|]. split; cbn; [done..|by rewrite Hm1|by right].
Qed.

Lemma receive_all c ifps ds e b :
  u16 e → idle e b →
  Forall2 (λ d j, carries e ifps c j d) ds (seq 0 (length ifps)) →
  ∃ b', receive c b ds = Ok (ifps, b').
Proof.
  revert ds e b. induction ifps as [|ifp ifps IH]; intros ds e b He Hb; cbn [length seq].
  { intros ->%Forall2_nil_inv_r. by exists b. }
  intros (d & ds' & (x & [= <-] & Hp) & Hds & ->)%Forall2_cons_inv_r. rewrite key_0 in Hp by done.
  destruct (idle_arrival e b ifp He Hb) as (b1 & Ht & Hb1).
  assert (recv c b d = Ok (Some ifp, b1)) as Hrecv.
  { unfold recv, take_ready. rewrite (id_ready _ _ Hb). cbn [head]. rewrite Hp. exact Ht. }
  cbn [receive]. rewrite Hrecv. run. rewrite (id_ready _ _ Hb1). cbn [length drain].
  destruct (IH ds' (wadd16 e 1) b1) as (b' & ->); [mlia|done| |by exists b'].
  rewrite <- fmap_S_seq in Hds. apply Forall2_fmap_r in Hds. eapply Forall2_impl; [exact Hds|].
  intros d0 j (x & Hx & Hp'). exists x. split; [done|]. by rewrite key_S.
Qed.

(** C21: Packets of at most 255 bytes that UdtlTransport::send sends without
    FEC: the receiver hands out all of them when all arrive in order, however
    many; of fewer than 32768 packets it hands out, for any loss, duplication
    and reordering of the datagrams, a contiguous part: no gap, no repetition,
    no reordering. *)
Theorem udptl_in_order t ifps c m :
  Forall (λ ifp, (length ifp ≤ 255)%nat) ifps → u16 (local_seq t) → cfg_fec_group (config t) < 2 →
  ∃ ds, send_all t ifps = Ok ds ∧ length ds = length ifps ∧
    (0 < m → Forall (λ d, Z.of_nat (length d) ≤ max_datagram c) ds →
      ∃ b, receive c (UdtlReceiveBuffer_with_max_size m) ds = Ok (ifps, b)) ∧
    ∀ arrivals, Z.of_nat (length ifps) < 32768 →
      Forall (λ d, d ∈ ds ∧ Z.of_nat (length d) ≤ max_datagram c) arrivals →
      ∃ i n b, receive c (UdtlReceiveBuffer_with_max_size m) arrivals = Ok (take n (drop i ifps), b).
Proof.
  intros Hl Hs Hc. destruct (send_all_carries t ifps Hl Hs Hc) as (ds & Hsend & Hlen & Hds).
  assert (∀ j d, ds !! j = Some d → Z.of_nat (length d) ≤ max_datagram c → carries (local_seq t) ifps c j d) as Hcar.
  { intros j d Hj Hmax. destruct (Hds _ _ Hj) as (ifp & Hifp & Hp). exists ifp. split; [done|].
    by rewrite take_ge by lia. }
  exists ds. split_and!; [done..| |].
  - intros Hm Hmax. apply (receive_all c ifps ds (local_seq t)); [done|split; try done; by left|].
    apply Forall2_same_length_lookup_2; [by rewrite length_seq|].
    intros j d j' Hj [-> _]%lookup_seq. apply Hcar; [done|]. by eapply Forall_lookup_1 in Hmax.
  - intros arrivals Hn Harr. apply (receive_first (local_seq t) ifps Hs Hn c); [by split|].
    eapply Forall_impl; [exact Harr|]. intros d [[j Hj]%list_elem_of_lookup Hmax]. exists j. auto.
Qed.

(** ** A lost packet *)

Lemma deliver_loop_None fuel b : bt_get (expected_seq b) (buffer b) = None → deliver_loop fuel b None = (None, b).
Proof. intros Hg. destruct fuel; cbn; [done|]. by rewrite Hg. Qed.

(** The receiver waits for a packet that is not there. *)
Record waiting (e : Z) (b : UdtlReceiveBuffer) : Prop := {
  wt_wf : bt_wf (buffer b);
  wt_expected : expected_seq b = e;
  wt_missing : e ∉ (buffer b).*1;
  wt_started : last_delivered_seq b ≠ None;
  wt_ready : ready b = [];
  wt_fec : fec_parity b = None;
}.

Lemma bt_get_missing (e : Z) (m : list (Z * list Z)) : e ∉ m.*1 → bt_get e m = None.
Proof. intros He. apply eq_None_not_Some. by rewrite bt_get_elem. Qed.

Lemma waiting_arrival e b seq primary :
  waiting e b → seq ≠ e → ∃ b', try_deliver b seq primary [] = Ok (None, b') ∧ waiting e b'.
Proof.
  intros [] Hne. rewrite try_deliver_plain by done. cbv zeta. rewrite entered_later by done.
  set (b1 := with_fec _ _ _). assert (waiting e b1) as Hw by by split.
  destruct (is_past b1 seq); [by eexists|].
  assert (waiting e (store b1 seq primary)) as [].
  { unfold store. destruct (bt_get _ _); [done|]. case_match; [|done].
    destruct Hw. split; cbn; [by apply bt_insert_wf|done| |done..]. rewrite bt_insert_keys. naive_solver. }
  rewrite deliver_loop_None by (rewrite wt_expected1; by apply bt_get_missing).
  eexists. split; [done|]. unfold cleanup_stale.
  match goal with |- context [foldl ?f ?m ?ks] => destruct (foldl_remove_incl ks m) as [Hwf Hin]; [done|] end.
  split; cbn; [done..| |done|done|done].
  intros ([k d] & -> & Hk)%list_elem_of_fmap. apply wt_missing1, list_elem_of_fmap. eauto.
Qed.

Lemma receive_waiting c e b dgs :
  waiting e b →
  Forall (λ d, bytes d ∧ ∀ dg, parse_datagram (take (Z.to_nat (max_datagram c)) d) = Ok (Some dg) →
                 dg_fec dg = None ∧ dg_seq dg ≠ e) dgs →
  ∃ b', receive c b dgs = Ok ([], b') ∧ waiting e b'.
Proof.
  revert b. induction dgs as [|d dgs IH]; intros b Hw Hd; cbn [receive]; [by exists b|].
  apply Forall_cons in Hd as [[Hb Hd] Hds].
  assert (∃ b', recv c b d = Ok (None, b') ∧ waiting e b') as (b' & -> & Hw').
  { unfold recv, take_ready. rewrite (wt_ready _ _ Hw). cbn [head].
    destruct (parse_datagram_total (take (Z.to_nat (max_datagram c)) d)) as ([dg|] & Hp & Hdg);
      [by apply Forall_take| |]; rewrite Hp in *; run; [|by exists b].
    destruct (Hd dg eq_refl) as [-> Hne]. destruct (Hdg dg eq_refl) as [_ ->].
    by apply waiting_arrival. }
  run. rewrite (wt_ready _ _ Hw'). cbn [length drain].
  destruct (IH b' Hw' Hds) as (b2 & -> & Hw2). by exists b2.
Qed.

(** C27: Once the receiver waits for a packet that was lost, no datagram without
    FEC and with another sequence number makes it hand anything out or moves the
    expected number, whatever redundancy it carries. *)
Theorem udptl_loss_stalls c b dgs :
  waiting (expected_seq b) b →
  Forall (λ d, bytes d ∧ ∀ dg, parse_datagram (take (Z.to_nat (max_datagram c)) d) = Ok (Some dg) →
                 dg_fec dg = None ∧ dg_seq dg ≠ expected_seq b) dgs →
  ∃ b', receive c b dgs = Ok ([], b') ∧ expected_seq b' = expected_seq b.
Proof.
  intros Hw Hd. destruct (receive_waiting c _ b dgs Hw Hd) as (b' & -> & Hw').
  exists b'. split; [done|apply Hw'].
Qed.
End session.

(** ** Witnesses *)

Definition addr0 : SocketAddr := AddrV4 [127; 0; 0; 1] 5000.
Definition ifps_example : list (list Z) := [[10]; [11]; [12]; [13]].

(** The four datagrams, and a receiver that has the first *)
Definition sent_example : list (list Z) :=
  match send_all (H := vec_crate) (UdtlTransport_new addr0) ifps_example with Ok ds => ds | _ => [] end.

Definition waiting_example : UdtlReceiveBuffer :=
  match receive (H := vec_crate) UdtlConfig_default UdtlReceiveBuffer_new (take 1 sent_example) with
  | Ok (_, b) => b | _ => UdtlReceiveBuffer_new
  end.

Lemma udptl_in_order_witness :
  ∃ b, receive (H := vec_crate) UdtlConfig_default (UdtlReceiveBuffer_with_max_size 128) sent_example =
         Ok (ifps_example, b).
Proof.
  destruct (udptl_in_order (H := vec_crate) (H0 := vec_laws) (UdtlTransport_new addr0) ifps_example UdtlConfig_default 128)
    as (ds & Hs & _ & Hall & _);
    [by repeat constructor; cbn; lia|split; cbn; lia|cbn; lia|].
  assert (ds = sent_example) as -> by (unfold sent_example; by rewrite Hs).
  apply Hall; [lia|]. apply (bool_decide_unpack _). by vm_compute.
Defined.

(** The third and fourth datagrams repeat the second packet; it stays lost. *)
Lemma udptl_loss_stalls_witness :
  ∃ b', receive (H := vec_crate) UdtlConfig_default waiting_example (drop 2 sent_example) = Ok ([], b') ∧
    expected_seq b' = 2.
Proof.
  apply (udptl_loss_stalls (H := vec_crate) (H0 := vec_laws) UdtlConfig_default waiting_example (drop 2 sent_example)).
  - split; try by vm_compute.
    + vm_compute. constructor.
    + apply (bool_decide_unpack _). by vm_compute.
  - let v := eval vm_compute in (drop 2 sent_example) in change (drop 2 sent_example) with v.
    repeat apply Forall_cons_2; try apply Forall_nil_2;
      (split; [repeat apply Forall_cons_2; try apply Forall_nil_2; unfold u8; lia|]);
      intros dg Hdg; vm_compute in Hdg; simplify_eq; by split.
Defined.

(** ** A malformed parity trailer *)

(** Two eight-byte UDPTL datagrams abort the receiver: a parity trailer
    whose group starts below sequence number 0, and one whose group is empty. *)
Theorem udptl_fec_abort :
  recv (H := vec_crate) UdtlConfig_default UdtlReceiveBuffer_new [0; 1; 1; 170; 0x80; 0; 1; 4] = Panic ∧
  recv (H := vec_crate) UdtlConfig_default UdtlReceiveBuffer_new [0; 1; 1; 170; 0x80; 0; 1; 0] = Panic.
Proof. split; by vm_compute. Qed.
