(* ===== verification/StateRes.v ===== *)
(** * Stateful code that can fail

    A method that mutates [self] and returns a [Result]: the state it leaves
    behind is kept also when it returns an error, since the caller may go on
    with the object. *)
From S2P Require Import Prelude.

Definition stM (S E A : Type) : Type := S → S * res E A.

#[export] Instance stM_ret {S E} : MRet (stM S E) := fun A a s => (s, Ok a).
#[export] Instance stM_bind {S E} : MBind (stM S E) := fun A B f m s =>
  match m s with
  | (s, Ok a) => f a s
  | (s, Err e) => (s, Err e)
  | (s, Panic) => (s, Panic)
  end.

(** Reading, replacing and updating the state *)
Definition get_st {S E} : stM S E S := fun s => (s, Ok s).
Definition modify {S E} (f : S → S) : stM S E unit := fun s => (f s, Ok tt).

(** [return Err(e)], and an abort *)
Definition fail {S E A} (e : E) : stM S E A := fun s => (s, Err e).
Definition abort {S E A} : stM S E A := fun s => (s, Panic).

(** A computation that does not touch the state *)
Definition lift {S E A} (r : res E A) : stM S E A := fun s => (s, r).

(** [if c { m }] *)
Definition when {S E} (c : bool) (m : stM S E unit) : stM S E unit := if c then m else mret tt.

(** [match m { Ok(a) => f(a), Err(e) => g(e) }] *)
Definition try_catch {S E A B} (m : stM S E A) (f : A → stM S E B) (g : E → stM S E B) : stM S E B :=
  fun s => match m s with
           | (s, Ok a) => f a s
           | (s, Err e) => g e s
           | (s, Panic) => (s, Panic)
           end.

Lemma bind_eq {S E A B} (m : stM S E A) (f : A → stM S E B) s s' a :
  m s = (s', Ok a) → (m ≫= f) s = f a s'.
Proof. intros Hm. unfold mbind, stM_bind. by rewrite Hm. Qed.

Lemma bind_inv {S E A B} (m : stM S E A) (f : A → stM S E B) s s' r :
  (m ≫= f) s = (s', r) →
  (∃ s1 a, m s = (s1, Ok a) ∧ f a s1 = (s', r)) ∨
  (∃ e, m s = (s', Err e) ∧ r = Err e) ∨ (m s = (s', Panic) ∧ r = Panic).
Proof.
  unfold mbind, stM_bind. destruct (m s) as [s1 [a|e|]]; intros H; simplify_eq; eauto 10.
Qed.

(** ** What a computation preserves

    [preserves P m]: from a state in which [P] holds, whatever the outcome of
    [m], the state it leaves satisfies [P]. *)
Definition preserves {S E A} (P : S → Prop) (m : stM S E A) : Prop := ∀ s, P s → P (m s).1.

Section preserves.
Context {S E : Type} (P : S → Prop).

Lemma preserves_ret {A} (a : A) : preserves P (mret a : stM S E A).
Proof. by intros s Hs. Qed.
Lemma preserves_get : preserves P (get_st : stM S E S).
Proof. by intros s Hs. Qed.
Lemma preserves_fail {A} e : preserves P (fail e : stM S E A).
Proof. by intros s Hs. Qed.
Lemma preserves_abort {A} : preserves P (abort : stM S E A).
Proof. by intros s Hs. Qed.
Lemma preserves_lift {A} (r : res E A) : preserves P (lift r : stM S E A).
Proof. by intros s Hs. Qed.
Lemma preserves_modify f : (∀ s, P s → P (f s)) → preserves P (modify f : stM S E unit).
Proof. intros Hf s Hs. by apply Hf. Qed.

Lemma preserves_bind {A B} (m : stM S E A) (f : A → stM S E B) :
  preserves P m → (∀ a, preserves P (f a)) → preserves P (m ≫= f).
Proof.
  intros Hm Hf s Hs. specialize (Hm s Hs). unfold mbind, stM_bind.
  destruct (m s) as [s' [a|e|]]; [by apply Hf|done..].
Qed.

(** The continuation of a read may use what it read. *)
Lemma preserves_get_bind {A} (f : S → stM S E A) :
  (∀ s, P s → P (f s s).1) → preserves P (get_st ≫= f).
Proof. intros Hf s Hs. by apply Hf. Qed.

Lemma preserves_lift_bind {A B} (r : res E A) (f : A → stM S E B) :
  (∀ a, r = Ok a → preserves P (f a)) → preserves P (lift r ≫= f).
Proof. intros Hf s Hs. destruct r as [a|e|]; [by apply (Hf a)|done..]. Qed.

Lemma preserves_try {A B} (m : stM S E A) (f : A → stM S E B) g :
  preserves P m → (∀ a, preserves P (f a)) → (∀ e, preserves P (g e)) →
  preserves P (try_catch m f g).
Proof.
  intros Hm Hf Hg s Hs. specialize (Hm s Hs). unfold try_catch.
  destruct (m s) as [s' [a|e|]]; [by apply Hf|by apply Hg|done].
Qed.

Lemma preserves_if {A} (b : bool) (m1 m2 : stM S E A) :
  preserves P m1 → preserves P m2 → preserves P (if b then m1 else m2).
Proof. by destruct b. Qed.

End preserves.

(** The computation also returns, when it returns a value, one that satisfies
    [R]. *)
Definition yields {S E A} (P : S → Prop) (m : stM S E A) (R : A → Prop) : Prop :=
  ∀ s, P s → P (m s).1 ∧ ∀ a, (m s).2 = Ok a → R a.

Section yields.
Context {S E : Type} (P : S → Prop).

Lemma yields_preserves {A} (m : stM S E A) R : yields P m R → preserves P m.
Proof. intros Hm s Hs. by apply Hm. Qed.

Lemma yields_ret {A} (a : A) (R : A → Prop) : R a → yields P (mret a : stM S E A) R.
Proof. intros Ha s Hs. split; [done|]. by intros ? [= <-]. Qed.

Lemma yields_bind {A B} (m : stM S E A) (f : A → stM S E B) R R' :
  yields P m R → (∀ a, R a → yields P (f a) R') → yields P (m ≫= f) R'.
Proof.
  intros Hm Hf s Hs. destruct (Hm s Hs) as [H1 H2]. unfold mbind, stM_bind.
  destruct (m s) as [s' [a|e|]]; [|done..]. apply Hf; auto.
Qed.

Lemma yields_bind_preserves {A B} (m : stM S E A) (f : A → stM S E B) R :
  yields P m R → (∀ a, R a → preserves P (f a)) → preserves P (m ≫= f).
Proof.
  intros Hm Hf s Hs. destruct (Hm s Hs) as [H1 H2]. unfold mbind, stM_bind.
  destruct (m s) as [s' [a|e|]]; [|done..]. apply Hf; auto.
Qed.

Lemma preserves_bind_yields {A B} (m : stM S E A) (f : A → stM S E B) R :
  preserves P m → (∀ a, yields P (f a) R) → yields P (m ≫= f) R.
Proof.
  intros Hm Hf. apply (yields_bind m f (fun _ => True)); [|auto]. intros s Hs. split; [by apply Hm|done].
Qed.

Lemma preserves_when b (m : stM S E unit) : preserves P m → preserves P (when b m).
Proof. intros Hm. destruct b; [done|apply preserves_ret]. Qed.
End yields.

Create HintDb keep.
#[export] Hint Resolve preserves_ret preserves_get preserves_fail preserves_abort preserves_lift
  preserves_bind preserves_if preserves_when : keep.

(** ** Loops

    [loops body a s out]: iterating [body] from [a] until it returns [None] or
    fails takes the state [s] to [out], in finitely many turns. *)
Section loops.
Context {S E A : Type} (body : A → stM S E (option A)).

Inductive loops : A → S → S * res E unit → Prop :=
| loops_done a s s' : body a s = (s', Ok None) → loops a s (s', Ok tt)
| loops_err a s s' e : body a s = (s', Err e) → loops a s (s', Err e)
| loops_panic a s s' : body a s = (s', Panic) → loops a s (s', Panic)
| loops_next a s a' s' out : body a s = (s', Ok (Some a')) → loops a' s' out → loops a s out.

(** A measure that every turn decreases bounds the fuel of a function that
    takes the same turns. *)
Lemma loops_fuel (m : A → S → nat) (F : nat → A → stM S E unit) :
  (∀ a s a' s', body a s = (s', Ok (Some a')) → (m a' s' < m a s)%nat) →
  (∀ fuel a s, (m a s ≤ fuel)%nat →
     F fuel a s = match body a s with
                  | (s', Ok (Some a')) => F (pred fuel) a' s'
                  | (s', Ok None) => (s', Ok tt)
                  | (s', Err e) => (s', Err e)
                  | (s', Panic) => (s', Panic)
                  end) →
  ∀ a s, ∃ out, loops a s out ∧ ∀ fuel, (m a s ≤ fuel)%nat → F fuel a s = out.
Proof.
  intros Hm HF a s. remember (m a s) as n eqn:En. revert a s En.
  induction (lt_wf n) as [n _ IH]. intros a s ->.
  destruct (body a s) as [s' [[a'|]|e|]] eqn:Hb.
  2,3,4: eexists; split; [by econstructor|]; intros fuel Hf; by rewrite HF, Hb.
  pose proof (Hm _ _ _ _ Hb) as Hlt. destruct (IH _ Hlt a' s' eq_refl) as (out & Hl & Hout).
  exists out. split; [by eapply loops_next|]. intros fuel Hf. rewrite HF, Hb by done. apply Hout. lia.
Qed.
End loops.
