(* ===== verification/RecordSet.v ===== *)
(** * Updating a field of a record

    [r <| f := v |>] is [r] with the field [f] replaced, the assignment
    [self.f = v] of the source, and [r <| f ::= g |>] applies [g] to it.  A
    record is registered once with the list of its fields. *)
From S2P Require Import Prelude.

(** [r] rebuilt from its fields *)
Class Settable (R : Type) := eta : R → R.
#[global] Hint Mode Settable ! : typeclass_instances.

Class Setter {R E : Type} (proj : R → E) := set : (E → E) → R → R.
Arguments set {R E} proj {_} _ _ : simpl never.

Definition ap {R A B : Type} (f : R → A → B) (x : R → A) : R → B := fun r => f r (x r).
Definition pure_mk {R A : Type} (mk : A) : R → A := fun _ => mk.

Notation "'settable!' mk < f1 ; .. ; fn >" :=
  (ap .. (ap (pure_mk mk) f1) .. fn)
  (at level 0, mk at level 10, f1 at level 9, fn at level 9, only parsing).

(** The setter of a field: the rebuilding function with one field abstracted *)
Ltac derive_setter R proj :=
  let e := constr:(_ : Settable R) in
  let e := eval hnf in e in
  let e := eval cbv beta delta [ap pure_mk] in e in
  match eval pattern proj in e with
  | (fun _ => ?k) _ => fail 1 "not a registered field:" proj
  | ?k _ =>
      let t := eval cbv beta in (fun f => k (fun r => f (proj r))) in
      exact t
  end.
#[global] Hint Extern 1 (@Setter ?R _ ?proj) => derive_setter R proj : typeclass_instances.

Declare Scope record_set.
Delimit Scope record_set with rs.
Notation "r <| proj ::= f |>" := (set proj f r)
  (at level 12, proj at next level, f at level 200, left associativity) : record_set.
Notation "r <| proj := v |>" := (set proj (fun _ => v) r)
  (at level 12, proj at next level, v at level 200, left associativity) : record_set.
#[global] Open Scope record_set.

(** Reading a field of an updated record *)
Ltac rs_step :=
  match goal with
  | |- context [?p (set ?p ?f ?r)] => change (p (set p f r)) with (f (p r))
  | |- context [?p (set ?q ?f ?r)] => change (p (set q f r)) with (p r)
  end.
Ltac rs := cbv beta; repeat (rs_step; cbv beta).
Ltac rs_step_in H :=
  match type of H with
  | context [?p (set ?p ?f ?r)] => change (p (set p f r)) with (f (p r)) in H
  | context [?p (set ?q ?f ?r)] => change (p (set q f r)) with (p r) in H
  end.
Tactic Notation "rs" "in" hyp(H) := cbv beta in H; repeat (rs_step_in H; cbv beta in H).
