(* ===== verification/DtlsRecord.v ===== *)
(** * DTLS records and handshake messages
      ([src/transports/dtls/record.rs], [src/transports/dtls/handshake.rs])

    The record header, the handshake header and the bodies of the handshake
    messages.  A [decode] takes the bytes left in the buffer and returns what
    it read with the bytes left after it. *)
From S2P Require Import Prelude Core BytesCrate.

(** ** Data *)

Inductive ContentType := ChangeCipherSpec | Alert | Handshake | ApplicationData | Heartbeat.

#[export] Instance ContentType_eq_dec : EqDecision ContentType.
Proof. solve_decision. Defined.

(** [self as u8] *)
Definition ContentType_u8 (c : ContentType) : Z :=
  match c with
  | ChangeCipherSpec => 20 | Alert => 21 | Handshake => 22 | ApplicationData => 23 | Heartbeat => 24
  end.

Definition ContentType_try_from (value : Z) : res RtcError ContentType :=
  if value =? 20 then Ok ChangeCipherSpec
  else if value =? 21 then Ok Alert
  else if value =? 22 then Ok Handshake
  else if value =? 23 then Ok ApplicationData
  else if value =? 24 then Ok Heartbeat
  else Err (Internal "Invalid ContentType").

Record ProtocolVersion := { major : Z; minor : Z }.
Definition DTLS_1_0 : ProtocolVersion := {| major := 254; minor := 255 |}.
Definition DTLS_1_2 : ProtocolVersion := {| major := 254; minor := 253 |}.

Record DtlsRecord := {
  content_type : ContentType;
  version : ProtocolVersion;
  epoch : Z;
  sequence_number : Z;
  payload : list Z;
}.
Definition RECORD_HEADER_SIZE : nat := 13.

Inductive HandshakeType :=
| HelloRequest | TClientHello | TServerHello | THelloVerifyRequest | TCertificate
| TServerKeyExchange | CertificateRequest | TServerHelloDone | CertificateVerify
| TClientKeyExchange | TFinished.

#[export] Instance HandshakeType_eq_dec : EqDecision HandshakeType.
Proof. solve_decision. Defined.

Definition HandshakeType_u8 (t : HandshakeType) : Z :=
  match t with
  | HelloRequest => 0 | TClientHello => 1 | TServerHello => 2 | THelloVerifyRequest => 3
  | TCertificate => 11 | TServerKeyExchange => 12 | CertificateRequest => 13
  | TServerHelloDone => 14 | CertificateVerify => 15 | TClientKeyExchange => 16 | TFinished => 20
  end.

Definition HandshakeType_try_from (value : Z) : res RtcError HandshakeType :=
  if value =? 0 then Ok HelloRequest
  else if value =? 1 then Ok TClientHello
  else if value =? 2 then Ok TServerHello
  else if value =? 3 then Ok THelloVerifyRequest
  else if value =? 11 then Ok TCertificate
  else if value =? 12 then Ok TServerKeyExchange
  else if value =? 13 then Ok CertificateRequest
  else if value =? 14 then Ok TServerHelloDone
  else if value =? 15 then Ok CertificateVerify
  else if value =? 16 then Ok TClientKeyExchange
  else if value =? 20 then Ok TFinished
  else Err (Internal "Invalid HandshakeType").

Record HandshakeMessage := {
  msg_type : HandshakeType;
  total_length : Z;
  message_seq : Z;
  fragment_offset : Z;
  fragment_length : Z;
  body : list Z;
}.
Definition HANDSHAKE_HEADER_SIZE : nat := 12.

Record Random := { gmt_unix_time : Z; random_bytes : list Z }.

Record ClientHello := {
  ch_version : ProtocolVersion;
  ch_random : Random;
  ch_session_id : list Z;
  ch_cookie : list Z;
  cipher_suites : list Z;
  compression_methods : list Z;
  ch_extensions : list Z;
}.

Record ServerHello := {
  sh_version : ProtocolVersion;
  sh_random : Random;
  sh_session_id : list Z;
  cipher_suite : Z;
  compression_method : Z;
  sh_extensions : list Z;
}.

Record HelloVerifyRequest := { hv_version : ProtocolVersion; hv_cookie : list Z }.

Record ServerKeyExchange := {
  curve_type : Z;
  named_curve : Z;
  ske_public_key : list Z;
  ske_signature : list Z;
}.

Record CertificateMessage := { certificates : list (list Z) }.
Record ClientKeyExchange := { identity_hint : list Z; cke_public_key : list Z }.
Record Finished := { verify_data : list Z }.

(** [len() as u8], [len() as u16], [len() as u32] *)
Definition len8 (l : list Z) : Z := as_u8 (Z.of_nat (length l)).
Definition len16 (l : list Z) : Z := as_u16 (Z.of_nat (length l)).
Definition len32 (l : list Z) : Z := as_u32 (Z.of_nat (length l)).

Section codec.
Context `{BytesCrate}.

(** ** Records *)

Definition DtlsRecord_encode (r : DtlsRecord) (buf : list Z) : list Z :=
  let buf := put_u8 buf (ContentType_u8 (content_type r)) in
  let buf := put_u8 buf (major (version r)) in
  let buf := put_u8 buf (minor (version r)) in
  let buf := put_u16 buf (epoch r) in
  let seq := sequence_number r in
  let buf := put_u8 buf (as_u8 (Z.shiftr seq 40)) in
  let buf := put_u8 buf (as_u8 (Z.shiftr seq 32)) in
  let buf := put_u8 buf (as_u8 (Z.shiftr seq 24)) in
  let buf := put_u8 buf (as_u8 (Z.shiftr seq 16)) in
  let buf := put_u8 buf (as_u8 (Z.shiftr seq 8)) in
  let buf := put_u8 buf (as_u8 seq) in
  let buf := put_u16 buf (len16 (payload r)) in
  put_slice buf (payload r).

Definition DtlsRecord_decode (buf : list Z) : res RtcError (option DtlsRecord * list Z) :=
  if (length buf <? RECORD_HEADER_SIZE)%nat then Ok (None, buf) else
  b0 ← idx buf 0;
  content_type ← ContentType_try_from b0;
  major ← idx buf 1;
  minor ← idx buf 2;
  epoch ← be_at 2 buf 3;
  seq ← slice buf 5 11;
  let sequence_number := of_be ([0; 0] ++ seq) in
  length_ ← be_at 2 buf 11;
  let length_ := Z.to_nat length_ in
  if (length buf <? RECORD_HEADER_SIZE + length_)%nat then Ok (None, buf) else
  buf ← or_panic (advance RECORD_HEADER_SIZE buf);
  '(payload, buf) ← or_panic (split_to length_ buf);
  Ok (Some {| content_type := content_type; version := {| major := major; minor := minor |};
              epoch := epoch; sequence_number := sequence_number; payload := payload |}, buf).

(** ** Handshake messages *)

(** [BufMutExt::put_u24] *)
Definition put_u24 (buf : list Z) (n : Z) : list Z :=
  let buf := put_u8 buf (as_u8 (Z.shiftr n 16)) in
  let buf := put_u8 buf (as_u8 (Z.shiftr n 8)) in
  put_u8 buf (as_u8 n).

Definition HandshakeMessage_encode (m : HandshakeMessage) (buf : list Z) : list Z :=
  let buf := put_u8 buf (HandshakeType_u8 (msg_type m)) in
  let len := total_length m in
  let buf := put_u8 buf (as_u8 (Z.shiftr len 16)) in
  let buf := put_u8 buf (as_u8 (Z.shiftr len 8)) in
  let buf := put_u8 buf (as_u8 len) in
  let buf := put_u16 buf (message_seq m) in
  let buf := put_u8 buf (as_u8 (Z.shiftr (fragment_offset m) 16)) in
  let buf := put_u8 buf (as_u8 (Z.shiftr (fragment_offset m) 8)) in
  let buf := put_u8 buf (as_u8 (fragment_offset m)) in
  let buf := put_u8 buf (as_u8 (Z.shiftr (fragment_length m) 16)) in
  let buf := put_u8 buf (as_u8 (Z.shiftr (fragment_length m) 8)) in
  let buf := put_u8 buf (as_u8 (fragment_length m)) in
  put_slice buf (body m).

(** [u32::from_be_bytes([0, buf[i], buf[i + 1], buf[i + 2]])] *)
Definition be24_at (buf : list Z) (i : nat) : res RtcError Z :=
  s ← slice buf i (i + 3); Ok (of_be (0 :: s)).

Definition HandshakeMessage_decode (buf : list Z) : res RtcError (option HandshakeMessage * list Z) :=
  if (length buf <? HANDSHAKE_HEADER_SIZE)%nat then Ok (None, buf) else
  b0 ← idx buf 0;
  msg_type ← HandshakeType_try_from b0;
  total_length ← be24_at buf 1;
  message_seq ← be_at 2 buf 4;
  fragment_offset ← be24_at buf 6;
  fragment_length ← be24_at buf 9;
  if (length buf <? HANDSHAKE_HEADER_SIZE + Z.to_nat fragment_length)%nat then Ok (None, buf) else
  buf ← or_panic (advance HANDSHAKE_HEADER_SIZE buf);
  '(body, buf) ← or_panic (split_to (Z.to_nat fragment_length) buf);
  Ok (Some {| msg_type := msg_type; total_length := total_length; message_seq := message_seq;
              fragment_offset := fragment_offset; fragment_length := fragment_length;
              body := body |}, buf).

(** [Random::new], from the clock in milliseconds and 28 random bytes *)
Definition Random_new (unix_ms : option Z) (rng : list Z) : Random :=
  {| gmt_unix_time := as_u32 (default 0 unix_ms); random_bytes := rng |}.

Definition Random_encode (r : Random) (buf : list Z) : list Z :=
  put_slice (put_u32 buf (gmt_unix_time r)) (random_bytes r).

Definition Random_to_bytes (r : Random) : list Z := Random_encode r [].

(** [for suite in &self.cipher_suites { buf.put_u16(suite) }] *)
Definition put_u16s (buf : list Z) (l : list Z) : list Z := foldl put_u16 buf l.

(** The optional extension block at the end of both hellos *)
Definition put_extensions (buf extensions : list Z) : list Z :=
  if decide (extensions = []) then buf
  else put_slice (put_u16 buf (len16 extensions)) extensions.

Definition ClientHello_encode (h : ClientHello) (buf : list Z) : list Z :=
  let buf := put_u8 buf (major (ch_version h)) in
  let buf := put_u8 buf (minor (ch_version h)) in
  let buf := Random_encode (ch_random h) buf in
  let buf := put_u8 buf (len8 (ch_session_id h)) in
  let buf := put_slice buf (ch_session_id h) in
  let buf := put_u8 buf (len8 (ch_cookie h)) in
  let buf := put_slice buf (ch_cookie h) in
  let buf := put_u16 buf (as_u16 (Z.of_nat (length (cipher_suites h) * 2))) in
  let buf := put_u16s buf (cipher_suites h) in
  let buf := put_u8 buf (len8 (compression_methods h)) in
  let buf := put_slice buf (compression_methods h) in
  put_extensions buf (ch_extensions h).

(** [if buf.len() < len { bail!(..) } buf.split_to(len).to_vec()] *)
Definition take_vec (len : Z) (what : string) (buf : list Z) : res RtcError (list Z * list Z) :=
  if (length buf <? Z.to_nat len)%nat then Err (Internal what) else
  or_panic (split_to (Z.to_nat len) buf).

(** The version and random value at the start of both hellos *)
Definition get_hello_start (buf : list Z) : res RtcError (ProtocolVersion * Random * list Z) :=
  '(major, buf) ← or_panic (get_u8 buf);
  '(minor, buf) ← or_panic (get_u8 buf);
  '(gmt_unix_time, buf) ← or_panic (get_u32 buf);
  '(random_bytes, buf) ← or_panic (copy_to_bytes 28 buf);
  Ok ({| major := major; minor := minor |},
      {| gmt_unix_time := gmt_unix_time; random_bytes := random_bytes |}, buf).

(** [while cs_buf.len() >= 2 { cipher_suites.push(cs_buf.get_u16()) }], with
    one unit of fuel per byte *)
Fixpoint get_u16s (fuel : nat) (cs_buf : list Z) : res RtcError (list Z) :=
  if (length cs_buf <? 2)%nat then Ok [] else
  match fuel with
  | O => Panic
  | S fuel =>
      '(x, cs_buf) ← or_panic (get_u16 cs_buf);
      xs ← get_u16s fuel cs_buf;
      Ok (x :: xs)
  end.

Definition get_extensions (what : string) (buf : list Z) : res RtcError (list Z * list Z) :=
  if (2 <=? length buf)%nat then
    '(ext_len, buf) ← or_panic (get_u16 buf);
    take_vec ext_len what buf
  else Ok ([], buf).

Definition ClientHello_decode (buf : list Z) : res RtcError (ClientHello * list Z) :=
  if (length buf <? 34)%nat then Err (Internal "ClientHello too short") else
  '(version, random, buf) ← get_hello_start buf;
  '(session_id_len, buf) ← or_panic (get_u8 buf);
  '(session_id, buf) ← take_vec session_id_len "ClientHello too short for session_id" buf;
  if (length buf =? 0)%nat then Err (Internal "ClientHello too short for cookie length") else
  '(cookie_len, buf) ← or_panic (get_u8 buf);
  '(cookie, buf) ← take_vec cookie_len "ClientHello too short for cookie" buf;
  if (length buf <? 2)%nat then Err (Internal "ClientHello too short for cipher suites length") else
  '(cipher_suites_len, buf) ← or_panic (get_u16 buf);
  '(cs_buf, buf) ← take_vec cipher_suites_len "ClientHello too short for cipher suites" buf;
  suites ← get_u16s (length cs_buf) cs_buf;
  if (length buf =? 0)%nat
  then Err (Internal "ClientHello too short for compression methods length") else
  '(compression_methods_len, buf) ← or_panic (get_u8 buf);
  '(methods, buf) ←
    take_vec compression_methods_len "ClientHello too short for compression methods" buf;
  '(extensions, buf) ← get_extensions "ClientHello too short for extensions" buf;
  Ok ({| ch_version := version; ch_random := random; ch_session_id := session_id;
         ch_cookie := cookie; cipher_suites := suites; compression_methods := methods;
         ch_extensions := extensions |}, buf).

Definition ServerHello_encode (h : ServerHello) (buf : list Z) : list Z :=
  let buf := put_u8 buf (major (sh_version h)) in
  let buf := put_u8 buf (minor (sh_version h)) in
  let buf := Random_encode (sh_random h) buf in
  let buf := put_u8 buf (len8 (sh_session_id h)) in
  let buf := put_slice buf (sh_session_id h) in
  let buf := put_u16 buf (cipher_suite h) in
  let buf := put_u8 buf (compression_method h) in
  put_extensions buf (sh_extensions h).

Definition ServerHello_decode (buf : list Z) : res RtcError (ServerHello * list Z) :=
  if (length buf <? 34)%nat then Err (Internal "ServerHello too short") else
  '(version, random, buf) ← get_hello_start buf;
  '(session_id_len, buf) ← or_panic (get_u8 buf);
  '(session_id, buf) ← take_vec session_id_len "ServerHello too short for session_id" buf;
  if (length buf <? 3)%nat
  then Err (Internal "ServerHello too short for cipher suite and compression") else
  '(suite, buf) ← or_panic (get_u16 buf);
  '(method, buf) ← or_panic (get_u8 buf);
  '(extensions, buf) ← get_extensions "ServerHello too short for extensions" buf;
  Ok ({| sh_version := version; sh_random := random; sh_session_id := session_id;
         cipher_suite := suite; compression_method := method; sh_extensions := extensions |}, buf).

Definition HelloVerifyRequest_encode (h : HelloVerifyRequest) (buf : list Z) : list Z :=
  let buf := put_u8 buf (major (hv_version h)) in
  let buf := put_u8 buf (minor (hv_version h)) in
  let buf := put_u8 buf (len8 (hv_cookie h)) in
  put_slice buf (hv_cookie h).

Definition HelloVerifyRequest_decode (buf : list Z) : res RtcError (HelloVerifyRequest * list Z) :=
  if (length buf <? 3)%nat then Err (Internal "HelloVerifyRequest too short") else
  '(major, buf) ← or_panic (get_u8 buf);
  '(minor, buf) ← or_panic (get_u8 buf);
  '(cookie_len, buf) ← or_panic (get_u8 buf);
  '(cookie, buf) ← take_vec cookie_len "HelloVerifyRequest too short for cookie" buf;
  Ok ({| hv_version := {| major := major; minor := minor |}; hv_cookie := cookie |}, buf).

(** [ServerHelloDone::encode]: an empty body *)
Definition ServerHelloDone_encode (buf : list Z) : list Z := buf.

Definition ServerKeyExchange_encode (k : ServerKeyExchange) (buf : list Z) : list Z :=
  let buf := put_u8 buf (curve_type k) in
  let buf := put_u16 buf (named_curve k) in
  let buf := put_u8 buf (len8 (ske_public_key k)) in
  let buf := put_slice buf (ske_public_key k) in
  let buf := put_u8 buf 4 in
  let buf := put_u8 buf 3 in
  let buf := put_u16 buf (len16 (ske_signature k)) in
  put_slice buf (ske_signature k).

Definition ServerKeyExchange_decode (buf : list Z) : res RtcError (ServerKeyExchange * list Z) :=
  if (length buf <? 4)%nat then Err (Internal "ServerKeyExchange too short") else
  '(ct, buf) ← or_panic (get_u8 buf);
  '(nc, buf) ← or_panic (get_u16 buf);
  '(public_key_len, buf) ← or_panic (get_u8 buf);
  '(pk, buf) ← take_vec public_key_len "ServerKeyExchange too short for public key" buf;
  if (length buf <? 4)%nat
  then Err (Internal "ServerKeyExchange too short for signature header") else
  '(_, buf) ← or_panic (get_u8 buf);
  '(_, buf) ← or_panic (get_u8 buf);
  '(sig_len, buf) ← or_panic (get_u16 buf);
  '(sig, buf) ← take_vec sig_len "ServerKeyExchange too short for signature" buf;
  Ok ({| curve_type := ct; named_curve := nc; ske_public_key := pk; ske_signature := sig |}, buf).

Definition CertificateMessage_encode (m : CertificateMessage) (buf : list Z) : list Z :=
  let total_len := foldl (fun n c => n + (3 + length c))%nat 0%nat (certificates m) in
  let buf := put_u24 buf (as_u32 (Z.of_nat total_len)) in
  foldl (fun buf cert => put_slice (put_u24 buf (len32 cert)) cert) buf (certificates m).

(** [while !certs_buf.is_empty() { .. }]: an iteration consumes at least the
    three bytes of a length, so the length of the buffer is enough fuel. *)
Fixpoint decode_certs (fuel : nat) (certs_buf : list Z) : res RtcError (list (list Z)) :=
  if (length certs_buf =? 0)%nat then Ok [] else
  match fuel with
  | O => Panic
  | S fuel =>
      if (length certs_buf <? 3)%nat then Err (Internal "Certificate entry missing length") else
      cert_len ← be24_at certs_buf 0;
      certs_buf ← or_panic (advance 3 certs_buf);
      '(cert, certs_buf) ←
        take_vec cert_len "Certificate entry shorter than declared length" certs_buf;
      certs ← decode_certs fuel certs_buf;
      Ok (cert :: certs)
  end.

Definition CertificateMessage_decode (buf : list Z) : res RtcError (CertificateMessage * list Z) :=
  if (length buf <? 3)%nat then Err (Internal "Certificate message too short") else
  total_len ← be24_at buf 0;
  buf ← or_panic (advance 3 buf);
  '(certs_buf, buf) ← take_vec total_len "Certificate message shorter than declared length" buf;
  certs ← decode_certs (length certs_buf) certs_buf;
  Ok ({| certificates := certs |}, buf).

Definition ClientKeyExchange_encode (k : ClientKeyExchange) (buf : list Z) : list Z :=
  let buf :=
    if decide (identity_hint k = []) then buf
    else put_slice (put_u16 buf (len16 (identity_hint k))) (identity_hint k) in
  let buf := put_u8 buf (len8 (cke_public_key k)) in
  put_slice buf (cke_public_key k).

Definition ClientKeyExchange_decode (buf : list Z) : res RtcError (ClientKeyExchange * list Z) :=
  if (length buf =? 0)%nat then Err (Internal "ClientKeyExchange too short") else
  '(public_key_len, buf) ← or_panic (get_u8 buf);
  '(pk, buf) ← take_vec public_key_len "ClientKeyExchange too short for public key" buf;
  Ok ({| identity_hint := []; cke_public_key := pk |}, buf).

Definition Finished_encode (f : Finished) (buf : list Z) : list Z := put_slice buf (verify_data f).

Definition Finished_decode (buf : list Z) : res RtcError (Finished * list Z) :=
  rest ← or_panic (advance (length buf) buf);
  Ok ({| verify_data := buf |}, rest).

End codec.
