(* ===== verification/DtlsRecordFacts.v ===== *)
(** * DTLS records and handshake messages: theorems

    Layouts, round trips and the behaviour of the decoders on arbitrary
    bytes. *)
From S2P Require Import Prelude Core BytesCrate DtlsRecord.

(** ** Well-formed messages: every field fits its width on the wire *)

Definition wf_version (v : ProtocolVersion) : Prop := u8 (major v) ∧ u8 (minor v).

Definition wf_record (r : DtlsRecord) : Prop :=
  wf_version (version r) ∧ u16 (epoch r) ∧ u48 (sequence_number r) ∧
  Z.of_nat (length (payload r)) < 65536.

Definition wf_handshake (m : HandshakeMessage) : Prop :=
  u24 (total_length m) ∧ u16 (message_seq m) ∧ u24 (fragment_offset m) ∧
  fragment_length m = Z.of_nat (length (body m)) ∧ u24 (fragment_length m).

Definition wf_random (r : Random) : Prop := u32 (gmt_unix_time r) ∧ length (random_bytes r) = 28%nat.

Definition wf_client_hello (h : ClientHello) : Prop :=
  wf_version (ch_version h) ∧ wf_random (ch_random h) ∧
  Z.of_nat (length (ch_session_id h)) < 256 ∧ Z.of_nat (length (ch_cookie h)) < 256 ∧
  Z.of_nat (length (cipher_suites h)) < 32768 ∧ Forall u16 (cipher_suites h) ∧
  Z.of_nat (length (compression_methods h)) < 256 ∧ Z.of_nat (length (ch_extensions h)) < 65536.

Definition wf_server_hello (h : ServerHello) : Prop :=
  wf_version (sh_version h) ∧ wf_random (sh_random h) ∧ Z.of_nat (length (sh_session_id h)) < 256 ∧
  u16 (cipher_suite h) ∧ u8 (compression_method h) ∧ Z.of_nat (length (sh_extensions h)) < 65536.

Definition wf_hello_verify (h : HelloVerifyRequest) : Prop :=
  wf_version (hv_version h) ∧ Z.of_nat (length (hv_cookie h)) < 256.

Definition wf_server_key_exchange (k : ServerKeyExchange) : Prop :=
  u8 (curve_type k) ∧ u16 (named_curve k) ∧ Z.of_nat (length (ske_public_key k)) < 256 ∧
  Z.of_nat (length (ske_signature k)) < 65536.

(** The bytes of the certificate list *)
Definition certs_bytes (l : list (list Z)) : list Z :=
  concat ((fun c => to_be 3 (Z.of_nat (length c)) ++ c) <$> l).

Definition wf_certificates (m : CertificateMessage) : Prop :=
  Z.of_nat (length (certs_bytes (certificates m))) < 16777216.

Definition wf_client_key_exchange (k : ClientKeyExchange) : Prop :=
  identity_hint k = [] ∧ Z.of_nat (length (cke_public_key k)) < 256.

Lemma len8_ok l : Z.of_nat (length l) < 256 → len8 l = Z.of_nat (length l).
Proof. intros. unfold len8, as_u8. apply Z.mod_small. lia. Qed.
Lemma len16_ok l : Z.of_nat (length l) < 65536 → len16 l = Z.of_nat (length l).
Proof. intros. unfold len16, as_u16. apply Z.mod_small. lia. Qed.
Lemma len32_ok l : Z.of_nat (length l) < 4294967296 → len32 l = Z.of_nat (length l).
Proof. intros. unfold len32, as_u32. apply Z.mod_small. lia. Qed.

(** ** Layouts *)

Lemma to_be_S n x : to_be (S n) x = to_be 1 (as_u8 (Z.shiftr x (8 * Z.of_nat n))) ++ to_be n x.
Proof.
  rewrite to_be_1 by mlia. unfold as_u8. rewrite Z.shiftr_div_pow2 by lia.
  rewrite Z.pow_mul_r by lia. done.
Qed.

Lemma to_be_1_as x : to_be 1 (as_u8 x) = to_be 1 x.
Proof. apply (to_be_mod 1 x). Qed.

Section layouts.
Context `{BytesCrate, !BytesLaws}.

Lemma DtlsRecord_encode_layout r buf :
  DtlsRecord_encode r buf =
    buf ++ to_be 1 (ContentType_u8 (content_type r)) ++ to_be 1 (major (version r)) ++
    to_be 1 (minor (version r)) ++ to_be 2 (epoch r) ++ to_be 6 (sequence_number r) ++
    to_be 2 (len16 (payload r)) ++ payload r.
Proof.
  unfold DtlsRecord_encode. autorewrite with crate.
  rewrite 5!(to_be_S _ (sequence_number r)), !to_be_1_as. by rewrite <- !app_assoc.
Qed.

Lemma put_u24_layout buf n : put_u24 buf n = buf ++ to_be 3 n.
Proof.
  unfold put_u24. autorewrite with crate. rewrite 2!(to_be_S _ n), !to_be_1_as.
  by rewrite <- !app_assoc.
Qed.

Lemma HandshakeMessage_encode_layout m buf :
  HandshakeMessage_encode m buf =
    buf ++ to_be 1 (HandshakeType_u8 (msg_type m)) ++ to_be 3 (total_length m) ++
    to_be 2 (message_seq m) ++ to_be 3 (fragment_offset m) ++ to_be 3 (fragment_length m) ++ body m.
Proof.
  unfold HandshakeMessage_encode. autorewrite with crate.
  rewrite 2!(to_be_S _ (total_length m)), 2!(to_be_S _ (fragment_offset m)),
    2!(to_be_S _ (fragment_length m)), !to_be_1_as.
  by rewrite <- !app_assoc.
Qed.

Lemma HandshakeMessage_encode_length m :
  length (HandshakeMessage_encode m []) = (12 + length (body m))%nat.
Proof. rewrite HandshakeMessage_encode_layout. by autorewrite with wire. Qed.

Lemma Random_encode_layout r buf :
  Random_encode r buf = buf ++ to_be 4 (gmt_unix_time r) ++ random_bytes r.
Proof. unfold Random_encode. autorewrite with crate. by rewrite <- app_assoc. Qed.

Lemma Random_to_bytes_length r : wf_random r → length (Random_to_bytes r) = 32%nat.
Proof.
  intros [_ Hl]. unfold Random_to_bytes. rewrite Random_encode_layout.
  autorewrite with wire. lia.
Qed.

Lemma put_u16s_layout l buf : put_u16s buf l = buf ++ concat (to_be 2 <$> l).
Proof.
  revert buf. induction l as [|x l IH]; intros buf; cbn; [by rewrite app_nil_r|].
  unfold put_u16s in IH. rewrite IH. autorewrite with crate. by rewrite <- app_assoc.
Qed.

Lemma put_extensions_layout buf e :
  put_extensions buf e = buf ++ if decide (e = []) then [] else to_be 2 (len16 e) ++ e.
Proof.
  unfold put_extensions. case_decide; [by rewrite app_nil_r|].
  autorewrite with crate. by rewrite <- app_assoc.
Qed.

Lemma put_certs_layout l buf :
  Z.of_nat (length (certs_bytes l)) < 16777216 →
  foldl (fun buf cert => put_slice (put_u24 buf (len32 cert)) cert) buf l = buf ++ certs_bytes l.
Proof.
  revert buf. induction l as [|c l IH]; intros buf Hl; cbn [foldl]; [by rewrite app_nil_r|].
  unfold certs_bytes in Hl. cbn in Hl. autorewrite with wire in Hl.
  rewrite IH by (unfold certs_bytes; lia). rewrite put_u24_layout. autorewrite with crate.
  unfold certs_bytes, len32, as_u32. cbn. rewrite Z.mod_small by lia. by rewrite <- !app_assoc.
Qed.

Lemma certs_length l n :
  foldl (fun n c => n + (3 + length c))%nat n l = (n + length (certs_bytes l))%nat.
Proof.
  revert n. induction l as [|c l IH]; intros n; cbn [foldl]; [cbn; lia|].
  rewrite IH. unfold certs_bytes. cbn. autorewrite with wire. lia.
Qed.

End layouts.

(** ** Round trips *)

Lemma ContentType_u8_range c : u8 (ContentType_u8 c).
Proof. destruct c; cbn; ulia. Qed.
Lemma HandshakeType_u8_range t : u8 (HandshakeType_u8 t).
Proof. destruct t; cbn; ulia. Qed.
Lemma ContentType_roundtrip c : ContentType_try_from (ContentType_u8 c) = Ok c.
Proof. by destruct c. Qed.
Lemma HandshakeType_roundtrip t : HandshakeType_try_from (HandshakeType_u8 t) = Ok t.
Proof. by destruct t. Qed.

Lemma be24_at_skip a r i j : i = (length a + j)%nat → be24_at (a ++ r) i = be24_at r j.
Proof. intros ->. unfold be24_at. by rewrite (slice_next a r _ _ j (j + 3)) by lia. Qed.

Lemma be24_at_tl x r i : be24_at (x :: r) (S i) = be24_at r i.
Proof. by apply (be24_at_skip [x]). Qed.

Lemma of_be_0 l : of_be (0 :: l) = of_be l.
Proof. Transparent of_be. cbn. Opaque of_be. lia. Qed.

Lemma be24_at_hd x r : u24 x → be24_at (to_be 3 x ++ r) 0 = Ok x.
Proof.
  intros Hx. unfold be24_at. rewrite slice_app_hd by apply length_to_be. run.
  by rewrite of_be_0, of_be_to_be_24.
Qed.

Section roundtrips.
Context `{BytesCrate, !BytesLaws}.

Lemma take_vec_app len what a r :
  len = Z.of_nat (length a) → take_vec len what (a ++ r) = Ok (a, r).
Proof.
  intros ->. unfold take_vec. rewrite Nat2Z.id. autorewrite with crate.
  rewrite split_front_app by done. autorewrite with wire. by case_match; nat_tests; [lia|].
Qed.

Lemma advance_ge l n : (n ≤ length l)%nat → advance n l = Some (drop n l).
Proof. intros. autorewrite with crate. by rewrite split_front_ge. Qed.

Lemma split_to_app a r n : length a = n → split_to n (a ++ r) = Some (a, r).
Proof. intros. autorewrite with crate. by rewrite split_front_app. Qed.

(** A size test that passes. *)
Lemma ltb_ge_false a b : (b ≤ a)%nat → (a <? b)%nat = false.
Proof. apply Nat.ltb_ge. Qed.

Lemma eqb_pos_false a : (0 < a)%nat → (a =? 0)%nat = false.
Proof. intros. apply Nat.eqb_neq. lia. Qed.

(** A record is read back from the front of any buffer, and what follows it
    is left. *)
Lemma DtlsRecord_roundtrip r rest :
  wf_record r → DtlsRecord_decode (DtlsRecord_encode r [] ++ rest) = Ok (Some r, rest).
Proof.
  destruct r as [ct [ma mi] ep seq pl].
  intros ([Hma Hmi] & Hep & Hseq & Hpl). cbn in *.
  rewrite DtlsRecord_encode_layout. cbn [content_type version epoch sequence_number payload major minor].
  pose proof (ContentType_u8_range ct). rewrite app_nil_l, <- !app_assoc, !to_be_1 by done.
  unfold DtlsRecord_decode, RECORD_HEADER_SIZE.
  rewrite ltb_ge_false by (autorewrite with wire; lia).
  fields. rewrite ContentType_roundtrip. run. fields.
  rewrite (len16_ok pl), (of_be_to_be_16 ep), of_be_to_be_16, Nat2Z.id by (done || ulia).
  rewrite ltb_ge_false by (autorewrite with wire; lia).
  rewrite advance_ge by (autorewrite with wire; lia). run. cbn [app drop]. drops.
  rewrite split_to_app by done. run.
  cbn [app]. by rewrite !of_be_0, of_be_to_be_48.
Qed.

Lemma HandshakeMessage_roundtrip m rest :
  wf_handshake m → HandshakeMessage_decode (HandshakeMessage_encode m [] ++ rest) = Ok (Some m, rest).
Proof.
  destruct m as [t tl ms fo fl b]. intros (Htl & Hms & Hfo & Hfl & Hfl'). cbn in *.
  rewrite HandshakeMessage_encode_layout.
  cbn [msg_type total_length message_seq fragment_offset fragment_length body].
  pose proof (HandshakeType_u8_range t). rewrite app_nil_l, <- !app_assoc, to_be_1 by done.
  unfold HandshakeMessage_decode, HANDSHAKE_HEADER_SIZE.
  rewrite ltb_ge_false by (autorewrite with wire; lia).
  fields. rewrite HandshakeType_roundtrip. run.
  cbn [app]. rewrite (be24_at_tl _ _ 0), be24_at_hd by done. run. cbn [app]. fields.
  rewrite (be24_at_tl _ _ 5), (be24_at_skip (to_be 3 tl) _ 5 2),
    (be24_at_skip (to_be 2 ms) _ 2 0), be24_at_hd by (done || by rewrite length_to_be). run.
  rewrite (be24_at_tl _ _ 8), (be24_at_skip (to_be 3 tl) _ 8 5),
    (be24_at_skip (to_be 2 ms) _ 5 3), (be24_at_skip (to_be 3 fo) _ 3 0), be24_at_hd
    by (done || by rewrite length_to_be). run.
  rewrite ltb_ge_false by (autorewrite with wire; lia).
  rewrite advance_ge by (autorewrite with wire; lia). run. cbn [app drop]. drops.
  rewrite split_to_app by lia. run. by rewrite of_be_to_be_16.
Qed.

(** Reading a field off the front of a buffer, one lemma per operation. *)
Lemma get_u8_app {A} (k : Z * list Z → res RtcError A) x r :
  u8 x → (or_panic (get_u8 (to_be 1 x ++ r)) ≫= k) = k (x, r).
Proof. intros. by rewrite get_u8_spec, read_be_8. Qed.
Lemma get_u16_app {A} (k : Z * list Z → res RtcError A) x r :
  u16 x → (or_panic (get_u16 (to_be 2 x ++ r)) ≫= k) = k (x, r).
Proof. intros. by rewrite get_u16_spec, read_be_16. Qed.
Lemma get_u32_app {A} (k : Z * list Z → res RtcError A) x r :
  u32 x → (or_panic (get_u32 (to_be 4 x ++ r)) ≫= k) = k (x, r).
Proof. intros. by rewrite get_u32_spec, read_be_32. Qed.
Lemma take_vec_bind {A} (k : list Z * list Z → res RtcError A) what a r len :
  len = Z.of_nat (length a) → (take_vec len what (a ++ r) ≫= k) = k (a, r).
Proof. intros. by rewrite take_vec_app. Qed.
Lemma take_vec_all {A} (k : list Z * list Z → res RtcError A) what a len :
  len = Z.of_nat (length a) → (take_vec len what a ≫= k) = k (a, []).
Proof. intros ->. rewrite <- (app_nil_r a) at 2. by rewrite take_vec_app. Qed.
Lemma copy_app {A} (k : list Z * list Z → res RtcError A) a r n :
  length a = n → (or_panic (copy_to_bytes n (a ++ r)) ≫= k) = k (a, r).
Proof. intros. by rewrite copy_to_bytes_spec, split_front_app. Qed.

Ltac sizes := rewrite ?len8_ok, ?len16_ok by lia; first [done | ulia].
Ltac gets :=
  repeat (first
    [ rewrite get_u8_app by sizes
    | rewrite get_u16_app by sizes
    | rewrite get_u32_app by sizes
    | rewrite copy_app by sizes
    | rewrite take_vec_bind by sizes
    | rewrite take_vec_all by sizes
    | rewrite ltb_ge_false by (autorewrite with wire; lia)
    | rewrite eqb_pos_false by (autorewrite with wire; lia) ]; run).

Lemma get_hello_start_app v r rest :
  wf_version v → wf_random r →
  get_hello_start (to_be 1 (major v) ++ to_be 1 (minor v) ++ to_be 4 (gmt_unix_time r) ++
    random_bytes r ++ rest) = Ok (v, r, rest).
Proof.
  destruct v, r. intros [??] [??]. cbn in *. unfold get_hello_start. by gets.
Qed.

Lemma get_extensions_app what e :
  Z.of_nat (length e) < 65536 →
  get_extensions what (if decide (e = []) then [] else to_be 2 (len16 e) ++ e) = Ok (e, []).
Proof.
  intros He. unfold get_extensions. case_decide as Hnil; [by subst|].
  rewrite (proj2 (Nat.leb_le _ _)) by (autorewrite with wire; lia). gets.
  rewrite <- (app_nil_r e) at 2. by rewrite take_vec_app by sizes.
Qed.

Lemma get_u16s_concat l fuel :
  Forall u16 l → (length l ≤ fuel)%nat → get_u16s fuel (concat (to_be 2 <$> l)) = Ok l.
Proof.
  intros Hl. revert fuel. induction Hl as [|x l Hx _ IH]; intros fuel Hf; [by destruct fuel|].
  destruct fuel as [|fuel]; [cbn in Hf; lia|]. cbn [get_u16s fmap list_fmap concat].
  gets. rewrite IH by (cbn in Hf; lia). done.
Qed.

Lemma concat_u16_length l : length (concat (to_be 2 <$> l)) = (length l * 2)%nat.
Proof. induction l as [|x l IH]; cbn; [done|]. autorewrite with wire. lia. Qed.

Lemma ClientHello_roundtrip h :
  wf_client_hello h → ClientHello_decode (ClientHello_encode h []) = Ok (h, []).
Proof.
  intros (Hv & Hr & Hs & Hc & Hn & Hcs & Hm & He).
  unfold ClientHello_encode. rewrite put_extensions_layout, put_u16s_layout, Random_encode_layout.
  autorewrite with crate. rewrite <- !app_assoc, app_nil_l.
  unfold ClientHello_decode. destruct Hr as [Hg Hrb].
  rewrite ltb_ge_false by (autorewrite with wire; lia). rewrite get_hello_start_app by done. run.
  unfold as_u16. rewrite Z.mod_small by lia. gets.
  rewrite <- concat_u16_length.
  gets. rewrite get_u16s_concat by (done || rewrite ?concat_u16_length; lia). run. gets.
  rewrite get_extensions_app by done. by destruct h.
Qed.

Lemma ServerHello_roundtrip h :
  wf_server_hello h → ServerHello_decode (ServerHello_encode h []) = Ok (h, []).
Proof.
  intros (Hv & Hr & Hs & Hc & Hm & He).
  unfold ServerHello_encode. rewrite put_extensions_layout, Random_encode_layout.
  autorewrite with crate. rewrite <- !app_assoc, app_nil_l.
  unfold ServerHello_decode. pose proof Hr as [Hg Hrb].
  rewrite ltb_ge_false by (autorewrite with wire; lia). rewrite get_hello_start_app by done. run.
  gets. rewrite get_extensions_app by done. by destruct h.
Qed.

Lemma HelloVerifyRequest_roundtrip h :
  wf_hello_verify h → HelloVerifyRequest_decode (HelloVerifyRequest_encode h []) = Ok (h, []).
Proof.
  destruct h as [[ma mi] c]. intros ([Hma Hmi] & Hc). cbn in *.
  unfold HelloVerifyRequest_encode. autorewrite with crate. rewrite <- !app_assoc, app_nil_l.
  unfold HelloVerifyRequest_decode. cbn [hv_version hv_cookie major minor].
  by gets.
Qed.

Lemma ServerKeyExchange_roundtrip k :
  wf_server_key_exchange k → ServerKeyExchange_decode (ServerKeyExchange_encode k []) = Ok (k, []).
Proof.
  destruct k as [ct nc pk sig]. intros (Hct & Hnc & Hpk & Hsig). cbn in *.
  unfold ServerKeyExchange_encode. autorewrite with crate. rewrite <- !app_assoc, app_nil_l.
  unfold ServerKeyExchange_decode. cbn [curve_type named_curve ske_public_key ske_signature].
  by gets.
Qed.

Lemma ClientKeyExchange_roundtrip k :
  wf_client_key_exchange k → ClientKeyExchange_decode (ClientKeyExchange_encode k []) = Ok (k, []).
Proof.
  destruct k as [h pk]. intros [Hh Hpk]. cbn in *. subst h.
  unfold ClientKeyExchange_encode. rewrite decide_True by done. autorewrite with crate.
  unfold ClientKeyExchange_decode. cbn [identity_hint cke_public_key app].
  by gets.
Qed.

Lemma Finished_roundtrip f : Finished_decode (Finished_encode f []) = Ok (f, []).
Proof.
  unfold Finished_encode, Finished_decode. autorewrite with crate. cbn [app].
  rewrite split_front_ge by done. cbn. rewrite drop_all. by destruct f.
Qed.

Lemma decode_certs_concat l fuel :
  Z.of_nat (length (certs_bytes l)) < 16777216 → (length (certs_bytes l) ≤ fuel)%nat →
  decode_certs fuel (certs_bytes l) = Ok l.
Proof.
  revert fuel. induction l as [|c l IH]; intros fuel Hl Hf; [by destruct fuel|].
  unfold certs_bytes in *. cbn in *. rewrite <- app_assoc in *. autorewrite with wire in Hl, Hf.
  destruct fuel as [|fuel]; [lia|]. cbn [decode_certs].
  rewrite eqb_pos_false, ltb_ge_false by (autorewrite with wire; lia).
  rewrite be24_at_hd by ulia. run. rewrite advance_ge by (autorewrite with wire; lia). run.
  drops. rewrite take_vec_app by done. run. rewrite IH by lia. done.
Qed.

Lemma CertificateMessage_roundtrip m :
  wf_certificates m → CertificateMessage_decode (CertificateMessage_encode m []) = Ok (m, []).
Proof.
  destruct m as [l]. unfold wf_certificates. cbn [certificates]. intros Hl.
  unfold CertificateMessage_encode. cbn [certificates].
  rewrite certs_length, put_certs_layout, put_u24_layout by done. cbn [app Nat.add].
  unfold as_u32. rewrite Z.mod_small by lia.
  unfold CertificateMessage_decode. rewrite ltb_ge_false by (autorewrite with wire; lia).
  rewrite be24_at_hd by ulia. run. rewrite advance_ge by (autorewrite with wire; lia). run.
  drops. rewrite <- (app_nil_r (certs_bytes l)) at 2. rewrite take_vec_app by done. run.
  by rewrite decode_certs_concat.
Qed.

(** C25: Every well-formed DTLS record and handshake message (ClientHello,
    ServerHello, HelloVerifyRequest, Certificate, ServerKeyExchange,
    ClientKeyExchange, Finished) is decoded from its encoding to the same value,
    and what follows a record or a message in the buffer is left there. *)
Theorem dtls_messages_roundtrip r m ch sh hv cm sk ck f rest :
  (wf_record r → DtlsRecord_decode (DtlsRecord_encode r [] ++ rest) = Ok (Some r, rest)) ∧
  (wf_handshake m → HandshakeMessage_decode (HandshakeMessage_encode m [] ++ rest) = Ok (Some m, rest)) ∧
  (wf_client_hello ch → ClientHello_decode (ClientHello_encode ch []) = Ok (ch, [])) ∧
  (wf_server_hello sh → ServerHello_decode (ServerHello_encode sh []) = Ok (sh, [])) ∧
  (wf_hello_verify hv → HelloVerifyRequest_decode (HelloVerifyRequest_encode hv []) = Ok (hv, [])) ∧
  (wf_certificates cm → CertificateMessage_decode (CertificateMessage_encode cm []) = Ok (cm, [])) ∧
  (wf_server_key_exchange sk → ServerKeyExchange_decode (ServerKeyExchange_encode sk []) = Ok (sk, [])) ∧
  (wf_client_key_exchange ck → ClientKeyExchange_decode (ClientKeyExchange_encode ck []) = Ok (ck, [])) ∧
  Finished_decode (Finished_encode f []) = Ok (f, []).
Proof.
  split_and!; auto using DtlsRecord_roundtrip, HandshakeMessage_roundtrip, ClientHello_roundtrip,
    ServerHello_roundtrip, HelloVerifyRequest_roundtrip, CertificateMessage_roundtrip,
    ServerKeyExchange_roundtrip, ClientKeyExchange_roundtrip, Finished_roundtrip.
Qed.

End roundtrips.

(** ** Arbitrary bytes *)

Section arbitrary.
Context `{BytesCrate, !BytesLaws}.

Lemma take_vec_not_panic len what l : take_vec len what l ≠ Panic.
Proof.
  unfold take_vec. destruct (Nat.ltb_spec (length l) (Z.to_nat len)); [done|].
  by rewrite split_to_spec, split_front_ge.
Qed.

Lemma take_vec_inv len what l a r :
  take_vec len what l = Ok (a, r) → l = a ++ r ∧ length a = Z.to_nat len.
Proof.
  unfold take_vec. destruct (Nat.ltb_spec (length l) (Z.to_nat len)); [done|].
  rewrite split_to_spec. intros Hs%or_panic_Ok. by apply split_front_inv in Hs.
Qed.

Lemma get_u8_ge {A} (k : Z * list Z → res RtcError A) l :
  (1 ≤ length l)%nat → (or_panic (get_u8 l) ≫= k) = k (of_be (take 1 l), drop 1 l).
Proof. intros. by rewrite get_u8_spec, read_be_ge. Qed.
Lemma get_u16_ge {A} (k : Z * list Z → res RtcError A) l :
  (2 ≤ length l)%nat → (or_panic (get_u16 l) ≫= k) = k (of_be (take 2 l), drop 2 l).
Proof. intros. by rewrite get_u16_spec, read_be_ge. Qed.
Lemma get_u32_ge {A} (k : Z * list Z → res RtcError A) l :
  (4 ≤ length l)%nat → (or_panic (get_u32 l) ≫= k) = k (of_be (take 4 l), drop 4 l).
Proof. intros. by rewrite get_u32_spec, read_be_ge. Qed.
Lemma copy_ge {A} (k : list Z * list Z → res RtcError A) l n :
  (n ≤ length l)%nat → (or_panic (copy_to_bytes n l) ≫= k) = k (take n l, drop n l).
Proof. intros. by rewrite copy_to_bytes_spec, split_front_ge. Qed.
Lemma split_to_ge l n : (n ≤ length l)%nat → split_to n l = Some (take n l, drop n l).
Proof. intros. by rewrite split_to_spec, split_front_ge. Qed.

Lemma be24_at_ok l i : (i + 3 ≤ length l)%nat → ∃ x, be24_at l i = Ok x.
Proof. intros. unfold be24_at. rewrite slice_ok by lia. run. eauto. Qed.

(** Steps of the no-abort proofs that concern the [bytes] crate *)
Ltac npb_step :=
  match goal with
  | |- (or_panic (get_u8 _) ≫= _) ≠ Panic => rewrite get_u8_ge by (autorewrite with wire; lia)
  | |- (or_panic (get_u16 _) ≫= _) ≠ Panic => rewrite get_u16_ge by (autorewrite with wire; lia)
  | |- (or_panic (get_u32 _) ≫= _) ≠ Panic => rewrite get_u32_ge by (autorewrite with wire; lia)
  | |- (or_panic (copy_to_bytes _ _) ≫= _) ≠ Panic => rewrite copy_ge by (autorewrite with wire; lia)
  | |- (or_panic (advance _ _) ≫= _) ≠ Panic =>
      rewrite advance_ge by (autorewrite with wire; lia); run
  | |- (or_panic (split_to _ _) ≫= _) ≠ Panic =>
      rewrite split_to_ge by (autorewrite with wire; lia); run
  | |- (be24_at ?l ?i ≫= _) ≠ Panic =>
      let H := fresh in
      destruct (be24_at_ok l i) as [? H]; [autorewrite with wire; lia|rewrite H; run]
  | |- (take_vec _ _ _ ≫= _) ≠ Panic =>
      let H := fresh in
      apply bind_not_panic; [apply take_vec_not_panic|intros [? ?] [H ?]%take_vec_inv];
      apply (f_equal length) in H
  | |- (if (?a =? ?b)%nat then _ else _) ≠ Panic => destruct (Nat.eqb_spec a b)
  | |- take_vec _ _ _ ≠ Panic => apply take_vec_not_panic
  | _ => np_step
  end; autorewrite with wire in *.
Ltac npb := repeat npb_step.

Lemma ContentType_try_from_np x : ContentType_try_from x ≠ Panic.
Proof. unfold ContentType_try_from. by repeat case_match. Qed.
Lemma HandshakeType_try_from_np x : HandshakeType_try_from x ≠ Panic.
Proof. unfold HandshakeType_try_from. by repeat case_match. Qed.

Lemma DtlsRecord_decode_np buf : DtlsRecord_decode buf ≠ Panic.
Proof. unfold DtlsRecord_decode, RECORD_HEADER_SIZE. npb. apply ContentType_try_from_np. Qed.

Lemma HandshakeMessage_decode_np buf : HandshakeMessage_decode buf ≠ Panic.
Proof. unfold HandshakeMessage_decode, HANDSHAKE_HEADER_SIZE. npb. apply HandshakeType_try_from_np. Qed.

Lemma HelloVerifyRequest_decode_np buf : HelloVerifyRequest_decode buf ≠ Panic.
Proof. unfold HelloVerifyRequest_decode. npb. Qed.

Lemma ServerKeyExchange_decode_np buf : ServerKeyExchange_decode buf ≠ Panic.
Proof. unfold ServerKeyExchange_decode. npb. Qed.

Lemma ClientKeyExchange_decode_np buf : ClientKeyExchange_decode buf ≠ Panic.
Proof. unfold ClientKeyExchange_decode. npb. Qed.

Lemma Finished_decode_np buf : Finished_decode buf ≠ Panic.
Proof. unfold Finished_decode. npb. Qed.

Lemma decode_certs_np fuel l : (length l ≤ fuel)%nat → decode_certs fuel l ≠ Panic.
Proof.
  revert l. induction fuel as [|fuel IH]; intros l Hl; cbn [decode_certs]; npb; try lia.
  by apply IH; lia.
Qed.

Lemma CertificateMessage_decode_np buf : CertificateMessage_decode buf ≠ Panic.
Proof. unfold CertificateMessage_decode. npb. by apply decode_certs_np. Qed.

Lemma get_u16s_np fuel l : (length l ≤ fuel)%nat → get_u16s fuel l ≠ Panic.
Proof.
  revert l. induction fuel as [|fuel IH]; intros l Hl; cbn [get_u16s]; npb; try lia.
  by apply IH; autorewrite with wire; lia.
Qed.

Lemma get_extensions_np what l : get_extensions what l ≠ Panic.
Proof. unfold get_extensions. npb. Qed.

Lemma get_hello_start_ge {A} (k : ProtocolVersion * Random * list Z → res RtcError A) l :
  (34 ≤ length l)%nat → ∃ v r, (get_hello_start l ≫= k) = k (v, r, drop 34 l).
Proof.
  intros Hl. unfold get_hello_start.
  rewrite get_u8_ge by lia. run. rewrite get_u8_ge by (autorewrite with wire; lia). run.
  rewrite get_u32_ge by (autorewrite with wire; lia). run.
  rewrite copy_ge by (autorewrite with wire; lia). run. rewrite !drop_drop. cbn [Nat.add]. eauto.
Qed.

Lemma panic_iff {A} (x : res RtcError A) (P : Prop) : (P → x = Panic) → (¬ P → x ≠ Panic) → Decision P → x = Panic ↔ P.
Proof. intros H1 H2 [?|?]; naive_solver. Qed.

(** The hellos are checked for 34 bytes, but the length of the session
    identifier is the 35th. *)
Lemma ClientHello_decode_panic buf : ClientHello_decode buf = Panic ↔ length buf = 34%nat.
Proof.
  unfold ClientHello_decode. destruct (Nat.ltb_spec (length buf) 34) as [|Hge]; [split; [done|lia]|].
  match goal with |- (get_hello_start buf ≫= ?k) = _ ↔ _ =>
    destruct (get_hello_start_ge k buf Hge) as (v & r & ->) end.
  apply panic_iff; [| |apply _]; intros E.
  - rewrite drop_ge by lia. by rewrite get_u8_spec.
  - npb; [apply get_u16s_np; lia|apply get_extensions_np].
Qed.

Lemma ServerHello_decode_panic buf : ServerHello_decode buf = Panic ↔ length buf = 34%nat.
Proof.
  unfold ServerHello_decode. destruct (Nat.ltb_spec (length buf) 34) as [|Hge]; [split; [done|lia]|].
  match goal with |- (get_hello_start buf ≫= ?k) = _ ↔ _ =>
    destruct (get_hello_start_ge k buf Hge) as (v & r & ->) end.
  apply panic_iff; [| |apply _]; intros E.
  - rewrite drop_ge by lia. by rewrite get_u8_spec.
  - npb. apply get_extensions_np.
Qed.

(** What a decoder hands out was in the buffer, in front of what it leaves. *)
Lemma DtlsRecord_decode_rest buf r rest :
  DtlsRecord_decode buf = Ok (Some r, rest) →
  rest = drop (13 + length (payload r)) buf ∧ (13 + length (payload r) + length rest = length buf)%nat.
Proof.
  unfold DtlsRecord_decode, RECORD_HEADER_SIZE. intros Hd.
  destruct (Nat.ltb_spec (length buf) 13); [congruence|]. res_inv.
  match goal with H : (if ?b then _ else _) = Ok _ |- _ => destruct b eqn:?; [congruence|] end.
  res_inv. rewrite advance_ge in * by lia. simplify_eq.
  match goal with H : split_to _ _ = _ |- _ => rewrite split_to_spec in H; pose proof H as H'; apply split_front_inv in H as [Hl Hn] end.
  cbn [payload]. rewrite Hn, <- drop_drop, Hl. rewrite <- Hn, drop_app_length. split; [done|].
  apply (f_equal length) in Hl. autorewrite with wire in Hl. lia.
Qed.

Lemma HandshakeMessage_decode_rest buf m rest :
  HandshakeMessage_decode buf = Ok (Some m, rest) →
  buf = take (12 + length (body m)) buf ++ rest ∧
  (12 + length (body m) + length rest = length buf)%nat ∧
  length (body m) = Z.to_nat (fragment_length m).
Proof.
  unfold HandshakeMessage_decode, HANDSHAKE_HEADER_SIZE. intros Hd.
  destruct (Nat.ltb_spec (length buf) 12); [congruence|]. res_inv.
  match goal with H : (if ?b then _ else _) = Ok _ |- _ => destruct b eqn:?; [congruence|] end.
  res_inv. rewrite advance_ge in * by lia. simplify_eq.
  match goal with H : split_to _ _ = _ |- _ => rewrite split_to_spec in H; apply split_front_inv in H as [Hl Hn] end.
  cbn [body fragment_length]. pose proof (f_equal length Hl) as Hlen. autorewrite with wire in Hlen.
  split_and!; [|lia|done]. rewrite <- (take_drop 12 buf) at 1. rewrite Hl, <- (take_take_drop buf 12).
  rewrite Hl. rewrite take_app_length. by rewrite app_assoc.
Qed.

End arbitrary.

(** ** The round trip on concrete messages *)
Definition sample_record : DtlsRecord :=
  {| content_type := Handshake; version := DTLS_1_2; epoch := 1; sequence_number := 5; payload := [1; 2; 3] |}.
Definition sample_message : HandshakeMessage :=
  {| msg_type := TFinished; total_length := 2; message_seq := 3; fragment_offset := 0; fragment_length := 2;
     body := [8; 9] |}.
Definition sample_random : Random := {| gmt_unix_time := 77; random_bytes := replicate 28 6 |}.
Definition sample_client_hello : ClientHello :=
  {| ch_version := DTLS_1_2; ch_random := sample_random; ch_session_id := []; ch_cookie := [1; 2];
     cipher_suites := [0xC02B; 0x009C]; compression_methods := [0]; ch_extensions := [0; 23; 0; 0] |}.
Definition sample_server_hello : ServerHello :=
  {| sh_version := DTLS_1_2; sh_random := sample_random; sh_session_id := [4]; cipher_suite := 0xC02B;
     compression_method := 0; sh_extensions := [] |}.

Lemma sample_messages_wf :
  wf_record sample_record ∧ wf_handshake sample_message ∧
  wf_client_hello sample_client_hello ∧ wf_server_hello sample_server_hello.
Proof.
  unfold wf_record, wf_handshake, wf_client_hello, wf_server_hello, wf_version, wf_random. cbn.
  split_and!; try ulia; repeat constructor; ulia.
Qed.

Lemma dtls_messages_roundtrip_witness :
  @DtlsRecord_decode vec_crate (@DtlsRecord_encode vec_crate sample_record [] ++ [7]) = Ok (Some sample_record, [7]) ∧
  @HandshakeMessage_decode vec_crate (@HandshakeMessage_encode vec_crate sample_message [] ++ [7]) = Ok (Some sample_message, [7]) ∧
  @ClientHello_decode vec_crate (@ClientHello_encode vec_crate sample_client_hello []) = Ok (sample_client_hello, []) ∧
  @ServerHello_decode vec_crate (@ServerHello_encode vec_crate sample_server_hello []) = Ok (sample_server_hello, []).
Proof.
  destruct (@dtls_messages_roundtrip vec_crate vec_laws sample_record sample_message sample_client_hello
    sample_server_hello {| hv_version := DTLS_1_0; hv_cookie := [] |} {| certificates := [] |}
    {| curve_type := 3; named_curve := 23; ske_public_key := []; ske_signature := [] |}
    {| identity_hint := []; cke_public_key := [] |} {| verify_data := [] |} [7]) as (H1 & H2 & H3 & H4 & _).
  destruct sample_messages_wf as (W1 & W2 & W3 & W4).
  split; [exact (H1 W1)|split; [exact (H2 W2)|split; [exact (H3 W3)|exact (H4 W4)]]].
Defined.
