(* ===== verification/DtlsCrypto.v ===== *)
(** * Keys and record protection of DTLS
      ([src/transports/dtls/mod.rs], [src/transports/dtls/x509_min.rs])

    Certificates, the pseudo-random function and the keys derived with it, and
    the AES-GCM protection of records.  The hash, MAC and cipher crates and
    the public-key backend behind the trait [DtlsCrypto]
    ([src/platform/crypto.rs]) are a class of operations. *)
From S2P Require Import Prelude Core BytesCrate Str Words DtlsRecord.

(** [Some] of a result is [Ok] in the source, [None] an error of the crate.
    A randomised operation takes the number of the random draw. *)
Class DtlsCrypto := {
  sha256 : list Z → list Z;
  (* [Hmac::<Sha256>::new_from_slice], then [update] and [finalize] *)
  hmac_sha256_new : list Z → option (list Z → list Z);
  (* [Aes128Gcm::new_from_slice] succeeds *)
  aes128_key_ok : list Z → bool;
  (* key, nonce, associated data, message (and tag) *)
  encrypt_in_place_detached : list Z → list Z → list Z → list Z → option (list Z * list Z);
  decrypt_in_place_detached : list Z → list Z → list Z → list Z → list Z → option (list Z);
  (* [Aead::decrypt]: the tag follows the message *)
  aead_decrypt : list Z → list Z → list Z → list Z → option (list Z);
  SigningKey : Type;
  VerifyingKey : Type;
  EcdhSecret : Type;
  signing_key_from_pkcs8_der : list Z → option SigningKey;
  sign : nat → SigningKey → list Z → option (list Z);
  verifying_key : SigningKey → option VerifyingKey;
  verifying_key_from_point : list Z → option VerifyingKey;
  verify : VerifyingKey → list Z → list Z → bool;
  ecdh_generate : nat → option (list Z * EcdhSecret);
  shared_secret : EcdhSecret → list Z → option (list Z);
  (* [platform::rng::fill] of a buffer of the given size, [platform::time::unix_ms] *)
  rng_fill : nat → nat → list Z;
  unix_ms : nat → option Z;
}.

(** The documented behaviour of these crates. *)
Class DtlsCryptoLaws `{DtlsCrypto} : Prop := {
  sha256_length d : length (sha256 d) = 32%nat;
  sha256_bytes d : bytes (sha256 d);
  hmac_any_key k : ∃ f, hmac_sha256_new k = Some f;
  hmac_output k f d : hmac_sha256_new k = Some f → length (f d) = 32%nat;
  aes128_key k : aes128_key_ok k = true ↔ length k = 16%nat;
  gcm_roundtrip k n a m :
    Z.of_nat (length m) ≤ 2 ^ 36 →
    ∃ c t, encrypt_in_place_detached k n a m = Some (c, t) ∧ length c = length m ∧
      length t = 16%nat ∧ decrypt_in_place_detached k n a c t = Some m;
  gcm_postfix_tag k n a c t :
    length t = 16%nat → aead_decrypt k n a (c ++ t) = decrypt_in_place_detached k n a c t;
  sign_verifies i sk m :
    ∃ sig vk, sign i sk m = Some sig ∧ Z.of_nat (length sig) ≤ 72 ∧
      verifying_key sk = Some vk ∧ verify vk m sig = true;
  ecdh_generates i : ∃ p s, ecdh_generate i = Some (p, s) ∧ length p = 65%nat;
  ecdh_agrees i j p q s t :
    ecdh_generate i = Some (p, s) → ecdh_generate j = Some (q, t) →
    ∃ z, shared_secret s q = Some z ∧ shared_secret t p = Some z;
  rng_length i n : length (rng_fill i n) = n;
}.

(** A mapped error: [.map_err(|_| dtls_err!(..))?] *)
Definition or_internal {A} (o : option A) (what : string) : res RtcError A := ok_or o (Internal what).

(** ** DER *)

Module X509.

(** [for byte in bytes { l = (l << 8) | byte }] *)
Definition fold_len (l : list Z) : Z := foldl (fun l b => Z.lor (Z.shiftl l 8) b) 0 l.

(** The length of the contents and the offset at which they start *)
Definition tlv_len (input : list Z) (first : Z) : res RtcError (nat * nat) :=
  if Z.land first 0x80 =? 0 then Ok (Z.to_nat first, 2%nat) else
  let n := Z.to_nat (Z.land first 0x7f) in
  if (n =? 0)%nat || (4 <? n)%nat || (length input <? 2 + n)%nat
  then Err (Internal "DER: unsupported length encoding") else
  s ← slice input 2 (2 + n);
  Ok (Z.to_nat (fold_len s), (2 + n)%nat).

(** One tag-length-value: the tag, the contents and what follows. *)
Definition tlv (input : list Z) : res RtcError (Z * list Z * list Z) :=
  if (length input <? 2)%nat then Err (Internal "DER: truncated header") else
  tag ← idx input 0;
  first ← idx input 1;
  '(len, i) ← tlv_len input first;
  if (length input <? i + len)%nat then Err (Internal "DER: contents overrun") else
  contents ← slice input i (i + len);
  rest ← slice input (i + len) (length input);
  Ok (tag, contents, rest).

Definition expect (input : list Z) (tag : Z) (what : string) : res RtcError (list Z * list Z) :=
  '(t, contents, rest) ← tlv input;
  if negb (t =? tag) then Err (Internal ("DER: expected tag for " +:+ what)) else
  Ok (contents, rest).

Definition OID_EC_PUBLIC_KEY : list Z := [0x2a; 0x86; 0x48; 0xce; 0x3d; 0x02; 0x01].
Definition OID_PRIME256V1 : list Z := [0x2a; 0x86; 0x48; 0xce; 0x3d; 0x03; 0x01; 0x07].

(** The optional version in front of the serial number *)
Definition skip_version (rest : list Z) : res RtcError (list Z) :=
  match rest with
  | b :: _ => if b =? 0xa0 then '(_, r) ← expect rest 0xa0 "version"; Ok r else Ok rest
  | [] => Ok rest
  end.

Definition extract_p256_point (certificate_der : list Z) : res RtcError (list Z) :=
  '(cert, _) ← expect certificate_der 0x30 "Certificate";
  '(tbs, _) ← expect cert 0x30 "tbsCertificate";
  rest ← skip_version tbs;
  '(_, rest) ← expect rest 0x02 "serialNumber";
  '(_, rest) ← expect rest 0x30 "signature AlgorithmIdentifier";
  '(_, rest) ← expect rest 0x30 "issuer";
  '(_, rest) ← expect rest 0x30 "validity";
  '(_, rest) ← expect rest 0x30 "subject";
  '(spki, _) ← expect rest 0x30 "subjectPublicKeyInfo";
  '(alg, spki_rest) ← expect spki 0x30 "algorithm";
  '(ec_oid, alg_rest) ← expect alg 0x06 "ecPublicKey OID";
  if negb (bool_decide (ec_oid = OID_EC_PUBLIC_KEY))
  then Err (Internal "certificate public key is not id-ecPublicKey") else
  '(curve_oid, _) ← expect alg_rest 0x06 "named curve OID";
  if negb (bool_decide (curve_oid = OID_PRIME256V1))
  then Err (Internal "certificate curve is not prime256v1") else
  '(bits, _) ← expect spki_rest 0x03 "subjectPublicKey";
  match bits with
  | b :: point =>
      if negb (b =? 0) then Err (Internal "subjectPublicKey has unexpected unused bits")
      else Ok point
  | [] => Err (Internal "subjectPublicKey has unexpected unused bits")
  end.

End X509.

(** ** Certificates *)

Record Certificate := { certificate : list (list Z); private_key_pkcs8 : list Z }.

Record SessionKeys := {
  client_write_key : list Z;
  server_write_key : list Z;
  client_write_iv : list Z;
  server_write_iv : list Z;
  master_secret : list Z;
  client_random : list Z;
  server_random : list Z;
}.

(** A cipher object is represented by its key. *)
Record SessionCrypto := {
  keys : SessionKeys;
  client_write_cipher : list Z;
  server_write_cipher : list Z;
}.

(** [format!("{:02X}", b)] *)
Definition hex_digit (d : Z) : Z := if d <? 10 then 48 + d else 55 + d.
Definition hex2 (b : Z) : str := [hex_digit (b / 16); hex_digit (b mod 16)].

Section crypto.
Context `{BytesCrate, DtlsCrypto}.

Definition fingerprint_from_der (certificate_der : list Z) : str :=
  join (lit ":") (hex2 <$> sha256 certificate_der).

Definition certificate_public_key (certificate_der : list Z) : res RtcError VerifyingKey :=
  point ← X509.extract_p256_point certificate_der;
  or_internal (verifying_key_from_point point) "bad EC point".

(** The parameters a server signs *)
Definition signed_params (client_random server_random : list Z) (curve_type named_curve : Z)
    (public_key : list Z) : list Z :=
  client_random ++ server_random ++ [curve_type] ++ to_be 2 named_curve ++
  [len8 public_key] ++ public_key.

Definition verify_server_key_exchange_signature (certificate_der client_random server_random : list Z)
    (ske : ServerKeyExchange) : res RtcError unit :=
  let pk_len := length (ske_public_key ske) in
  if (255 <? pk_len)%nat then Err (Internal "ServerKeyExchange public key too long") else
  vk ← certificate_public_key certificate_der;
  let params := signed_params client_random server_random (curve_type ske) (named_curve ske)
                  (ske_public_key ske) in
  if verify vk params (ske_signature ske) then Ok tt
  else Err (Internal "ServerKeyExchange signature verification failed").

Definition get_client_hello_extensions : list Z :=
  [0x00; 0x17; 0x00; 0x00] ++
  [0x00; 0x0e; 0x00; 0x07; 0x00; 0x04; 0x00; 0x07; 0x00; 0x01; 0x00] ++
  [0x00; 0x0a; 0x00; 0x04; 0x00; 0x02; 0x00; 0x17] ++
  [0x00; 0x0b; 0x00; 0x02; 0x01; 0x00] ++
  [0x00; 0x0d; 0x00; 0x0a; 0x00; 0x08; 0x04; 0x03; 0x04; 0x01; 0x05; 0x03; 0x05; 0x01].

Definition get_client_hello_cipher_suites : list Z := [0xC02B; 0xC02F; 0x009C].

Definition SUPPORTED_CIPHER_SUITE : Z := 0xC02B.

Definition negotiate_cipher_suite (offered : list Z) : option Z :=
  if bool_decide (SUPPORTED_CIPHER_SUITE ∈ offered) then Some SUPPORTED_CIPHER_SUITE else None.

(** ** Keys *)

(** [while output.len() < output_length { .. }]: an iteration adds at least one
    byte, so the length asked for is enough fuel. *)
Fixpoint prf_loop (mac : list Z → list Z) (real_seed a output : list Z) (output_length fuel : nat)
    : res RtcError (list Z) :=
  if (output_length <=? length output)%nat then Ok output else
  match fuel with
  | O => Panic
  | S fuel =>
      let a := mac a in
      let block := mac (a ++ real_seed) in
      let len := Nat.min (length block) (output_length - length output) in
      prf_loop mac real_seed a (output ++ take len block) output_length fuel
  end.

Definition prf_sha256 (secret label seed : list Z) (output_length : nat) : res RtcError (list Z) :=
  let real_seed := label ++ seed in
  mac ← or_internal (hmac_sha256_new secret) "Invalid key length";
  prf_loop mac real_seed real_seed [] output_length output_length.

Definition expand_keys (master_secret client_random server_random : list Z) : res RtcError SessionKeys :=
  key_block ← prf_sha256 master_secret (lit "key expansion") (server_random ++ client_random) 40;
  cwk ← slice key_block 0 16;
  swk ← slice key_block 16 32;
  cwi ← slice key_block 32 36;
  swi ← slice key_block 36 40;
  Ok {| client_write_key := cwk; server_write_key := swk; client_write_iv := cwi;
        server_write_iv := swi; master_secret := master_secret;
        client_random := client_random; server_random := server_random |}.

Definition create_session_crypto (k : SessionKeys) : res RtcError SessionCrypto :=
  if negb (aes128_key_ok (client_write_key k)) then Err (Internal "Invalid key length") else
  if negb (aes128_key_ok (server_write_key k)) then Err (Internal "Invalid key length") else
  Ok {| keys := k; client_write_cipher := client_write_key k;
        server_write_cipher := server_write_key k |}.

Definition calculate_verify_data (master_secret label handshake_messages : list Z)
    : res RtcError (list Z) :=
  prf_sha256 master_secret label (sha256 handshake_messages) 12.

(** ** Records *)

Definition make_aad (seq : Z) (ct : ContentType) (v : ProtocolVersion) (length_ : nat) : list Z :=
  to_be 8 seq ++ [ContentType_u8 ct] ++ [major v] ++ [minor v] ++ to_be 2 (as_u16 (Z.of_nat length_)).

(** [nonce[0..4].copy_from_slice(iv); nonce[4..12].copy_from_slice(explicit)] *)
Definition make_nonce (iv explicit : list Z) : res RtcError (list Z) :=
  if (length iv =? 4)%nat && (length explicit =? 8)%nat then Ok (iv ++ explicit) else Panic.

Definition decrypt_record_with_cipher (ct : ContentType) (v : ProtocolVersion) (seq : Z)
    (payload cipher iv : list Z) : res RtcError (list Z) :=
  if (length payload <? 8 + 16)%nat then Err (Internal "Record too short") else
  explicit_nonce ← slice payload 0 8;
  let ciphertext_len := (length payload - 8 - 16)%nat in
  ciphertext ← slice payload 8 (8 + ciphertext_len);
  tag ← slice payload (8 + ciphertext_len) (length payload);
  nonce ← make_nonce iv explicit_nonce;
  let aad := make_aad seq ct v ciphertext_len in
  or_internal (decrypt_in_place_detached cipher nonce aad ciphertext tag) "Decryption failed".

Definition decrypt_record (ct : ContentType) (v : ProtocolVersion) (seq : Z)
    (payload key iv : list Z) : res RtcError (list Z) :=
  if (length payload <? 8)%nat then Err (Internal "Record too short for explicit nonce") else
  explicit_nonce ← slice payload 0 8;
  ciphertext ← slice payload 8 (length payload);
  if (length ciphertext <? 16)%nat then Err (Internal "Ciphertext too short for tag") else
  nonce ← make_nonce iv explicit_nonce;
  if negb (aes128_key_ok key) then Err (Internal "Invalid key length") else
  let plaintext_len := (length ciphertext - 16)%nat in
  let aad := make_aad seq ct v plaintext_len in
  or_internal (aead_decrypt key nonce aad ciphertext) "Decryption failed".

Definition encrypt_record (ct : ContentType) (v : ProtocolVersion) (seq : Z)
    (payload key iv : list Z) : res RtcError (list Z) :=
  nonce ← make_nonce iv (to_be 8 seq);
  if negb (aes128_key_ok key) then Err (Internal "Invalid key length") else
  let aad := make_aad seq ct v (length payload) in
  '(c, tag) ← or_internal (encrypt_in_place_detached key nonce aad payload) "Encryption failed";
  Ok (to_be 8 seq ++ c ++ tag).

(** [((epoch as u64) << 48) | seq] *)
Definition full_sequence (epoch seq : Z) : Z := Z.lor (as_u64 (Z.shiftl epoch 48)) seq.

End crypto.
