(* ===== verification/DtlsCryptoFacts.v ===== *)
(** * Keys and record protection of DTLS: theorems

    The pseudo-random function against the definition of RFC 5246, the
    certificate walk against a DER encoder, round trips of protected records,
    and a concrete instance of the cryptographic laws. *)
From S2P Require Import Prelude Core BytesCrate Str DtlsRecord DtlsRecordFacts DtlsCrypto.

(** ** The pseudo-random function

    RFC 5246, section 5: [P_hash(secret, seed)] is the concatenation of
    [HMAC(secret, A(i) + seed)] for [i] = 1, 2, ... with [A(0) = seed] and
    [A(i) = HMAC(secret, A(i-1))]. *)
Fixpoint p_hash (mac : list Z → list Z) (seed a : list Z) (blocks : nat) : list Z :=
  match blocks with
  | O => []
  | S n => mac (mac a ++ seed) ++ p_hash mac seed (mac a) n
  end.

Lemma p_hash_length mac seed a n :
  (∀ d, length (mac d) = 32%nat) → length (p_hash mac seed a n) = (32 * n)%nat.
Proof.
  intros Hm. revert a. induction n as [|n IH]; intros a; cbn [p_hash]; [done|].
  rewrite length_app, Hm, IH. lia.
Qed.

Lemma prf_loop_spec mac seed a out n fuel :
  (∀ d, length (mac d) = 32%nat) → (length out ≤ n)%nat → (n - length out ≤ fuel)%nat →
  ∀ k, (n - length out ≤ 32 * k)%nat →
  prf_loop mac seed a out n fuel = Ok (out ++ take (n - length out) (p_hash mac seed a k)).
Proof.
  intros Hm. revert a out. induction fuel as [|fuel IH]; intros a out Hout Hf k Hk; cbn [prf_loop].
  { replace (n - length out)%nat with 0%nat by lia. rewrite take_0, app_nil_r.
    by rewrite (proj2 (Nat.leb_le n (length out))) by lia. }
  destruct (Nat.leb_spec n (length out)).
  { replace (n - length out)%nat with 0%nat by lia. by rewrite take_0, app_nil_r. }
  destruct k as [|k]; [lia|]. cbn [p_hash]. rewrite Hm.
  set (b := mac (mac a ++ seed)). assert (length b = 32%nat) as Hb by apply Hm.
  rewrite (IH (mac a) (out ++ take (32 `min` (n - length out)) b)) with (k := k)
    by (autorewrite with wire; lia).
  autorewrite with wire. rewrite <- app_assoc. f_equal. f_equal.
  rewrite take_app. rewrite Hb. destruct (decide (32 ≤ n - length out)%nat).
  - rewrite Nat.min_l by lia. rewrite !(take_ge b) by lia. do 2 f_equal. lia.
  - rewrite Nat.min_r by lia.
    replace (n - (length out + (n - length out) `min` 32))%nat with 0%nat by lia.
    replace (n - length out - 32)%nat with 0%nat by lia. by rewrite !take_0.
Qed.

(** ** DER certificates

    A reference encoder: definite lengths in the short form, and in the long
    form with one to four bytes. *)
Definition der_len (n : Z) : list Z :=
  if n <? 128 then [n]
  else if n <? 256 then 0x81 :: to_be 1 n
  else if n <? 65536 then 0x82 :: to_be 2 n
  else if n <? 16777216 then 0x83 :: to_be 3 n
  else 0x84 :: to_be 4 n.

Definition der (tag : Z) (contents : list Z) : list Z :=
  tag :: der_len (Z.of_nat (length contents)) ++ contents.

(** A certificate with the given fields; [version] and what follows the key
    are optional. *)
Record CertFields := {
  cf_version : option (list Z);
  cf_serial : list Z;
  cf_sigalg : list Z;
  cf_issuer : list Z;
  cf_validity : list Z;
  cf_subject : list Z;
  cf_point : list Z;
  cf_extensions : list Z;
  cf_signature : list Z;
}.

Definition der_spki (point : list Z) : list Z :=
  der 0x30 (der 0x30 (der 0x06 X509.OID_EC_PUBLIC_KEY ++ der 0x06 X509.OID_PRIME256V1)
            ++ der 0x03 (0 :: point)).

Definition der_tbs (f : CertFields) : list Z :=
  match cf_version f with Some v => der 0xa0 v | None => [] end ++
  der 0x02 (cf_serial f) ++ der 0x30 (cf_sigalg f) ++ der 0x30 (cf_issuer f) ++
  der 0x30 (cf_validity f) ++ der 0x30 (cf_subject f) ++ der_spki (cf_point f) ++ cf_extensions f.

Definition der_certificate (f : CertFields) : list Z :=
  der 0x30 (der 0x30 (der_tbs f) ++ cf_signature f).

Lemma fold_len_app l b : X509.fold_len (l ++ [b]) = Z.lor (Z.shiftl (X509.fold_len l) 8) b.
Proof. unfold X509.fold_len. by rewrite foldl_app. Qed.

Lemma fold_len_of_be l : bytes l → X509.fold_len l = of_be l.
Proof.
  induction l as [|b l IH] using rev_ind; intros Hl; [done|].
  apply Forall_app in Hl as [Hl Hb]. apply Forall_cons in Hb as [Hb _].
  rewrite fold_len_app, IH, lor_bytes2 by done.
  clear IH Hl. Transparent of_be. induction l as [|a l IH]; [cbn; lia|].
  cbn [of_be app]. Opaque of_be. rewrite <- IH.
  rewrite length_app. cbn [length]. rewrite Nat2Z.inj_add, Z.pow_add_r by lia. lia.
Qed.

Lemma tlv_long tag n k contents rest :
  1 ≤ k ≤ 4 → n = Z.of_nat (length contents) → n < 256 ^ k →
  X509.tlv (tag :: (128 + k) :: to_be (Z.to_nat k) n ++ contents ++ rest) = Ok (tag, contents, rest).
Proof.
  intros Hk Hn Hb. unfold X509.tlv, X509.tlv_len.
  rewrite ltb_ge_false by (autorewrite with wire; lia). rewrite idx_hd. run. rewrite idx_tl, idx_hd. run.
  assert ((Z.land (128 + k) 0x80 =? 0) = false ∧ Z.land (128 + k) 0x7f = k) as [-> ->].
  { assert (k = 1 ∨ k = 2 ∨ k = 3 ∨ k = 4) as [->|[->|[->| ->]]] by lia; done. }
  rewrite eqb_pos_false by lia. rewrite (ltb_ge_false 4) by lia.
  rewrite ltb_ge_false by (autorewrite with wire; lia). cbn [orb Nat.add].
  rewrite slice_tl, slice_tl, slice_app_hd by apply length_to_be. run.
  rewrite fold_len_of_be, of_be_to_be by apply to_be_bytes.
  rewrite Z2Nat.id by lia. rewrite Z.mod_small by lia.
  replace (Z.to_nat n) with (length contents) by lia.
  rewrite ltb_ge_false by (autorewrite with wire; lia). cbn [Nat.add].
  rewrite slice_tl, slice_tl, (slice_next _ _ _ _ 0 (length contents)) by (rewrite length_to_be; lia).
  rewrite slice_app_hd by done. run.
  replace (length (tag :: 128 + k :: _)) with (S (S (Z.to_nat k + (length contents + length rest))))
    by (autorewrite with wire; lia).
  rewrite slice_tl, slice_tl, (slice_next _ _ _ _ (length contents) (length contents + length rest))
    by (rewrite length_to_be; lia).
  rewrite (slice_next _ _ _ _ 0 (length rest)) by lia.
  rewrite slice_ok by lia. by rewrite drop_0, Nat.sub_0_r, firstn_all.
Qed.

Lemma short_form n : 0 ≤ n < 128 → (Z.land n 0x80 =? 0) = true.
Proof.
  intros Hn. assert (∀ x, u8 x → negb (x <? 128) || (Z.land x 0x80 =? 0) = true) as Hx.
  { intros x Hx. byte_check x; [by vm_compute|done]. }
  specialize (Hx n ltac:(ulia)). destruct (Z.ltb_spec n 128); [done|lia].
Qed.

Lemma tlv_der tag contents rest :
  Z.of_nat (length contents) < 4294967296 →
  X509.tlv (der tag contents ++ rest) = Ok (tag, contents, rest).
Proof.
  intros Hn. unfold der, der_len. set (n := Z.of_nat (length contents)) in *.
  destruct (Z.ltb_spec n 128).
  - cbn [app]. unfold X509.tlv, X509.tlv_len. rewrite ltb_ge_false by (autorewrite with wire; lia).
    rewrite idx_hd. run. rewrite idx_tl, idx_hd. run. rewrite short_form by ulia.
    run. replace (Z.to_nat n) with (length contents) by lia.
    rewrite ltb_ge_false by (autorewrite with wire; lia). cbn [Nat.add].
    rewrite slice_tl, slice_tl, slice_app_hd by done. run.
    replace (length (tag :: n :: _)) with (S (S (length contents + length rest)))
      by (autorewrite with wire; lia).
    rewrite slice_tl, slice_tl, (slice_next _ _ _ _ 0 (length rest)) by lia.
    rewrite slice_ok by lia. by rewrite drop_0, Nat.sub_0_r, firstn_all.
  - repeat case_match; cbn [app]; rewrite <- app_assoc.
    + apply (tlv_long tag n 1); lia.
    + apply (tlv_long tag n 2); lia.
    + apply (tlv_long tag n 3); lia.
    + apply (tlv_long tag n 4); lia.
Qed.

Lemma expect_der tag contents rest what :
  Z.of_nat (length contents) < 4294967296 →
  X509.expect (der tag contents ++ rest) tag what = Ok (contents, rest).
Proof. intros. unfold X509.expect. rewrite tlv_der by done. run. by rewrite Z.eqb_refl. Qed.

Lemma expect_der_all tag contents what :
  Z.of_nat (length contents) < 4294967296 →
  X509.expect (der tag contents) tag what = Ok (contents, []).
Proof. intros. rewrite <- (app_nil_r (der _ _)). by apply expect_der. Qed.

Lemma der_length tag contents : (length contents < length (der tag contents))%nat.
Proof. unfold der. cbn. rewrite length_app. lia. Qed.

(** The walk finds the public key of any certificate with a P-256 key,
    whatever its names, dates, extensions and signature. *)
Lemma extract_p256_point_der f :
  Z.of_nat (length (der_certificate f)) < 4294967296 →
  X509.extract_p256_point (der_certificate f) = Ok (cf_point f).
Proof.
  intros Hl. unfold der_certificate in *. unfold X509.extract_p256_point.
  pose proof (der_length 0x30 (der 0x30 (der_tbs f) ++ cf_signature f)) as Hl1.
  pose proof (der_length 0x30 (der_tbs f)). rewrite length_app in Hl1.
  rewrite expect_der_all by (rewrite length_app; lia). run.
  rewrite expect_der by lia. run.
  assert (X509.skip_version (der_tbs f) = Ok (der 0x02 (cf_serial f) ++ der 0x30 (cf_sigalg f) ++
    der 0x30 (cf_issuer f) ++ der 0x30 (cf_validity f) ++ der 0x30 (cf_subject f) ++
    der_spki (cf_point f) ++ cf_extensions f)) as ->.
  { unfold der_tbs in *. destruct (cf_version f) as [v|]; [|done].
    rewrite length_app in *. pose proof (der_length 0xa0 v).
    unfold X509.skip_version. cbn [der app]. rewrite Z.eqb_refl.
    change (?a :: ?b ++ ?c) with ((a :: b) ++ c). fold (der 0xa0 v).
    by rewrite expect_der by lia. }
  run. assert (Z.of_nat (length (der_tbs f)) < 4294967296) as Ht by lia. clear Hl Hl1.
  unfold der_tbs in Ht. rewrite !length_app in Ht.
  pose proof (der_length 0x02 (cf_serial f)). pose proof (der_length 0x30 (cf_sigalg f)).
  pose proof (der_length 0x30 (cf_issuer f)). pose proof (der_length 0x30 (cf_validity f)).
  pose proof (der_length 0x30 (cf_subject f)).
  rewrite expect_der by lia. run. rewrite expect_der by lia. run. rewrite expect_der by lia. run.
  rewrite expect_der by lia. run. rewrite expect_der by lia. run.
  unfold der_spki in *. set (alg := der 0x06 X509.OID_EC_PUBLIC_KEY ++ der 0x06 X509.OID_PRIME256V1) in *.
  pose proof (der_length 0x30 (der 0x30 alg ++ der 0x03 (0 :: cf_point f))) as Hs.
  rewrite length_app in Hs. pose proof (der_length 0x30 alg). pose proof (der_length 0x03 (0 :: cf_point f)).
  rewrite expect_der by (rewrite length_app; lia). run. rewrite expect_der by lia. run.
  unfold alg. rewrite expect_der by (cbn; lia). run. rewrite bool_decide_true by done. run.
  rewrite (expect_der_all 0x06) by (cbn; lia). run. rewrite bool_decide_true by done. run.
  rewrite expect_der_all by lia. done.
Qed.

(** The walk never aborts. *)
Lemma tlv_np input : X509.tlv input ≠ Panic.
Proof.
  unfold X509.tlv, X509.tlv_len. np.
Qed.

Lemma expect_np input tag what : X509.expect input tag what ≠ Panic.
Proof. unfold X509.expect. np. by apply tlv_np. Qed.

Lemma extract_np der : X509.extract_p256_point der ≠ Panic.
Proof.
  unfold X509.extract_p256_point.
  repeat first [ apply bind_not_panic; [apply expect_np|intros [? ?] _]
               | apply bind_not_panic; [|intros ? _] | case_match | done ].
  unfold X509.skip_version. repeat case_match; try done.
  apply bind_not_panic; [apply expect_np|]. by intros [? ?] _.
Qed.

(** From a DER certificate with a P-256 key the minimal X.509 walk extracts
    exactly the public point, for all lengths of the other fields and with or
    without a version, and it never aborts on other bytes. *)
Theorem x509_point_extracted f data :
  (Z.of_nat (length (der_certificate f)) < 4294967296 →
   X509.extract_p256_point (der_certificate f) = Ok (cf_point f)) ∧
  X509.extract_p256_point data ≠ Panic.
Proof. split; [apply extract_p256_point_der|apply extract_np]. Qed.

(** ** Keys *)

Section keys.
Context `{BytesCrate, !BytesLaws, DtlsCrypto, !DtlsCryptoLaws}.

(** The pseudo-random function returns [n] bytes of [P_SHA256]. *)
Lemma prf_sha256_spec secret label seed mac n k :
  hmac_sha256_new secret = Some mac → (n ≤ 32 * k)%nat →
  prf_sha256 secret label seed n = Ok (take n (p_hash mac (label ++ seed) (label ++ seed) k)).
Proof.
  intros Hmac Hk. unfold prf_sha256, or_internal. rewrite Hmac. run.
  rewrite (prf_loop_spec _ _ _ _ _ _ ltac:(intros; by eapply hmac_output)) with (k := k) by (cbn; lia).
  by rewrite Nat.sub_0_r.
Qed.

Lemma prf_sha256_ok secret label seed n :
  ∃ out, prf_sha256 secret label seed n = Ok out ∧ length out = n.
Proof.
  destruct (hmac_any_key secret) as [mac Hmac].
  rewrite (prf_sha256_spec _ _ _ _ n n Hmac) by lia. eexists; split; [done|].
  rewrite length_take, p_hash_length by (intros; by eapply hmac_output). lia.
Qed.

(** The sizes AES-128-GCM needs *)
Definition wf_keys (k : SessionKeys) : Prop :=
  length (client_write_key k) = 16%nat ∧ length (server_write_key k) = 16%nat ∧
  length (client_write_iv k) = 4%nat ∧ length (server_write_iv k) = 4%nat.

Lemma expand_keys_ok ms cr sr : ∃ k, expand_keys ms cr sr = Ok k ∧ wf_keys k ∧
  master_secret k = ms ∧ client_random k = cr ∧ server_random k = sr.
Proof.
  unfold expand_keys.
  destruct (prf_sha256_ok ms (lit "key expansion") (sr ++ cr) 40) as (kb & -> & Hkb). run.
  rewrite !slice_ok by lia. run. eexists. split; [done|]. split; [|done]. unfold wf_keys.
  cbn [client_write_key server_write_key client_write_iv server_write_iv].
  split_and!; rewrite length_take, length_drop; lia.
Qed.

(** C32: The key block and the verify data that the code computes are the first
    40 and 12 bytes of P_SHA256 of RFC 5246, cut into the four keys and vectors
    in the order of the RFC. *)
Theorem dtls_key_schedule ms cr sr label hm :
  ∃ mac k v, hmac_sha256_new ms = Some mac ∧
    expand_keys ms cr sr = Ok k ∧
    client_write_key k ++ server_write_key k ++ client_write_iv k ++ server_write_iv k =
      take 40 (p_hash mac (lit "key expansion" ++ sr ++ cr) (lit "key expansion" ++ sr ++ cr) 2) ∧
    wf_keys k ∧ master_secret k = ms ∧ client_random k = cr ∧ server_random k = sr ∧
    calculate_verify_data ms label hm = Ok v ∧
    v = take 12 (p_hash mac (label ++ sha256 hm) (label ++ sha256 hm) 1).
Proof.
  destruct (hmac_any_key ms) as [mac Hmac]. exists mac.
  destruct (expand_keys_ok ms cr sr) as (k & Hk & Hwf & ? & ? & ?). exists k. eexists. split; [done|].
  split; [done|]. split.
  - unfold expand_keys in Hk. rewrite (prf_sha256_spec _ _ _ _ 40 2 Hmac) in Hk by lia. run in Hk.
    set (kb := take 40 _) in *. assert (length kb = 40%nat) as Hl.
    { unfold kb. rewrite length_take, p_hash_length by (intros; by eapply hmac_output). done. }
    rewrite !slice_ok in Hk by lia. run in Hk. injection Hk as <-. 
    cbn [client_write_key server_write_key client_write_iv server_write_iv Nat.sub].
    rewrite drop_0, (take_ge (drop 36 kb)) by (rewrite length_drop; lia).
    change (drop 36 kb) with (drop (32 + 4) kb). rewrite <- (drop_drop kb 4 32), take_drop.
    change (drop 32 kb) with (drop (16 + 16) kb). rewrite <- (drop_drop kb 16 16), take_drop.
    apply take_drop.
  - split_and!; try done. unfold calculate_verify_data. by rewrite (prf_sha256_spec _ _ _ _ 12 1 Hmac) by lia.
Qed.

Lemma create_session_crypto_ok k :
  wf_keys k →
  create_session_crypto k = Ok {| keys := k; client_write_cipher := client_write_key k;
                                  server_write_cipher := server_write_key k |}.
Proof.
  intros (Hc & Hs & _). unfold create_session_crypto.
  by rewrite (proj2 (aes128_key _) Hc), (proj2 (aes128_key _) Hs).
Qed.

Lemma calculate_verify_data_ok ms label hm :
  ∃ v, calculate_verify_data ms label hm = Ok v ∧ length v = 12%nat.
Proof. apply prf_sha256_ok. Qed.

(** ** Protected records *)

Lemma make_nonce_ok iv ex : length iv = 4%nat → length ex = 8%nat → make_nonce iv ex = Ok (iv ++ ex).
Proof. intros Hi He. unfold make_nonce. by rewrite Hi, He. Qed.

(** What is encrypted can be decrypted with the same key, vector, sequence
    number, type and version, by both routines of the receiver. *)
Lemma encrypt_record_ok ct v seq p key iv :
  length key = 16%nat → length iv = 4%nat → Z.of_nat (length p) ≤ 2 ^ 36 →
  ∃ e, encrypt_record ct v seq p key iv = Ok e ∧ length e = (length p + 24)%nat ∧
    decrypt_record ct v seq e key iv = Ok p ∧ decrypt_record_with_cipher ct v seq e key iv = Ok p.
Proof.
  intros Hk Hiv Hp. unfold encrypt_record.
  rewrite make_nonce_ok by (done || apply length_to_be). run. rewrite (proj2 (aes128_key _) Hk). run.
  set (aad := make_aad seq ct v (length p)).
  destruct (gcm_roundtrip key (iv ++ to_be 8 seq) aad p Hp) as (c & t & -> & Hc & Ht & Hd). run.
  exists (to_be 8 seq ++ c ++ t). split; [done|].
  assert (length (to_be 8 seq ++ c ++ t) = (length p + 24)%nat) as Hl
    by (rewrite !length_app, length_to_be; lia).
  split; [done|]. split.
  - unfold decrypt_record. rewrite Hl, ltb_ge_false by lia.
    rewrite slice_app_hd by apply length_to_be. run.
    rewrite (slice_next _ _ _ _ 0 (length p + 16)) by (rewrite length_to_be; lia).
    rewrite slice_ok by (rewrite ?length_app; lia).
    rewrite drop_0, Nat.sub_0_r, take_ge by (rewrite length_app; lia). run.
    rewrite ltb_ge_false by (rewrite length_app; lia).
    rewrite make_nonce_ok by (done || apply length_to_be). run. rewrite (proj2 (aes128_key _) Hk). run.
    rewrite length_app. replace (length c + length t - 16)%nat with (length p) by lia.
    rewrite gcm_postfix_tag by done. fold aad. by rewrite Hd.
  - unfold decrypt_record_with_cipher. rewrite Hl, ltb_ge_false by lia.
    replace (length p + 24 - 8 - 16)%nat with (length p) by lia.
    rewrite slice_app_hd by apply length_to_be. run.
    rewrite (slice_next _ _ 8 (8 + length p) 0 (length p)) by (rewrite length_to_be; lia).
    rewrite slice_app_hd by done. run.
    rewrite (slice_next _ _ _ _ (length p) (length p + 16)) by (rewrite length_to_be; lia).
    rewrite (slice_next _ _ _ _ 0 16) by lia.
    rewrite slice_ok by lia. rewrite drop_0, Nat.sub_0_r, take_ge by lia. run.
    rewrite make_nonce_ok by (done || apply length_to_be). run. fold aad. by rewrite Hd.
Qed.

End keys.

(** The 64-bit sequence number of a record: epoch and counter side by side *)
Lemma full_sequence_eq e s : u16 e → u48 s → full_sequence e s = e * 2 ^ 48 + s.
Proof.
  intros He Hs. unfold full_sequence, as_u64.
  rewrite Z.mod_small by (rewrite Z.shiftl_mul_pow2 by lia; ulia).
  apply lor_shiftl_add; [lia|]. ulia.
Qed.

Lemma full_sequence_u64 e s : u16 e → u48 s → u64 (full_sequence e s).
Proof. intros He Hs. rewrite full_sequence_eq by done. ulia. Qed.

Lemma full_sequence_inj e s e' s' :
  u16 e → u48 s → u16 e' → u48 s' → full_sequence e s = full_sequence e' s' → e = e' ∧ s = s'.
Proof. intros ????. rewrite !full_sequence_eq by done. ulia. Qed.

(** ** An instance of the cryptographic laws

    Checksums in place of hashes, so that the laws can be seen to hold
    together and the models can be run. *)
Definition sum_tag (n : nat) (l : list (list Z)) : list Z :=
  to_be n (foldr (fun d acc => 3 * acc + of_be d) 1 l).

Definition sum_crypto : DtlsCrypto := {|
  sha256 d := sum_tag 32 [d];
  hmac_sha256_new k := Some (fun d => sum_tag 32 [k; d]);
  aes128_key_ok k := bool_decide (length k = 16%nat);
  encrypt_in_place_detached k n a m := Some (m, sum_tag 16 [k; n; a; m]);
  decrypt_in_place_detached k n a c t :=
    if bool_decide (t = sum_tag 16 [k; n; a; c]) then Some c else None;
  aead_decrypt k n a ct :=
    let i := (length ct - 16)%nat in
    if bool_decide (drop i ct = sum_tag 16 [k; n; a; take i ct]) then Some (take i ct) else None;
  SigningKey := list Z;
  VerifyingKey := list Z;
  EcdhSecret := Z;
  signing_key_from_pkcs8_der der := Some der;
  sign _ sk m := Some (sum_tag 8 [sk; m]);
  verifying_key sk := Some sk;
  verifying_key_from_point p := Some p;
  verify vk m sig := bool_decide (sig = sum_tag 8 [vk; m]);
  ecdh_generate i := Some (replicate 64 0 ++ [Z.of_nat i mod 256], Z.of_nat i mod 256);
  shared_secret s q := Some (to_be 32 (s * default 0 (last q)));
  rng_fill i n := replicate n (Z.of_nat i mod 256);
  unix_ms _ := Some 0;
|}.

Lemma sum_laws : @DtlsCryptoLaws sum_crypto.
Proof.
  split; cbn -[replicate last].
  - intros. apply length_to_be.
  - intros. apply to_be_bytes.
  - eauto.
  - intros k f d [= <-]. apply length_to_be.
  - intros k. by rewrite bool_decide_eq_true.
  - intros k n a m _. eexists _, _. split; [done|]. split; [done|].
    split; [apply length_to_be|]. by rewrite bool_decide_true.
  - intros k n a c t Ht. rewrite length_app, Ht, Nat.add_sub, take_app_length, drop_app_length. done.
  - intros i sk m. eexists _, _. split_and!; [done| |done|by rewrite bool_decide_true].
    unfold sum_tag. rewrite length_to_be. lia.
  - intros i. eexists _, _. split; [done|]. by rewrite length_app, length_replicate.
  - intros i j p q s t [= <- <-] [= <- <-]. eexists. split; [done|]. cbn. by rewrite Z.mul_comm.
  - intros. apply length_replicate.
Qed.

Lemma dtls_key_schedule_witness :
  ∃ mac k v, @hmac_sha256_new sum_crypto [1; 2] = Some mac ∧
    @expand_keys sum_crypto [1; 2] [3] [4] = Ok k ∧
    client_write_key k ++ server_write_key k ++ client_write_iv k ++ server_write_iv k =
      take 40 (p_hash mac (lit "key expansion" ++ [4] ++ [3]) (lit "key expansion" ++ [4] ++ [3]) 2) ∧
    wf_keys k ∧ master_secret k = [1; 2] ∧ client_random k = [3] ∧ server_random k = [4] ∧
    @calculate_verify_data sum_crypto [1; 2] (lit "client finished") [9] = Ok v ∧
    v = take 12 (p_hash mac (lit "client finished" ++ @sha256 sum_crypto [9])
                            (lit "client finished" ++ @sha256 sum_crypto [9]) 1).
Proof. apply (@dtls_key_schedule sum_crypto sum_laws). Defined.

(** A version 3 certificate with the fields that the walk skips *)
Definition sample_certificate : CertFields :=
  {| cf_version := Some [2; 1; 2]; cf_serial := [7]; cf_sigalg := [6; 1; 9]; cf_issuer := [];
     cf_validity := [23; 0]; cf_subject := []; cf_extensions := [163; 0]; cf_point := replicate 65 4; cf_signature := [3; 1; 0] |}.

