(* ===== verification/Dtls.v ===== *)
(** * The DTLS handshake engine ([src/transports/dtls/mod.rs])

    [DtlsInner] and its [HandshakeContext] as one state, [Sys], and the
    methods of the engine as state transformers: incoming records, reassembly
    and ordering of handshake messages, the handlers of both roles, the
    handshake task and application data.

    What the engine hands to the connection is appended to [s_sent], and the
    application data it delivers to [s_incoming].  A failed send of a flight
    is only logged by the code, so it is no event here.  [s_draws] counts the
    random draws.  The watch channel [state_tx] is its last value. *)
From S2P Require Import Prelude Core BytesCrate BTree Str StateRes RecordSet DtlsRecord DtlsCrypto.

Definition MAX_APP_DATA_RECORD_SIZE : nat := 1200.
Definition MAX_HANDSHAKE_MESSAGE_LEN : Z := 65536.
Definition MAX_PENDING_HANDSHAKE_MESSAGES : nat := 16.
Definition MAX_FINAL_FLIGHT_RESENDS : Z := 12.

(** ** Reassembly of fragments *)

Record HandshakeReassembly := {
  hr_message_seq : Z;
  hr_total_length : nat;
  hr_buf : list Z;
  hr_have : list bool;
  hr_have_count : nat;
}.
#[export] Instance eta_HandshakeReassembly : Settable _ :=
  settable! Build_HandshakeReassembly < hr_message_seq; hr_total_length; hr_buf; hr_have; hr_have_count >.

Definition HandshakeReassembly_default : HandshakeReassembly :=
  {| hr_message_seq := 0; hr_total_length := 0; hr_buf := []; hr_have := []; hr_have_count := 0 |}.

(** [for (i, byte) in body.iter().enumerate()], from index [start] *)
Fixpoint fill_bytes (r : HandshakeReassembly) (start : nat) (body : list Z)
    : res RtcError HandshakeReassembly :=
  match body with
  | [] => Ok r
  | byte :: body =>
      have ← or_panic (hr_have r !! start);
      r ← (if have : bool then Ok r else
           if (start <? length (hr_buf r))%nat
           then Ok (r <| hr_have ::= <[start := true]> |> <| hr_buf ::= <[start := byte]> |>
                      <| hr_have_count ::= S |>)
           else Panic);
      fill_bytes r (S start) body
  end.

(** [push]: the state after the call is returned with its result. *)
Definition HandshakeReassembly_push (r : HandshakeReassembly) (message_seq : Z) (total_length : nat)
    (fragment_offset : Z) (body : list Z) : HandshakeReassembly * res RtcError (option (list Z)) :=
  if (total_length =? 0)%nat || (MAX_HANDSHAKE_MESSAGE_LEN <? Z.of_nat total_length)
  then (r, Err (Internal "handshake message total_length out of range")) else
  if (total_length <? Z.to_nat fragment_offset + length body)%nat
  then (r, Err (Internal "handshake fragment exceeds total_length")) else
  let fresh := (length (hr_buf r) =? 0)%nat || negb (hr_message_seq r =? message_seq) in
  if negb fresh && negb (hr_total_length r =? total_length)%nat
  then (r, Err (Internal "handshake message_seq changed total_length")) else
  let r := if fresh
           then {| hr_message_seq := message_seq; hr_total_length := total_length;
                   hr_buf := replicate total_length 0; hr_have := replicate total_length false;
                   hr_have_count := 0 |}
           else r in
  match fill_bytes r (Z.to_nat fragment_offset) body with
  | Ok r =>
      if (hr_have_count r <? hr_total_length r)%nat then (r, Ok None)
      else (HandshakeReassembly_default, Ok (Some (hr_buf r)))
  | Err e => (r, Err e)
  | Panic => (r, Panic)
  end.

(** ** State *)

Inductive DtlsState :=
| New
| Handshaking
| Connected (crypto : SessionCrypto) (srtp_profile : option Z)
| Failed
| Closed.

Definition is_handshaking (s : DtlsState) : bool := match s with Handshaking => true | _ => false end.
Definition is_connected (s : DtlsState) : bool := match s with Connected _ _ => true | _ => false end.
Definition is_failed (s : DtlsState) : bool := match s with Failed => true | _ => false end.

Record HandshakeContext `{DtlsCrypto} := {
  c_sequence_number : Z;
  c_epoch : Z;
  c_read_epoch : Z;
  c_message_seq : Z;
  c_recv_message_seq : Z;
  c_post_hvr : bool;
  c_last_flight_records : option (list (list Z));
  c_final_flight_resends : Z;
  c_incomplete_fragments : HandshakeReassembly;
  c_pending_messages : list (Z * (HandshakeMessage * list Z));
  c_local_secret : option EcdhSecret;
  c_local_public_key_bytes : list Z;
  c_peer_public_key : option (list Z);
  c_peer_certificate : option (list Z);
  c_client_random : option (list Z);
  c_server_random : option (list Z);
  c_session_keys : option SessionKeys;
  c_session_crypto : option SessionCrypto;
  c_handshake_messages : list Z;
  c_ems_negotiated : bool;
  c_srtp_profile : option Z;
  c_expected_remote_fingerprint : option str;
  c_server_key_exchange_verified : bool;
}.

Record Sys `{DtlsCrypto} := {
  s_state : DtlsState;
  s_state_tx : DtlsState;
  s_write_seq : Z;
  s_write_epoch : Z;
  s_sent : list (list Z);
  s_incoming : list (list Z);
  s_draws : nat;
  s_ctx : HandshakeContext;
}.

#[export] Instance eta_HandshakeContext `{DtlsCrypto} : Settable HandshakeContext :=
  settable! (Build_HandshakeContext _) < c_sequence_number; c_epoch; c_read_epoch; c_message_seq;
    c_recv_message_seq; c_post_hvr; c_last_flight_records; c_final_flight_resends;
    c_incomplete_fragments; c_pending_messages; c_local_secret; c_local_public_key_bytes;
    c_peer_public_key; c_peer_certificate; c_client_random; c_server_random; c_session_keys;
    c_session_crypto; c_handshake_messages; c_ems_negotiated; c_srtp_profile;
    c_expected_remote_fingerprint; c_server_key_exchange_verified >.
#[export] Instance eta_Sys `{DtlsCrypto} : Settable Sys :=
  settable! (Build_Sys _) < s_state; s_state_tx; s_write_seq; s_write_epoch; s_sent; s_incoming;
    s_draws; s_ctx >.

Section engine.
Context `{BytesCrate, DtlsCrypto}.
Context (certificate : Certificate) (is_client : bool).
(** whether the connection accepts a datagram of application data *)
Context (conn_send : list Z → bool).

Abbreviation M := (stM Sys RtcError).

(** [HandshakeContext::new] *)
Definition HandshakeContext_new (draw : nat) (expected : option str) : res RtcError HandshakeContext :=
  '(public, secret) ← or_internal (ecdh_generate draw) "ecdh";
  Ok {| c_sequence_number := 0; c_epoch := 0; c_read_epoch := 0; c_message_seq := 0;
        c_recv_message_seq := 0; c_post_hvr := false; c_last_flight_records := None;
        c_final_flight_resends := 0; c_incomplete_fragments := HandshakeReassembly_default;
        c_pending_messages := []; c_local_secret := Some secret;
        c_local_public_key_bytes := public; c_peer_public_key := None;
        c_peer_certificate := None; c_client_random := None; c_server_random := None;
        c_session_keys := None; c_session_crypto := None; c_handshake_messages := [];
        c_ems_negotiated := false; c_srtp_profile := None;
        c_expected_remote_fingerprint := expected; c_server_key_exchange_verified := false |}.

(** ** Small steps *)

Definition upd (f : HandshakeContext → HandshakeContext) : M unit := modify (fun s => s <| s_ctx ::= f |>).
Definition ctx : M HandshakeContext := s ← get_st; mret (s_ctx s).

(** [*self.state.lock() = st; let _ = self.state_tx.send(st)] *)
Definition set_state (st : DtlsState) : M unit :=
  modify (fun s => s <| s_state := st |> <| s_state_tx := st |>).

(** One random draw *)
Definition draw : M nat := fun s => (s <| s_draws ::= S |>, Ok (s_draws s)).

Definition send_records (records : list (list Z)) : M unit :=
  modify (fun s => s <| s_sent ::= fun l => l ++ records |>).

(** [Random::new()] *)
Definition new_random : M Random := n ← draw; mret (Random_new (unix_ms n) (rng_fill n 28)).

(** [x += 1] on [u16] and [u64]: an overflow aborts *)
Definition inc16 (x : Z) : res RtcError Z := if x =? 65535 then Panic else Ok (x + 1).
Definition inc64 (x : Z) : res RtcError Z := if x =? 18446744073709551615 then Panic else Ok (x + 1).

Definition send_flight (records : list (list Z)) : M unit :=
  send_records records;; upd (set c_last_flight_records (fun _ => Some records)).

(** Resending the last flight *)
Definition resend_flight : M unit :=
  c ← ctx;
  match c_last_flight_records c with Some records => send_records records | None => mret tt end.

Definition handle_retransmit : M unit :=
  s ← get_st;
  if negb (is_handshaking (s_state s)) then mret tt else resend_flight.

(** The write key and initialisation vector of our side *)
Definition write_key (k : SessionKeys) : list Z * list Z :=
  if is_client then (client_write_key k, client_write_iv k) else (server_write_key k, server_write_iv k).

Definition build_handshake_record (msg : HandshakeMessage) (session_keys : option SessionKeys) : M (list Z) :=
  c ← ctx;
  let payload := HandshakeMessage_encode msg [] in
  record_payload ←
    match session_keys with
    | Some k =>
        if 0 <? c_epoch c then
          lift (encrypt_record Handshake DTLS_1_2 (full_sequence (c_epoch c) (c_sequence_number c))
                  payload (write_key k).1 (write_key k).2)
        else mret payload
    | None => mret payload
    end;
  let record := {| content_type := Handshake; version := DTLS_1_2; epoch := c_epoch c;
                   sequence_number := c_sequence_number c; payload := record_payload |} in
  next ← lift (inc64 (c_sequence_number c));
  upd (set c_sequence_number (fun _ => next));;
  mret (DtlsRecord_encode record []).

(** An unfragmented message of our side *)
Definition whole_message (t : HandshakeType) (message_seq : Z) (body : list Z) : HandshakeMessage :=
  {| msg_type := t; total_length := len32 body; message_seq := message_seq; fragment_offset := 0;
     fragment_length := len32 body; body := body |}.

(** Building a message of a flight: it joins the transcript, then the record
    is built. *)
Definition build_message (t : HandshakeType) (body : list Z) (session_keys : option SessionKeys) : M (list Z) :=
  c ← ctx;
  let msg := whole_message t (c_message_seq c) body in
  upd (set c_handshake_messages (fun h => h ++ HandshakeMessage_encode msg []));;
  build_handshake_record msg session_keys.

Definition next_message_seq : M unit :=
  c ← ctx;
  n ← lift (inc16 (c_message_seq c));
  upd (set c_message_seq (fun _ => n)).

Definition send_handshake_failure_alert : M unit :=
  c ← ctx;
  send_records [DtlsRecord_encode {| content_type := Alert; version := DTLS_1_2; epoch := 0;
    sequence_number := c_sequence_number c; payload := [2; 40] |} []].

(** ** Handlers of handshake messages *)

Definition handle_certificate (msg : HandshakeMessage) : M unit :=
  '(cert_msg, _) ← lift (CertificateMessage_decode (body msg));
  match certificates cert_msg with
  | [] =>
      set_state Failed;;
      fail (Internal "DTLS certificate message did not contain a leaf certificate")
  | leaf_certificate :: _ =>
      c ← ctx;
      let actual_fingerprint := fingerprint_from_der leaf_certificate in
      let mismatch := match c_expected_remote_fingerprint c with
                      | Some expected => negb (bool_decide (actual_fingerprint = expected))
                      | None => false
                      end in
      if mismatch then set_state Failed;; fail (Internal "DTLS fingerprint mismatch") else
      match certificate_public_key leaf_certificate with
      | Err e => set_state Failed;; fail e
      | Panic => abort
      | Ok _ => upd (set c_peer_certificate (fun _ => Some leaf_certificate))
      end
  end.

(** [while idx < 2 + len && idx + 1 < data.len() { .. idx += 2 }] *)
Fixpoint srtp_profiles_loop (fuel : nat) (data : list Z) (len idx : nat) : res RtcError (list Z) :=
  if (idx <? 2 + len)%nat && (idx + 1 <? length data)%nat then
    match fuel with
    | O => Panic
    | S fuel =>
        profile ← be_at 2 data idx;
        ps ← srtp_profiles_loop fuel data len (idx + 2);
        Ok (profile :: ps)
    end
  else Ok [].

Definition use_srtp_profiles (data : list Z) : res RtcError (list Z) :=
  if (2 <=? length data)%nat then
    len ← be_at 2 data 0;
    srtp_profiles_loop (length data) data (Z.to_nat len) 2
  else Ok [].

(** [while ext_buf.len() >= 4 { .. }]: the types and contents of the
    extensions, up to one that overruns the block *)
Fixpoint split_extensions (fuel : nat) (ext_buf : list Z) : res RtcError (list (Z * list Z)) :=
  if (length ext_buf <? 4)%nat then Ok [] else
  match fuel with
  | O => Panic
  | S fuel =>
      '(ext_type, ext_buf) ← or_panic (get_u16 ext_buf);
      '(ext_len, ext_buf) ← or_panic (get_u16 ext_buf);
      if (length ext_buf <? Z.to_nat ext_len)%nat then Ok [] else
      '(ext_data, ext_buf) ← or_panic (split_to (Z.to_nat ext_len) ext_buf);
      exts ← split_extensions fuel ext_buf;
      Ok ((ext_type, ext_data) :: exts)
  end.

(** What the server takes from the extensions of a ClientHello: the SRTP
    profiles offered, and whether the extended master secret was *)
Fixpoint client_extensions (exts : list (Z * list Z)) : res RtcError (list Z * bool) :=
  match exts with
  | [] => Ok ([], false)
  | (t, data) :: exts =>
      ps ← (if t =? 14 then use_srtp_profiles data else Ok []);
      '(ps', ems) ← client_extensions exts;
      Ok (ps ++ ps', (t =? 23) || ems)
  end.

Definition select_profile (srtp_profiles : list Z) : option Z :=
  match srtp_profiles with
  | [] => None
  | p :: _ => Some (if bool_decide (1 ∈ srtp_profiles) then 1 else p)
  end.

Definition server_extensions (ems : bool) (selected : option Z) : list Z :=
  [0x00; 0x0b] ++ [0x00; 0x02] ++ [0x01] ++ [0x00] ++
  [0xff; 0x01] ++ [0x00; 0x01] ++ [0x00] ++
  (if ems then [0x00; 0x17] ++ [0x00; 0x00] else []) ++
  match selected with
  | Some p => [0x00; 0x0e] ++ [0x00; 0x05] ++ [0x00; 0x02] ++ to_be 2 p ++ [0x00]
  | None => []
  end.

(** The parameters of ServerKeyExchange, signed *)
Definition sign_params : M ServerKeyExchange :=
  c ← ctx;
  let randoms := match c_client_random c, c_server_random c with
                 | Some cr, Some sr => cr ++ sr
                 | _, _ => []
                 end in
  let params := randoms ++ [3] ++ to_be 2 23 ++ [len8 (c_local_public_key_bytes c)]
                ++ c_local_public_key_bytes c in
  signing_key ← lift (or_internal (signing_key_from_pkcs8_der (private_key_pkcs8 certificate)) "bad pkcs8 key");
  n ← draw;
  signature ← lift (or_internal (sign n signing_key params) "sign");
  mret {| curve_type := 3; named_curve := 23; ske_public_key := c_local_public_key_bytes c;
          ske_signature := signature |}.

(** The server's first flight: ServerHello, Certificate, ServerKeyExchange,
    ServerHelloDone *)
Definition send_server_flight (server_hello : ServerHello) : M unit :=
  r1 ← build_message TServerHello (ServerHello_encode server_hello []) None;
  next_message_seq;;
  r2 ← build_message TCertificate
         (CertificateMessage_encode {| certificates := DtlsCrypto.certificate certificate |} []) None;
  next_message_seq;;
  ske ← sign_params;
  r3 ← build_message TServerKeyExchange (ServerKeyExchange_encode ske []) None;
  next_message_seq;;
  r4 ← build_message TServerHelloDone (ServerHelloDone_encode []) None;
  next_message_seq;;
  send_flight [r1; r2; r3; r4].

Definition handle_client_hello (msg : HandshakeMessage) : M unit :=
  if is_client then mret tt else
  c ← ctx;
  match c_server_random c with
  | Some _ => resend_flight
  | None =>
      match ClientHello_decode (body msg) with
      | Err _ => mret tt
      | Panic => abort
      | Ok (client_hello, _) =>
          upd (set c_client_random (fun _ => Some (Random_to_bytes (ch_random client_hello))));;
          exts ← lift (split_extensions (length (ch_extensions client_hello)) (ch_extensions client_hello));
          '(srtp_profiles, ems) ← lift (client_extensions exts);
          when ems (upd (set c_ems_negotiated (fun _ => true)));;
          random ← new_random;
          upd (set c_server_random (fun _ => Some (Random_to_bytes random)));;
          c ← ctx;
          let selected := select_profile srtp_profiles in
          let extensions := server_extensions (c_ems_negotiated c) selected in
          match selected with
          | Some p => upd (set c_srtp_profile (fun _ => Some p))
          | None => mret tt
          end;;
          n ← draw;
          let session_id := rng_fill n 32 in
          match negotiate_cipher_suite (cipher_suites client_hello) with
          | None =>
              send_handshake_failure_alert;;
              set_state Failed;;
              fail (Internal "ClientHello offers no supported cipher suite (need 0xC02B)")
          | Some suite =>
              send_server_flight
                {| sh_version := DTLS_1_2; sh_random := random; sh_session_id := session_id;
                   cipher_suite := suite; compression_method := 0; sh_extensions := extensions |}
          end
      end
  end.

(** The master secret and the session keys, from the shared secret *)
Definition derive_keys (c : HandshakeContext) (pre_master_secret cr sr : list Z) : res RtcError SessionKeys :=
  master_secret ←
    (if c_ems_negotiated c
     then prf_sha256 pre_master_secret (lit "extended master secret") (sha256 (c_handshake_messages c)) 48
     else prf_sha256 pre_master_secret (lit "master secret") (cr ++ sr) 48);
  expand_keys master_secret cr sr.

(** The part both sides share: the ECDH secret with the peer's key, the keys
    derived from it.  [None] where the code returns without an error. *)
Definition agree_keys (c : HandshakeContext) : res RtcError (option SessionKeys) :=
  match c_peer_public_key c, c_local_secret c with
  | Some peer_key, Some secret =>
      match shared_secret secret peer_key, c_client_random c, c_server_random c with
      | Some shared, Some cr, Some sr =>
          match derive_keys c shared cr sr with
          | Ok k => Ok (Some k)
          | Err _ => Ok None
          | Panic => Panic
          end
      | _, _, _ => Ok None
      end
  | _, _ => Ok None
  end.

Definition install_keys (k : SessionKeys) : M unit :=
  crypto ← lift (create_session_crypto k);
  upd (set c_session_crypto (fun _ => Some crypto));;
  upd (set c_session_keys (fun _ => Some k)).

Definition handle_client_key_exchange (msg : HandshakeMessage) : M unit :=
  if is_client then mret tt else
  c ← ctx;
  if c_session_keys c is Some _ then mret tt else
  match ClientKeyExchange_decode (body msg) with
  | Err _ => mret tt
  | Panic => abort
  | Ok (cke, _) =>
      upd (set c_peer_public_key (fun _ => Some (cke_public_key cke)));;
      c ← ctx;
      k ← lift (agree_keys c);
      match k with Some k => install_keys k | None => mret tt end
  end.

(** The ChangeCipherSpec record, after which the write epoch advances *)
Definition change_cipher_spec : M (list Z) :=
  c ← ctx;
  let record := DtlsRecord_encode {| content_type := ChangeCipherSpec; version := DTLS_1_2;
    epoch := c_epoch c; sequence_number := c_sequence_number c; payload := [1] |} [] in
  e ← lift (inc16 (c_epoch c));
  upd (set c_epoch (fun _ => e));;
  upd (set c_sequence_number (fun _ => 0));;
  mret record.

(** Entering the connected state *)
Definition connect (k : SessionKeys) : M unit :=
  crypto ← lift (create_session_crypto k);
  c ← ctx;
  let st := Connected crypto (c_srtp_profile c) in
  modify (fun s => s <| s_state := st |>);;
  modify (fun s => s <| s_write_epoch := c_epoch c |>);;
  modify (fun s => s <| s_write_seq := c_sequence_number c |>);;
  modify (fun s => s <| s_state_tx := st |>);;
  upd (set c_local_secret (fun _ => None)).

(** A Finished message that does not match fails the transport (without
    telling the watch channel). *)
Definition check_finished (c : HandshakeContext) (k : SessionKeys) (label : list Z) (f : Finished) : M unit :=
  expected ← lift (calculate_verify_data (master_secret k) label (c_handshake_messages c));
  if bool_decide (verify_data f = expected) then mret tt else
  modify (fun s => s <| s_state := Failed |>);;
  fail (Internal "Finished verification failed").

Definition handle_client_finished (f : Finished) (raw_msg : list Z) : M unit :=
  c ← ctx;
  match c_session_keys c with
  | Some k => check_finished c k (lit "client finished") f
  | None => mret tt
  end;;
  upd (set c_handshake_messages (fun h => h ++ raw_msg));;
  ccs ← change_cipher_spec;
  c ← ctx;
  verify_data ←
    match c_session_keys c with
    | Some k => lift (calculate_verify_data (master_secret k) (lit "server finished") (c_handshake_messages c))
    | None => mret (replicate 12 0)
    end;
  r ← build_message TFinished (Finished_encode {| verify_data := verify_data |} []) (c_session_keys c);
  send_flight [ccs; r];;
  match c_session_keys c with
  | Some k => connect k
  | None => set_state Failed;; fail (Internal "Session keys not derived")
  end.

Definition handle_server_finished (f : Finished) : M unit :=
  c ← ctx;
  match c_session_keys c with
  | Some k => check_finished c k (lit "server finished") f;; connect k
  | None => mret tt
  end.

Definition handle_finished (msg : HandshakeMessage) (raw_msg : list Z) : M unit :=
  match Finished_decode (body msg) with
  | Err _ => mret tt
  | Panic => abort
  | Ok (f, _) => if is_client then handle_server_finished f else handle_client_finished f raw_msg
  end.

(** [Random] from the 32 bytes kept in the context *)
Definition random_of_bytes (b : list Z) : res RtcError Random :=
  gmt ← be_at 4 b 0;
  rb ← slice b 4 32;
  Ok {| gmt_unix_time := gmt; random_bytes := rb |}.

Definition client_hello_with (random : Random) (cookie : list Z) : ClientHello :=
  {| ch_version := DTLS_1_2; ch_random := random; ch_session_id := []; ch_cookie := cookie;
     cipher_suites := get_client_hello_cipher_suites; compression_methods := [0];
     ch_extensions := get_client_hello_extensions |}.

Definition handle_hello_verify_request (msg : HandshakeMessage) : M unit :=
  match HelloVerifyRequest_decode (body msg) with
  | Err _ => mret tt
  | Panic => abort
  | Ok (verify_req, _) =>
      upd (set c_handshake_messages (fun _ => []));;
      c ← ctx;
      random ← match c_client_random c with
               | Some b => lift (random_of_bytes b)
               | None => new_random
               end;
      r ← build_message TClientHello (ClientHello_encode (client_hello_with random (hv_cookie verify_req)) []) None;
      send_flight [r];;
      next_message_seq;;
      upd (set c_post_hvr (fun _ => true))
  end.

(** What the client takes from the extensions of a ServerHello *)
Fixpoint apply_server_extensions (exts : list (Z * list Z)) : M unit :=
  match exts with
  | [] => mret tt
  | (t, data) :: exts =>
      (if t =? 23 then upd (set c_ems_negotiated (fun _ => true))
       else if (t =? 14) && (5 <=? length data)%nat then
         profile ← lift (be_at 2 data 2);
         upd (set c_srtp_profile (fun _ => Some profile))
       else mret tt);;
      apply_server_extensions exts
  end.

Definition handle_server_hello (msg : HandshakeMessage) : M unit :=
  if negb is_client then mret tt else
  match ServerHello_decode (body msg) with
  | Err _ => mret tt
  | Panic => abort
  | Ok (server_hello, _) =>
      if negb (cipher_suite server_hello =? SUPPORTED_CIPHER_SUITE) then
        set_state Failed;;
        fail (Internal "ServerHello negotiated unsupported cipher suite")
      else
        upd (set c_server_random (fun _ => Some (Random_to_bytes (sh_random server_hello))));;
        exts ← lift (split_extensions (length (sh_extensions server_hello)) (sh_extensions server_hello));
        apply_server_extensions exts
  end.

Definition handle_server_key_exchange (msg : HandshakeMessage) : M unit :=
  if negb is_client then mret tt else
  match ServerKeyExchange_decode (body msg) with
  | Err _ => mret tt
  | Panic => abort
  | Ok (ske, _) =>
      c ← ctx;
      match c_peer_certificate c with
      | None =>
          set_state Failed;;
          fail (Internal "Received ServerKeyExchange before a verifiable DTLS certificate")
      | Some peer_certificate =>
          match c_client_random c, c_server_random c with
          | Some cr, Some sr =>
              match verify_server_key_exchange_signature peer_certificate cr sr ske with
              | Err e => set_state Failed;; fail e
              | Panic => abort
              | Ok _ =>
                  upd (set c_peer_public_key (fun _ => Some (ske_public_key ske)));;
                  upd (set c_server_key_exchange_verified (fun _ => true))
              end
          | _, _ =>
              set_state Failed;;
              fail (Internal "Missing DTLS random values for ServerKeyExchange verification")
          end
      end
  end.

Definition handle_server_hello_done : M unit :=
  c ← ctx;
  if c_session_keys c is Some _ then mret tt else
  if is_client && negb (c_server_key_exchange_verified c) then
    set_state Failed;;
    fail (Internal "DTLS server identity was not verified before ServerHelloDone")
  else
  cke ← build_message TClientKeyExchange
          (ClientKeyExchange_encode {| identity_hint := []; cke_public_key := c_local_public_key_bytes c |} []) None;
  next_message_seq;;
  c ← ctx;
  k ← lift (agree_keys c);
  match k with
  | None => mret tt
  | Some k =>
      install_keys k;;
      ccs ← change_cipher_spec;
      c ← ctx;
      verify_data ← lift (calculate_verify_data (master_secret k) (lit "client finished") (c_handshake_messages c));
      fin ← build_message TFinished (Finished_encode {| verify_data := verify_data |} []) (c_session_keys c);
      send_flight [cke; ccs; fin];;
      next_message_seq
  end.

Definition handle_handshake_message (msg : HandshakeMessage) (raw_msg : list Z) : M unit :=
  match msg_type msg with
  | TClientHello => handle_client_hello msg
  | TClientKeyExchange => handle_client_key_exchange msg
  | TFinished => handle_finished msg raw_msg
  | THelloVerifyRequest => handle_hello_verify_request msg
  | TServerHello => handle_server_hello msg
  | TCertificate => handle_certificate msg
  | TServerKeyExchange => handle_server_key_exchange msg
  | TServerHelloDone => handle_server_hello_done
  | _ => mret tt
  end.

(** ** Ordering and reassembly of handshake messages *)

(** A message from the past: a repeated ClientHello and a repeated Finished
    make the server send its last flight again. *)
Definition handle_duplicate (msg : HandshakeMessage) (raw_msg : list Z) (epoch : Z) : M unit :=
  s ← get_st;
  let c := s_ctx s in
  if bool_decide (msg_type msg = TClientHello) && negb is_client then
    handle_handshake_message msg raw_msg
  else if bool_decide (msg_type msg = TFinished) && negb is_client && (0 <? epoch)
          && (fragment_offset msg =? 0)
          && (c_final_flight_resends c <? MAX_FINAL_FLIGHT_RESENDS)
          && is_connected (s_state s) then
    upd (set c_final_flight_resends Z.succ);;
    resend_flight
  else mret tt.

(** The tests on the sequence number; [true] when the message is the next one. *)
Definition order_message (msg : HandshakeMessage) (raw_msg : list Z) (epoch : Z) : M bool :=
  c ← ctx;
  let sync := upd (set c_recv_message_seq (fun _ => message_seq msg));;
              upd (set c_post_hvr (fun _ => false));; mret true in
  if message_seq msg <? c_recv_message_seq c then
    if c_post_hvr c && is_client then sync
    else handle_duplicate msg raw_msg epoch;; mret false
  else if c_recv_message_seq c <? message_seq msg then
    if c_post_hvr c && is_client then sync
    else if (total_length msg =? fragment_length msg)
            && (length (c_pending_messages c) <? MAX_PENDING_HANDSHAKE_MESSAGES)%nat then
      upd (set c_pending_messages (bt_insert (message_seq msg) (msg, raw_msg)));; mret false
    else mret false
  else mret true.

(** The whole message and its bytes, once all fragments are there *)
Definition reassemble (msg : HandshakeMessage) (raw_msg : list Z) : M (option (HandshakeMessage * list Z)) :=
  if total_length msg =? fragment_length msg then mret (Some (msg, raw_msg)) else
  c ← ctx;
  let '(frags, r) := HandshakeReassembly_push (c_incomplete_fragments c) (message_seq msg)
                       (Z.to_nat (total_length msg)) (fragment_offset msg) (body msg) in
  upd (set c_incomplete_fragments (fun _ => frags));;
  match r with
  | Ok (Some b) =>
      let full_msg := {| msg_type := msg_type msg; total_length := total_length msg;
                         message_seq := message_seq msg; fragment_offset := 0;
                         fragment_length := total_length msg; body := b |} in
      mret (Some (full_msg, HandshakeMessage_encode full_msg []))
  | Ok None => mret None
  | Err _ => upd (set c_incomplete_fragments (fun _ => HandshakeReassembly_default));; mret None
  | Panic => abort
  end.

(** Finished, HelloRequest and HelloVerifyRequest stay out of the transcript. *)
Definition in_transcript (t : HandshakeType) : bool :=
  negb (bool_decide (t = TFinished)) && negb (bool_decide (t = HelloRequest))
  && negb (bool_decide (t = THelloVerifyRequest)).

Definition add_transcript (msg : HandshakeMessage) (raw_msg : list Z) : M unit :=
  when (in_transcript (msg_type msg)) (upd (set c_handshake_messages (fun h => h ++ raw_msg))).

Definition next_recv_seq : M unit :=
  c ← ctx;
  n ← lift (inc16 (c_recv_message_seq c));
  upd (set c_recv_message_seq (fun _ => n)).

(** [while let Some(..) = ctx.pending_messages.remove(&ctx.recv_message_seq)]:
    every iteration removes a message, so their number is enough fuel. *)
Fixpoint drain_pending (fuel : nat) : M unit :=
  c ← ctx;
  match bt_get (c_recv_message_seq c) (c_pending_messages c) with
  | None => mret tt
  | Some (pending_msg, pending_raw) =>
      match fuel with
      | O => abort
      | S fuel =>
          upd (set c_pending_messages (bt_remove (c_recv_message_seq c)));;
          add_transcript pending_msg pending_raw;;
          handle_handshake_message pending_msg pending_raw;;
          next_recv_seq;;
          drain_pending fuel
      end
  end.

Definition process_message (msg : HandshakeMessage) (raw_msg : list Z) (epoch : Z) : M unit :=
  next ← order_message msg raw_msg epoch;
  if negb next then mret tt else
  upd (set c_post_hvr (fun _ => false));;
  whole ← reassemble msg raw_msg;
  match whole with
  | None => mret tt
  | Some (processing_msg, processing_raw) =>
      next_recv_seq;;
      add_transcript processing_msg processing_raw;;
      handle_handshake_message processing_msg processing_raw;;
      c ← ctx;
      drain_pending (length (c_pending_messages c))
  end.

(** [while !body.is_empty()]: every iteration consumes a header, so the length
    of the payload is enough fuel. *)
Fixpoint process_handshake_payload (fuel : nat) (body : list Z) (epoch : Z) : M unit :=
  if (length body =? 0)%nat then mret tt else
  match fuel with
  | O => abort
  | S fuel =>
      match HandshakeMessage_decode body with
      | Panic => abort
      | Err _ => mret tt
      | Ok (None, _) => mret tt
      | Ok (Some msg, rest) =>
          raw_msg ← lift (or_panic (bytes_slice body 0 (length body - length rest)));
          process_message msg raw_msg epoch;;
          process_handshake_payload fuel rest epoch
      end
  end.

(** ** Records *)

(** The keys with which the peer writes *)
Definition read_key (k : SessionKeys) : list Z * list Z :=
  if is_client then (server_write_key k, server_write_iv k) else (client_write_key k, client_write_iv k).

Definition read_cipher (c : SessionCrypto) : list Z * list Z :=
  if is_client then (server_write_cipher c, server_write_iv (keys c))
  else (client_write_cipher c, client_write_iv (keys c)).

(** [.map_err(|e| dtls_err!("Decryption failed: {}", e))] *)
Definition decryption_failed {A} (r : res RtcError A) : res RtcError A :=
  match r with Err _ => Err (Internal "Decryption failed") | _ => r end.

Definition try_decrypt_record (record : DtlsRecord) (c : HandshakeContext) : res RtcError (list Z) :=
  if epoch record =? 0 then Ok (payload record) else
  let full_seq := full_sequence (epoch record) (sequence_number record) in
  match c_session_crypto c, c_session_keys c with
  | Some crypto, _ =>
      decryption_failed (decrypt_record_with_cipher (content_type record) (version record) full_seq
        (payload record) (read_cipher crypto).1 (read_cipher crypto).2)
  | None, Some k =>
      decryption_failed (decrypt_record (content_type record) (version record) full_seq
        (payload record) (read_key k).1 (read_key k).2)
  | None, None => Err (Internal "Received encrypted record but no keys available")
  end.

Definition handle_decrypted_record (ct : ContentType) (epoch : Z) (payload : list Z) : M unit :=
  match ct with
  | ChangeCipherSpec => upd (set c_read_epoch (fun e => if e =? 65535 then e else e + 1))
  | ApplicationData => modify (fun s => s <| s_incoming ::= fun l => l ++ [payload] |>)
  | Handshake => process_handshake_payload (length payload) payload epoch
  | Alert =>
      if (2 <=? length payload)%nat then
        description ← lift (idx payload 1);
        if description =? 0 then set_state Closed else mret tt
      else mret tt
  | Heartbeat => mret tt
  end.

(** [while !data.is_empty()]: every iteration consumes a record header. *)
Fixpoint handle_incoming_packet (fuel : nat) (data : list Z) : M unit :=
  if (length data =? 0)%nat then mret tt else
  match fuel with
  | O => abort
  | S fuel =>
      match DtlsRecord_decode data with
      | Panic => abort
      | Err _ => mret tt
      | Ok (None, _) => mret tt
      | Ok (Some record, data) =>
          c ← ctx;
          match try_decrypt_record record c with
          | Panic => abort
          | Err _ => mret tt
          | Ok payload =>
              handle_decrypted_record (content_type record) (epoch record) payload;;
              handle_incoming_packet fuel data
          end
      end
  end.

(** ** The handshake task *)

(** What wakes the task: the close notification, the deadline, the
    retransmission timer, a datagram or the end of the channel *)
Inductive Event :=
| CloseRequested
| DeadlinePassed
| Tick
| Packet (packet : list Z)
| FeederClosed.

(** The CloseNotify alert *)
Definition send_close_notify : M unit :=
  c ← ctx;
  match c_session_keys c with
  | None => mret tt
  | Some k =>
      match encrypt_record Alert DTLS_1_2 (full_sequence (c_epoch c) (c_sequence_number c)) [1; 0]
              (write_key k).1 (write_key k).2 with
      | Ok encrypted =>
          send_records [DtlsRecord_encode {| content_type := Alert; version := DTLS_1_2;
            epoch := c_epoch c; sequence_number := c_sequence_number c; payload := encrypted |} []]
      | Err _ => mret tt
      | Panic => abort
      end
  end.

(** The start of the task: a client sends its ClientHello. *)
Definition handshake_start : M unit :=
  set_state Handshaking;;
  when is_client (
    random ← new_random;
    upd (set c_client_random (fun _ => Some (Random_to_bytes random)));;
    r ← build_message TClientHello (ClientHello_encode (client_hello_with random []) []) None;
    send_flight [r];;
    next_message_seq).

(** One iteration of the loop; [false] when the task has returned [Ok].  The
    deadline is armed only while the handshake lasts. *)
Definition handshake_iter (socket_open : bool) (ev : Event) : M bool :=
  s ← get_st;
  if negb socket_open then
    if is_handshaking (s_state s) then
      set_state Failed;; fail (Internal "ICE socket closed during DTLS handshake")
    else set_state Closed;; mret false
  else
  match ev with
  | CloseRequested => send_close_notify;; mret false
  | DeadlinePassed =>
      if is_handshaking (s_state s) then
        set_state Failed;; fail (Internal "DTLS handshake timed out")
      else mret true
  | Tick => handle_retransmit;; mret true
  | Packet packet =>
      try_catch (handle_incoming_packet (length packet) packet)
        (fun _ => mret true)
        (fun e => s ← get_st; if is_failed (s_state s) then fail e else mret true)
  | FeederClosed => mret false
  end.

(** The task over a sequence of events.  An error ends it and the runner in
    [DtlsTransport::new] then marks the transport as failed. *)
Fixpoint handshake_loop (evs : list (bool * Event)) : M bool :=
  match evs with
  | [] => mret true
  | (open, ev) :: evs =>
      continue ← handshake_iter open ev;
      if continue : bool then handshake_loop evs else mret false
  end.

Definition handshake (evs : list (bool * Event)) : M bool := handshake_start;; handshake_loop evs.

Definition runner (evs : list (bool * Event)) : M bool :=
  try_catch (handshake evs) mret (fun _ => set_state Failed;; mret false).

(** ** Application data *)

(** [write_seq.fetch_add(1)] *)
Definition fetch_add_write_seq : M Z :=
  fun s => (s <| s_write_seq ::= fun n => as_u64 (n + 1) |>, Ok (s_write_seq s)).

Definition send_record (crypto : SessionCrypto) (data : list Z) : M unit :=
  let '(cipher, iv) := if is_client then (client_write_cipher crypto, client_write_iv (keys crypto))
                       else (server_write_cipher crypto, server_write_iv (keys crypto)) in
  s ← get_st;
  let epoch := s_write_epoch s in
  seq ← fetch_add_write_seq;
  let full_seq := full_sequence epoch seq in
  let buf := put_u8 [] (ContentType_u8 ApplicationData) in
  let buf := put_u8 buf (major DTLS_1_2) in
  let buf := put_u8 buf (minor DTLS_1_2) in
  let buf := put_u16 buf epoch in
  let buf := put_uint buf seq 6 in
  let ciphertext_len := (8 + length data + 16)%nat in
  let buf := put_u16 buf (as_u16 (Z.of_nat ciphertext_len)) in
  let buf := put_u64 buf full_seq in
  nonce ← lift (make_nonce iv (to_be 8 full_seq));
  let aad := make_aad full_seq ApplicationData DTLS_1_2 (length data) in
  '(c, tag) ← lift (or_internal (encrypt_in_place_detached cipher nonce aad data) "Encryption failed");
  let buf := put_slice (put_slice buf c) tag in
  if conn_send buf then send_records [buf] else fail (Internal "Send failed").

(** [for chunk in data.chunks(MAX_APP_DATA_RECORD_SIZE)] *)
Fixpoint send_chunks (fuel : nat) (crypto : SessionCrypto) (data : list Z) : M unit :=
  match fuel, data with
  | _, [] => mret tt
  | O, _ => abort
  | S fuel, _ =>
      send_record crypto (take MAX_APP_DATA_RECORD_SIZE data);;
      send_chunks fuel crypto (drop MAX_APP_DATA_RECORD_SIZE data)
  end.

Definition send (data : list Z) : M unit :=
  s ← get_st;
  match s_state s with
  | Connected crypto _ => send_chunks (length data) crypto data
  | _ => fail (InvalidState "DTLS not connected")
  end.

Definition export_keying_material (label : list Z) (len : nat) : M (list Z) :=
  s ← get_st;
  match s_state s with
  | Connected crypto _ =>
      lift (prf_sha256 (master_secret (keys crypto)) label
              (client_random (keys crypto) ++ server_random (keys crypto)) len)
  | _ => fail (InvalidState "DTLS not connected")
  end.

(** [DtlsTransport::new]: the state before the task starts *)
Definition Sys_new (draws : nat) (expected : option str) : res RtcError Sys :=
  c ← HandshakeContext_new draws expected;
  Ok {| s_state := New; s_state_tx := New; s_write_seq := 0; s_write_epoch := 0; s_sent := [];
        s_incoming := []; s_draws := S draws; s_ctx := c |}.

End engine.
