(* ===== verification/DtlsData.v ===== *)
(** * Application data over DTLS: theorems

    What one side sends the other side delivers, in order; what protects the
    records, and where it does not. *)
From S2P Require Import Prelude Core BytesCrate BTree Str StateRes RecordSet DtlsRecord DtlsCrypto.
From S2P Require Import DtlsRecordFacts DtlsCryptoFacts Dtls.

(** The records of a sequence of datagrams, handled one after the other *)
Definition receive_all `{BytesCrate, DtlsCrypto} (cert : Certificate) (cl : bool)
    (packets : list (list Z)) : stM Sys RtcError unit :=
  foldr (fun p m => handle_incoming_packet cert cl (length p) p ;; m) (mret tt) packets.

Section data.
Context `{BytesCrate, !BytesLaws, DtlsCrypto, !DtlsCryptoLaws}.

Definition app_record (e seq : Z) (p : list Z) : DtlsRecord :=
  {| content_type := ApplicationData; version := DTLS_1_2; epoch := e; sequence_number := seq; payload := p |}.

Definition session_of (k : SessionKeys) : SessionCrypto :=
  {| keys := k; client_write_cipher := client_write_key k; server_write_cipher := server_write_key k |}.

Lemma send_record_layout e q fs c t n :
  (8 + n + 16)%nat = (8 + length c + length t)%nat →
  put_slice (put_slice (put_u64 (put_u16 (put_uint (put_u16 (put_u8 (put_u8 (put_u8 []
    (ContentType_u8 ApplicationData)) (major DTLS_1_2)) (minor DTLS_1_2)) e) q 6)
    (as_u16 (Z.of_nat (8 + n + 16)))) fs) c) t =
  DtlsRecord_encode (app_record e q (to_be 8 fs ++ c ++ t)) [].
Proof.
  intros Hn. rewrite DtlsRecord_encode_layout, put_uint_spec by lia. autorewrite with crate.
  cbn [app_record content_type version epoch sequence_number payload]. unfold len16.
  rewrite !length_app, length_to_be, Hn, Nat.add_assoc. by rewrite <- !app_assoc.
Qed.

(** A record of application data is the encoding of a record whose payload
    [encrypt_record] protects. *)
Lemma send_record_spec cl conn_send k data s :
  wf_keys k → Z.of_nat (length data) ≤ 2 ^ 36 → u16 (s_write_epoch s) → u48 (s_write_seq s) →
  (∀ b, conn_send b = true) →
  ∃ p, encrypt_record ApplicationData DTLS_1_2 (full_sequence (s_write_epoch s) (s_write_seq s)) data
         (write_key cl k).1 (write_key cl k).2 = Ok p ∧ length p = (length data + 24)%nat ∧
    send_record cl conn_send (session_of k) data s =
      (s <| s_write_seq ::= fun n => as_u64 (n + 1) |>
         <| s_sent ::= fun l => l ++ [DtlsRecord_encode (app_record (s_write_epoch s) (s_write_seq s) p) []] |>,
       Ok tt).
Proof.
  intros (Hck & Hsk & Hci & Hsi) Hd He Hq Hconn.
  set (key := (write_key cl k).1). set (iv := (write_key cl k).2).
  assert (length key = 16%nat ∧ length iv = 4%nat) as [Hkey Hiv] by (unfold key, iv, write_key; by destruct cl).
  unfold encrypt_record. rewrite make_nonce_ok by (done || apply length_to_be). run.
  rewrite (proj2 (aes128_key _) Hkey). run.
  set (fs := full_sequence _ _). set (aad := make_aad fs ApplicationData DTLS_1_2 (length data)).
  destruct (gcm_roundtrip key (iv ++ to_be 8 fs) aad data Hd) as (c & t & Henc & Hc & Ht & _).
  unfold or_internal. rewrite Henc. run. eexists. split; [done|].
  split; [rewrite !length_app, length_to_be; lia|].
  unfold send_record.
  assert ((if cl then (client_write_cipher (session_of k), client_write_iv (keys (session_of k)))
     else (server_write_cipher (session_of k), server_write_iv (keys (session_of k)))) = (key, iv)) as ->
    by (by destruct cl).
  erewrite bind_eq by reflexivity. erewrite bind_eq by reflexivity. fold fs.
  rewrite make_nonce_ok by (done || apply length_to_be). erewrite bind_eq by reflexivity. fold aad.
  unfold or_internal. rewrite Henc. erewrite bind_eq by reflexivity. cbv beta iota. rewrite Hconn.
  rewrite (send_record_layout _ _ fs c t) by lia. done.
Qed.

Lemma handle_incoming_packet_step cert cl fuel data r rest s :
  length data ≠ 0%nat → DtlsRecord_decode data = Ok (Some r, rest) →
  handle_incoming_packet cert cl (S fuel) data s =
  match try_decrypt_record cl r (s_ctx s) with
  | Ok p => (handle_decrypted_record cert cl (content_type r) (epoch r) p;;
             handle_incoming_packet cert cl fuel rest) s
  | Err _ => (s, Ok tt)
  | Panic => (s, Panic)
  end.
Proof.
  intros Hd Hdec. cbn [handle_incoming_packet]. rewrite (proj2 (Nat.eqb_neq _ _) Hd), Hdec.
  erewrite bind_eq by reflexivity. by destruct (try_decrypt_record cl r (s_ctx s)).
Qed.

Lemma handle_incoming_packet_nil cert cl fuel s :
  handle_incoming_packet cert cl fuel [] s = (s, Ok tt).
Proof. by destruct fuel. Qed.

Lemma bind_ret_unit {S E} (m : stM S E unit) (f : unit → stM S E unit) s :
  (∀ s, f tt s = (s, Ok tt)) → (m ≫= f) s = m s.
Proof. intros Hf. unfold mbind, stM_bind. by destruct (m s) as [s' [[]|e|]]; [apply Hf|..]. Qed.

(** A datagram with one record *)
Lemma handle_one_record cert cl r s :
  wf_record r →
  handle_incoming_packet cert cl (length (DtlsRecord_encode r [])) (DtlsRecord_encode r []) s =
  match try_decrypt_record cl r (s_ctx s) with
  | Ok p => handle_decrypted_record cert cl (content_type r) (epoch r) p s
  | Err _ => (s, Ok tt)
  | Panic => (s, Panic)
  end.
Proof.
  intros Hr. pose proof (DtlsRecord_roundtrip r [] Hr) as Hdec. rewrite app_nil_r in Hdec.
  assert (∃ n, length (DtlsRecord_encode r []) = S n) as [n Hn].
  { rewrite DtlsRecord_encode_layout. cbn [app]. rewrite length_app, length_to_be. eexists. reflexivity. }
  rewrite Hn. erewrite handle_incoming_packet_step; [|lia|exact Hdec].
  destruct (try_decrypt_record cl r (s_ctx s)) as [p|e|]; [|done..].
  apply bind_ret_unit. intros. apply handle_incoming_packet_nil.
Qed.

Lemma wf_dtls12_record ct e q p :
  u16 e → u48 q → Z.of_nat (length p) < 65536 →
  wf_record {| content_type := ct; version := DTLS_1_2; epoch := e; sequence_number := q; payload := p |}.
Proof. intros. split; [split; cbn; ulia|done]. Qed.

(** A protected record is delivered to the other side. *)
Lemma receive_app_record cert cl k e q data p r :
  wf_keys k → u16 e → u48 q → e ≠ 0 → Z.of_nat (length data) ≤ 1200 →
  c_session_crypto (s_ctx r) = Some (session_of k) →
  encrypt_record ApplicationData DTLS_1_2 (full_sequence e q) data (write_key cl k).1 (write_key cl k).2 = Ok p →
  let pkt := DtlsRecord_encode (app_record e q p) [] in
  handle_incoming_packet cert (negb cl) (length pkt) pkt r =
    (r <| s_incoming ::= fun l => l ++ [data] |>, Ok tt).
Proof.
  intros (Hck & Hsk & Hci & Hsi) He Hq He0 Hd Hcr Henc.
  assert (length (write_key cl k).1 = 16%nat ∧ length (write_key cl k).2 = 4%nat) as [Hkey Hiv]
    by (unfold write_key; by destruct cl).
  destruct (encrypt_record_ok ApplicationData DTLS_1_2 (full_sequence e q) data _ _ Hkey Hiv ltac:(lia))
    as (p' & Henc' & Hlp & _ & Hdec). rewrite Henc in Henc'. simplify_eq.
  cbv zeta. rewrite handle_one_record by (apply wf_dtls12_record; [done..|lia]).
  unfold try_decrypt_record. cbn [epoch app_record sequence_number content_type version payload].
  rewrite (proj2 (Z.eqb_neq e 0) He0), Hcr.
  assert (read_cipher (negb cl) (session_of k) = write_key cl k) as -> by by destruct cl.
  rewrite Hdec. done.
Qed.

Lemma wf_keys_any cl k : wf_keys k → length (write_key cl k).1 = 16%nat ∧ length (write_key cl k).2 = 4%nat.
Proof. intros (?&?&?&?). unfold write_key. by destruct cl. Qed.

(** Sending data and feeding every datagram to the peer *)
Lemma send_chunks_delivered cert cl conn_send k fuel data s r :
  wf_keys k → (∀ b, conn_send b = true) → u16 (s_write_epoch s) → s_write_epoch s ≠ 0 →
  0 ≤ s_write_seq s → s_write_seq s + Z.of_nat (length data) < 2 ^ 48 → (length data ≤ fuel)%nat →
  c_session_crypto (s_ctx r) = Some (session_of k) →
  ∃ s' pkts r', send_chunks cl conn_send fuel (session_of k) data s = (s', Ok tt) ∧
    s_sent s' = s_sent s ++ pkts ∧ Forall (fun p => Z.of_nat (length p) ≤ 1237) pkts ∧
    receive_all cert (negb cl) pkts r = (r', Ok tt) ∧
    s_incoming r' = s_incoming r ++ chunks fuel MAX_APP_DATA_RECORD_SIZE data ∧
    s_ctx r' = s_ctx r ∧ s_state r' = s_state r.
Proof.
  intros Hk Hconn. revert data s r. induction fuel as [|fuel IH]; intros data s r He He0 Hq0 Hq Hf Hcr.
  { destruct data; [|cbn in Hf; lia]. exists s, [], r. cbn. by rewrite !app_nil_r. }
  destruct (decide (data = [])) as [->|Hne].
  { exists s, [], r. cbn. by rewrite !app_nil_r. }
  set (d := take MAX_APP_DATA_RECORD_SIZE data).
  assert (0 < length data)%nat as Hpos by (destruct data; [done|cbn; lia]).
  assert (Z.of_nat (length d) ≤ 1200) as Hd.
  { unfold d. rewrite length_take. unfold MAX_APP_DATA_RECORD_SIZE. lia. }
  assert (u48 (s_write_seq s)) as Hu by ulia.
  destruct (send_record_spec cl conn_send k d s) as (p & Henc & Hlp & Hsend); [done|lia|done..|].
  pose proof (receive_app_record cert cl k _ _ d p r Hk He Hu He0 Hd Hcr Henc) as Hrecv.
  set (s1 := s <| s_write_seq ::= _ |> <| s_sent ::= _ |>) in Hsend.
  set (r1 := r <| s_incoming ::= _ |>) in Hrecv.
  assert (s_write_seq s1 = s_write_seq s + 1) as Hq1.
  { change (s_write_seq s1) with (as_u64 (s_write_seq s + 1)). unfold as_u64. apply Z.mod_small. ulia. }
  destruct (IH (drop MAX_APP_DATA_RECORD_SIZE data) s1 r1) as (s' & pkts & r' & J1 & J2 & J3 & J4 & J5 & J6 & J7);
    [done|done|lia| |rewrite length_drop; unfold MAX_APP_DATA_RECORD_SIZE; lia|done|].
  { rewrite Hq1, length_drop. unfold MAX_APP_DATA_RECORD_SIZE. lia. }
  exists s', (DtlsRecord_encode (app_record (s_write_epoch s) (s_write_seq s) p) [] :: pkts), r'.
  split_and!.
  - destruct data; [done|]. cbn [send_chunks]. by erewrite bind_eq by exact Hsend.
  - rewrite J2. change (s_sent s1) with (s_sent s ++ [DtlsRecord_encode (app_record (s_write_epoch s) (s_write_seq s) p) []]).
    by rewrite <- app_assoc.
  - constructor; [|done]. rewrite DtlsRecord_encode_layout. autorewrite with wire.
    cbn [payload app_record]. lia.
  - cbn [receive_all foldr]. by erewrite bind_eq by exact Hrecv.
  - rewrite J5. change (s_incoming r1) with (s_incoming r ++ [d]). rewrite <- app_assoc.
    destruct data; [done|]. done.
  - by rewrite J6.
  - by rewrite J7.
Qed.

(** A payload with one handshake message *)
Lemma process_one_message cert cl m ep s :
  wf_handshake m →
  let raw := HandshakeMessage_encode m [] in
  process_handshake_payload cert cl (length raw) raw ep s = process_message cert cl m raw ep s.
Proof.
  intros Hm. cbv zeta. pose proof (HandshakeMessage_roundtrip m [] Hm) as Hdec. rewrite app_nil_r in Hdec.
  pose proof (HandshakeMessage_encode_length m) as Hl.
  set (raw := HandshakeMessage_encode m []) in *. rewrite Hl. cbn [Nat.add process_handshake_payload].
  rewrite eqb_pos_false by lia. rewrite Hdec.
  rewrite bytes_slice_spec, decide_True by (cbn [length]; lia).
  cbn [length]. rewrite drop_0, Nat.sub_0_r, Nat.sub_0_r, firstn_all.
  erewrite bind_eq by reflexivity. apply bind_ret_unit. intros s'.
  destruct (length (body m)); done.
Qed.

End data.

Section data_theorems.
Context `{BytesCrate, !BytesLaws, DtlsCrypto, !DtlsCryptoLaws}.

(** C7: Data sent by a connected DTLS transport, cut into records of at most
    1200 bytes in datagrams of at most 1237, is delivered unchanged and in order
    by a peer with the same keys that receives them. *)
Theorem dtls_data_delivered cert cl conn_send k profile data s r :
  wf_keys k → (∀ b, conn_send b = true) → s_state s = Connected (session_of k) profile →
  u16 (s_write_epoch s) → s_write_epoch s ≠ 0 →
  0 ≤ s_write_seq s → s_write_seq s + Z.of_nat (length data) < 2 ^ 48 →
  c_session_crypto (s_ctx r) = Some (session_of k) →
  ∃ s' pkts r' ds, send cl conn_send data s = (s', Ok tt) ∧ s_sent s' = s_sent s ++ pkts ∧
    Forall (fun p => Z.of_nat (length p) ≤ 1237) pkts ∧
    receive_all cert (negb cl) pkts r = (r', Ok tt) ∧
    s_incoming r' = s_incoming r ++ ds ∧ concat ds = data ∧
    Forall (fun d => (length d ≤ MAX_APP_DATA_RECORD_SIZE)%nat) ds.
Proof.
  intros Hk Hconn Hst He He0 Hq0 Hq Hcr.
  destruct (send_chunks_delivered cert cl conn_send k (length data) data s r)
    as (s' & pkts & r' & J1 & J2 & J3 & J4 & J5 & _); [done..|].
  exists s', pkts, r', (chunks (length data) MAX_APP_DATA_RECORD_SIZE data).
  split_and!; [|done..| |apply chunks_small].
  - unfold send. erewrite bind_eq by reflexivity. by rewrite Hst.
  - apply concat_chunks; [unfold MAX_APP_DATA_RECORD_SIZE; lia|done].
Qed.

(** C37: In every state, also when connected, an unencrypted record of epoch 0
    with application data is delivered as data, and an unencrypted close alert
    closes the transport. *)
Theorem dtls_plaintext_accepted cert cl q data a s :
  u48 q → Z.of_nat (length data) < 65536 →
  let app := DtlsRecord_encode (app_record 0 q data) [] in
  let alert := DtlsRecord_encode {| content_type := Alert; version := DTLS_1_2; epoch := 0;
                                    sequence_number := q; payload := [a; 0] |} [] in
  handle_incoming_packet cert cl (length app) app s =
    (s <| s_incoming ::= fun l => l ++ [data] |>, Ok tt) ∧
  handle_incoming_packet cert cl (length alert) alert s =
    (s <| s_state := Closed |> <| s_state_tx := Closed |>, Ok tt).
Proof.
  intros Hq Hd. cbv zeta.
  rewrite !handle_one_record by (apply wf_dtls12_record; [ulia|done|cbn; lia]). done.
Qed.

Lemma connect_spec k s :
  wf_keys k → ∃ s1, connect k s = (s1, Ok tt) ∧
    s_state s1 = Connected (session_of k) (c_srtp_profile (s_ctx s)) ∧ s_state_tx s1 = s_state s1 ∧
    s_write_epoch s1 = c_epoch (s_ctx s) ∧ s_write_seq s1 = c_sequence_number (s_ctx s) ∧
    s_sent s1 = s_sent s ∧ s_incoming s1 = s_incoming s ∧ s_draws s1 = s_draws s ∧
    s_ctx s1 = s_ctx s <| c_local_secret := None |>.
Proof.
  intros Hk. unfold connect. rewrite create_session_crypto_ok by done.
  do 6 (erewrite bind_eq by reflexivity). eexists. split; [reflexivity|]. done.
Qed.

Lemma send_close_notify_spec cl k s :
  wf_keys k → c_session_keys (s_ctx s) = Some k →
  ∃ p, encrypt_record Alert DTLS_1_2 (full_sequence (c_epoch (s_ctx s)) (c_sequence_number (s_ctx s)))
         [1; 0] (write_key cl k).1 (write_key cl k).2 = Ok p ∧
    send_close_notify cl s =
      (s <| s_sent ::= fun l => l ++ [DtlsRecord_encode {| content_type := Alert; version := DTLS_1_2;
          epoch := c_epoch (s_ctx s); sequence_number := c_sequence_number (s_ctx s); payload := p |} []] |>,
       Ok tt).
Proof.
  intros Hk Hsk. destruct (wf_keys_any cl k Hk) as [Hkey Hiv].
  destruct (encrypt_record_ok Alert DTLS_1_2 (full_sequence (c_epoch (s_ctx s)) (c_sequence_number (s_ctx s)))
    [1; 0] _ _ Hkey Hiv ltac:(cbn; lia)) as (p & Henc & _).
  exists p. split; [done|]. unfold send_close_notify. erewrite bind_eq by reflexivity.
  by rewrite Hsk, Henc.
Qed.

(** C38: When the first data sent fits one record, the close alert is encrypted
    with the key and nonce that this application record used. *)
Theorem dtls_close_reuses_nonce cert cl conn_send k data s :
  wf_keys k → c_session_keys (s_ctx s) = Some k → (∀ b, conn_send b = true) →
  u16 (c_epoch (s_ctx s)) → u48 (c_sequence_number (s_ctx s)) → (0 < length data ≤ MAX_APP_DATA_RECORD_SIZE)%nat →
  let e := c_epoch (s_ctx s) in
  let q := c_sequence_number (s_ctx s) in
  ∃ p1 p2,
    encrypt_record ApplicationData DTLS_1_2 (full_sequence e q) data (write_key cl k).1 (write_key cl k).2 = Ok p1 ∧
    encrypt_record Alert DTLS_1_2 (full_sequence e q) [1; 0] (write_key cl k).1 (write_key cl k).2 = Ok p2 ∧
    s_sent (((connect k;; send cl conn_send data;; handshake_iter cert cl true CloseRequested) s).1) =
      s_sent s ++ [DtlsRecord_encode (app_record e q p1) [];
                   DtlsRecord_encode {| content_type := Alert; version := DTLS_1_2; epoch := e;
                                        sequence_number := q; payload := p2 |} []].
Proof.
  intros Hk Hsk Hconn He Hq Hd. cbv zeta.
  destruct (connect_spec k s Hk) as (s1 & Hc & Hst & _ & We & Wq & Ws & _ & _ & Wc).
  destruct (send_record_spec cl conn_send k data s1) as (p1 & Hp1 & _ & Hsend);
    [done|unfold MAX_APP_DATA_RECORD_SIZE in *; lia|congruence|congruence|done|].
  set (s2 := s1 <| s_write_seq ::= _ |> <| s_sent ::= _ |>) in Hsend.
  assert (send cl conn_send data s1 = (s2, Ok tt)) as Hs2.
  { unfold send. erewrite bind_eq by reflexivity. rewrite Hst.
    destruct data as [|x data]; [cbn in Hd; lia|]. cbn [length send_chunks].
    rewrite take_ge, drop_ge by lia. erewrite bind_eq by exact Hsend. by destruct (length data). }
  destruct (send_close_notify_spec cl k s2 Hk) as (p2 & Hp2 & Hclose).
  { change (s_ctx s2) with (s_ctx s1). by rewrite Wc. }
  change (s_ctx s2) with (s_ctx s1) in *. rewrite Wc in Hp2, Hclose. rs in Hp2. rs in Hclose.
  rewrite We, Wq in *. exists p1, p2. split_and!; [done..|].
  erewrite bind_eq by exact Hc. erewrite bind_eq by exact Hs2. unfold handshake_iter.
  erewrite bind_eq by reflexivity. cbn [negb]. erewrite bind_eq by exact Hclose. cbn [mret stM_ret fst].
  rs. unfold s2. rs. rewrite Ws, We, Wq. by rewrite <- app_assoc.
Qed.

End data_theorems.
