(* ===== verification/DtlsExample.v ===== *)
(** * A concrete DTLS session

    A certificate, a client and a server over the checksum instance of the
    cryptographic laws, and the datagrams they exchange; the theorems on the
    engine are applied to it. *)
From S2P Require Import Prelude Core BytesCrate Str StateRes RecordSet DtlsRecord DtlsCrypto.
From S2P Require Import DtlsCryptoFacts Dtls DtlsData.

#[local] Existing Instance vec_crate.
#[local] Existing Instance sum_crypto.

Definition ex_fields : CertFields := {|
  cf_version := Some [2; 1; 2]; cf_serial := [1]; cf_sigalg := []; cf_issuer := []; cf_validity := [];
  cf_subject := []; cf_point := [4; 9; 9]; cf_extensions := []; cf_signature := [] |}.
Definition ex_leaf : list Z := der_certificate ex_fields.
Definition ex_cert : Certificate := {| certificate := [ex_leaf]; private_key_pkcs8 := [4; 9; 9] |}.
Definition ex_fingerprint : str := Eval vm_compute in fingerprint_from_der ex_leaf.

(** A fresh side, from its first draw *)
Definition ex_sys (d : nat) (expected : option str) : Sys := {|
  s_state := New; s_state_tx := New; s_write_seq := 0; s_write_epoch := 0; s_sent := [];
  s_incoming := []; s_draws := S d;
  s_ctx := {| c_sequence_number := 0; c_epoch := 0; c_read_epoch := 0; c_message_seq := 0;
     c_recv_message_seq := 0; c_post_hvr := false; c_last_flight_records := None;
     c_final_flight_resends := 0; c_incomplete_fragments := HandshakeReassembly_default;
     c_pending_messages := []; c_local_secret := Some (Z.of_nat d mod 256);
     c_local_public_key_bytes := replicate 64 0 ++ [Z.of_nat d mod 256];
     c_peer_public_key := None; c_peer_certificate := None; c_client_random := None;
     c_server_random := None; c_session_keys := None; c_session_crypto := None;
     c_handshake_messages := []; c_ems_negotiated := false; c_srtp_profile := None;
     c_expected_remote_fingerprint := expected; c_server_key_exchange_verified := false |} |}.

Lemma ex_sys_new d expected : Sys_new d expected = Ok (ex_sys d expected).
Proof. reflexivity. Qed.

Definition ex_client0 : Sys := ex_sys 1 (Some ex_fingerprint).
Definition ex_server0 : Sys := ex_sys 100 None.

(** The flights, computed *)
Definition ex_client1 : Sys := (handshake_start true ex_client0).1.
Definition ex_server1 : Sys := (handshake_start false ex_server0).1.
Definition ex_server2 : Sys := (receive_all ex_cert false (s_sent ex_client1) ex_server1).1.
Definition ex_flight2 : list (list Z) := Eval vm_compute in s_sent ex_server2.
Definition ex_client2 : Sys := (receive_all ex_cert true ex_flight2 ex_client1).1.
Definition ex_flight3 : list (list Z) := Eval vm_compute in drop 1 (s_sent ex_client2).
Definition ex_server3 : Sys := Eval vm_compute in (receive_all ex_cert false ex_flight3 ex_server2).1.
Definition ex_flight4 : list (list Z) := Eval vm_compute in drop 4 (s_sent ex_server3).

(** What the client's task sees *)
Definition ex_events : list (bool * Event) := (fun p => (true, Packet p)) <$> (ex_flight2 ++ ex_flight4).
Definition ex_client3 : Sys := Eval vm_compute in (runner ex_cert true ex_events ex_client0).1.

Definition ex_keys : SessionKeys := Eval vm_compute in
  match s_state ex_client3 with
  | Connected c _ => keys c
  | _ => {| client_write_key := []; server_write_key := []; client_write_iv := [];
            server_write_iv := []; master_secret := []; client_random := []; server_random := [] |}
  end.

(** ** Application data in this session *)

Lemma ex_keys_wf : wf_keys ex_keys.
Proof. by vm_compute. Qed.

Definition ex_payload : list Z := [1; 2; 3].

Lemma dtls_data_delivered_witness :
  ∃ s' pkts r' ds, send true (fun _ => true) ex_payload ex_client3 = (s', Ok tt) ∧
    s_sent s' = s_sent ex_client3 ++ pkts ∧
    Forall (fun p => Z.of_nat (length p) ≤ 1237) pkts ∧
    receive_all ex_cert (negb true) pkts ex_server3 = (r', Ok tt) ∧
    s_incoming r' = s_incoming ex_server3 ++ ds ∧ concat ds = ex_payload ∧
    Forall (fun d => (length d ≤ MAX_APP_DATA_RECORD_SIZE)%nat) ds.
Proof.
  apply (@dtls_data_delivered vec_crate vec_laws sum_crypto sum_laws ex_cert true (fun _ => true)
    ex_keys (Some 1) ex_payload ex_client3 ex_server3);
    [apply ex_keys_wf|done|reflexivity|by vm_compute|done|by vm_compute|by vm_compute|reflexivity].
Defined.

Lemma dtls_plaintext_accepted_witness :
  let app := DtlsRecord_encode (app_record 0 7 ex_payload) [] in
  let alert := DtlsRecord_encode {| content_type := Alert; version := DTLS_1_2; epoch := 0;
                                    sequence_number := 7; payload := [1; 0] |} [] in
  handle_incoming_packet ex_cert true (length app) app ex_client3 =
    (ex_client3 <| s_incoming ::= fun l => l ++ [ex_payload] |>, Ok tt) ∧
  handle_incoming_packet ex_cert true (length alert) alert ex_client3 =
    (ex_client3 <| s_state := Closed |> <| s_state_tx := Closed |>, Ok tt).
Proof.
  apply (@dtls_plaintext_accepted vec_crate vec_laws sum_crypto ex_cert true 7 ex_payload 1 ex_client3);
    by vm_compute.
Defined.

Lemma dtls_close_reuses_nonce_witness :
  ∃ p1 p2,
    encrypt_record ApplicationData DTLS_1_2 (full_sequence 1 1) ex_payload
      (client_write_key ex_keys) (client_write_iv ex_keys) = Ok p1 ∧
    encrypt_record Alert DTLS_1_2 (full_sequence 1 1) [1; 0]
      (client_write_key ex_keys) (client_write_iv ex_keys) = Ok p2 ∧
    s_sent (((connect ex_keys;; send true (fun _ => true) ex_payload;;
              handshake_iter ex_cert true true CloseRequested) ex_client3).1) =
      s_sent ex_client3 ++ [DtlsRecord_encode (app_record 1 1 p1) [];
        DtlsRecord_encode {| content_type := Alert; version := DTLS_1_2; epoch := 1;
                             sequence_number := 1; payload := p2 |} []].
Proof.
  apply (@dtls_close_reuses_nonce vec_crate vec_laws sum_crypto sum_laws ex_cert true (fun _ => true)
    ex_keys ex_payload ex_client3);
    [apply ex_keys_wf|reflexivity|done|by vm_compute|by vm_compute|unfold MAX_APP_DATA_RECORD_SIZE; cbn; lia].
Defined.
