(* ===== verification/DtlsAuth.v ===== *)
(** * The DTLS client authenticates its server

    An invariant of the engine in the client role, over all sequences of
    events: datagrams from anyone, timers, closes.  Key material is taken only
    from a certificate whose fingerprint is the expected one, through a
    ServerKeyExchange that its key signed, and the transport is connected only
    with keys derived from that.  The server random that was signed is not tied
    to the one of the keys: a second ServerHello replaces it. *)
From S2P Require Import Prelude Core BytesCrate BTree Str StateRes RecordSet DtlsRecord DtlsCrypto.
From S2P Require Import DtlsRecordFacts DtlsCryptoFacts Dtls DtlsData DtlsExample.

Lemma bind_assoc {S E A B C} (m : stM S E A) (f : A → stM S E B) (g : B → stM S E C) s : ((m ≫= f) ≫= g) s = (m ≫= (fun a => f a ≫= g)) s.
Proof. unfold mbind, stM_bind. by destruct (m s) as [s' [a|e|]]. Qed.

Section auth.
Context `{BytesCrate, DtlsCrypto}.
(** the fingerprint from the signalling, our ephemeral secret, our random value *)
Context (cert : Certificate) (expected : option str) (secret0 : EcdhSecret) (random0 : list Z).
(** what is known of the transcript *)
Context (T : list Z → Prop).

(** A certificate the client may use: its fingerprint is the one signalled *)
Definition accepted_certificate (leaf : list Z) (vk : VerifyingKey) : Prop :=
  match expected with Some fp => fingerprint_from_der leaf = fp | None => True end ∧
  certificate_public_key leaf = Ok vk.

(** A public key that the owner of an accepted certificate signed, together
    with our random value *)
Definition vouched_key (pk : list Z) : Prop :=
  ∃ leaf vk sr ct nc sig, accepted_certificate leaf vk ∧
    verify vk (signed_params random0 sr ct nc pk) sig = true.

(** Label and seed of the master secret: both random values, or the hash of the
    transcript *)
Definition master_seed (k : SessionKeys) (label seed : list Z) : Prop :=
  label = lit "master secret" ∧ seed = random0 ++ server_random k ∨
  label = lit "extended master secret" ∧ ∃ transcript, T transcript ∧ seed = sha256 transcript.

(** Session keys derived from the shared secret with a vouched key, and
    expanded with our random value *)
Definition vouched_keys (k : SessionKeys) : Prop :=
  ∃ pk z label seed, vouched_key pk ∧ shared_secret secret0 pk = Some z ∧
    master_seed k label seed ∧ prf_sha256 z label seed 48 = Ok (master_secret k) ∧
    client_random k = random0 ∧ expand_keys (master_secret k) random0 (server_random k) = Ok k.

Definition ctx_ok (c : HandshakeContext) : Prop :=
  c_expected_remote_fingerprint c = expected ∧
  (∀ s, c_local_secret c = Some s → s = secret0) ∧
  c_client_random c = Some random0 ∧
  (∀ leaf, c_peer_certificate c = Some leaf → ∃ vk, accepted_certificate leaf vk) ∧
  (∀ pk, c_peer_public_key c = Some pk → vouched_key pk) ∧
  (∀ k, c_session_keys c = Some k → vouched_keys k) ∧
  T (c_handshake_messages c).

Definition state_ok (st : DtlsState) : Prop :=
  ∀ crypto profile, st = Connected crypto profile → vouched_keys (keys crypto).

Definition sys_ok (s : Sys) : Prop := ctx_ok (s_ctx s) ∧ state_ok (s_state s).

(** Our ClientHello *)
Definition own_hello (random : Random) (cookie : list Z) (seq : Z) : list Z :=
  HandshakeMessage_encode (whole_message TClientHello seq (ClientHello_encode (client_hello_with random cookie) [])) [].

(** It stays true as messages are added, and a HelloVerifyRequest starts it
    again. *)
Ltac run_bind := cbv beta; rewrite ?bind_assoc; erewrite bind_eq by reflexivity.

Hypothesis T_app : ∀ m x, T m → T (m ++ x).
Hypothesis T_hello : ∀ random cookie seq, random_of_bytes random0 = Ok random → T (own_hello random cookie seq).
Hypothesis T_reset : T [] ∨ ∃ random, random_of_bytes random0 = Ok random.

Abbreviation M := (stM Sys RtcError).
Abbreviation keeps := (preserves (E := RtcError) sys_ok).

Lemma keeps_ctx {A} (f : HandshakeContext → M A) :
  (∀ c, ctx_ok c → keeps (f c)) → keeps (ctx ≫= f).
Proof. intros Hf s Hs. apply Hf; [apply Hs|done]. Qed.

Lemma keeps_upd f : (∀ c, ctx_ok c → ctx_ok (f c)) → keeps (upd f).
Proof. intros Hf s [Hc Hs]. split; [by apply Hf|done]. Qed.

Lemma keeps_messages f : (∀ m, T m → T (f m)) → keeps (upd (set c_handshake_messages f)).
Proof. intros Hf. apply keeps_upd. intros c (I1 & I2 & I3 & I4 & I5 & I6 & I7). split_and!; [done..|]. by apply Hf. Qed.

Lemma keeps_state st : state_ok st → keeps (set_state st).
Proof. intros Hst s [Hc _]. by split. Qed.

(** Updates of the fields the invariant does not mention go through by
    conversion. *)
Ltac keep_step :=
  match goal with
  | |- preserves _ (mret _) => apply preserves_ret
  | |- preserves _ (fail _) => apply preserves_fail
  | |- preserves _ abort => apply preserves_abort
  | |- preserves _ (lift _) => apply preserves_lift
  | |- preserves _ (ctx ≫= _) => apply keeps_ctx; intros ? ?
  | |- preserves _ (lift ?r ≫= _) => apply preserves_lift_bind; intros ? ?
  | |- preserves _ (get_st ≫= _) => apply preserves_bind; [apply preserves_get|intros ?]
  | |- preserves _ (upd (set c_handshake_messages _)) => apply keeps_messages; intros; apply T_app; assumption
  | |- preserves _ (upd (set _ _)) => apply keeps_upd; intros ? Hc; exact Hc
  | |- preserves _ (set_state _) => apply keeps_state; by intros ? ? [=]
  | |- preserves _ (modify _) => apply preserves_modify; intros ? Hs; exact Hs
  | |- preserves _ (send_records _) => apply preserves_modify; intros ? Hs; exact Hs
  | |- preserves _ draw => intros ? Hs; exact Hs
  | |- preserves _ (when _ _) => apply preserves_if
  | |- preserves _ (_ ≫= _) => apply preserves_bind; [|intros ?]
  | |- preserves _ (if ?b then _ else _) => destruct b eqn:?
  | |- preserves _ (match ?x with _ => _ end) => destruct x eqn:?
  | |- preserves _ (let '(_, _) := ?x in _) => destruct x eqn:?
  end.
Ltac keep := repeat keep_step.

Lemma keeps_send_flight r : keeps (send_flight r).
Proof. unfold send_flight. keep. Qed.
Lemma keeps_resend_flight : keeps resend_flight.
Proof. unfold resend_flight. keep. Qed.
Lemma keeps_build_message cl t b k : keeps (build_message cl t b k).
Proof. unfold build_message, build_handshake_record. keep. Qed.
Lemma keeps_next_message_seq : keeps next_message_seq.
Proof. unfold next_message_seq. keep. Qed.
Lemma keeps_change_cipher_spec : keeps change_cipher_spec.
Proof. unfold change_cipher_spec. keep. Qed.

Hint Resolve keeps_send_flight keeps_resend_flight keeps_build_message keeps_next_message_seq
  keeps_change_cipher_spec : keep.
Ltac keep' := repeat first [ solve [eauto 1 with keep nocore] | keep_step ].

Lemma handle_certificate_ok msg : keeps (handle_certificate msg).
Proof.
  unfold handle_certificate. keep'.
  apply keeps_upd. intros c' (I1 & I2 & I3 & I4 & I5 & I6 & I7). split_and!; [done..| |done|done|done].
  intros leaf [= <-]. eexists. split; [|done].
  match goal with H : ctx_ok _ |- _ => destruct H as [Hexp _] end.
  rewrite Hexp in *. destruct expected as [fp|]; [|done].
  match goal with H : negb _ = false |- _ => apply negb_false_iff, bool_decide_eq_true in H; done end.
Qed.

Lemma handle_server_key_exchange_ok msg : keeps (handle_server_key_exchange true msg).
Proof.
  unfold handle_server_key_exchange. keep'.
  apply keeps_upd. intros c' (I1 & I2 & I3 & I4 & I5 & I6 & I7). split_and!; [done..| |done|done].
  intros pk [= <-].
  match goal with H : ctx_ok _, Hp : c_peer_certificate _ = Some ?leaf |- _ =>
    destruct H as (_ & _ & Hrand & Hcert & _); destruct (Hcert leaf Hp) as (vk & Hacc & Hvk) end.
  match goal with H : verify_server_key_exchange_signature _ _ _ _ = Ok _ |- _ =>
    unfold verify_server_key_exchange_signature in H; rewrite Hvk in H end.
  destruct (255 <? _)%nat; [done|]. run in Heqr0.
  match goal with H : (if ?b then _ else _) = Ok _ |- _ => destruct b eqn:Hver; [|done] end.
  match goal with H : c_client_random _ = Some _ |- _ => rewrite Hrand in H; injection H as <- end. eexists _, vk, _, _, _, _. by split.
Qed.

Lemma agree_keys_ok c k : ctx_ok c → agree_keys c = Ok (Some k) → vouched_keys k.
Proof.
  intros (_ & Hsec & Hrand & _ & Hpk & _ & Ht). unfold agree_keys, derive_keys. intros Hk.
  destruct (c_peer_public_key c) as [pk|]; [|done].
  destruct (c_local_secret c) as [s|]; [|done].
  rewrite (Hsec s eq_refl) in Hk. specialize (Hpk pk eq_refl).
  destruct (shared_secret secret0 pk) as [z|] eqn:Hz; [|done].
  rewrite Hrand in Hk. destruct (c_server_random c) as [sr|]; [|done].
  match goal with H : match ?m with Ok _ => _ | Err _ => _ | Panic => _ end = _ |- _ =>
    destruct m as [k'| |] eqn:Hd; [|done..] end.
  simplify_eq. apply bind_Ok in Hd as (ms & Hms & Hk). unfold vouched_keys, master_seed.
  assert (master_secret k = ms ∧ client_random k = random0 ∧ server_random k = sr) as (-> & -> & ->).
  { unfold expand_keys in Hk. res_inv. by subst. }
  exists pk, z. destruct (c_ems_negotiated c).
  - exists (lit "extended master secret"), (sha256 (c_handshake_messages c)). split_and!; try done. right. eauto.
  - exists (lit "master secret"), (random0 ++ sr). split_and!; try done. by left.
Qed.

Lemma install_keys_ok k : vouched_keys k → keeps (install_keys k).
Proof.
  intros Hk. unfold install_keys. keep'.
  apply keeps_upd. intros c' (I1 & I2 & I3 & I4 & I5 & I6 & I7). split_and!; [done..| |done].
  by intros k' [= <-].
Qed.

Lemma connect_ok k : vouched_keys k → keeps (connect k).
Proof.
  intros Hk. unfold connect. apply preserves_lift_bind. intros crypto Hcr.
  assert (keys crypto = k) as Hkeys.
  { unfold create_session_crypto in Hcr. by repeat case_match; simplify_eq. }
  keep'.
  - apply preserves_modify. intros st [Hc _]. split; [done|]. intros ? ? [= <- _]. by rewrite Hkeys.
  - apply keeps_upd. intros c' (I1 & I2 & I3 & I4 & I5 & I6 & I7). by split_and!.
Qed.

Lemma handle_finished_ok msg raw : keeps (handle_finished true msg raw).
Proof.
  unfold handle_finished, handle_server_finished, check_finished. keep'.
  - apply preserves_modify. intros st [Hc _]. split; [done|]. by intros ? ? [=].
  - apply connect_ok. match goal with H : ctx_ok _ |- _ => by apply H end.
Qed.

Lemma handle_hello_verify_request_ok msg : keeps (handle_hello_verify_request true msg).
Proof.
  unfold handle_hello_verify_request, new_random. destruct (HelloVerifyRequest_decode (body msg)) as [[vr rest]|e|]; [|keep'..]. destruct T_reset as [HT|[R HR]].
  { apply preserves_bind; [|intros _; keep']. apply keeps_messages. by intros. }
  intros s ((I1 & I2 & I3 & I4 & I5 & I6 & I7) & Hs). do 2 erewrite bind_eq by reflexivity.
  match goal with |- context [match c_client_random ?x with _ => _ end] => change (c_client_random x) with (c_client_random (s_ctx s)) end. rewrite I3, HR. erewrite bind_eq by reflexivity.
  unfold build_message. do 2 run_bind.
  match goal with |- sys_ok ((?m ≫= ?f) ?s1).1 => enough (preserves (E := RtcError) sys_ok (m ≫= f)) as Hk; [apply Hk|] end; [|unfold build_handshake_record; keep'].
  split; [|exact Hs]. split_and!; try done. by apply T_hello.
Qed.

Lemma apply_server_extensions_ok exts : keeps (apply_server_extensions exts).
Proof. induction exts as [|[t d] exts IH]; cbn [apply_server_extensions]; keep'; done. Qed.

Lemma handle_server_hello_ok msg : keeps (handle_server_hello true msg).
Proof. unfold handle_server_hello. keep'. apply apply_server_extensions_ok. Qed.

Lemma handle_server_hello_done_ok : keeps (handle_server_hello_done true).
Proof.
  unfold handle_server_hello_done. keep'. apply install_keys_ok. by eapply agree_keys_ok.
Qed.

Lemma handle_handshake_message_ok msg raw : keeps (handle_handshake_message cert true msg raw).
Proof.
  unfold handle_handshake_message. destruct (msg_type msg);
    auto using preserves_ret, handle_certificate_ok, handle_server_key_exchange_ok,
      handle_finished_ok, handle_hello_verify_request_ok, handle_server_hello_ok,
      handle_server_hello_done_ok.
  - unfold handle_client_hello. keep'.
  - unfold handle_client_key_exchange. keep'.
Qed.

Hint Resolve handle_handshake_message_ok : keep.

Lemma order_message_ok msg raw ep : keeps (order_message cert true msg raw ep).
Proof. unfold order_message, handle_duplicate. keep'. Qed.

Lemma reassemble_ok msg raw : keeps (reassemble msg raw).
Proof. unfold reassemble. keep'. Qed.

Lemma drain_pending_ok fuel : keeps (drain_pending cert true fuel).
Proof. induction fuel as [|fuel IH]; cbn [drain_pending]; unfold add_transcript, next_recv_seq; keep'; done. Qed.

Hint Resolve order_message_ok reassemble_ok drain_pending_ok : keep.

Lemma process_message_ok msg raw ep : keeps (process_message cert true msg raw ep).
Proof. unfold process_message, add_transcript, next_recv_seq. keep'. Qed.

Lemma process_handshake_payload_ok fuel b ep : keeps (process_handshake_payload cert true fuel b ep).
Proof.
  revert b. induction fuel as [|fuel IH]; intros b; cbn [process_handshake_payload]; keep'; auto.
  apply process_message_ok.
Qed.

Lemma handle_incoming_packet_ok fuel data : keeps (handle_incoming_packet cert true fuel data).
Proof.
  revert data. induction fuel as [|fuel IH]; intros data; cbn [handle_incoming_packet];
    unfold handle_decrypted_record; keep'; auto.
  apply process_handshake_payload_ok.
Qed.

Lemma handshake_iter_ok open ev : keeps (handshake_iter cert true open ev).
Proof.
  unfold handshake_iter, handle_retransmit, send_close_notify. keep'.
  apply preserves_try; intros; keep'. apply handle_incoming_packet_ok.
Qed.

Lemma handshake_loop_ok evs : keeps (handshake_loop cert true evs).
Proof.
  induction evs as [|[open ev] evs IH]; cbn [handshake_loop]; keep'; auto. apply handshake_iter_ok.
Qed.

(** Before our ClientHello there is no transcript. *)
Definition before_start (s : Sys) : Prop :=
  c_expected_remote_fingerprint (s_ctx s) = expected ∧ (∀ x, c_local_secret (s_ctx s) = Some x → x = secret0) ∧
  c_peer_certificate (s_ctx s) = None ∧ c_peer_public_key (s_ctx s) = None ∧ c_session_keys (s_ctx s) = None ∧
  c_handshake_messages (s_ctx s) = [].

Lemma handshake_start_ok s (R := Random_new (unix_ms (s_draws s)) (rng_fill (s_draws s) 28)) :
  random0 = Random_to_bytes R → (∀ seq, T (own_hello R [] seq)) → before_start s → sys_ok (handshake_start true s).1.
Proof.
  intros Hr HT (I1 & I2 & I3 & I4 & I5 & I6). unfold handshake_start, when, new_random, build_message. do 6 run_bind.
  match goal with |- sys_ok ((?m ≫= ?f) ?s1).1 => enough (preserves (E := RtcError) sys_ok (m ≫= f)) as Hk; [apply Hk|] end; [|unfold build_handshake_record; keep'].
  split; [|by intros ? ? [=]]. split_and!; try done.
  - change (Some (Random_to_bytes R) = Some random0). by rewrite Hr.
  - intros leaf. change (c_peer_certificate (s_ctx s) = Some leaf → ∃ vk, accepted_certificate leaf vk). by rewrite I3.
  - intros pk. change (c_peer_public_key (s_ctx s) = Some pk → vouched_key pk). by rewrite I4.
  - intros k. change (c_session_keys (s_ctx s) = Some k → vouched_keys k). by rewrite I5.
  - match goal with |- T (c_handshake_messages ?x) => change (T (c_handshake_messages (s_ctx s) ++ own_hello R [] (c_message_seq (s_ctx s)))) end. rewrite I6. apply HT.
Qed.

Lemma handshake_ok evs s (R := Random_new (unix_ms (s_draws s)) (rng_fill (s_draws s) 28)) :
  random0 = Random_to_bytes R → (∀ seq, T (own_hello R [] seq)) → before_start s → sys_ok (runner cert true evs s).1.
Proof.
  intros Hr HT Hs. unfold runner, try_catch, handshake.
  pose proof (handshake_start_ok s Hr HT Hs) as H1. unfold mbind, stM_bind.
  destruct (handshake_start true s) as [s1 [[]|e|]]; cbn [fst] in *; [|by destruct H1|done].
  pose proof (handshake_loop_ok evs s1 H1) as H2.
  destruct (handshake_loop cert true evs s1) as [s2 [b|e|]]; cbn [fst] in *; [done|by destruct H2|done].
Qed.

End auth.

Section auth_theorem.
Context `{BytesCrate, DtlsCrypto}.

(** The random value that the client draws, and its bytes *)
Definition drawn (d : nat) : Random := Random_new (unix_ms d) (rng_fill d 28).

Lemma client_connected (T : list Z → Prop) cert expected d public secret s0 evs crypto profile :
  (∀ m x, T m → T (m ++ x)) →
  (∀ random cookie seq, random_of_bytes (Random_to_bytes (drawn (S d))) = Ok random → T (own_hello random cookie seq)) →
  (T [] ∨ ∃ random, random_of_bytes (Random_to_bytes (drawn (S d))) = Ok random) → (∀ seq, T (own_hello (drawn (S d)) [] seq)) →
  ecdh_generate d = Some (public, secret) → Sys_new d expected = Ok s0 →
  s_state (runner cert true evs s0).1 = Connected crypto profile →
  vouched_keys expected secret (Random_to_bytes (drawn (S d))) T (keys crypto).
Proof.
  intros Happ Hhello Hreset Hfirst Hgen Hnew Hcon. unfold Sys_new, HandshakeContext_new, or_internal in Hnew.
  rewrite Hgen in Hnew. run in Hnew. simplify_eq.
  match type of Hcon with s_state (runner _ _ _ ?s).1 = _ => pose proof (handshake_ok cert expected secret (Random_to_bytes (drawn (S d))) T Happ Hhello Hreset evs s eq_refl Hfirst) as H1 end.
  refine (proj2 (H1 _) crypto profile Hcon).
  split_and!; try done. cbn. congruence.
Qed.

Lemma client_authenticated cert expected d public secret s0 evs crypto profile :
  ecdh_generate d = Some (public, secret) → Sys_new d expected = Ok s0 →
  s_state (runner cert true evs s0).1 = Connected crypto profile →
  vouched_keys expected secret (Random_to_bytes (drawn (S d))) (fun _ => True) (keys crypto).
Proof. apply client_connected; [done..|by left|done]. Qed.

(** A transcript that starts with a ClientHello of ours that has the random value *)
Definition own_transcript (random : Random) (transcript : list Z) : Prop :=
  ∃ cookie seq rest, transcript = own_hello random cookie seq ++ rest.

Context `{!BytesLaws, !DtlsCryptoLaws}.

Lemma random_of_drawn d : random_of_bytes (Random_to_bytes (drawn d)) = Ok (drawn d).
Proof.
  unfold random_of_bytes, Random_to_bytes. rewrite Random_encode_layout. cbn [app]. rewrite be_at_hd by apply length_to_be. run.
  assert (u32 (gmt_unix_time (drawn d))) as Hu by (unfold drawn, Random_new; cbn; mlia).
  rewrite of_be_to_be_32 by done. rewrite (slice_app_skip _ _ 4 32) by (rewrite length_to_be; lia). rewrite length_to_be.
  pose proof (rng_length d 28) as Hl. unfold drawn, Random_new. cbn [random_bytes gmt_unix_time].
  rewrite decide_True by lia. change (4 - 4)%nat with 0%nat. change (32 - 4)%nat with 28%nat. rewrite <- (app_nil_r (rng_fill d 28)) at 1. by rewrite slice_app_hd.
Qed.

(** C5: Whatever datagrams, timers and socket events the DTLS client meets, it
    is in state Connected only with keys expanded with the random value it drew
    itself from a master secret that was derived from its own ECDH secret and a
    public key which the key of a certificate, with the expected SHA-256
    fingerprint where one is set, signed together with that random value; the
    master secret also covers both random values, or the hash of a transcript
    that starts with its own ClientHello. The server random that was signed need
    not be the one of the keys. *)
Theorem dtls_client_authenticated cert expected d public secret s0 evs crypto profile :
  ecdh_generate d = Some (public, secret) → Sys_new d expected = Ok s0 →
  s_state (runner cert true evs s0).1 = Connected crypto profile →
  vouched_keys expected secret (Random_to_bytes (drawn (S d))) (own_transcript (drawn (S d))) (keys crypto).
Proof.
  assert (random_of_bytes (Random_to_bytes (drawn (S d))) = Ok (drawn (S d))) as Hr by apply random_of_drawn.
  apply client_connected; [|rewrite Hr|right; eauto|].
  - intros m x (cookie & seq & rest & ->). exists cookie, seq, (rest ++ x). by rewrite app_assoc.
  - intros random cookie seq [= <-]. exists cookie, seq, []. by rewrite app_nil_r.
  - intros seq. exists [], seq, []. by rewrite app_nil_r.
Qed.

End auth_theorem.

Lemma dtls_client_authenticated_witness :
  @vouched_keys sum_crypto (Some ex_fingerprint) 1 (@Random_to_bytes vec_crate (@drawn sum_crypto 2)) (@own_transcript vec_crate (@drawn sum_crypto 2)) ex_keys.
Proof.
  apply (@dtls_client_authenticated vec_crate sum_crypto vec_laws sum_laws ex_cert (Some ex_fingerprint) 1
    (replicate 64 0 ++ [1]) 1 ex_client0 ex_events (session_of ex_keys) (Some 1)).
  - reflexivity.
  - reflexivity.
  - vm_compute. reflexivity.
Defined.
