(* ===== verification/DtlsComplete.v ===== *)
(** * Two DTLS engines complete a handshake

    A client and a server that exchange their flights both end up connected,
    with the same keys and the same SRTP profile. *)
From S2P Require Import Prelude Core BytesCrate BTree Str StateRes RecordSet DtlsRecord DtlsCrypto.
From S2P Require Import DtlsRecordFacts DtlsCryptoFacts Dtls DtlsData DtlsExample.

Section steps.
Context `{BytesCrate, !BytesLaws, DtlsCrypto, !DtlsCryptoLaws}.

(** ** Sending a message *)

Definition hs_record (e q : Z) (p : list Z) : DtlsRecord :=
  {| content_type := Handshake; version := DTLS_1_2; epoch := e; sequence_number := q; payload := p |}.

Definition raw_message (t : HandshakeType) (n : Z) (b : list Z) : list Z :=
  HandshakeMessage_encode (whole_message t n b) [].

Lemma build_message_plain cl t b s :
  0 ≤ c_sequence_number (s_ctx s) < 2 ^ 48 →
  build_message cl t b None s =
    (s <| s_ctx ::= fun c => c
          <| c_handshake_messages := c_handshake_messages (s_ctx s) ++ raw_message t (c_message_seq (s_ctx s)) b |>
          <| c_sequence_number := c_sequence_number (s_ctx s) + 1 |> |>,
     Ok (DtlsRecord_encode (hs_record (c_epoch (s_ctx s)) (c_sequence_number (s_ctx s))
           (raw_message t (c_message_seq (s_ctx s)) b)) [])).
Proof.
  intros Hq. unfold build_message, build_handshake_record.
  erewrite bind_eq by reflexivity. erewrite bind_eq by reflexivity. erewrite bind_eq by reflexivity.
  erewrite bind_eq by reflexivity. rs.
  assert (inc64 (c_sequence_number (s_ctx s)) = Ok (c_sequence_number (s_ctx s) + 1)) as Hinc.
  { unfold inc64. by rewrite (proj2 (Z.eqb_neq _ _)) by lia. }
  erewrite bind_eq by (unfold lift; rewrite Hinc; reflexivity). reflexivity.
Qed.

Lemma build_message_sealed cl t b k s :
  wf_keys k → 0 < c_epoch (s_ctx s) → 0 ≤ c_sequence_number (s_ctx s) < 2 ^ 48 →
  Z.of_nat (length b) < 65536 →
  ∃ p, encrypt_record Handshake DTLS_1_2 (full_sequence (c_epoch (s_ctx s)) (c_sequence_number (s_ctx s)))
         (raw_message t (c_message_seq (s_ctx s)) b) (write_key cl k).1 (write_key cl k).2 = Ok p ∧
    build_message cl t b (Some k) s =
    (s <| s_ctx ::= fun c => c
          <| c_handshake_messages := c_handshake_messages (s_ctx s) ++ raw_message t (c_message_seq (s_ctx s)) b |>
          <| c_sequence_number := c_sequence_number (s_ctx s) + 1 |> |>,
     Ok (DtlsRecord_encode (hs_record (c_epoch (s_ctx s)) (c_sequence_number (s_ctx s)) p) [])).
Proof.
  intros Hk He Hq Hb. destruct (wf_keys_any cl k Hk) as [Hkey Hiv].
  destruct (encrypt_record_ok Handshake DTLS_1_2 (full_sequence (c_epoch (s_ctx s)) (c_sequence_number (s_ctx s)))
    (raw_message t (c_message_seq (s_ctx s)) b) _ _ Hkey Hiv) as (p & Henc & _).
  { unfold raw_message. rewrite HandshakeMessage_encode_length. cbn [whole_message body]. lia. }
  exists p. split; [done|]. unfold build_message, build_handshake_record.
  erewrite bind_eq by reflexivity. erewrite bind_eq by reflexivity. erewrite bind_eq by reflexivity.
  rs. rewrite (proj2 (Z.ltb_lt _ _)) by lia. fold (raw_message t (c_message_seq (s_ctx s)) b). rewrite Henc.
  erewrite bind_eq by reflexivity.
  assert (inc64 (c_sequence_number (s_ctx s)) = Ok (c_sequence_number (s_ctx s) + 1)) as Hinc.
  { unfold inc64. by rewrite (proj2 (Z.eqb_neq _ _)) by lia. }
  erewrite bind_eq by (unfold lift; rewrite Hinc; reflexivity). reflexivity.
Qed.

Lemma next_message_seq_spec s :
  c_message_seq (s_ctx s) ≠ 65535 →
  next_message_seq s = (s <| s_ctx ::= fun c => c <| c_message_seq := c_message_seq (s_ctx s) + 1 |> |>, Ok tt).
Proof.
  intros Hn. unfold next_message_seq. erewrite bind_eq by reflexivity. unfold inc16.
  by rewrite (proj2 (Z.eqb_neq _ _)) by done.
Qed.

(** A side in the middle of a flight: transcript, record and message counters *)
Definition adv (s : Sys) (hm : list Z) (q m : Z) : Sys :=
  s <| s_ctx ::= fun c => c <| c_handshake_messages := hm |> <| c_sequence_number := q |>
                            <| c_message_seq := m |> |>.

Lemma adv_build cl t b s hm q m :
  0 ≤ q < 2 ^ 48 →
  build_message cl t b None (adv s hm q m) =
    (adv s (hm ++ raw_message t m b) (q + 1) m,
     Ok (DtlsRecord_encode (hs_record (c_epoch (s_ctx s)) q (raw_message t m b)) [])).
Proof. intros Hq. rewrite build_message_plain by exact Hq. reflexivity. Qed.

Lemma adv_seal cl t b k s hm q m :
  wf_keys k → 0 < c_epoch (s_ctx s) → 0 ≤ q < 2 ^ 48 → Z.of_nat (length b) < 65536 →
  ∃ p, encrypt_record Handshake DTLS_1_2 (full_sequence (c_epoch (s_ctx s)) q)
         (raw_message t m b) (write_key cl k).1 (write_key cl k).2 = Ok p ∧
    build_message cl t b (Some k) (adv s hm q m) =
      (adv s (hm ++ raw_message t m b) (q + 1) m,
       Ok (DtlsRecord_encode (hs_record (c_epoch (s_ctx s)) q p) [])).
Proof.
  intros Hk He Hq Hb.
  destruct (build_message_sealed cl t b k (adv s hm q m) Hk He Hq Hb) as (p & Henc & Hb').
  exists p. split; [exact Henc|]. rewrite Hb'. reflexivity.
Qed.

Lemma adv_count s hm q m :
  m ≠ 65535 → next_message_seq (adv s hm q m) = (adv s hm q (m + 1), Ok tt).
Proof. intros Hm. rewrite next_message_seq_spec by exact Hm. reflexivity. Qed.

(** ** Receiving a message *)

Lemma wf_whole_message t n b :
  u16 n → Z.of_nat (length b) < 65536 → wf_handshake (whole_message t n b).
Proof.
  intros Hn Hb. unfold wf_handshake, whole_message. cbn. rewrite len32_ok by lia.
  split_and!; ulia.
Qed.

(** The state in which the handler of the next message runs: the message was
    counted and added to the transcript. *)
Definition counted (t : HandshakeType) (raw : list Z) (s : Sys) : Sys :=
  s <| s_ctx ::= fun c =>
    let c := c <| c_post_hvr := false |> <| c_recv_message_seq := c_recv_message_seq (s_ctx s) + 1 |> in
    if in_transcript t then c <| c_handshake_messages ::= fun h => h ++ raw |> else c |>.

Lemma receive_message_step cert cl e q t n b p s :
  u16 e → u48 q → Z.of_nat (length p) < 65536 → Z.of_nat (length b) < 65536 → 0 ≤ n < 65535 →
  try_decrypt_record cl (hs_record e q p) (s_ctx s) = Ok (raw_message t n b) →
  c_recv_message_seq (s_ctx s) = n →
  let pkt := DtlsRecord_encode (hs_record e q p) [] in
  handle_incoming_packet cert cl (length pkt) pkt s =
    (handle_handshake_message cert cl (whole_message t n b) (raw_message t n b);;
     c ← ctx; drain_pending cert cl (length (c_pending_messages c)))
      (counted t (raw_message t n b) s).
Proof.
  intros He Hq Hp Hb Hn Hdec Hrecv. cbv zeta.
  rewrite handle_one_record by (by apply wf_dtls12_record). rewrite Hdec.
  cbn [handle_decrypted_record content_type hs_record epoch].
  unfold raw_message at 1 2. rewrite process_one_message by (apply wf_whole_message; [ulia|done]).
  fold (raw_message t n b). unfold process_message, order_message.
  erewrite bind_eq.
  2:{ erewrite bind_eq by reflexivity. rewrite Hrecv. cbn [whole_message message_seq].
      rewrite Z.ltb_irrefl. reflexivity. }
  cbn [negb]. erewrite bind_eq by reflexivity.
  erewrite bind_eq by (unfold reassemble; cbn [whole_message total_length fragment_length];
    rewrite Z.eqb_refl; reflexivity).
  cbv beta iota. erewrite bind_eq.
  2:{ unfold next_recv_seq. erewrite bind_eq by reflexivity. rs. rewrite Hrecv. unfold inc16.
      rewrite (proj2 (Z.eqb_neq n 65535)) by lia. erewrite bind_eq by reflexivity. reflexivity. }
  erewrite bind_eq; [|instantiate (1 := tt); instantiate (1 := counted t (raw_message t n b) s)]; [done|].
  unfold add_transcript, counted, when. cbn [whole_message msg_type]. rewrite Hrecv.
  destruct (in_transcript t); reflexivity.
Qed.

Lemma receive_message cert cl e q t n b p s s' :
  u16 e → u48 q → Z.of_nat (length p) < 65536 → Z.of_nat (length b) < 65536 → 0 ≤ n < 65535 →
  try_decrypt_record cl (hs_record e q p) (s_ctx s) = Ok (raw_message t n b) →
  c_recv_message_seq (s_ctx s) = n →
  handle_handshake_message cert cl (whole_message t n b) (raw_message t n b)
    (counted t (raw_message t n b) s) = (s', Ok tt) →
  c_pending_messages (s_ctx s') = [] →
  let pkt := DtlsRecord_encode (hs_record e q p) [] in
  handle_incoming_packet cert cl (length pkt) pkt s = (s', Ok tt).
Proof.
  intros He Hq Hp Hb Hn Hdec Hrecv Hh Hpend'. cbv zeta.
  rewrite (receive_message_step cert cl e q t n b p s) by done.
  erewrite bind_eq by exact Hh. erewrite bind_eq by reflexivity. rewrite Hpend'. cbn [length drain_pending].
  erewrite bind_eq by reflexivity. by rewrite Hpend'.
Qed.

(** A message whose handler aborts *)
Lemma receive_message_abort cert cl q t n b s s' :
  u48 q → Z.of_nat (length b) < 65520 → 0 ≤ n < 65535 → c_recv_message_seq (s_ctx s) = n →
  handle_handshake_message cert cl (whole_message t n b) (raw_message t n b)
    (counted t (raw_message t n b) s) = (s', Panic) →
  let pkt := DtlsRecord_encode (hs_record 0 q (raw_message t n b)) [] in
  handle_incoming_packet cert cl (length pkt) pkt s = (s', Panic).
Proof.
  intros Hq Hb Hn Hrecv Hh. cbv zeta.
  rewrite (receive_message_step cert cl 0 q t n b (raw_message t n b) s);
    [|ulia|done| |lia|done|done|done].
  - unfold mbind, stM_bind. by rewrite Hh.
  - unfold raw_message. rewrite HandshakeMessage_encode_length. cbn [body whole_message]. lia.
Qed.

(** ** Extensions *)

Lemma split_extensions_crate fuel l :
  split_extensions fuel l = @split_extensions vec_crate fuel l.
Proof.
  revert l. induction fuel as [|fuel IH]; intros l; [done|].
  cbn [split_extensions]. destruct (length l <? 4)%nat; [done|].
  rewrite get_u16_spec. change (@get_u16 vec_crate l) with (read_be 2 l).
  destruct (read_be 2 l) as [[x l1]|]; [|done]. run.
  rewrite get_u16_spec. change (@get_u16 vec_crate l1) with (read_be 2 l1).
  destruct (read_be 2 l1) as [[y l2]|]; [|done]. run.
  destruct (length l2 <? Z.to_nat y)%nat; [done|].
  rewrite split_to_spec. change (@split_to vec_crate (Z.to_nat y) l2) with (split_front (Z.to_nat y) l2).
  destruct (split_front (Z.to_nat y) l2) as [[d l3]|]; [|done]. run. by rewrite IH.
Qed.

Lemma client_hello_extensions_read :
  (exts ← split_extensions (length get_client_hello_extensions) get_client_hello_extensions;
   client_extensions exts) = Ok ([7; 1], true).
Proof. rewrite split_extensions_crate. by vm_compute. Qed.

Definition server_exts : list (Z * list Z) :=
  [(11, [1; 0]); (0xff01, [0]); (23, []); (14, [0; 2; 0; 1; 0])].

Lemma server_extensions_read :
  split_extensions (length (server_extensions true (Some 1))) (server_extensions true (Some 1)) = Ok server_exts.
Proof. rewrite split_extensions_crate. by vm_compute. Qed.

Lemma apply_server_exts s :
  apply_server_extensions server_exts s =
    (s <| s_ctx ::= fun c => c <| c_ems_negotiated := true |> <| c_srtp_profile := Some 1 |> |>, Ok tt).
Proof.
  assert (@be_at RtcError 2 [0; 2; 0; 1; 0] 2 = Ok 1) as Hp by by vm_compute.
  unfold server_exts. cbn [apply_server_extensions]. cbn [Z.eqb Pos.eqb length Nat.leb andb].
  rewrite Hp. do 4 (erewrite bind_eq by reflexivity). reflexivity.
Qed.

End steps.

(** ** The run

    Everything both sides compute, from the draws of random values [dc] and
    [ds] they start with. *)
Section run.
Context `{BytesCrate, !BytesLaws, DtlsCrypto, !DtlsCryptoLaws}.
Context (cert ccert : Certificate) (leaf : list Z) (rest : list (list Z)) (sk : SigningKey) (vk : VerifyingKey).
Context (exp_c exp_s : option str) (dc ds : nat) (pc ps : list Z) (zc zs : EcdhSecret).
Context (Hcert : DtlsCrypto.certificate cert = leaf :: rest)
  (Hsize : Z.of_nat (length (certs_bytes (DtlsCrypto.certificate cert))) < 65000)
  (Hsk : signing_key_from_pkcs8_der (private_key_pkcs8 cert) = Some sk)
  (Hvk : verifying_key sk = Some vk)
  (Hleaf : certificate_public_key leaf = Ok vk)
  (Hexp : match exp_c with Some fp => fingerprint_from_der leaf = fp | None => True end)
  (Hgc : ecdh_generate dc = Some (pc, zc)) (Hgs : ecdh_generate ds = Some (ps, zs)).

Definition start_ctx (public : list Z) (secret : EcdhSecret) (expected : option str) : HandshakeContext :=
  {| c_sequence_number := 0; c_epoch := 0; c_read_epoch := 0; c_message_seq := 0;
     c_recv_message_seq := 0; c_post_hvr := false; c_last_flight_records := None;
     c_final_flight_resends := 0; c_incomplete_fragments := HandshakeReassembly_default;
     c_pending_messages := []; c_local_secret := Some secret; c_local_public_key_bytes := public;
     c_peer_public_key := None; c_peer_certificate := None; c_client_random := None;
     c_server_random := None; c_session_keys := None; c_session_crypto := None;
     c_handshake_messages := []; c_ems_negotiated := false; c_srtp_profile := None;
     c_expected_remote_fingerprint := expected; c_server_key_exchange_verified := false |}.

Definition start_sys (d : nat) (public : list Z) (secret : EcdhSecret) (expected : option str) : Sys :=
  {| s_state := New; s_state_tx := New; s_write_seq := 0; s_write_epoch := 0; s_sent := [];
     s_incoming := []; s_draws := S d; s_ctx := start_ctx public secret expected |}.

Definition c_random : Random := Random_new (unix_ms (S dc)) (rng_fill (S dc) 28).
Definition s_random : Random := Random_new (unix_ms (S ds)) (rng_fill (S ds) 28).
Definition cr : list Z := Random_to_bytes c_random.
Definition sr : list Z := Random_to_bytes s_random.

Definition hello_c : ClientHello := client_hello_with c_random [].
Definition hello_s : ServerHello :=
  {| sh_version := DTLS_1_2; sh_random := s_random; sh_session_id := rng_fill (S (S ds)) 32;
     cipher_suite := SUPPORTED_CIPHER_SUITE; compression_method := 0;
     sh_extensions := server_extensions true (Some 1) |}.
Definition certs : CertificateMessage := {| certificates := DtlsCrypto.certificate cert |}.

(** The messages, in order *)
Definition CH : list Z := raw_message TClientHello 0 (ClientHello_encode hello_c []).
Definition SH : list Z := raw_message TServerHello 0 (ServerHello_encode hello_s []).
Definition CT : list Z := raw_message TCertificate 1 (CertificateMessage_encode certs []).
Definition ske (sig : list Z) : ServerKeyExchange :=
  {| curve_type := 3; named_curve := 23; ske_public_key := ps; ske_signature := sig |}.
Definition SK (sig : list Z) : list Z :=
  raw_message TServerKeyExchange 2 (ServerKeyExchange_encode (ske sig) []).
Definition SD : list Z := raw_message TServerHelloDone 3 [].
Definition cke : ClientKeyExchange := {| identity_hint := []; cke_public_key := pc |}.
Definition CK : list Z := raw_message TClientKeyExchange 1 (ClientKeyExchange_encode cke []).
Definition FC (v : list Z) : list Z := raw_message TFinished 2 v.
Definition FS (v : list Z) : list Z := raw_message TFinished 4 v.

Definition plain (q : Z) (raw : list Z) : list Z := DtlsRecord_encode (hs_record 0 q raw) [].

(** *** The client starts *)

Definition c1 : Sys := start_sys dc pc zc exp_c
  <| s_state := Handshaking |> <| s_state_tx := Handshaking |> <| s_draws := S (S dc) |>
  <| s_sent := [plain 0 CH] |>
  <| s_ctx ::= fun c => c <| c_client_random := Some cr |> <| c_handshake_messages := CH |>
       <| c_sequence_number := 1 |> <| c_last_flight_records := Some [plain 0 CH] |>
       <| c_message_seq := 1 |> |>.

Lemma client_starts : handshake_start true (start_sys dc pc zc exp_c) = (c1, Ok tt).
Proof.
  unfold handshake_start, when.
  erewrite bind_eq by reflexivity. erewrite bind_eq by reflexivity. erewrite bind_eq by reflexivity.
  erewrite bind_eq by (apply build_message_plain; rs; cbn; lia).
  erewrite bind_eq by reflexivity. rewrite next_message_seq_spec by done. reflexivity.
Qed.

Definition s1 : Sys := start_sys ds ps zs exp_s
  <| s_state := Handshaking |> <| s_state_tx := Handshaking |>.

Lemma server_starts : handshake_start false (start_sys ds ps zs exp_s) = (s1, Ok tt).
Proof. reflexivity. Qed.

(** *** Sizes *)

Lemma pub_len i p z : ecdh_generate i = Some (p, z) → length p = 65%nat.
Proof. intros Hi. destruct (ecdh_generates i) as (p' & z' & Hi' & Hl). congruence. Qed.

Lemma wf_random_new ms i : wf_random (Random_new ms (rng_fill i 28)).
Proof. split; [cbn; mlia|]. apply rng_length. Qed.

Lemma wf_hello_c : wf_client_hello hello_c.
Proof.
  unfold wf_client_hello, hello_c, client_hello_with, wf_version.
  cbn [ch_version ch_random ch_session_id ch_cookie cipher_suites compression_methods ch_extensions].
  split_and!; try (cbn; ulia); try apply wf_random_new.
  unfold get_client_hello_cipher_suites. repeat constructor; ulia.
Qed.

Lemma wf_hello_s : wf_server_hello hello_s.
Proof.
  unfold wf_server_hello, hello_s, wf_version.
  cbn [sh_version sh_random sh_session_id cipher_suite compression_method sh_extensions].
  split_and!; try (cbn; ulia); try apply wf_random_new.
  - rewrite rng_length. lia.
  - unfold SUPPORTED_CIPHER_SUITE. ulia.
  - by vm_compute.
Qed.

Lemma hello_c_len : Z.of_nat (length (ClientHello_encode hello_c [])) < 200.
Proof.
  unfold ClientHello_encode. rewrite put_extensions_layout, put_u16s_layout, Random_encode_layout.
  autorewrite with crate. autorewrite with wire. cbn [hello_c client_hello_with ch_random c_random Random_new random_bytes].
  rewrite rng_length. vm_compute. done.
Qed.

(** *** The server answers the ClientHello *)

Definition flight_s (sig : list Z) : list (list Z) :=
  [plain 0 SH; plain 1 CT; plain 2 (SK sig); plain 3 SD].

Definition s2 (sig : list Z) : Sys := s1
  <| s_draws := S (S (S (S ds))) |> <| s_sent := flight_s sig |>
  <| s_ctx ::= fun c => c <| c_recv_message_seq := 1 |> <| c_client_random := Some cr |>
       <| c_server_random := Some sr |> <| c_ems_negotiated := true |> <| c_srtp_profile := Some 1 |>
       <| c_handshake_messages := (((CH ++ SH) ++ CT) ++ SK sig) ++ SD |>
       <| c_sequence_number := 4 |> <| c_message_seq := 4 |>
       <| c_last_flight_records := Some (flight_s sig) |> |>.

(** The client after ServerHello, Certificate and ServerKeyExchange *)
Definition c2 : Sys := c1
  <| s_ctx ::= fun c => c <| c_recv_message_seq := 1 |> <| c_handshake_messages := CH ++ SH |>
       <| c_server_random := Some sr |> <| c_ems_negotiated := true |> <| c_srtp_profile := Some 1 |> |>.
Definition c3 : Sys := c2
  <| s_ctx ::= fun c => c <| c_recv_message_seq := 2 |> <| c_handshake_messages := (CH ++ SH) ++ CT |>
       <| c_peer_certificate := Some leaf |> |>.
Definition c4 (sig : list Z) : Sys := c3
  <| s_ctx ::= fun c => c <| c_recv_message_seq := 3 |> <| c_handshake_messages := ((CH ++ SH) ++ CT) ++ SK sig |>
       <| c_peer_public_key := Some ps |> <| c_server_key_exchange_verified := true |> |>.

(** The server before its flight *)
Definition s1' : Sys := s1 <| s_draws := S (S (S ds)) |>
  <| s_ctx ::= fun c => c <| c_recv_message_seq := 1 |> <| c_client_random := Some cr |>
       <| c_server_random := Some sr |> <| c_ems_negotiated := true |> <| c_srtp_profile := Some 1 |> |>.

Lemma plain_decrypt cl q raw c : try_decrypt_record cl (hs_record 0 q raw) c = Ok raw.
Proof. done. Qed.

Lemma raw_len t n b : length (raw_message t n b) = (12 + length b)%nat.
Proof. unfold raw_message. by rewrite HandshakeMessage_encode_length. Qed.

(** Equality of two states that differ in how they were updated: the messages
    are abstracted first, so that only the updates are compared. *)
Ltac fields_of :=
  cbv beta iota zeta delta [start_sys start_ctx counted adv upd modify set
    s_state s_state_tx s_write_seq s_write_epoch s_sent s_incoming s_draws s_ctx
    c_sequence_number c_epoch c_read_epoch c_message_seq c_recv_message_seq c_post_hvr
    c_last_flight_records c_final_flight_resends c_incomplete_fragments c_pending_messages
    c_local_secret c_local_public_key_bytes c_peer_public_key c_peer_certificate c_client_random
    c_server_random c_session_keys c_session_crypto c_handshake_messages c_ems_negotiated
    c_srtp_profile c_expected_remote_fingerprint c_server_key_exchange_verified];
  cbn [in_transcript].
Ltac same := unfold c4, c3, c2, c1, s2, s1', s1; fields_of; reflexivity.
(** Names the state of a goal [m s = _]. *)
Ltac to_state t tac :=
  lazymatch goal with |- ?m ?S = _ => replace S with t by (symmetry; tac) end.
Ltac step := erewrite bind_eq by reflexivity.
Ltac build := erewrite bind_eq by (apply adv_build; lia).
Ltac count := erewrite bind_eq by (apply adv_count; lia).

Lemma send_server_flight_spec s sig :
  c_epoch (s_ctx s) = 0 → c_client_random (s_ctx s) = Some cr → c_server_random (s_ctx s) = Some sr →
  c_local_public_key_bytes (s_ctx s) = ps →
  sign (s_draws s) sk (signed_params cr sr 3 23 ps) = Some sig →
  send_server_flight cert false hello_s (adv s CH 0 0) =
    (adv s ((((CH ++ SH) ++ CT) ++ SK sig) ++ SD) 4 4
       <| s_draws ::= S |> <| s_sent ::= fun l => l ++ flight_s sig |>
       <| s_ctx ::= fun c => c <| c_last_flight_records := Some (flight_s sig) |> |>, Ok tt).
Proof.
  intros He Hcr Hsr Hps Hsig. unfold send_server_flight.
  build. count. build. count.
  assert (∀ s', s_ctx s' = s_ctx (adv s ((CH ++ SH) ++ CT) 2 2) → s_draws s' = s_draws s →
    sign_params cert s' = (s' <| s_draws ::= S |>, Ok (ske sig))) as Hsp.
  { intros s' Hc Hd. unfold sign_params. step. rewrite Hc.
    change (c_client_random (s_ctx (adv _ _ _ _))) with (c_client_random (s_ctx s)).
    change (c_server_random (s_ctx (adv _ _ _ _))) with (c_server_random (s_ctx s)).
    change (c_local_public_key_bytes (s_ctx (adv _ _ _ _))) with (c_local_public_key_bytes (s_ctx s)).
    rewrite Hcr, Hsr, Hps. unfold or_internal. rewrite Hsk. step. step.
    rewrite Hd. rewrite <- app_assoc. fold (signed_params cr sr 3 23 ps). rewrite Hsig. reflexivity. }
  erewrite bind_eq by (apply Hsp; reflexivity).
  change (adv s ?hm ?q ?m <| s_draws ::= S |>) with (adv (s <| s_draws ::= S |>) hm q m).
  build. count. build. count.
  change (c_epoch (s_ctx (s <| s_draws ::= S |>))) with (c_epoch (s_ctx s)). rewrite He. reflexivity.
Qed.

Lemma server_answers :
  ∃ sig, Z.of_nat (length sig) ≤ 72 ∧ verify vk (signed_params cr sr 3 23 ps) sig = true ∧
    handle_incoming_packet cert false (length (plain 0 CH)) (plain 0 CH) s1 = (s2 sig, Ok tt).
Proof.
  destruct (sign_verifies (S (S (S ds))) sk (signed_params cr sr 3 23 ps)) as (sig & vk' & Hsig & Hlen & Hvk' & Hver).
  exists sig. split; [done|]. split; [congruence|].
  apply (receive_message cert false 0 0 TClientHello 0 (ClientHello_encode hello_c []));
    [ulia..| |pose proof hello_c_len; lia|lia|apply plain_decrypt|done| |done].
  { unfold CH. rewrite raw_len. pose proof hello_c_len. lia. }
  fold CH. cbn [handle_handshake_message whole_message msg_type]. unfold handle_client_hello.
  step. change (c_server_random (s_ctx (counted _ _ s1))) with (@None (list Z)). cbv iota.
  cbn [body whole_message]. rewrite ClientHello_roundtrip by apply wf_hello_c. cbv beta iota.
  step.
  pose proof client_hello_extensions_read as Hext.
  change (ch_extensions hello_c) with get_client_hello_extensions.
  destruct (split_extensions _ _) as [exts| |]; [|done..]. run in Hext.
  step. rewrite Hext. step. cbv beta iota. step. step. step. step.
  change (select_profile [7; 1]) with (Some 1). cbv beta iota. step. step.
  change (negotiate_cipher_suite (cipher_suites hello_c)) with (Some SUPPORTED_CIPHER_SUITE). cbv beta iota.
  lazymatch goal with |- send_server_flight _ _ ?h ?S = _ =>
    change h with hello_s; change S with (adv s1' CH 0 0) end.
  rewrite (send_server_flight_spec s1' sig) by done. same.
Qed.

(** *** The client takes the flight of the server *)

Lemma hello_s_len : Z.of_nat (length (ServerHello_encode hello_s [])) < 200.
Proof.
  unfold ServerHello_encode. rewrite put_extensions_layout, Random_encode_layout.
  autorewrite with crate. autorewrite with wire.
  cbn [hello_s sh_random s_random Random_new random_bytes sh_session_id]. rewrite !rng_length. by vm_compute.
Qed.

Lemma certs_len : Z.of_nat (length (CertificateMessage_encode certs [])) < 65010.
Proof.
  unfold CertificateMessage_encode. cbn [certs certificates].
  rewrite put_certs_layout, put_u24_layout by lia. autorewrite with wire. lia.
Qed.

Lemma ske_len sig : Z.of_nat (length sig) ≤ 72 → Z.of_nat (length (ServerKeyExchange_encode (ske sig) [])) < 200.
Proof.
  intros Hs. unfold ServerKeyExchange_encode. autorewrite with crate. autorewrite with wire.
  cbn [ske ske_public_key ske_signature]. rewrite (pub_len ds ps zs Hgs). lia.
Qed.

Lemma cke_len : Z.of_nat (length (ClientKeyExchange_encode cke [])) < 200.
Proof.
  unfold ClientKeyExchange_encode. cbn [cke identity_hint]. rewrite decide_True by done.
  autorewrite with crate. autorewrite with wire. cbn [cke cke_public_key]. rewrite (pub_len dc pc zc Hgc). lia.
Qed.

(** A plaintext message, whole, with the next number *)
Lemma receive_plain cert' cl q t n b s s' :
  u48 q → Z.of_nat (length b) < 65520 → 0 ≤ n < 65535 → c_recv_message_seq (s_ctx s) = n →
  handle_handshake_message cert' cl (whole_message t n b) (raw_message t n b)
    (counted t (raw_message t n b) s) = (s', Ok tt) →
  c_pending_messages (s_ctx s') = [] →
  handle_incoming_packet cert' cl (length (plain q (raw_message t n b))) (plain q (raw_message t n b)) s = (s', Ok tt).
Proof.
  intros Hq Hb Hn Hr Hh Hp.
  apply (receive_message cert' cl 0 q t n b); [ulia|done| |lia|done|apply plain_decrypt|done|done|done].
  rewrite raw_len. lia.
Qed.

Lemma client_takes_hello :
  handle_incoming_packet ccert true (length (plain 0 SH)) (plain 0 SH) c1 = (c2, Ok tt).
Proof.
  apply receive_plain; [ulia|pose proof hello_s_len; lia|lia|done| |done].
  fold SH. cbn [handle_handshake_message whole_message msg_type body]. unfold handle_server_hello.
  cbn [negb body whole_message]. rewrite ServerHello_roundtrip by apply wf_hello_s. cbv beta iota.
  change (cipher_suite hello_s =? SUPPORTED_CIPHER_SUITE) with true. cbn [negb].
  step. change (sh_extensions hello_s) with (server_extensions true (Some 1)).
  rewrite server_extensions_read. step. rewrite apply_server_exts.
  change (Random_to_bytes (sh_random hello_s)) with sr. same.
Qed.

Lemma client_takes_certificate :
  handle_incoming_packet ccert true (length (plain 1 CT)) (plain 1 CT) c2 = (c3, Ok tt).
Proof.
  apply receive_plain; [ulia|pose proof certs_len; lia|lia|done| |done].
  fold CT. cbn [handle_handshake_message whole_message msg_type body]. unfold handle_certificate.
  cbn [body whole_message]. rewrite CertificateMessage_roundtrip
    by (unfold wf_certificates; cbn [certs certificates]; lia).
  step. cbn [certs certificates]. rewrite Hcert. cbv iota. step.
  change (c_expected_remote_fingerprint (s_ctx (counted _ _ c2))) with exp_c.
  assert (match exp_c with Some expected => negb (bool_decide (fingerprint_from_der leaf = expected))
          | None => false end = false) as ->.
  { destruct exp_c; [|done]. by rewrite bool_decide_true. }
  rewrite Hleaf. same.
Qed.

Lemma wf_ske sig : Z.of_nat (length sig) ≤ 72 → wf_server_key_exchange (ske sig).
Proof.
  intros Hs. unfold wf_server_key_exchange. cbn [ske curve_type named_curve ske_public_key ske_signature].
  rewrite (pub_len ds ps zs Hgs). split_and!; ulia.
Qed.

Lemma client_takes_key_exchange sig :
  Z.of_nat (length sig) ≤ 72 → verify vk (signed_params cr sr 3 23 ps) sig = true →
  handle_incoming_packet ccert true (length (plain 2 (SK sig))) (plain 2 (SK sig)) c3 = (c4 sig, Ok tt).
Proof.
  intros Hs Hver.
  apply (receive_plain ccert true 2 TServerKeyExchange 2 (ServerKeyExchange_encode (ske sig) []) c3 (c4 sig)).
  { ulia. } { pose proof (ske_len sig Hs); lia. } { lia. } { reflexivity. } 2:{ reflexivity. }
  fold (SK sig). cbn [handle_handshake_message whole_message msg_type body]. unfold handle_server_key_exchange.
  cbn [negb body whole_message]. rewrite ServerKeyExchange_roundtrip by (by apply wf_ske). cbv beta iota. step.
  change (c_peer_certificate (s_ctx (counted _ _ c3))) with (Some leaf).
  change (c_client_random (s_ctx (counted _ _ c3))) with (Some cr).
  change (c_server_random (s_ctx (counted _ _ c3))) with (Some sr). cbv iota.
  assert (verify_server_key_exchange_signature leaf cr sr (ske sig) = Ok tt) as ->.
  { unfold verify_server_key_exchange_signature. cbn [ske ske_public_key curve_type named_curve ske_signature].
    rewrite (pub_len ds ps zs Hgs), Hleaf. run. by rewrite Hver. }
  same.
Qed.

(** *** Keys *)

(** The transcript up to ServerHelloDone, and with ClientKeyExchange *)
Definition HM0 (sig : list Z) : list Z := (((CH ++ SH) ++ CT) ++ SK sig) ++ SD.
Definition HM (sig : list Z) : list Z := HM0 sig ++ CK.

(** The keys of the session *)
Definition session_keys_of (sig : list Z) (k : SessionKeys) : Prop :=
  ∃ z, shared_secret zc ps = Some z ∧ shared_secret zs pc = Some z ∧
    prf_sha256 z (lit "extended master secret") (sha256 (HM sig)) 48 = Ok (master_secret k) ∧
    expand_keys (master_secret k) cr sr = Ok k ∧ wf_keys k.

Lemma session_keys_exist sig : ∃ k, session_keys_of sig k.
Proof.
  destruct (ecdh_agrees dc ds pc ps zc zs Hgc Hgs) as (z & Hz1 & Hz2).
  destruct (prf_sha256_ok z (lit "extended master secret") (sha256 (HM sig)) 48) as (ms & Hms & _).
  destruct (expand_keys_ok ms cr sr) as (k & Hk & Hwf & Hm & _). exists k, z. rewrite Hm. done.
Qed.

Lemma agree_keys_derived sig k c secret peer :
  session_keys_of sig k →
  c_peer_public_key c = Some peer → c_local_secret c = Some secret →
  shared_secret secret peer = shared_secret zc ps →
  c_client_random c = Some cr → c_server_random c = Some sr → c_ems_negotiated c = true →
  c_handshake_messages c = HM sig →
  agree_keys c = Ok (Some k).
Proof.
  intros (z & Hz & _ & Hms & Hk & _) Hp Hl Hs Hcr Hsr He Hhm.
  unfold agree_keys, derive_keys. rewrite Hp, Hl, Hs, Hz, Hcr, Hsr, He, Hhm, Hms. run. by rewrite Hk.
Qed.

Lemma install_keys_spec k s :
  wf_keys k →
  install_keys k s =
    (s <| s_ctx ::= set c_session_crypto (fun _ => Some (session_of k)) |>
       <| s_ctx ::= set c_session_keys (fun _ => Some k) |>, Ok tt).
Proof.
  intros Hk. unfold install_keys. rewrite create_session_crypto_ok by done.
  do 2 (erewrite bind_eq by reflexivity). reflexivity.
Qed.

(** *** The client's second flight *)

Definition ccs (q : Z) : list Z :=
  DtlsRecord_encode {| content_type := ChangeCipherSpec; version := DTLS_1_2; epoch := 0;
                       sequence_number := q; payload := [1] |} [].
Definition sealed (p : list Z) : list Z := DtlsRecord_encode (hs_record 1 0 p) [].
Definition flight_c (p : list Z) : list (list Z) := [plain 1 CK; ccs 2; sealed p].

(** The client after its Finished, and before ClientKeyExchange *)
Definition c5 (sig : list Z) (k : SessionKeys) (v p : list Z) : Sys := c4 sig
  <| s_sent := [plain 0 CH] ++ flight_c p |>
  <| s_ctx ::= fun c => c <| c_recv_message_seq := 4 |> <| c_handshake_messages := HM sig ++ FC v |>
       <| c_session_crypto := Some (session_of k) |> <| c_session_keys := Some k |>
       <| c_epoch := 1 |> <| c_sequence_number := 1 |> <| c_message_seq := 3 |>
       <| c_last_flight_records := Some (flight_c p) |> |>.
Definition c4' (sig : list Z) : Sys := c4 sig <| s_ctx ::= fun c => c <| c_recv_message_seq := 4 |> |>.
(** with the keys, after ChangeCipherSpec *)
Definition c4k (sig : list Z) (k : SessionKeys) : Sys := c4' sig
  <| s_ctx ::= fun c => c <| c_session_crypto := Some (session_of k) |> <| c_session_keys := Some k |>
       <| c_epoch := 1 |> |>.

Lemma client_finishes sig k v :
  session_keys_of sig k →
  calculate_verify_data (master_secret k) (lit "client finished") (HM sig) = Ok v → length v = 12%nat →
  ∃ p, encrypt_record Handshake DTLS_1_2 (full_sequence 1 0) (FC v) (client_write_key k) (client_write_iv k) = Ok p ∧
    handle_incoming_packet ccert true (length (plain 3 SD)) (plain 3 SD) (c4 sig) = (c5 sig k v p, Ok tt).
Proof.
  intros Hks Hv Hvl. pose proof Hks as (_ & _ & _ & _ & _ & Hwf).
  destruct (adv_seal true TFinished v k (c4k sig k) (HM sig) 0 2 Hwf) as (p & Henc & Hseal);
    [reflexivity|lia|lia|].
  exists p. split; [exact Henc|].
  apply (receive_plain ccert true 3 TServerHelloDone 3 [] (c4 sig) (c5 sig k v p)).
  { ulia. } { cbn; lia. } { lia. } { reflexivity. } 2:{ reflexivity. }
  fold SD. cbn [handle_handshake_message whole_message msg_type].
  assert (counted TServerHelloDone SD (c4 sig) = adv (c4' sig) (HM0 sig) 1 1) as ->
    by (unfold c4', HM0; same).
  unfold handle_server_hello_done. step.
  change (c_session_keys (s_ctx (adv (c4' sig) (HM0 sig) 1 1))) with (@None SessionKeys).
  change (c_server_key_exchange_verified (s_ctx (adv (c4' sig) (HM0 sig) 1 1))) with true.
  change (c_local_public_key_bytes (s_ctx (adv (c4' sig) (HM0 sig) 1 1))) with pc. cbn [negb andb].
  build. fold cke. change (raw_message TClientKeyExchange 1 (ClientKeyExchange_encode cke [])) with CK.
  fold (HM sig). count. step.
  erewrite bind_eq by (unfold lift; rewrite (agree_keys_derived sig k _ zc ps Hks) by reflexivity; reflexivity).
  cbv beta iota. erewrite bind_eq by (by apply install_keys_spec).
  erewrite bind_eq by (unfold change_cipher_spec; do 4 (erewrite bind_eq by reflexivity); reflexivity).
  to_state (adv (c4k sig k) (HM sig) 0 2) ltac:(unfold c4k, c4'; same).
  step. change (c_handshake_messages (s_ctx (adv (c4k sig k) (HM sig) 0 2))) with (HM sig).
  change (c_session_keys (s_ctx (adv (c4k sig k) (HM sig) 0 2))) with (Some k).
  rewrite Hv. step.
  change (Finished_encode {| verify_data := v |} []) with (put_slice [] v). rewrite put_slice_spec. cbn [app].
  erewrite bind_eq by exact Hseal. fold (FC v).
  erewrite bind_eq by reflexivity. 
  rewrite next_message_seq_spec by (intros [=]). unfold c5, c4k, c4'. same.
Qed.

(** *** The server completes *)

Definition s3 (sig : list Z) (k : SessionKeys) : Sys := s2 sig
  <| s_ctx ::= fun c => c <| c_recv_message_seq := 2 |> <| c_handshake_messages := HM sig |>
       <| c_peer_public_key := Some pc |>
       <| c_session_crypto := Some (session_of k) |> <| c_session_keys := Some k |> |>.
Definition s4 (sig : list Z) (k : SessionKeys) : Sys := s3 sig k
  <| s_ctx ::= fun c => c <| c_read_epoch := 1 |> |>.
(** after the check of the client's Finished and ChangeCipherSpec *)
Definition s4k (sig : list Z) (k : SessionKeys) : Sys := s4 sig k
  <| s_ctx ::= fun c => c <| c_recv_message_seq := 3 |> <| c_epoch := 1 |> |>.
Definition s5 (sig : list Z) (k : SessionKeys) (v v' p' : list Z) : Sys := s4k sig k
  <| s_state := Connected (session_of k) (Some 1) |> <| s_state_tx := Connected (session_of k) (Some 1) |>
  <| s_write_epoch := 1 |> <| s_write_seq := 1 |> <| s_sent := flight_s sig ++ [ccs 4; sealed p'] |>
  <| s_ctx ::= fun c => c <| c_handshake_messages := (HM sig ++ FC v) ++ FS v' |>
       <| c_sequence_number := 1 |> <| c_last_flight_records := Some [ccs 4; sealed p'] |>
       <| c_local_secret := None |> |>.

Lemma server_takes_key_exchange sig k :
  session_keys_of sig k →
  handle_incoming_packet cert false (length (plain 1 CK)) (plain 1 CK) (s2 sig) = (s3 sig k, Ok tt).
Proof.
  intros Hks. pose proof Hks as (z & Hz1 & Hz2 & _ & _ & Hwf).
  apply (receive_plain cert false 1 TClientKeyExchange 1 (ClientKeyExchange_encode cke []) (s2 sig) (s3 sig k)).
  { ulia. } { pose proof cke_len; lia. } { lia. } { reflexivity. } 2:{ reflexivity. }
  fold CK. cbn [handle_handshake_message whole_message msg_type]. unfold handle_client_key_exchange.
  step. change (c_session_keys (s_ctx (counted TClientKeyExchange CK (s2 sig)))) with (@None SessionKeys).
  cbn [body whole_message]. rewrite ClientKeyExchange_roundtrip
    by (split; [done|cbn [cke cke_public_key]; rewrite (pub_len dc pc zc Hgc); lia]).
  cbv beta iota. cbn [cke cke_public_key].
  step. step.
  erewrite bind_eq by (unfold lift; rewrite (agree_keys_derived sig k _ zs pc Hks) by (congruence || reflexivity); reflexivity).
  cbv beta iota. rewrite install_keys_spec by done. unfold s3, HM, HM0. same.
Qed.

Lemma ccs_received cert' cl q s :
  u48 q →
  handle_incoming_packet cert' cl (length (ccs q)) (ccs q) s =
    (s <| s_ctx ::= set c_read_epoch (fun e => if e =? 65535 then e else e + 1) |>, Ok tt).
Proof. intros Hq. unfold ccs. by rewrite handle_one_record by (apply wf_dtls12_record; [ulia|done|cbn; lia]). Qed.

Lemma server_takes_ccs sig k :
  handle_incoming_packet cert false (length (ccs 2)) (ccs 2) (s3 sig k) = (s4 sig k, Ok tt).
Proof. rewrite ccs_received by ulia. unfold s4, s3. same. Qed.

Lemma sealed_opens cl k t n b p c :
  wf_keys k → Z.of_nat (length b) < 65000 → c_session_crypto c = Some (session_of k) →
  encrypt_record Handshake DTLS_1_2 (full_sequence 1 0) (raw_message t n b) (write_key cl k).1 (write_key cl k).2 = Ok p →
  try_decrypt_record (negb cl) (hs_record 1 0 p) c = Ok (raw_message t n b) ∧
  Z.of_nat (length p) < 65536.
Proof.
  intros Hk Hb Hc Henc. destruct (wf_keys_any cl k Hk) as [Hkey Hiv].
  destruct (encrypt_record_ok Handshake DTLS_1_2 (full_sequence 1 0) (raw_message t n b) _ _ Hkey Hiv)
    as (p' & Henc' & Hl & _ & Hdec).
  { rewrite raw_len. lia. }
  rewrite Henc in Henc'. simplify_eq. rewrite raw_len in Hl. split; [|lia].
  unfold try_decrypt_record. cbn [epoch hs_record sequence_number content_type version payload Z.eqb].
  rewrite Hc. assert (read_cipher (negb cl) (session_of k) = write_key cl k) as -> by by destruct cl.
  by rewrite Hdec.
Qed.

(** A protected message, whole, with the next number *)
Lemma receive_sealed cert' cl k t n b p s s' :
  wf_keys k → Z.of_nat (length b) < 65000 → c_session_crypto (s_ctx s) = Some (session_of k) →
  encrypt_record Handshake DTLS_1_2 (full_sequence 1 0) (raw_message t n b) (write_key cl k).1 (write_key cl k).2 = Ok p →
  0 ≤ n < 65535 → c_recv_message_seq (s_ctx s) = n →
  handle_handshake_message cert' (negb cl) (whole_message t n b) (raw_message t n b)
    (counted t (raw_message t n b) s) = (s', Ok tt) →
  c_pending_messages (s_ctx s') = [] →
  handle_incoming_packet cert' (negb cl) (length (sealed p)) (sealed p) s = (s', Ok tt).
Proof.
  intros Hk Hb Hc Henc Hn Hr Hh Hp.
  destruct (sealed_opens cl k t n b p (s_ctx s) Hk Hb Hc Henc) as [Hopen Hlp].
  unfold sealed. eapply (receive_message cert' (negb cl) 1 0 t n b); [ulia|ulia|done|lia|exact Hn|exact Hopen|exact Hr|exact Hh|exact Hp].
Qed.

Lemma connect_eq k s :
  wf_keys k →
  connect k s =
    (s <| s_state := Connected (session_of k) (c_srtp_profile (s_ctx s)) |>
       <| s_write_epoch := c_epoch (s_ctx s) |> <| s_write_seq := c_sequence_number (s_ctx s) |>
       <| s_state_tx := Connected (session_of k) (c_srtp_profile (s_ctx s)) |>
       <| s_ctx ::= set c_local_secret (fun _ => None) |>, Ok tt).
Proof.
  intros Hk. unfold connect. rewrite create_session_crypto_ok by done.
  do 6 (erewrite bind_eq by reflexivity). reflexivity.
Qed.

Lemma check_finished_ok c k label v s :
  calculate_verify_data (master_secret k) label (c_handshake_messages c) = Ok v →
  check_finished c k label {| verify_data := v |} s = (s, Ok tt).
Proof.
  intros Hv. unfold check_finished. rewrite Hv. step. cbn [verify_data].
  by rewrite bool_decide_true.
Qed.

Lemma Finished_body v : length v = 12%nat → Finished_decode v = Ok ({| verify_data := v |}, []).
Proof.
  intros Hv. pose proof (Finished_roundtrip {| verify_data := v |}) as Hr.
  unfold Finished_encode in Hr. rewrite put_slice_spec in Hr. exact Hr.
Qed.

Lemma server_completes sig k v v' p :
  session_keys_of sig k →
  calculate_verify_data (master_secret k) (lit "client finished") (HM sig) = Ok v → length v = 12%nat →
  calculate_verify_data (master_secret k) (lit "server finished") (HM sig ++ FC v) = Ok v' → length v' = 12%nat →
  encrypt_record Handshake DTLS_1_2 (full_sequence 1 0) (FC v) (client_write_key k) (client_write_iv k) = Ok p →
  ∃ p', encrypt_record Handshake DTLS_1_2 (full_sequence 1 0) (FS v') (server_write_key k) (server_write_iv k) = Ok p' ∧
    handle_incoming_packet cert false (length (sealed p)) (sealed p) (s4 sig k) = (s5 sig k v v' p', Ok tt).
Proof.
  intros (_ & _ & _ & _ & _ & Hwf) Hv Hvl Hv' Hvl' Henc.
  destruct (adv_seal false TFinished v' k (s4k sig k) (HM sig ++ FC v) 0 4 Hwf) as (p' & Henc' & Hseal);
    [reflexivity|lia|lia|].
  exists p'. split; [exact Henc'|].
  apply (receive_sealed cert true k TFinished 2 v p (s4 sig k) (s5 sig k v v' p'));
    [done|lia|reflexivity|exact Henc|lia|reflexivity| |reflexivity].
  fold (FC v). cbn [negb]. cbn [handle_handshake_message whole_message msg_type body]. unfold handle_finished.
  cbn [body whole_message]. rewrite Finished_body by done. cbv beta iota.
  unfold handle_client_finished. step.
  change (c_session_keys (s_ctx (counted TFinished (FC v) (s4 sig k)))) with (Some k). cbv iota.
  erewrite bind_eq by (by apply check_finished_ok).
  step. erewrite bind_eq by (unfold change_cipher_spec; do 4 (erewrite bind_eq by reflexivity); reflexivity).
  to_state (adv (s4k sig k) (HM sig ++ FC v) 0 4) ltac:(unfold s4k, s4, s3; same).
  step. change (c_session_keys (s_ctx (adv (s4k sig k) (HM sig ++ FC v) 0 4))) with (Some k).
  change (c_handshake_messages (s_ctx (adv (s4k sig k) (HM sig ++ FC v) 0 4))) with (HM sig ++ FC v).
  cbv iota. rewrite Hv'. step.
  change (Finished_encode {| verify_data := v' |} []) with (put_slice [] v'). rewrite put_slice_spec. cbn [app].
  erewrite bind_eq by exact Hseal. fold (FS v'). step.
  rewrite connect_eq by done. unfold s5, s4k, s4, s3. same.
Qed.

(** *** The client completes *)

Definition c6 (sig : list Z) (k : SessionKeys) (v p : list Z) : Sys := c5 sig k v p
  <| s_ctx ::= fun c => c <| c_read_epoch := 1 |> |>.
Definition c7 (sig : list Z) (k : SessionKeys) (v p : list Z) : Sys := c6 sig k v p
  <| s_state := Connected (session_of k) (Some 1) |> <| s_state_tx := Connected (session_of k) (Some 1) |>
  <| s_write_epoch := 1 |> <| s_write_seq := 1 |>
  <| s_ctx ::= fun c => c <| c_recv_message_seq := 5 |> <| c_local_secret := None |> |>.

Lemma client_takes_ccs sig k v p :
  handle_incoming_packet ccert true (length (ccs 4)) (ccs 4) (c5 sig k v p) = (c6 sig k v p, Ok tt).
Proof. rewrite ccs_received by ulia. unfold c6, c5. same. Qed.

Lemma client_completes sig k v v' p p' :
  wf_keys k →
  calculate_verify_data (master_secret k) (lit "server finished") (HM sig ++ FC v) = Ok v' → length v' = 12%nat →
  encrypt_record Handshake DTLS_1_2 (full_sequence 1 0) (FS v') (server_write_key k) (server_write_iv k) = Ok p' →
  handle_incoming_packet ccert true (length (sealed p')) (sealed p') (c6 sig k v p) = (c7 sig k v p, Ok tt).
Proof.
  intros Hwf Hv' Hvl' Henc.
  apply (receive_sealed ccert false k TFinished 4 v' p' (c6 sig k v p) (c7 sig k v p));
    [done|lia|reflexivity|exact Henc|lia|reflexivity| |reflexivity].
  cbn [handle_handshake_message whole_message msg_type body]. unfold handle_finished.
  cbn [body whole_message negb]. rewrite Finished_body by done. cbv beta iota.
  unfold handle_server_finished. step.
  change (c_session_keys (s_ctx (counted TFinished _ (c6 sig k v p)))) with (Some k). cbv iota.
  erewrite bind_eq by (by apply check_finished_ok).
  rewrite connect_eq by done. unfold c7, c6, c5. same.
Qed.

End run.

Section complete_theorem.
Context `{BytesCrate, !BytesLaws, DtlsCrypto, !DtlsCryptoLaws}.

(** A side that can exchange application data *)
Definition ready (s : Sys) (k : SessionKeys) (profile : Z) : Prop :=
  s_state s = Connected (session_of k) (Some profile) ∧ s_state_tx s = s_state s ∧
  c_session_crypto (s_ctx s) = Some (session_of k) ∧ s_write_epoch s = 1 ∧ s_write_seq s = 1.

Lemma Sys_new_inv d expected s :
  Sys_new d expected = Ok s →
  ∃ p z, ecdh_generate d = Some (p, z) ∧ s = start_sys d p z expected.
Proof.
  unfold Sys_new, HandshakeContext_new, or_internal. destruct (ecdh_generate d) as [[p z]|]; [|done].
  run. intros [= <-]. by exists p, z.
Qed.

Lemma receive_all_cons cert cl p ps s s' :
  handle_incoming_packet cert cl (length p) p s = (s', Ok tt) →
  receive_all cert cl (p :: ps) s = receive_all cert cl ps s'.
Proof. intros Hp. cbn [receive_all foldr]. by erewrite bind_eq by exact Hp. Qed.

(** C6: A client and a server whose certificate chain, shorter than 65000 bytes,
    the client accepts complete the handshake in four flights when no datagram
    is lost: both end in state Connected with the same keys, epoch 1 and the
    negotiated SRTP profile. *)
Theorem dtls_handshake_completes cert ccert leaf rest sk vk exp_c exp_s dc ds c0 s0 :
  DtlsCrypto.certificate cert = leaf :: rest →
  Z.of_nat (length (certs_bytes (DtlsCrypto.certificate cert))) < 65000 →
  signing_key_from_pkcs8_der (private_key_pkcs8 cert) = Some sk →
  verifying_key sk = Some vk → certificate_public_key leaf = Ok vk →
  match exp_c with Some fp => fingerprint_from_der leaf = fp | None => True end →
  Sys_new dc exp_c = Ok c0 → Sys_new ds exp_s = Ok s0 →
  ∃ c1 c2 c3 s1 s2 s3 f1 f2 f3 f4 k,
    handshake_start true c0 = (c1, Ok tt) ∧ s_sent c1 = f1 ∧
    handshake_start false s0 = (s1, Ok tt) ∧
    receive_all cert false f1 s1 = (s2, Ok tt) ∧ s_sent s2 = f2 ∧
    receive_all ccert true f2 c1 = (c2, Ok tt) ∧ s_sent c2 = f1 ++ f3 ∧
    receive_all cert false f3 s2 = (s3, Ok tt) ∧ s_sent s3 = f2 ++ f4 ∧
    receive_all ccert true f4 c2 = (c3, Ok tt) ∧
    wf_keys k ∧ ready c3 k 1 ∧ ready s3 k 1.
Proof.
  intros Hcert Hsize Hsk Hvk Hleaf Hexp Hc0 Hs0.
  apply Sys_new_inv in Hc0 as (pc & zc & Hgc & ->). apply Sys_new_inv in Hs0 as (ps & zs & Hgs & ->).
  destruct (server_answers cert sk vk exp_s dc ds ps zs Hsk Hvk) as (sig & Hsl & Hver & Hans).
  destruct (session_keys_exist cert dc ds pc ps zc zs Hgc Hgs sig) as [k Hk].
  pose proof Hk as (_ & _ & _ & _ & _ & Hwf).
  destruct (calculate_verify_data_ok (master_secret k) (lit "client finished") (HM cert dc ds pc ps sig)) as (v & Hv & Hvl).
  destruct (calculate_verify_data_ok (master_secret k) (lit "server finished") (HM cert dc ds pc ps sig ++ FC v)) as (v' & Hv' & Hvl').
  destruct (client_finishes cert ccert leaf exp_c dc ds pc ps zc zs sig k v Hk Hv Hvl) as (p & Henc & Hfin).
  destruct (server_completes cert exp_s dc ds pc ps zc zs sig k v v' p Hk Hv Hvl Hv' Hvl' Henc) as (p' & Henc' & Hcomp).
  exists (c1 exp_c dc pc zc), (c5 cert leaf exp_c dc ds pc ps zc sig k v p), (c7 cert leaf exp_c dc ds pc ps zc sig k v p).
  exists (s1 exp_s ds ps zs), (s2 cert exp_s dc ds ps zs sig), (s5 cert exp_s dc ds pc ps zs sig k v v' p').
  exists [plain 0 (CH dc)], (flight_s cert ds ps sig), (flight_c pc p), [ccs 4; sealed p'], k.
  split; [apply (client_starts cert)|]. split; [reflexivity|]. split; [apply server_starts|].
  split; [erewrite receive_all_cons by exact Hans; reflexivity|]. split; [reflexivity|].
  split.
  { unfold flight_s. erewrite receive_all_cons by (exact (client_takes_hello cert _ _ _ _ _ _)).
    erewrite receive_all_cons by (exact (client_takes_certificate cert ccert leaf rest vk exp_c dc ds pc zc Hcert Hsize Hleaf Hexp)).
    erewrite receive_all_cons by (exact (client_takes_key_exchange cert ccert leaf vk exp_c dc ds pc ps zc zs Hleaf Hgs sig Hsl Hver)).
    erewrite receive_all_cons by exact Hfin. reflexivity. }
  split; [reflexivity|].
  split.
  { unfold flight_c. erewrite receive_all_cons by (exact (server_takes_key_exchange cert exp_s dc ds pc ps zc zs Hgc sig k Hk)).
    erewrite receive_all_cons by apply server_takes_ccs.
    erewrite receive_all_cons by exact Hcomp. reflexivity. }
  split; [reflexivity|].
  split.
  { erewrite receive_all_cons by apply client_takes_ccs.
    erewrite receive_all_cons by
      (exact (client_completes cert ccert leaf exp_c dc ds pc ps zc sig k v v' p p' Hwf Hv' Hvl' Henc')).
    reflexivity. }
  split; [exact Hwf|]. split; (split; [reflexivity|split; [reflexivity|split; [reflexivity|split; reflexivity]]]).
Qed.

End complete_theorem.

Lemma dtls_handshake_completes_witness :
  ∃ c3 s3 k, @ready sum_crypto c3 k 1 ∧ @ready sum_crypto s3 k 1.
Proof.
  destruct (@dtls_handshake_completes vec_crate vec_laws sum_crypto sum_laws ex_cert ex_cert ex_leaf []
    [4; 9; 9] [4; 9; 9] (Some ex_fingerprint) None 1 100 ex_client0 ex_server0)
    as (c1 & c2 & c3 & s1 & s2 & s3 & f1 & f2 & f3 & f4 & k & _ & _ & _ & _ & _ & _ & _ & _ & _ & _ & _ & Hc & Hs);
    [reflexivity|by vm_compute|reflexivity|reflexivity|by vm_compute|by vm_compute|reflexivity|reflexivity|].
  by exists c3, s3, k.
Defined.
