(* ===== verification/DtlsRobust.v ===== *)
(** * The DTLS engine against the network: theorems

    Fragments in any order, loops that end, and the datagram that aborts. *)
From S2P Require Import Prelude Core BytesCrate BTree Str StateRes RecordSet DtlsRecord DtlsCrypto.
From S2P Require Import DtlsRecordFacts DtlsCryptoFacts Dtls DtlsData DtlsExample DtlsComplete.

(** ** Reassembly

    A fragment of a message [m] is an offset and a length.  [covers fs i]:
    some fragment of the list has byte [i]. *)

Definition frag_ok (m : list Z) (f : nat * nat) : Prop := (f.1 + f.2 ≤ length m)%nat.
Definition frag_body (m : list Z) (f : nat * nat) : list Z := take f.2 (drop f.1 m).
Definition in_frag (f : nat * nat) (i : nat) : Prop := (f.1 ≤ i < f.1 + f.2)%nat.
Definition covers (fs : list (nat * nat)) (i : nat) : Prop := ∃ f, f ∈ fs ∧ in_frag f i.

(** Pushing fragments of one message, one after the other: the state and the
    results *)
Fixpoint push_all (r : HandshakeReassembly) (seq : Z) (m : list Z) (fs : list (nat * nat))
    : HandshakeReassembly * list (res RtcError (option (list Z))) :=
  match fs with
  | [] => (r, [])
  | f :: fs =>
      let '(r, x) := HandshakeReassembly_push r seq (length m) (Z.of_nat f.1) (frag_body m f) in
      let '(r, xs) := push_all r seq m fs in (r, x :: xs)
  end.

(** The buffer holds the bytes of [m] at the positions in [P]. *)
Record holds (r : HandshakeReassembly) (seq : Z) (m : list Z) (P : nat → Prop) : Prop := {
  h_seq : hr_message_seq r = seq;
  h_total : hr_total_length r = length m;
  h_buf : length (hr_buf r) = length m;
  h_have : length (hr_have r) = length m;
  h_count : hr_have_count r = length (filter (fun b => b = true) (hr_have r));
  h_bits : ∀ i b, hr_have r !! i = Some b → b = true ↔ P i;
  h_bytes : ∀ i, hr_have r !! i = Some true → hr_buf r !! i = m !! i;
}.

Lemma filter_insert_true (l : list bool) i :
  l !! i = Some false →
  length (filter (fun b => b = true) (<[i := true]> l)) = S (length (filter (fun b => b = true) l)).
Proof.
  revert i. induction l as [|b l IH]; intros [|i] Hi; simplify_eq/=.
  - done.
  - rewrite !filter_cons. destruct b; rewrite ?decide_True, ?decide_False by done; cbn [length]; by rewrite IH.
Qed.

Lemma holds_insert r seq m P start x (hv : bool) :
  holds r seq m P → hr_have r !! start = Some hv → m !! start = Some x →
  holds (if hv then r else r <| hr_have ::= <[start := true]> |> <| hr_buf ::= <[start := x]> |>
               <| hr_have_count ::= S |>) seq m (fun i => P i ∨ i = start).
Proof.
  intros [Hs Ht Hb Hh Hc Hbits Hbytes] Hhv Hx. destruct hv.
  { split; try done. intros i b Hi. rewrite (Hbits i b Hi). split; [by left|]. intros [?| ->]; [done|].
    by apply (Hbits start true). }
  split; rs; try done.
  - by rewrite length_insert.
  - by rewrite length_insert.
  - by rewrite Hc, filter_insert_true.
  - intros i b Hi. destruct (decide (i = start)) as [->|Hne].
    + rewrite list_lookup_insert_eq in Hi by (apply lookup_lt_is_Some; eauto). simplify_eq. naive_solver.
    + rewrite list_lookup_insert_ne in Hi by done. rewrite (Hbits i b Hi). naive_solver.
  - intros i Hi. destruct (decide (i = start)) as [->|Hne].
    + apply lookup_lt_Some in Hx as Hlt. by rewrite list_lookup_insert_eq, Hx by lia.
    + rewrite list_lookup_insert_ne in Hi by done. rewrite list_lookup_insert_ne by done. by apply Hbytes.
Qed.

Lemma fill_bytes_spec seq m d r start P :
  holds r seq m P → (start + length d ≤ length m)%nat → d = take (length d) (drop start m) →
  ∃ r', fill_bytes r start d = Ok r' ∧
    holds r' seq m (fun i => P i ∨ (start ≤ i < start + length d)%nat).
Proof.
  revert r start P. induction d as [|x d IH]; intros r start P Hr Hl Hd.
  { exists r. split; [done|]. destruct Hr. split; try done. intros i b Hb. rewrite (h_bits0 i b Hb).
    cbn. naive_solver lia. }
  cbn [length] in *. cbn [fill_bytes].
  destruct (lookup_lt_is_Some_2 (hr_have r) start) as [hv Hhv]; [rewrite (h_have _ _ _ _ Hr); lia|].
  rewrite Hhv. cbn [or_panic mbind res_bind].
  assert (m !! start = Some x ∧ d = take (length d) (drop (S start) m)) as [Hx Hd'].
  { destruct (m !! start) as [y|] eqn:Hy.
    - rewrite (drop_S m y start Hy) in Hd. by injection Hd as -> Hd.
    - apply lookup_ge_None in Hy. lia. }
  set (r1 := if hv then r else r <| hr_have ::= <[start := true]> |> <| hr_buf ::= <[start := x]> |>
               <| hr_have_count ::= S |>).
  assert ((if hv then Ok r else if (start <? length (hr_buf r))%nat
           then Ok (r <| hr_have ::= <[start := true]> |> <| hr_buf ::= <[start := x]> |>
                      <| hr_have_count ::= S |>)
           else Panic) = @Ok RtcError _ r1) as ->.
  { unfold r1. destruct hv; [done|]. rewrite (h_buf _ _ _ _ Hr).
    by rewrite (proj2 (Nat.ltb_lt start (length m))) by lia. }
  cbn [mbind res_bind].
  assert (holds r1 seq m (fun i => P i ∨ i = start)) as Hr1 by (by apply holds_insert).
  destruct (IH r1 (S start) _ Hr1 ltac:(lia) Hd') as (r' & Hf & Hr').
  exists r'. split; [done|]. destruct Hr'. split; try done. intros i b Hb. rewrite (h_bits0 i b Hb). naive_solver lia.
Qed.

Lemma filter_true_le (l : list bool) : (length (filter (fun b => b = true) l) ≤ length l)%nat.
Proof. apply length_filter. Qed.

Lemma filter_true_all (l : list bool) :
  length (filter (fun b => b = true) l) = length l ↔ Forall (fun b => b = true) l.
Proof.
  induction l as [|b l IH]; [by split|]. rewrite filter_cons, Forall_cons. destruct b.
  - rewrite decide_True by done. cbn [length]. naive_solver.
  - rewrite decide_False by done. cbn [length]. pose proof (filter_true_le l). split; [lia|by intros [? _]].
Qed.

(** Complete exactly when every position is covered, and then the buffer is
    the message *)
Lemma holds_complete r seq m P :
  holds r seq m P → (hr_have_count r < hr_total_length r)%nat ↔ ¬ ∀ i, (i < length m)%nat → P i.
Proof.
  intros [Hs Ht Hb Hh Hc Hbits Hbytes]. rewrite Hc, Ht, <- Hh.
  pose proof (filter_true_le (hr_have r)). pose proof (filter_true_all (hr_have r)) as Hall.
  assert (Forall (fun b => b = true) (hr_have r) ↔ ∀ i, (i < length m)%nat → P i) as Hiff.
  { rewrite Forall_lookup. split.
    - intros Hf i Hi. destruct (lookup_lt_is_Some_2 (hr_have r) i) as [b Hb']; [lia|].
      rewrite <- (Hbits i b Hb'). eauto.
    - intros Hp i b Hi. apply (Hbits i b Hi). apply Hp. apply lookup_lt_Some in Hi. lia. }
  rewrite <- Hh in Hiff. rewrite <- Hiff, <- Hall. lia.
Qed.

Lemma holds_full r seq m P : holds r seq m P → (∀ i, (i < length m)%nat → P i) → hr_buf r = m.
Proof.
  intros [Hs Ht Hb Hh Hc Hbits Hbytes] Hp. apply list_eq_same_length with (length m); [done|done|].
  intros i x y Hi Hx Hy. destruct (lookup_lt_is_Some_2 (hr_have r) i) as [b Hb']; [lia|].
  assert (b = true) as -> by (apply (Hbits i b Hb'); auto). rewrite (Hbytes i Hb') in Hx. congruence.
Qed.

Lemma holds_fresh seq m :
  holds {| hr_message_seq := seq; hr_total_length := length m; hr_buf := replicate (length m) 0;
           hr_have := replicate (length m) false; hr_have_count := 0 |} seq m (fun _ => False).
Proof.
  split; cbn; rewrite ?length_replicate; try done.
  - by rewrite filter_none by (by intros ? [-> _]%elem_of_replicate).
  - intros i b [-> _]%lookup_replicate. done.
  - intros i [? _]%lookup_replicate. done.
Qed.

(** The reassembly has nothing of this message, or holds some of it. *)
Definition reassembling (r : HandshakeReassembly) (seq : Z) (m : list Z) (P : nat → Prop) : Prop :=
  ((hr_buf r = [] ∨ hr_message_seq r ≠ seq) ∧ ∀ i, ¬ P i) ∨ holds r seq m P.

Lemma push_spec r seq m P f :
  0 < Z.of_nat (length m) ≤ MAX_HANDSHAKE_MESSAGE_LEN → frag_ok m f → reassembling r seq m P →
  ∃ r', holds r' seq m (fun i => P i ∨ in_frag f i) ∧
    HandshakeReassembly_push r seq (length m) (Z.of_nat f.1) (frag_body m f) =
      if (hr_have_count r' <? hr_total_length r')%nat then (r', Ok None)
      else (HandshakeReassembly_default, Ok (Some (hr_buf r'))).
Proof.
  intros Hm Hf Hr. unfold HandshakeReassembly_push.
  assert (length (frag_body m f) = f.2) as Hlen.
  { unfold frag_body, frag_ok in *. rewrite length_take, length_drop. lia. }
  rewrite eqb_pos_false by lia. rewrite (proj2 (Z.ltb_ge _ _)) by lia. cbn [orb].
  rewrite Nat2Z.id, Hlen, ltb_ge_false by apply Hf.
  set (fresh := (length (hr_buf r) =? 0)%nat || negb (hr_message_seq r =? seq)).
  set (r0 := if fresh then _ else r).
  assert (negb fresh && negb (hr_total_length r =? length m)%nat = false ∧ holds r0 seq m P) as [-> Hr0].
  { destruct Hr as [[Hfr HP]|Hh].
    - assert (fresh = true) as Hfresh.
      { unfold fresh. destruct Hfr as [->|Hne]; [done|]. apply orb_true_iff. right.
        by rewrite (proj2 (Z.eqb_neq _ _) Hne). }
      unfold r0. rewrite Hfresh. split; [done|].
      destruct (holds_fresh seq m). split; try done. intros i b Hb. rewrite (h_bits0 i b Hb).
      specialize (HP i). naive_solver.
    - assert (fresh = false) as Hfresh.
      { unfold fresh. rewrite (h_seq _ _ _ _ Hh), Z.eqb_refl, (h_buf _ _ _ _ Hh). by rewrite eqb_pos_false by lia. }
      unfold r0. rewrite Hfresh, (h_total _ _ _ _ Hh), Nat.eqb_refl. done. }
  destruct (fill_bytes_spec seq m (frag_body m f) r0 f.1 P Hr0) as (r' & Hfill & Hr').
  { rewrite Hlen. apply Hf. }
  { by rewrite Hlen. }
  exists r'. rewrite Hfill, Hlen in *. done.
Qed.

Lemma holds_ext r seq m P Q : (∀ i, P i ↔ Q i) → holds r seq m P → holds r seq m Q.
Proof. intros HPQ []. split; try done. intros i b Hb. rewrite (h_bits0 i b Hb). apply HPQ. Qed.

(** As long as something is missing, pushes return nothing. *)
Lemma push_all_incomplete r seq m P fs :
  0 < Z.of_nat (length m) ≤ MAX_HANDSHAKE_MESSAGE_LEN → Forall (frag_ok m) fs → reassembling r seq m P →
  ¬ (∀ i, (i < length m)%nat → P i ∨ covers fs i) →
  ∃ r', push_all r seq m fs = (r', replicate (length fs) (Ok None)) ∧
    reassembling r' seq m (fun i => P i ∨ covers fs i).
Proof.
  intros Hm. revert r P. induction fs as [|f fs IH]; intros r P Hfs Hr Hmiss.
  { exists r. split; [done|]. assert (∀ i, P i ∨ covers [] i ↔ P i) as Hnil.
    { intros i. unfold covers. split; [|by left]. intros [?|(f & Hf & _)]; [done|]. by apply not_elem_of_nil in Hf. }
    destruct Hr as [[Hr HP]|Hr].
    - left. split; [done|]. intros i. rewrite Hnil. apply HP.
    - right. by eapply holds_ext; [intros i; symmetry; apply Hnil|]. }
  apply Forall_cons in Hfs as [Hf Hfs]. cbn [push_all].
  destruct (push_spec r seq m P f Hm Hf Hr) as (r1 & Hr1 & ->).
  assert (∀ i, covers (f :: fs) i ↔ in_frag f i ∨ covers fs i) as Hcons.
  { intros i. unfold covers. setoid_rewrite elem_of_cons. naive_solver. }
  assert (¬ ∀ i, (i < length m)%nat → (P i ∨ in_frag f i) ∨ covers fs i) as Hmiss'.
  { intros Hc. apply Hmiss. intros i Hi. rewrite Hcons. specialize (Hc i Hi). tauto. }
  assert ((hr_have_count r1 <? hr_total_length r1)%nat = true) as ->.
  { apply Nat.ltb_lt, (holds_complete _ _ _ _ Hr1). intros Hc. apply Hmiss'. intros i Hi. left. auto. }
  destruct (IH r1 _ Hfs (or_intror Hr1) Hmiss') as (r' & -> & Hr'). exists r'. split; [done|].
  destruct Hr' as [[Hr' HP]|Hr'].
  - left. split; [done|]. intros i. rewrite Hcons. specialize (HP i). tauto.
  - right. eapply holds_ext; [|done]. intros i. cbn. rewrite Hcons. tauto.
Qed.

Lemma push_all_app r seq m fs gs :
  push_all r seq m (fs ++ gs) =
    let '(r, xs) := push_all r seq m fs in
    let '(r, ys) := push_all r seq m gs in (r, xs ++ ys).
Proof.
  revert r. induction fs as [|f fs IH]; intros r; cbn [push_all app].
  { by destruct (push_all r seq m gs). }
  destruct (HandshakeReassembly_push _ _ _ _ _) as [r1 x]. rewrite IH.
  destruct (push_all r1 seq m fs) as [r2 xs]. by destruct (push_all r2 seq m gs).
Qed.

(** C31: Fragments of a DTLS handshake message in any order, with duplicates and
    overlaps, are put together to exactly the message when the last missing byte
    arrives, and to nothing before. *)
Theorem dtls_reassembly r seq m fs f :
  0 < Z.of_nat (length m) ≤ MAX_HANDSHAKE_MESSAGE_LEN → Forall (frag_ok m) (fs ++ [f]) →
  hr_buf r = [] ∨ hr_message_seq r ≠ seq →
  ¬ (∀ i, (i < length m)%nat → covers fs i) → (∀ i, (i < length m)%nat → covers (fs ++ [f]) i) →
  push_all r seq m (fs ++ [f]) =
    (HandshakeReassembly_default, replicate (length fs) (Ok None) ++ [Ok (Some m)]).
Proof.
  intros Hm [Hfs Hf]%Forall_app Hr Hmiss Hall. apply Forall_cons in Hf as [Hf _]. rewrite push_all_app.
  destruct (push_all_incomplete r seq m (fun _ => False) fs Hm Hfs) as (r1 & -> & Hr1).
  { left. split; [done|]. by intros i []. }
  { intros Hc. apply Hmiss. intros i Hi. destruct (Hc i Hi); [done|done]. }
  cbn [push_all]. destruct (push_spec r1 seq m _ f Hm Hf Hr1) as (r2 & Hr2 & ->).
  assert (∀ i, (i < length m)%nat → (False ∨ covers fs i) ∨ in_frag f i) as Hfull.
  { intros i Hi. destruct (Hall i Hi) as (g & [Hg|Hg%list_elem_of_singleton]%elem_of_app & Hin).
    - left. right. by exists g.
    - right. by subst. }
  assert ((hr_have_count r2 <? hr_total_length r2)%nat = false) as ->.
  { apply Nat.ltb_ge. destruct (decide (hr_total_length r2 ≤ hr_have_count r2)%nat) as [|Hn]; [done|].
    exfalso. apply (holds_complete _ _ _ _ Hr2); [lia|done]. }
  by rewrite (holds_full _ _ _ _ Hr2 Hfull).
Qed.

(** ** A datagram that aborts *)

Section robust.
Context `{BytesCrate, !BytesLaws, DtlsCrypto, !DtlsCryptoLaws}.

(** A datagram with a ClientHello or ServerHello body of 34 bytes aborts
    the receiving task: the length of the session id is read past the end. *)
Theorem dtls_hello_abort cert q n b s :
  u48 q → 0 ≤ n < 65535 → c_recv_message_seq (s_ctx s) = n → length b = 34%nat →
  let client_hello := DtlsRecord_encode (hs_record 0 q (raw_message TClientHello n b)) [] in
  let server_hello := DtlsRecord_encode (hs_record 0 q (raw_message TServerHello n b)) [] in
  (c_server_random (s_ctx s) = None →
   (handle_incoming_packet cert false (length client_hello) client_hello s).2 = Panic) ∧
  (handle_incoming_packet cert true (length server_hello) server_hello s).2 = Panic.
Proof.
  intros Hq Hn Hr Hb. cbv zeta. split.
  - intros Hsr. erewrite (receive_message_abort cert false q TClientHello n b s); [done|done|lia|done|done|].
    cbn [handle_handshake_message whole_message msg_type]. unfold handle_client_hello.
    erewrite bind_eq by reflexivity.
    change (c_server_random (s_ctx (counted _ _ s))) with (c_server_random (s_ctx s)). rewrite Hsr.
    cbn [body whole_message]. rewrite (proj2 (ClientHello_decode_panic b) Hb). done.
  - erewrite (receive_message_abort cert true q TServerHello n b s); [done|done|lia|done|done|].
    cbn [handle_handshake_message whole_message msg_type]. unfold handle_server_hello.
    cbn [body whole_message negb]. rewrite (proj2 (ServerHello_decode_panic b) Hb). done.
Qed.

(** ** The loops end *)

(** Nothing but the ordering code touches the messages kept for later. *)
Section pending.
Context (l : list (Z * (HandshakeMessage * list Z))) (cert : Certificate) (cl : bool).

Definition pending_is (s : Sys) : Prop := c_pending_messages (s_ctx s) = l.

Ltac keep_step :=
  match goal with
  | |- preserves _ (mret _) => apply preserves_ret
  | |- preserves _ (fail _) => apply preserves_fail
  | |- preserves _ abort => apply preserves_abort
  | |- preserves _ (lift _) => apply preserves_lift
  | |- preserves _ ctx => intros ? HP; exact HP
  | |- preserves _ get_st => intros ? HP; exact HP
  | |- preserves _ (upd (set _ _)) => intros ? HP; exact HP
  | |- preserves _ (set_state _) => intros ? HP; exact HP
  | |- preserves _ (modify _) => intros ? HP; exact HP
  | |- preserves _ (send_records _) => intros ? HP; exact HP
  | |- preserves _ draw => intros ? HP; exact HP
  | |- preserves _ (when _ _) => apply preserves_if
  | |- preserves _ (_ ≫= _) => apply preserves_bind; [|intros ?]
  | |- preserves _ (if ?b then _ else _) => destruct b
  | |- preserves _ (match ?x with _ => _ end) => destruct x
  end.
Ltac keep := repeat keep_step.

Lemma pending_build cl' t b k : preserves pending_is (build_message cl' t b k).
Proof. unfold build_message, build_handshake_record. keep. Qed.
Lemma pending_flight r : preserves pending_is (send_flight r).
Proof. unfold send_flight. keep. Qed.
Lemma pending_resend : preserves pending_is resend_flight.
Proof. unfold resend_flight. keep. Qed.
Lemma pending_count : preserves pending_is next_message_seq.
Proof. unfold next_message_seq. keep. Qed.
Lemma pending_exts exts : preserves pending_is (apply_server_extensions exts).
Proof. induction exts as [|[t d] exts IH]; cbn [apply_server_extensions]; keep; done. Qed.

Hint Resolve pending_build pending_flight pending_resend pending_count pending_exts : keep.
Ltac keep' := repeat first [ solve [eauto 1 with keep nocore] | keep_step ].

Lemma pending_handler msg raw : preserves pending_is (handle_handshake_message cert cl msg raw).
Proof.
  unfold handle_handshake_message. destruct (msg_type msg).
  - keep'.
  - unfold handle_client_hello, new_random, send_handshake_failure_alert, send_server_flight, sign_params. keep'.
  - unfold handle_server_hello. keep'.
  - unfold handle_hello_verify_request, new_random. keep'.
  - unfold handle_certificate. keep'.
  - unfold handle_server_key_exchange. keep'.
  - keep'.
  - unfold handle_server_hello_done, install_keys, change_cipher_spec. keep'.
  - keep'.
  - unfold handle_client_key_exchange, install_keys. keep'.
  - unfold handle_finished, handle_server_finished, handle_client_finished, check_finished, connect,
      change_cipher_spec. keep'.
Qed.

End pending.

Lemma bt_remove_lt {V} k (v : V) m : bt_get k m = Some v → (S (length (bt_remove k m)) = length m)%nat.
Proof.
  induction m as [|[k' v'] m IH]; cbn; [done|]. destruct (k =? k'); [done|].
  intros Hg. cbn. by rewrite IH.
Qed.

(** One turn of each loop, and what is left to do after it *)
Section turns.
Context (cert : Certificate) (cl : bool).

Definition drain_turn (_ : unit) : stM Sys RtcError (option unit) :=
  c ← ctx;
  match bt_get (c_recv_message_seq c) (c_pending_messages c) with
  | None => mret None
  | Some (pending_msg, pending_raw) =>
      upd (set c_pending_messages (bt_remove (c_recv_message_seq c)));;
      add_transcript pending_msg pending_raw;;
      handle_handshake_message cert cl pending_msg pending_raw;;
      next_recv_seq;;
      mret (Some tt)
  end.

Definition payload_turn (ep : Z) (body : list Z) : stM Sys RtcError (option (list Z)) :=
  if (length body =? 0)%nat then mret None else
  match HandshakeMessage_decode body with
  | Panic => abort
  | Err _ | Ok (None, _) => mret None
  | Ok (Some msg, rest) =>
      raw_msg ← lift (or_panic (bytes_slice body 0 (length body - length rest)));
      process_message cert cl msg raw_msg ep;;
      mret (Some rest)
  end.

Definition packet_turn (data : list Z) : stM Sys RtcError (option (list Z)) :=
  if (length data =? 0)%nat then mret None else
  match DtlsRecord_decode data with
  | Panic => abort
  | Err _ | Ok (None, _) => mret None
  | Ok (Some record, rest) =>
      c ← ctx;
      match try_decrypt_record cl record c with
      | Panic => abort
      | Err _ => mret None
      | Ok payload =>
          handle_decrypted_record cert cl (content_type record) (epoch record) payload;;
          mret (Some rest)
      end
  end.

(** Each turn takes one message out. *)
Lemma drain_turn_shrinks u s u' s' :
  drain_turn u s = (s', Ok (Some u')) →
  (length (c_pending_messages (s_ctx s')) < length (c_pending_messages (s_ctx s)))%nat.
Proof.
  unfold drain_turn. erewrite bind_eq by reflexivity.
  destruct (bt_get _ _) as [[pm pr]|] eqn:Hg; [|done]. pose proof (bt_remove_lt _ _ _ Hg) as Hlen.
  set (f := bt_remove (c_recv_message_seq (s_ctx s))) in *.
  rewrite (bind_eq (upd (set c_pending_messages f)) _ s (s <| s_ctx ::= set c_pending_messages f |>) tt)
    by reflexivity.
  set (l := f (c_pending_messages (s_ctx s))) in *. set (s1 := s <| s_ctx ::= _ |>). intros E.
  assert (preserves (pending_is l) (add_transcript pm pr;; handle_handshake_message cert cl pm pr;;
    next_recv_seq;; mret (Some tt))) as Hp.
  { apply preserves_bind; [unfold add_transcript, when; destruct (in_transcript _); by intros ? HP|intros _].
    apply preserves_bind; [apply pending_handler|intros _].
    apply preserves_bind; [|intros _; apply preserves_ret].
    unfold next_recv_seq. intros s0 Hs0. erewrite bind_eq by reflexivity. by destruct (inc16 _). }
  specialize (Hp s1 eq_refl). rewrite E in Hp. cbn [fst] in Hp. rewrite Hp. clear - Hlen. lia.
Qed.

(** Each turn takes a handshake header off the payload. *)
Lemma payload_turn_shrinks ep b s b' s' :
  payload_turn ep b s = (s', Ok (Some b')) → (length b' < length b)%nat.
Proof.
  unfold payload_turn. case_match; [done|].
  destruct (HandshakeMessage_decode b) as [[[m|] rest]|e|] eqn:Hd; try done.
  apply HandshakeMessage_decode_rest in Hd as (_ & Hl & _). unfold lift, mbind, stM_bind.
  destruct (or_panic _) as [raw|e|]; [|done..].
  destruct (process_message _ _ _ _ _ _) as [s1 [[]|e|]]; [|done..]. intros [= _ <-]. lia.
Qed.

(** Each turn takes a record header off the datagram. *)
Lemma packet_turn_shrinks d s d' s' :
  packet_turn d s = (s', Ok (Some d')) → (length d' < length d)%nat.
Proof.
  unfold packet_turn. case_match; [done|].
  destruct (DtlsRecord_decode d) as [[[r|] rest]|e|] eqn:Hd; try done.
  apply DtlsRecord_decode_rest in Hd as (_ & Hl). erewrite bind_eq by reflexivity.
  destruct (try_decrypt_record _ _ _) as [p|e|]; [|done..]. unfold mbind, stM_bind.
  destruct (handle_decrypted_record _ _ _ _ _ _) as [s1 [[]|e|]]; [|done..]. intros [= _ <-]. lia.
Qed.

Lemma drain_ends s :
  ∃ out, loops drain_turn tt s out ∧
    ∀ k, (length (c_pending_messages (s_ctx s)) ≤ k)%nat → drain_pending cert cl k s = out.
Proof.
  refine (loops_fuel drain_turn (fun _ s => length (c_pending_messages (s_ctx s)))
    (fun k _ => drain_pending cert cl k) _ _ tt s); [intros ????; apply drain_turn_shrinks|].
  clear s. intros fuel [] s Hf. unfold drain_turn.
  destruct fuel as [|fuel]; cbn [drain_pending pred]; do 2 (erewrite (bind_eq ctx) by reflexivity).
  { by destruct (c_pending_messages (s_ctx s)) eqn:Hp; [|cbn in Hf; lia]. }
  destruct (bt_get _ _) as [[pm pr]|]; [|done]. unfold mbind, stM_bind.
  destruct (upd _ _) as [s1 [[]|e|]]; [|done..]. destruct (add_transcript _ _ _) as [s2 [[]|e|]]; [|done..].
  destruct (handle_handshake_message _ _ _ _ _) as [s3 [[]|e|]]; [|done..].
  by destruct (next_recv_seq _) as [s4 [[]|e|]].
Qed.

Lemma payload_ends ep b s :
  ∃ out, loops (payload_turn ep) b s out ∧
    ∀ k, (length b ≤ k)%nat → process_handshake_payload cert cl k b ep s = out.
Proof.
  refine (loops_fuel (payload_turn ep) (fun b _ => length b)
    (fun k b => process_handshake_payload cert cl k b ep) _ _ b s); [intros ????; apply payload_turn_shrinks|].
  clear b s. intros fuel b s Hf. unfold payload_turn.
  destruct fuel as [|fuel]; cbn [process_handshake_payload pred].
  { by destruct b; [|cbn in Hf; lia]. }
  case_match; [done|]. destruct (HandshakeMessage_decode b) as [[[m|] rest]|e|]; try done.
  unfold lift, mbind, stM_bind. destruct (or_panic _) as [raw|e|]; [|done..].
  by destruct (process_message _ _ _ _ _ _) as [s1 [[]|e|]].
Qed.

Lemma packet_ends d s :
  ∃ out, loops packet_turn d s out ∧
    ∀ k, (length d ≤ k)%nat → handle_incoming_packet cert cl k d s = out.
Proof.
  refine (loops_fuel packet_turn (fun d _ => length d) (handle_incoming_packet cert cl) _ _ d s);
    [intros ????; apply packet_turn_shrinks|].
  clear d s. intros fuel d s Hf. unfold packet_turn.
  destruct fuel as [|fuel]; cbn [handle_incoming_packet pred].
  { by destruct d; [|cbn in Hf; lia]. }
  case_match; [done|]. destruct (DtlsRecord_decode d) as [[[r|] rest]|e|]; try done.
  do 2 (erewrite (bind_eq ctx) by reflexivity). destruct (try_decrypt_record _ _ _) as [p|e|]; [|done..].
  unfold mbind, stM_bind. by destruct (handle_decrypted_record _ _ _ _ _ _) as [s1 [[]|e|]].
Qed.
End turns.

(** C33: The loops over the records of a datagram, the messages of a record and
    the buffered messages end, from every state and on every input, after at
    most as many turns as there are bytes or buffered messages, and the fuel of
    the model changes nothing. *)
Theorem dtls_loops_terminate cert cl data ep s :
  (∃ out, loops (packet_turn cert cl) data s out ∧
     ∀ k, (length data ≤ k)%nat → handle_incoming_packet cert cl k data s = out) ∧
  (∃ out, loops (payload_turn cert cl ep) data s out ∧
     ∀ k, (length data ≤ k)%nat → process_handshake_payload cert cl k data ep s = out) ∧
  (∃ out, loops (drain_turn cert cl) tt s out ∧
     ∀ k, (length (c_pending_messages (s_ctx s)) ≤ k)%nat → drain_pending cert cl k s = out).
Proof. split; [apply packet_ends|]. split; [apply payload_ends|apply drain_ends]. Qed.

End robust.

(** ** The theorems on concrete input *)

Lemma dtls_reassembly_witness :
  push_all HandshakeReassembly_default 3 [10; 11; 12; 13] [(2, 2); (2, 1); (0, 3)]%nat =
    (HandshakeReassembly_default, [Ok None; Ok None; Ok (Some [10; 11; 12; 13])]).
Proof.
  apply (dtls_reassembly HandshakeReassembly_default 3 [10; 11; 12; 13] [(2, 2); (2, 1)]%nat (0, 3)%nat).
  - by vm_compute.
  - by repeat constructor.
  - by left.
  - intros Hc. destruct (Hc 0%nat ltac:(cbn; lia)) as (f & Hf & Hin).
    repeat (apply elem_of_cons in Hf as [->|Hf]; [unfold in_frag in Hin; cbn in Hin; lia|]).
    by apply not_elem_of_nil in Hf.
  - intros i Hi. cbn in Hi. destruct (decide (i < 3)%nat).
    + exists (0, 3)%nat. split; [apply elem_of_app; right; by left|]. unfold in_frag. cbn. lia.
    + exists (2, 2)%nat. split; [left|]. unfold in_frag. cbn. lia.
Defined.

Lemma dtls_loops_terminate_witness :
  ∃ out, loops (@packet_turn vec_crate sum_crypto ex_cert true) [22; 254] ex_client0 out ∧
    ∀ k, (2 ≤ k)%nat → @handle_incoming_packet vec_crate sum_crypto ex_cert true k [22; 254] ex_client0 = out.
Proof. apply (@dtls_loops_terminate vec_crate vec_laws sum_crypto ex_cert true [22; 254] 0 ex_client0). Defined.
