(* ===== verification/Spsc.v ===== *)
(** * The lock-free ring of samples ([src/media/spsc.rs])

    [SpscRing] with its operations as single-threaded functions, and as the
    atomic steps of one producer and one consumer that interleave in any
    order.  Head and tail are [usize] counters modulo [W] (2^64, or 2^32 on
    32-bit targets).  A slot is [None] until it is first written; reading it
    then is undefined behaviour and has no step.

    The atomics are sequentially consistent here: the code orders the accesses
    to a slot by release stores and acquire loads of the two counters, each
    written by one side only. *)
From S2P Require Import Prelude RecordSet.

Section ring.
Context {T : Type} (W : Z).

Record SpscRing := {
  buffer : list (option T);
  capacity : Z;
  head : Z;
  tail : Z;
}.
#[export] Instance eta_SpscRing : Settable SpscRing := settable! Build_SpscRing < buffer; capacity; head; tail >.

(** [assert!(capacity > 0)] *)
Definition with_capacity (capacity : Z) : res unit SpscRing :=
  if capacity =? 0 then Panic else
  Ok {| buffer := replicate (Z.to_nat capacity) None; capacity := capacity; head := 0; tail := 0 |}.

Definition wrapping_add (a b : Z) : Z := (a + b) mod W.
Definition wrapping_sub (a b : Z) : Z := (a - b) mod W.

Definition len (r : SpscRing) : Z := Z.max 0 (tail r - head r).
Definition is_empty (r : SpscRing) : bool := head r =? tail r.

(** [self.buffer[idx]], written and read *)
Definition write_slot (r : SpscRing) (idx : Z) (v : T) : option SpscRing :=
  if (Z.to_nat idx <? length (buffer r))%nat
  then Some (r <| buffer ::= <[Z.to_nat idx := Some v]> |>) else None.
Definition read_slot (r : SpscRing) (idx : Z) : option T := mjoin (buffer r !! Z.to_nat idx).

(** [Err] returns the value; an abort is a slot out of range or not written. *)
Definition push (r : SpscRing) (value : T) : res T SpscRing :=
  let t := tail r in
  let h := head r in
  if capacity r <=? wrapping_sub t h then Err value else
  let idx := t mod capacity r in
  r ← or_panic (write_slot r idx value);
  Ok (r <| tail := wrapping_add t 1 |>).

Definition pop (r : SpscRing) : res unit (option T * SpscRing) :=
  let h := head r in
  let t := tail r in
  if h =? t then Ok (None, r) else
  let idx := h mod capacity r in
  value ← or_panic (read_slot r idx);
  Ok (Some value, r <| head := wrapping_add h 1 |>).

(** [Drop]: the values dropped; a slot that was never written aborts, and so
    does a walk longer than [fuel]. *)
Fixpoint drop_loop (fuel : nat) (r : SpscRing) (h : Z) : res unit (list T) :=
  if h =? tail r then Ok [] else
  match fuel with
  | O => Panic
  | S fuel =>
      v ← or_panic (read_slot r (h mod capacity r));
      vs ← drop_loop fuel r (wrapping_add h 1);
      Ok (v :: vs)
  end.
Definition drop_ring (r : SpscRing) : res unit (list T) := drop_loop (length (buffer r)) r (head r).

(** ** Interleaved steps

    Where the producer and the consumer are in [push] and [pop]. *)
Inductive producer :=
| PIdle
| PStart (v : T)
| PTail (v : T) (t : Z)
| PWrite (v : T) (t : Z)
| PStore (v : T) (t : Z).

Inductive consumer :=
| CIdle
| CStart
| CHead (h : Z)
| CRead (h : Z)
| CStore (h : Z) (v : T).

Record sys := { ring : SpscRing; prod_at : producer; cons_at : consumer }.

(** Calls and returns are visible *)
Inductive label :=
| Tau
| CallPush (v : T)
| RetPush
| RetFull (v : T)
| CallPop
| RetPop (v : T)
| RetEmpty.

Inductive step : sys → label → sys → Prop :=
| push_call r c v : step {| ring := r; prod_at := PIdle; cons_at := c |} (CallPush v)
    {| ring := r; prod_at := PStart v; cons_at := c |}
| push_load_tail r c v : step {| ring := r; prod_at := PStart v; cons_at := c |} Tau
    {| ring := r; prod_at := PTail v (tail r); cons_at := c |}
| push_load_head_full r c v t : capacity r ≤ wrapping_sub t (head r) →
    step {| ring := r; prod_at := PTail v t; cons_at := c |} (RetFull v)
      {| ring := r; prod_at := PIdle; cons_at := c |}
| push_load_head r c v t : wrapping_sub t (head r) < capacity r →
    step {| ring := r; prod_at := PTail v t; cons_at := c |} Tau
      {| ring := r; prod_at := PWrite v t; cons_at := c |}
| push_write r r' c v t : write_slot r (t mod capacity r) v = Some r' →
    step {| ring := r; prod_at := PWrite v t; cons_at := c |} Tau
      {| ring := r'; prod_at := PStore v t; cons_at := c |}
| push_store r c v t : step {| ring := r; prod_at := PStore v t; cons_at := c |} RetPush
    {| ring := r <| tail := wrapping_add t 1 |>; prod_at := PIdle; cons_at := c |}
| pop_call r p : step {| ring := r; prod_at := p; cons_at := CIdle |} CallPop
    {| ring := r; prod_at := p; cons_at := CStart |}
| pop_load_head r p : step {| ring := r; prod_at := p; cons_at := CStart |} Tau
    {| ring := r; prod_at := p; cons_at := CHead (head r) |}
| pop_load_tail_empty r p h : h = tail r →
    step {| ring := r; prod_at := p; cons_at := CHead h |} RetEmpty
      {| ring := r; prod_at := p; cons_at := CIdle |}
| pop_load_tail r p h : h ≠ tail r →
    step {| ring := r; prod_at := p; cons_at := CHead h |} Tau
      {| ring := r; prod_at := p; cons_at := CRead h |}
| pop_read r p h v : read_slot r (h mod capacity r) = Some v →
    step {| ring := r; prod_at := p; cons_at := CRead h |} Tau
      {| ring := r; prod_at := p; cons_at := CStore h v |}
| pop_store r p h v : step {| ring := r; prod_at := p; cons_at := CStore h v |} (RetPop v)
    {| ring := r <| head := wrapping_add h 1 |>; prod_at := p; cons_at := CIdle |}.

Inductive steps : sys → list label → sys → Prop :=
| steps_nil s : steps s [] s
| steps_cons s l s' ls s'' : step s l s' → steps s' ls s'' → steps s (l :: ls) s''.

(** ** The contract: a bounded first-in first-out queue

    A call is recorded and takes effect when it returns. *)
Record spec := { q : list T; pushing : option T; popping : bool }.

Inductive spec_step (cap : Z) : spec → label → spec → Prop :=
| spec_call_push l b v : spec_step cap {| q := l; pushing := None; popping := b |} (CallPush v)
    {| q := l; pushing := Some v; popping := b |}
| spec_ret_push l b v : Z.of_nat (length l) < cap →
    spec_step cap {| q := l; pushing := Some v; popping := b |} RetPush
      {| q := l ++ [v]; pushing := None; popping := b |}
| spec_ret_full l b v : Z.of_nat (length l) = cap →
    spec_step cap {| q := l; pushing := Some v; popping := b |} (RetFull v)
      {| q := l; pushing := None; popping := b |}
| spec_call_pop l a : spec_step cap {| q := l; pushing := a; popping := false |} CallPop
    {| q := l; pushing := a; popping := true |}
| spec_ret_pop l a v : spec_step cap {| q := v :: l; pushing := a; popping := true |} (RetPop v)
    {| q := l; pushing := a; popping := false |}
| spec_ret_empty a : spec_step cap {| q := []; pushing := a; popping := true |} RetEmpty
    {| q := []; pushing := a; popping := false |}.

Inductive spec_steps (cap : Z) : spec → list label → spec → Prop :=
| spec_steps_nil s : spec_steps cap s [] s
| spec_steps_cons s l s' ls s'' :
    spec_step cap s l s' → spec_steps cap s' ls s'' → spec_steps cap s (l :: ls) s''.

Definition is_tau (l : label) : bool := match l with Tau => true | _ => false end.
Definition visible (ls : list label) : list label := filter (fun l => is_tau l = false) ls.

(** The values accepted by [push], given the value of the call in progress,
    and the values returned by [pop] *)
Fixpoint accepted (pending : option T) (ls : list label) : list T :=
  match ls with
  | [] => []
  | CallPush v :: ls => accepted (Some v) ls
  | RetPush :: ls => option_list pending ++ accepted None ls
  | RetFull _ :: ls => accepted None ls
  | _ :: ls => accepted pending ls
  end.
Fixpoint popped (ls : list label) : list T :=
  match ls with
  | [] => []
  | RetPop v :: ls => v :: popped ls
  | _ :: ls => popped ls
  end.
Definition returned (ls : list label) : nat :=
  length (filter (fun l => match l with RetPush => true | _ => false end = true) ls).

(** ** The simulation

    [H] values have been popped and [N] pushed since the ring was made; the
    two counters are these numbers modulo [W]. *)
Section simulation.
Context (cap : Z) (Hcap : 0 < cap < W).

Ltac parts H := repeat match type of H with _ ∧ _ => destruct H as [? H] end.
(** Linear arithmetic without the hypotheses on remainders *)
Ltac blia := repeat match goal with E : context [_ mod _] |- _ => clear E end; lia.

Definition slots (r : SpscRing) (H N : Z) (l : list T) : Prop :=
  length (buffer r) = Z.to_nat cap ∧ capacity r = cap ∧ head r = H mod W ∧ tail r = N mod W ∧
  0 ≤ H ≤ N ∧ N ≤ H + cap ∧ Z.of_nat (length l) = N - H ∧
  ∀ i, 0 ≤ i < N - H → buffer r !! Z.to_nat ((H + i) mod cap) = Some (l !! Z.to_nat i).

Definition producer_at (r : SpscRing) (H N : Z) (p : producer) (a : option T) : Prop :=
  match p with
  | PIdle => a = None
  | PStart v => a = Some v
  | PTail v t => a = Some v ∧ t = N mod W
  | PWrite v t => a = Some v ∧ t = N mod W ∧ N < H + cap
  | PStore v t => a = Some v ∧ t = N mod W ∧ N < H + cap ∧
      buffer r !! Z.to_nat (N mod cap) = Some (Some v)
  end.

Definition consumer_at (H N : Z) (l : list T) (c : consumer) (b : bool) : Prop :=
  match c with
  | CIdle => b = false
  | CStart => b = true
  | CHead h => b = true ∧ h = H mod W
  | CRead h => b = true ∧ h = H mod W ∧ H < N
  | CStore h v => b = true ∧ h = H mod W ∧ H < N ∧ l !! 0%nat = Some v
  end.

Definition related (H N : Z) (s : sys) (a : spec) : Prop :=
  slots (ring s) H N (q a) ∧ producer_at (ring s) H N (prod_at s) (pushing a) ∧
  consumer_at H N (q a) (cons_at s) (popping a).

(** The slot of a counter is the slot of the number it stands for: while no
    counter has wrapped, and for ever when the capacity divides [W]. *)
Definition aligned (n : Z) : Prop := (n mod W) mod cap = n mod cap.

Lemma aligned_below n : 0 ≤ n < W → aligned n.
Proof. intros ?. unfold aligned. by rewrite (Z.mod_small n W). Qed.

Lemma aligned_divide n : (cap | W) → aligned n.
Proof. intros ?. unfold aligned. by apply Z.mod_mod_divide. Qed.

Lemma wrapping_sub_mod a b : 0 ≤ a - b < W → wrapping_sub (a mod W) (b mod W) = a - b.
Proof. intros ?. unfold wrapping_sub. by rewrite <- Zminus_mod, Z.mod_small. Qed.

Lemma wrapping_add_mod a : wrapping_add (a mod W) 1 = (a + 1) mod W.
Proof. unfold wrapping_add. by rewrite Zplus_mod_idemp_l. Qed.

Lemma counters_equal H N : H ≤ N ≤ H + cap → H mod W = N mod W → H = N.
Proof.
  intros ? E. assert (wrapping_sub (N mod W) (H mod W) = N - H) as E2 by (apply wrapping_sub_mod; lia).
  rewrite E in E2. unfold wrapping_sub in E2. rewrite Z.sub_diag, Z.mod_0_l in E2; lia.
Qed.

(** Two live values are in different slots. *)
Lemma slot_fresh H N i : H ≤ N < H + cap → 0 ≤ i < N - H →
  Z.to_nat (N mod cap) ≠ Z.to_nat ((H + i) mod cap).
Proof.
  intros ? ? E. apply Z2Nat.inj in E; [|apply Z.mod_pos_bound; lia..]. assert ((N - (H + i)) mod cap = 0) as E2.
  { by rewrite Zminus_mod, E, Z.sub_diag, Z.mod_0_l by lia. }
  rewrite Z.mod_small in E2; lia.
Qed.

Lemma slots_write r r' H N l v :
  slots r H N l → N < H + cap → write_slot r (N mod cap) v = Some r' →
  slots r' H N l ∧ buffer r' !! Z.to_nat (N mod cap) = Some (Some v) ∧ head r' = head r ∧ tail r' = tail r.
Proof.
  intros (Hl & Hc & Hh & Ht & HN & HN2 & Hq & Hb) ? E. unfold write_slot in E. case_match; [|done].
  injection E as <-. apply Nat.ltb_lt in H1. unfold slots. rs.
  rewrite length_insert, list_lookup_insert_eq by done. split_and!; try done; try blia.
  intros i Hi. rewrite list_lookup_insert_ne; [by apply Hb|].
  apply slot_fresh; blia.
Qed.

Lemma slots_push r H N l v :
  slots r H N l → N < H + cap → buffer r !! Z.to_nat (N mod cap) = Some (Some v) →
  slots (r <| tail := wrapping_add (N mod W) 1 |>) H (N + 1) (l ++ [v]).
Proof.
  intros (Hl & Hc & Hh & Ht & HN & HN2 & Hq & Hb) ? E. unfold slots. rs.
  rewrite wrapping_add_mod, length_app. cbn [length]. split_and!; try done; try blia.
  intros i Hi. destruct (decide (i = N - H)) as [->|].
  - replace (H + (N - H)) with N by blia. rewrite E. f_equal. symmetry.
    apply list_lookup_middle. blia.
  - rewrite lookup_app_l by blia. apply Hb. blia.
Qed.

Lemma slots_pop r H N l v :
  slots r H N (v :: l) → H < N →
  slots (r <| head := wrapping_add (H mod W) 1 |>) (H + 1) N l.
Proof.
  intros (Hl & Hc & Hh & Ht & HN & HN2 & Hq & Hb) ?. cbn [length] in Hq. unfold slots. rs.
  rewrite wrapping_add_mod. split_and!; try done; try blia.
  intros i Hi. specialize (Hb (i + 1) ltac:(blia)).
  replace (H + 1 + i) with (H + (i + 1)) by blia. rewrite Hb.
  replace (Z.to_nat (i + 1)) with (S (Z.to_nat i)) by (clear - Hi; blia). done.
Qed.

(** The consumer finds the oldest value in its slot. *)
Lemma slots_head r H N l :
  slots r H N l → H < N → ∃ v l', l = v :: l' ∧ buffer r !! Z.to_nat (H mod cap) = Some (Some v).
Proof.
  intros (Hl & Hc & Hh & Ht & HN & HN2 & Hq & Hb) ?. destruct l as [|v l]; [cbn in Hq; blia|].
  exists v, l. split; [done|]. specialize (Hb 0 ltac:(blia)). by rewrite Z.add_0_r in Hb.
Qed.

(** A visible step is the contract's, an internal one changes nothing there. *)
Definition simulates (l : label) (a a' : spec) : Prop :=
  if is_tau l then a' = a else spec_step cap a l a'.

Definition pushed_by (l : label) : Z := match l with RetPush => 1 | _ => 0 end.

Ltac split_related :=
  match goal with
  | H : related _ _ _ ?a |- _ =>
      destruct H as (Hs & Hp & Hc); destruct a as [l a b];
      cbn [ring prod_at cons_at q pushing popping producer_at consumer_at] in *
  end.

(** Moves of the producer leave the consumer's view as it was, and back. *)
Lemma consumer_push H N l v c b : consumer_at H N l c b → consumer_at H (N + 1) (l ++ [v]) c b.
Proof.
  destruct c; cbn [consumer_at]; intros Hc; parts Hc; split_and?; try done; try blia.
  by apply lookup_app_l_Some.
Qed.

Lemma producer_pop r H N p a h :
  producer_at r H N p a → producer_at (r <| head := h |>) (H + 1) N p a.
Proof. destruct p; cbn [producer_at]; intros Hp; parts Hp; split_and?; done || blia. Qed.

(** What the two loads of the other side's counter establish *)
Lemma not_full r H N l t :
  slots r H N l → t = N mod W → wrapping_sub t (head r) = N - H.
Proof. intros (_ & _ & -> & _ & ? & ? & _) ->. apply wrapping_sub_mod. blia. Qed.

Lemma not_empty r H N l h : slots r H N l → h = H mod W → h = tail r ↔ H = N.
Proof.
  intros (_ & _ & _ & -> & ? & ? & _) ->. split; [|by intros ->]. apply counters_equal. blia.
Qed.

Definition next (H N : Z) (l : label) (s' : sys) (a : spec) : Prop :=
  ∃ H' a', related H' (N + pushed_by l) s' a' ∧ simulates l a a'.

Ltac stay H a := exists H, a; cbn [pushed_by]; rewrite ?Z.add_0_r; split; [|first [reflexivity | constructor; blia]].

Lemma sim_write H N r r' c v t a :
  related H N {| ring := r; prod_at := PWrite v t; cons_at := c |} a → aligned N →
  write_slot r (t mod capacity r) v = Some r' →
  next H N Tau {| ring := r'; prod_at := PStore v t; cons_at := c |} a.
Proof.
  intros (Hs & (Ha & -> & ?) & Hc) AN E. stay H a. cbn in Hs, Hc.
  pose proof Hs as (_ & Hcap' & _). rewrite Hcap', AN in E.
  destruct (slots_write _ _ _ _ _ _ Hs ltac:(blia) E) as (? & ? & ? & ?). by split_and!.
Qed.

Lemma sim_store H N r c v t a :
  related H N {| ring := r; prod_at := PStore v t; cons_at := c |} a →
  next H N RetPush {| ring := r <| tail := wrapping_add t 1 |>; prod_at := PIdle; cons_at := c |} a.
Proof.
  intros (Hs & (Ha & -> & ? & E) & Hc). destruct a as [l ap b]. cbn in Hs, Ha, Hc. subst ap.
  exists H, {| q := l ++ [v]; pushing := None; popping := b |}. cbn [pushed_by]. split.
  - split_and!; [by apply slots_push|done|by apply consumer_push].
  - constructor. destruct Hs as (_ & _ & _ & _ & _ & _ & Hq & _). blia.
Qed.

Lemma sim_read H N r p h v a :
  related H N {| ring := r; prod_at := p; cons_at := CRead h |} a → aligned H →
  read_slot r (h mod capacity r) = Some v →
  next H N Tau {| ring := r; prod_at := p; cons_at := CStore h v |} a.
Proof.
  intros (Hs & Hp & (Hb & -> & ?)) AH E. stay H a. cbn in Hs, Hp.
  destruct (slots_head _ _ _ _ Hs ltac:(blia)) as (w & l' & El & Eb).
  pose proof Hs as (_ & Hcap' & _). unfold read_slot in E. rewrite Hcap', AH, Eb in E.
  injection E as ->. split_and!; try done. cbn. by rewrite El.
Qed.

Lemma sim_pop H N r p h v a :
  related H N {| ring := r; prod_at := p; cons_at := CStore h v |} a →
  next H N (RetPop v) {| ring := r <| head := wrapping_add h 1 |>; prod_at := p; cons_at := CIdle |} a.
Proof.
  intros (Hs & Hp & (Hb & -> & ? & El)). destruct a as [l ap b]. cbn in Hs, Hp, Hb, El. subst b.
  destruct l as [|w l]; [done|]. injection El as ->.
  exists (H + 1), {| q := l; pushing := ap; popping := false |}. cbn [pushed_by]. rewrite Z.add_0_r.
  split; [|constructor]. split_and!; [by eapply slots_pop|by apply producer_pop|done].
Qed.

Lemma step_sim H N s l s' a :
  related H N s a → aligned H → aligned N → step s l s' → next H N l s' a.
Proof.
  intros R AH AN St. destruct St as [r c v|r c v|r c v t F|r c v t F|r r' c v t E|r c v t|r p|r p|r p h E|r p h E|r p h v E|r p h v];
    eauto using sim_write, sim_store, sim_read, sim_pop.
  all: destruct R as (Hs & Hp & Hc); destruct a as [lq ap b]; cbn in Hs, Hp, Hc; parts Hp; parts Hc; subst.
  - stay H {| q := lq; pushing := Some v; popping := b |}. by split_and!.
  - stay H {| q := lq; pushing := Some v; popping := b |}. split_and!; try done. split; [done|apply Hs].
  - rewrite (not_full _ _ _ _ _ Hs eq_refl) in F. pose proof Hs as (_ & Ecap & _ & _ & _ & ? & Hq & _).
    stay H {| q := lq; pushing := None; popping := b |}. by split_and!.
  - rewrite (not_full _ _ _ _ _ Hs eq_refl) in F. pose proof Hs as (_ & Ecap & _).
    stay H {| q := lq; pushing := Some v; popping := b |}. split_and!; try done. cbn. split_and!; done || blia.
  - stay H {| q := lq; pushing := ap; popping := true |}. by split_and!.
  - stay H {| q := lq; pushing := ap; popping := true |}. split_and!; try done. split; [done|apply Hs].
  - apply (not_empty _ _ _ _ _ Hs eq_refl) in E as ->. pose proof Hs as (_ & _ & _ & _ & _ & _ & Hq & _).
    destruct lq; [|cbn in Hq; blia]. stay N {| q := @nil T; pushing := ap; popping := false |}. by split_and!.
  - rewrite (not_empty _ _ _ _ _ Hs eq_refl) in E. pose proof Hs as (_ & _ & _ & _ & ? & _).
    stay H {| q := lq; pushing := ap; popping := true |}. split_and!; try done. cbn. split_and!; done || blia.
Qed.

(** No counter used in a run with this many pushes misses its slot. *)
Lemma aligned_all H N a s n :
  related H N s a → (cap | W) ∨ N + n < W → 0 ≤ n → aligned H ∧ aligned N.
Proof.
  intros ((_ & _ & _ & _ & ? & _) & _) [?|?] ?; split;
    (by apply aligned_divide) || (apply aligned_below; lia).
Qed.

Lemma returned_cons l ls : Z.of_nat (returned (l :: ls)) = pushed_by l + Z.of_nat (returned ls).
Proof. unfold returned. destruct l; try done. rewrite filter_cons_True by done. cbn [length pushed_by]. lia. Qed.

Lemma steps_sim H N s a ls s' :
  related H N s a → steps s ls s' → (cap | W) ∨ N + Z.of_nat (returned ls) < W →
  ∃ H' a', related H' (N + Z.of_nat (returned ls)) s' a' ∧ spec_steps cap a (visible ls) a'.
Proof.
  intros R St. revert H N a R. induction St as [s|s l s' ls s'' St _ IH]; intros H N a R Hw.
  - exists H, a. change (returned []) with 0%nat. rewrite Z.add_0_r. split; [done|constructor].
  - destruct (aligned_all _ _ _ _ _ R Hw ltac:(lia)) as [AH AN]. rewrite returned_cons in *.
    destruct (step_sim _ _ _ _ _ _ R AH AN St) as (H1 & a1 & R1 & Sim).
    destruct (IH _ _ _ R1) as (H2 & a2 & R2 & Ss); [rewrite <- Z.add_assoc; done|].
    rewrite <- Z.add_assoc in R2. exists H2, a2. split; [done|].
    unfold simulates in Sim. unfold visible. destruct l; cbn [is_tau] in Sim.
    1: by subst.
    all: rewrite filter_cons_True by done; by econstructor.
Qed.

Lemma related_init r : with_capacity cap = Ok r →
  related 0 0 {| ring := r; prod_at := PIdle; cons_at := CIdle |} {| q := []; pushing := None; popping := false |}.
Proof.
  unfold with_capacity. case_match; [done|]. intros [= <-].
  split; [|done]. unfold slots. cbn [ring buffer capacity head tail q].
  rewrite length_replicate, Z.mod_0_l by lia. split_and!; try done; lia.
Qed.

(** What the next access to a slot finds *)
Definition slot_safe (s : sys) : Prop :=
  (∀ v t, prod_at s = PWrite v t → ∃ r', write_slot (ring s) (t mod capacity (ring s)) v = Some r') ∧
  (∀ h, cons_at s = CRead h → ∃ v, read_slot (ring s) (h mod capacity (ring s)) = Some v) ∧
  (∀ v t h, prod_at s = PWrite v t → cons_at s = CRead h →
     t mod capacity (ring s) ≠ h mod capacity (ring s)).

Lemma related_safe H N s a : related H N s a → aligned H → aligned N → slot_safe s.
Proof.
  intros (Hs & Hp & Hc) AH AN. pose proof Hs as (Hl & Ecap & _). unfold slot_safe. rewrite Ecap.
  split_and!.
  - intros v t E. rewrite E in Hp. destruct Hp as (_ & -> & _). rewrite AN. unfold write_slot.
    rewrite (proj2 (Nat.ltb_lt _ _)); [eauto|]. rewrite Hl.
    pose proof (Z.mod_pos_bound N cap ltac:(lia)). clear - H0. generalize dependent (N mod cap). lia.
  - intros h E. rewrite E in Hc. destruct Hc as (_ & -> & ?). rewrite AH. unfold read_slot.
    destruct (slots_head _ _ _ _ Hs ltac:(done)) as (v & _ & _ & ->). by exists v.
  - intros v t h Ep Ec. rewrite Ep in Hp. rewrite Ec in Hc.
    destruct Hp as (_ & -> & ?), Hc as (_ & -> & ?). rewrite AH, AN. intros E.
    apply (slot_fresh H N 0); [blia..|]. by rewrite E, Z.add_0_r.
Qed.

(** [Drop] frees the values still queued, each once. *)
Lemma drop_loop_head fuel r h0 h : drop_loop fuel (r <| head := h0 |>) h = drop_loop fuel r h.
Proof.
  revert h. induction fuel as [|fuel IH]; intros h; [done|]. cbn [drop_loop]. rs. case_match; [done|].
  change (read_slot (r <| head := h0 |>)) with (read_slot r).
  destruct (or_panic _); try done. cbn. by rewrite IH.
Qed.

Lemma drop_loop_slots fuel r H N l :
  slots r H N l → (∀ n, 0 ≤ n ≤ N → aligned n) → (length l ≤ fuel)%nat →
  drop_loop fuel r (H mod W) = Ok l.
Proof.
  revert r H l. induction fuel as [|fuel IH]; intros r H l Hs AN Hf;
    pose proof Hs as (_ & Ecap & _ & Et & ? & ? & Hq & _); cbn [drop_loop].
  - destruct l; [|cbn in Hf; blia]. rewrite Et. replace N with H by (cbn in Hq; blia). by rewrite Z.eqb_refl.
  - destruct (Z.eqb_spec (H mod W) (tail r)) as [E|E].
    + apply (not_empty _ _ _ _ _ Hs eq_refl) in E. by destruct l; [|cbn in Hq; blia].
    + rewrite (not_empty _ _ _ _ _ Hs eq_refl) in E.
      destruct (slots_head _ _ _ _ Hs ltac:(blia)) as (v & l' & -> & Eb).
      unfold read_slot. rewrite Ecap, AN, Eb by blia. cbn. rewrite wrapping_add_mod.
      rewrite <- (drop_loop_head _ _ (wrapping_add (H mod W) 1)), (IH _ _ l'); [done| |done|cbn in Hf; blia].
      by apply slots_pop in Hs; [|blia].
Qed.

End simulation.

(** ** What the contract promises: the values come out in the order they went in *)
Lemma spec_fifo cap a ls a' :
  spec_steps cap a ls a' → q a ++ accepted (pushing a) ls = popped ls ++ q a'.
Proof.
  induction 1 as [a|a l a1 ls a2 St _ IH]; [by cbn; rewrite app_nil_r|].
  destruct St; cbn in IH |- *; try done; try by rewrite <- IH, <- ?app_assoc.
Qed.

Lemma spec_bounded cap a ls a' :
  spec_steps cap a ls a' → Z.of_nat (length (q a)) ≤ cap → Z.of_nat (length (q a')) ≤ cap.
Proof.
  induction 1 as [a|a l a1 ls a2 St _ IH]; [done|]. intros Hq. apply IH.
  destruct St; cbn in Hq |- *; rewrite ?length_app; cbn; lia.
Qed.

Lemma accepted_visible p ls : accepted p (visible ls) = accepted p ls.
Proof.
  revert p. induction ls as [|l ls IH]; intros p; [done|]. unfold visible.
  destruct l; cbn; by rewrite <- IH.
Qed.

Lemma popped_visible ls : popped (visible ls) = popped ls.
Proof.
  induction ls as [|l ls IH]; [done|]. unfold visible in *. destruct l; cbn; by rewrite <- IH.
Qed.

Lemma related_drop cap (Hcap : 0 < cap < W) H N s a :
  related cap H N s a → (cap | W) ∨ N < W → drop_ring (ring s) = Ok (q a).
Proof.
  intros (Hs & _) Hw. pose proof Hs as (Hl & _ & Hh & _ & ? & ? & Hq & _). unfold drop_ring. rewrite Hh.
  apply (drop_loop_slots cap Hcap _ _ _ N); [done| |].
  - intros n ?. destruct Hw; [by apply aligned_divide|apply aligned_below; lia].
  - rewrite Hl. clear - Hcap H0 H1 Hq. lia.
Qed.

(** C14: Every interleaving of the atomic steps of one producer and one consumer
    of the SPSC ring, with fewer pushes than the counter range or a capacity
    that divides it, is a run of a bounded first-in first-out queue: values come
    out once and in order, no slot is read before it is written or accessed by
    both sides at once, and dropping the ring frees exactly the queued values.
    *)
Theorem spsc_refines cap r ls s :
  0 ≤ cap < W → with_capacity cap = Ok r →
  (cap | W) ∨ Z.of_nat (returned ls) < W →
  steps {| ring := r; prod_at := PIdle; cons_at := CIdle |} ls s →
  slot_safe s ∧
  ∃ a, spec_steps cap {| q := []; pushing := None; popping := false |} (visible ls) a ∧
    accepted None ls = popped ls ++ q a ∧ Z.of_nat (length (q a)) ≤ cap ∧ drop_ring (ring s) = Ok (q a).
Proof.
  intros ? Er Hw St. assert (0 < cap < W) by (unfold with_capacity in Er; case_match; [done|lia]).
  destruct (steps_sim cap ltac:(done) _ _ _ _ _ _ (related_init _ ltac:(done) _ Er) St Hw) as (H' & a & R & Ss).
  pose proof (spec_fifo _ _ _ _ Ss) as Hf. rewrite accepted_visible, popped_visible in Hf. split.
  - destruct (aligned_all _ _ _ _ _ 0 R) as [AH AN]; [by rewrite Z.add_0_r|done|].
    by apply (related_safe _ ltac:(done) _ _ _ _ R).
  - exists a. split_and!; [done..| |by eapply related_drop]. apply (spec_bounded _ _ _ _ Ss). cbn. lia.
Qed.

(** ** The counters wrap

    Each sample pushed and popped at once, [n] times *)
Inductive cycles (x : T) : nat → SpscRing → SpscRing → Prop :=
| cycles_O r : cycles x 0 r r
| cycles_S n r r1 r2 r3 : cycles x n r r1 → push r1 x = Ok r2 → pop r2 = Ok (Some x, r3) → cycles x (S n) r r3.

(** Empty, after [n] samples *)
Definition passed (cap n : Z) (r : SpscRing) : Prop :=
  length (buffer r) = Z.to_nat cap ∧ capacity r = cap ∧ head r = n mod W ∧ tail r = n mod W.

Lemma push_room r v :
  wrapping_sub (tail r) (head r) < capacity r → (Z.to_nat (tail r mod capacity r) < length (buffer r))%nat →
  push r v = Ok (r <| buffer ::= <[Z.to_nat (tail r mod capacity r) := Some v]> |>
                   <| tail := wrapping_add (tail r) 1 |>).
Proof.
  intros ? Hi. unfold push. rewrite (proj2 (Z.leb_gt _ _)) by done. unfold write_slot.
  apply Nat.ltb_lt in Hi. by rewrite Hi.
Qed.

Lemma pop_slot r v :
  head r ≠ tail r → buffer r !! Z.to_nat (head r mod capacity r) = Some (Some v) →
  pop r = Ok (Some v, r <| head := wrapping_add (head r) 1 |>).
Proof.
  intros Hn Hv. unfold pop. rewrite (proj2 (Z.eqb_neq _ _)) by done. unfold read_slot. by rewrite Hv.
Qed.

Lemma cycle_passed cap n x r :
  0 < cap < W → passed cap n r → ∃ r2 r3, push r x = Ok r2 ∧ pop r2 = Ok (Some x, r3) ∧ passed cap (n + 1) r3.
Proof.
  intros ? (Hl & Hc & Hh & Ht). pose proof (Z.mod_pos_bound (n mod W) cap ltac:(lia)).
  assert (Z.to_nat ((n mod W) mod cap) < length (buffer r))%nat as Hi.
  { rewrite Hl. generalize dependent ((n mod W) mod cap). clear. lia. }
  eexists _, _. split_and!.
  - apply push_room; rewrite ?Hc, ?Ht, ?Hh; [|done]. unfold wrapping_sub. rewrite Z.sub_diag, Z.mod_0_l; lia.
  - apply pop_slot; rs; rewrite ?Hc, ?Ht, ?Hh; [|by apply list_lookup_insert_eq].
    rewrite wrapping_add_mod. intros E. clear - H E.
    apply (counters_equal 1) in E; [|clear E; lia..]. clear - E. lia.
  - unfold passed. rs. rewrite length_insert, Ht, Hh, !wrapping_add_mod. done.
Qed.

Lemma cycles_passed cap x r n :
  0 < cap < W → passed cap 0 r → ∃ r', cycles x n r r' ∧ passed cap (Z.of_nat n) r'.
Proof.
  intros ? Hr. induction n as [|n (r1 & Hcy & Hp)]; [eauto using cycles|].
  destruct (cycle_passed cap (Z.of_nat n) x r1 ltac:(done) Hp) as (r2 & r3 & ? & ? & ?).
  exists r3. rewrite Nat2Z.inj_succ, <- Z.add_1_r. eauto using cycles.
Qed.

(** Both samples go to slot 0: the counters [W - 1] and 0 are 0 modulo 3. *)
Lemma wrap_overwrites y z r :
  3 < W → W mod 3 = 1 → passed 3 (W - 1) r →
  ∃ r1 r2 r3 r4, push r y = Ok r1 ∧ push r1 z = Ok r2 ∧ len r2 = 0 ∧
    pop r2 = Ok (Some z, r3) ∧ pop r3 = Ok (Some z, r4) ∧ is_empty r4 = true.
Proof.
  intros HW H3 (Hl & Hc & Hh & Ht). rewrite Z.mod_small in Hh, Ht by lia.
  assert ((W - 1) mod 3 = 0) as E0 by lia. change (Z.to_nat 3) with 3%nat in Hl.
  assert (wrapping_add (W - 1) 1 = 0) as Ew.
  { unfold wrapping_add. replace (W - 1 + 1) with W by lia. apply Z.mod_same. lia. }
  assert (wrapping_add 0 1 = 1) as E1 by (apply Z.mod_small; lia).
  assert (wrapping_sub 0 (W - 1) = 1) as Es.
  { unfold wrapping_sub. replace (0 - (W - 1)) with (1 + (-1) * W) by lia. rewrite Z.mod_add, Z.mod_small; lia. }
  assert (wrapping_sub (W - 1) (W - 1) = 0) as Ez by (unfold wrapping_sub; rewrite Z.sub_diag; apply Z.mod_0_l; lia).
  eexists _, _, _, _. split_and!.
  - apply push_room; rewrite ?Hc, ?Hh, ?Ht, ?E0, ?Ez, ?Hl; [lia|]. cbn. lia.
  - apply push_room; rs; rewrite ?length_insert, ?Hc, ?Hh, ?Ht, ?Ew, ?Es, ?Hl; [lia|]. cbn. lia.
  - unfold len. rs. rewrite Hh, Ht, Ew, E1. lia.
  - apply pop_slot; rs; rewrite ?Hc, ?Hh, ?Ht, ?Ew, ?E1, ?E0; [lia|].
    apply list_lookup_insert_eq. rewrite length_insert, Hl. cbn. lia.
  - apply pop_slot; rs; rewrite ?Hc, ?Hh, ?Ht, ?Ew, ?E1; [lia|].
    apply list_lookup_insert_eq. rewrite length_insert, Hl. cbn. lia.
  - unfold is_empty. rs. by rewrite Hh, Ht, Ew, E1.
Qed.

(** A ring of capacity 3 that has passed W-1 samples, with W the range of
    usize, writes the next two samples to the same slot: the first is lost, the
    second comes out twice, and len is 0 while two are queued. *)
Theorem spsc_wrap_corrupts x y z :
  3 < W → W mod 3 = 1 →
  ∃ r0 r r1 r2 r3 r4,
    with_capacity 3 = Ok r0 ∧ cycles x (Z.to_nat (W - 1)) r0 r ∧
    push r y = Ok r1 ∧ push r1 z = Ok r2 ∧ len r2 = 0 ∧
    pop r2 = Ok (Some z, r3) ∧ pop r3 = Ok (Some z, r4) ∧ is_empty r4 = true.
Proof.
  intros HW H3. eexists. edestruct (cycles_passed 3 x) with (n := Z.to_nat (W - 1)) as (r & Hcy & Hp); [lia| |].
  2: rewrite Z2Nat.id in Hp by lia.
  2: destruct (wrap_overwrites y z r HW H3 Hp) as (r1 & r2 & r3 & r4 & ?).
  2: exists r, r1, r2, r3, r4; split; [reflexivity|]; split; [exact Hcy|done].
  done.
Qed.
End ring.

(** ** Concrete runs *)
Definition usize64 : Z := 2 ^ 64.
Definition usize32 : Z := 2 ^ 32.

(** A push overlaps a pop that finds the ring empty and then one that does not *)
Definition overlap : list (@label Z) :=
  [CallPush 5; CallPop; Tau; Tau; Tau; RetEmpty; CallPop; Tau; Tau; RetPush; CallPush 6; Tau; Tau; RetPop 5; Tau; Tau].

Definition ring2 (slots : list (option Z)) (h t : Z) : SpscRing :=
  {| buffer := slots; capacity := 2; head := h; tail := t |}.

Lemma overlap_run :
  steps usize64 {| ring := ring2 [None; None] 0 0; prod_at := PIdle; cons_at := CIdle |} overlap
    {| ring := ring2 [Some 5; None] 1 1; prod_at := PWrite 6 1; cons_at := CIdle |}.
Proof.
  eapply steps_cons; [apply push_call|]. eapply steps_cons; [apply pop_call|].
  eapply steps_cons; [apply push_load_tail|]. eapply steps_cons; [apply pop_load_head|].
  eapply steps_cons; [apply push_load_head; reflexivity|].
  eapply steps_cons; [apply pop_load_tail_empty; reflexivity|].
  eapply steps_cons; [apply pop_call|]. eapply steps_cons; [apply pop_load_head|].
  eapply steps_cons; [apply (push_write _ _ (ring2 [Some 5; None] 0 0)); reflexivity|].
  eapply (steps_cons _ _ _ {| ring := ring2 [Some 5; None] 0 1; prod_at := PIdle; cons_at := CHead 0 |});
    [exact (push_store _ (ring2 [Some 5; None] 0 0) (CHead 0) 5 0)|].
  eapply steps_cons; [apply push_call|]. eapply steps_cons; [apply pop_load_tail; discriminate|].
  eapply steps_cons; [apply (pop_read _ _ _ _ 5); reflexivity|].
  eapply (steps_cons _ _ _ {| ring := ring2 [Some 5; None] 1 1; prod_at := PStart 6; cons_at := CIdle |});
    [exact (pop_store _ (ring2 [Some 5; None] 0 1) (PStart 6) 0 5)|].
  eapply steps_cons; [apply push_load_tail|].
  eapply steps_cons; [apply push_load_head; reflexivity|]. apply steps_nil.
Qed.

Lemma spsc_refines_witness :
  slot_safe {| ring := ring2 [Some 5; None] 1 1; prod_at := PWrite 6 1; cons_at := CIdle |} ∧
  ∃ a, spec_steps 2 {| q := []; pushing := None; popping := false |} (visible overlap) a ∧
    accepted None overlap = popped overlap ++ q a ∧ Z.of_nat (length (q a)) ≤ 2 ∧
    drop_ring usize64 (ring2 [Some 5; None] 1 1) = Ok (q a).
Proof.
  apply (spsc_refines usize64 2 (ring2 [None; None] 0 0) overlap
    {| ring := ring2 [Some 5; None] 1 1; prod_at := PWrite 6 1; cons_at := CIdle |});
    [split; [discriminate|reflexivity]|reflexivity|right; vm_compute; reflexivity|exact overlap_run].
Defined.

