(* ===== verification/Packetizer.v ===== *)
(** * Packetizers ([src/media/packetizer.rs])

    Payloaders split an encoded frame into RTP payloads of at most [mtu]
    bytes; the packetizer puts one between a media source and the sender.
    A loop that is still running when its fuel is used up returns
    [Err Running]. *)
From S2P Require Import Prelude Core BytesCrate RecordSet Rtp Frame.

Inductive running := Running.
Abbreviation payloads := (res running (list (list Z))).

Section payloaders.
Context `{BytesCrate}.

(** ** VP8 *)

Fixpoint vp8_loop (fuel : nat) (max_payload_size : nat) (data : list Z) (offset : nat) : payloads :=
  if (offset <? length data)%nat then
    match fuel with
    | O => Err Running
    | S fuel =>
        let remaining := (length data - offset)%nat in
        let chunk_size := (remaining `min` max_payload_size)%nat in
        let s_bit := if (offset =? 0)%nat then 0x10 else 0x00 in
        chunk ← slice data offset (offset + chunk_size);
        rest ← vp8_loop fuel max_payload_size data (offset + chunk_size);
        Ok ((s_bit :: chunk) :: rest)
    end
  else Ok [].

(** [mtu - 1] aborts for [mtu = 0]. *)
Definition Vp8Payloader_payload (fuel mtu : nat) (data : list Z) : payloads :=
  if (length data =? 0)%nat then Ok [] else
  if (mtu =? 0)%nat then Panic else
  vp8_loop fuel (mtu - 1) data 0.

(** ** VP9 *)

Fixpoint vp9_loop (fuel : nat) (max_payload_size : nat) (pid : Z) (data : list Z) (offset : nat) : payloads :=
  let total := length data in
  if (offset <? total)%nat then
    match fuel with
    | O => Err Running
    | S fuel =>
        let remaining := (total - offset)%nat in
        let chunk_size := (remaining `min` max_payload_size)%nat in
        let first := (offset =? 0)%nat in
        let last := (total <=? offset + chunk_size)%nat in
        let b0 := Z.lor 0x80 0x10 in
        let b0 := if first then Z.lor b0 0x08 else b0 in
        let b0 := if last then Z.lor b0 0x04 else b0 in
        chunk ← slice data offset (offset + chunk_size);
        rest ← vp9_loop fuel max_payload_size pid data (offset + chunk_size);
        Ok ((b0 :: Z.lor 0x80 (as_u8 (Z.shiftr pid 8)) :: as_u8 (Z.land pid 0xff) :: chunk) :: rest)
    end
  else Ok [].

(** The payloads and the next Picture ID *)
Definition Vp9Payloader_payload (fuel : nat) (picture_id : Z) (mtu : nat) (data : list Z) : payloads * Z :=
  if (length data =? 0)%nat then (Ok [], picture_id) else
  let max_payload_size := ((mtu - 3) `max` 1)%nat in
  (vp9_loop fuel max_payload_size picture_id data 0, Z.land (picture_id + 1) 0x7fff).

(** ** Frames of no known structure *)

Fixpoint simple_loop (fuel mtu : nat) (data : list Z) (offset : nat) : payloads :=
  if (offset <? length data)%nat then
    match fuel with
    | O => Err Running
    | S fuel =>
        let chunk_size := ((length data - offset) `min` mtu)%nat in
        chunk ← or_panic (bytes_slice data offset (offset + chunk_size));
        rest ← simple_loop fuel mtu data (offset + chunk_size);
        Ok (chunk :: rest)
    end
  else Ok [].

Definition SimplePayloader_payload (fuel mtu : nat) (data : list Z) : payloads := simple_loop fuel mtu data 0.

(** ** H.264 *)

Definition H264_FU_A_INDICATOR : Z := 0x1C.
Definition H264_NAL_TYPE_MASK : Z := 0x1F.
Definition H264_FU_A_START : Z := 0x80.
Definition H264_FU_A_END : Z := 0x40.
Definition H264_MTU : nat := 1200.
Definition H264_TS_PER_FRAME : Z := 3600.

Fixpoint h264_loop (fuel max_frag : nat) (nal_type nri : Z) (payload : list Z) (offset : nat) : payloads :=
  let total := length payload in
  if (offset <? total)%nat then
    match fuel with
    | O => Err Running
    | S fuel =>
        let remaining := (total - offset)%nat in
        let frag_size := (remaining `min` max_frag)%nat in
        let is_start := (offset =? 0)%nat in
        let is_end := (total <=? offset + frag_size)%nat in
        let fu_indicator := Z.lor nri H264_FU_A_INDICATOR in
        let fu_header := nal_type in
        let fu_header := if is_start then Z.lor fu_header H264_FU_A_START else fu_header in
        let fu_header := if is_end then Z.lor fu_header H264_FU_A_END else fu_header in
        fragment ← slice payload offset (offset + frag_size);
        rest ← h264_loop fuel max_frag nal_type nri payload (offset + frag_size);
        Ok ((fu_indicator :: fu_header :: fragment) :: rest)
    end
  else Ok [].

Definition H264Payloader_payload (fuel mtu : nat) (data : list Z) : payloads :=
  if (length data =? 0)%nat then Ok [] else
  first ← idx data 0;
  let nal_type := Z.land first H264_NAL_TYPE_MASK in
  let nri := Z.land first 0x60 in
  payload ← slice data 1 (length data);
  let max_frag := ((mtu - 2) `max` 1)%nat in
  if (length payload <? mtu)%nat then Ok [data] else
  h264_loop fuel max_frag nal_type nri payload 0.

(** ** Packets of an H.264 encoder *)

Record H264Packetizer := { h264_timestamp : Z }.
Record H264Fragments := { fragments : list (list Z); frag_timestamp : Z }.

Definition H264Packetizer_new : H264Packetizer := {| h264_timestamp := 0 |}.
Definition advance_frame (p : H264Packetizer) : H264Packetizer :=
  {| h264_timestamp := wadd32 (h264_timestamp p) H264_TS_PER_FRAME |}.

Definition packetize_from_raw (fuel : nat) (nal_data : list Z) (ts : Z) : res running H264Fragments :=
  if (length nal_data =? 0)%nat then Ok {| fragments := []; frag_timestamp := 0 |} else
  payloads ← H264Payloader_payload fuel H264_MTU nal_data;
  Ok {| fragments := payloads; frag_timestamp := ts |}.

(** An Annex-B start code of four or three bytes is stripped. *)
Definition start_code (nal : list Z) : nat :=
  match nal with
  | 0 :: 0 :: 0 :: 1 :: _ :: _ => 4
  | 0 :: 0 :: 1 :: _ :: _ => 3
  | _ => 0
  end.

Definition packetize (fuel : nat) (p : H264Packetizer) (nal : list Z) : res running H264Fragments :=
  nal_data ← slice nal (start_code nal) (length nal);
  packetize_from_raw fuel nal_data (h264_timestamp p).

Definition VideoFrame_default : VideoFrame := {|
  vf_rtp_timestamp := 0; vf_width := 0; vf_height := 0; vf_format := Unspecified; vf_rotation_deg := 0;
  vf_is_last_packet := false; vf_data := []; vf_header_extension := None; vf_csrcs := [];
  vf_sequence_number := None; vf_payload_type := None; vf_source_addr := None; vf_raw_packet := None |}.

#[export] Instance eta_VideoFrame : Settable VideoFrame :=
  settable! Build_VideoFrame < vf_rtp_timestamp; vf_width; vf_height; vf_format; vf_rotation_deg;
    vf_is_last_packet; vf_data; vf_header_extension; vf_csrcs; vf_sequence_number; vf_payload_type;
    vf_source_addr; vf_raw_packet >.

(** Frames that share the data of the first one, the last one marked *)
Definition spread (f : VideoFrame) (payloads : list (list Z)) : list VideoFrame :=
  imap (fun i data => f <| vf_data := data |> <| vf_is_last_packet := (i =? length payloads - 1)%nat |>) payloads.

Definition into_frames (fr : H264Fragments) (width height : Z) : list VideoFrame :=
  imap (fun i data => VideoFrame_default <| vf_data := data |> <| vf_width := width |> <| vf_height := height |>
          <| vf_is_last_packet := (i + 1 =? length (fragments fr))%nat |>
          <| vf_rtp_timestamp := frag_timestamp fr |>) (fragments fr).

(** ** The trait [Payloader]

    A payloader may change its state ([Vp9Payloader] counts pictures). *)
Class Payloader (P : Type) := payload_of : nat → P → nat → list Z → payloads * P.
Inductive Vp8Payloader := Vp8.
Inductive SimplePayloader := Simple.
Inductive H264Payloader := H264.
Record Vp9Payloader := { vp9_picture : Z }.

#[export] Instance vp8_payloader : Payloader Vp8Payloader :=
  fun fuel p mtu data => (Vp8Payloader_payload fuel mtu data, p).
#[export] Instance simple_payloader : Payloader SimplePayloader :=
  fun fuel p mtu data => (SimplePayloader_payload fuel mtu data, p).
#[export] Instance h264_payloader : Payloader H264Payloader :=
  fun fuel p mtu data => (H264Payloader_payload fuel mtu data, p).
#[export] Instance vp9_payloader : Payloader Vp9Payloader :=
  fun fuel p mtu data =>
    let '(r, n) := Vp9Payloader_payload fuel (vp9_picture p) mtu data in (r, {| vp9_picture := n |}).

(** ** The packetizer

    The media source is the list of what it will return; when it is exhausted
    the call waits. *)
Section packetizer.
Context {E P : Type} `{!Payloader P} (fuel : nat).

Record Packetizer := {
  source : list (E + MediaSample);
  mtu : nat;
  payloader : P;
  pending : list MediaSample;
}.
Definition Packetizer_new (src : list (E + MediaSample)) (m : nat) (pl : P) : Packetizer :=
  {| source := src; mtu := m; payloader := pl; pending := [] |}.

Definition packetize_and_push (p : Packetizer) (sample : MediaSample) : res running Packetizer :=
  match sample with
  | SampleVideo frame =>
      let '(r, pl) := payload_of fuel (payloader p) (mtu p) (vf_data frame) in
      payloads ← r;
      Ok {| source := source p; mtu := mtu p; payloader := pl;
            pending := pending p ++ (SampleVideo <$> spread frame payloads) |}
  | SampleAudio _ =>
      Ok {| source := source p; mtu := mtu p; payloader := payloader p; pending := pending p ++ [sample] |}
  end.

(** The next sample, an error of the source, or nothing yet *)
Inductive poll := Ready (s : MediaSample) | Failed (e : E) | Waiting.

Fixpoint next_sample_go (src : list (E + MediaSample)) (m : nat) (pl : P) (pend : list MediaSample)
    : res running (poll * Packetizer) :=
  match pend with
  | s :: pend => Ok (Ready s, {| source := src; mtu := m; payloader := pl; pending := pend |})
  | [] =>
      match src with
      | [] => Ok (Waiting, Packetizer_new [] m pl)
      | inl e :: src => Ok (Failed e, Packetizer_new src m pl)
      | inr sample :: src =>
          p ← packetize_and_push (Packetizer_new src m pl) sample;
          next_sample_go src m (payloader p) (pending p)
      end
  end.
Definition next_sample (p : Packetizer) : res running (poll * Packetizer) :=
  next_sample_go (source p) (mtu p) (payloader p) (pending p).

End packetizer.
End payloaders.
