(* ===== verification/Depacketizer.v ===== *)
(** * Depacketizers ([src/media/depacketizer.rs])

    From RTP packets to media samples: packets as they are, H.264 access units
    (single NAL units, STAP-A aggregates and FU-A fragments) and VP9 frames.
    The drop counters are 64-bit and wrap. *)
From S2P Require Import Prelude Core BytesCrate RecordSet Rtp Frame.

(** [bits & mask != 0] *)
Definition has_bits (b mask : Z) : bool := negb (Z.land b mask =? 0).

Section depacketizer.
Context `{BytesCrate}.

(** A [push] returns [Ok] always; it can abort on an index or a slice. *)
Definition Pushed (S : Type) : Type := res Empty_set (S * list MediaSample).

Definition PassThroughDepacketizer_push (packet : RtpPacket) (clock_rate : Z) (addr : SocketAddr)
    (kind : MediaKind) : list MediaSample :=
  [from_rtp_packet packet kind clock_rate addr].

(** [drop_count.fetch_add(1)] *)
Definition count_drop (n : Z) : Z := as_u64 (n + 1).

(** ** H.264 *)

Record H264Depacketizer := {
  fua_buffer : list Z;
  last_seq : option Z;
  current_timestamp : Z;
  drop_count : Z;
}.
#[export] Instance eta_H264Depacketizer : Settable H264Depacketizer :=
  settable! Build_H264Depacketizer < fua_buffer; last_seq; current_timestamp; drop_count >.

Definition H264Depacketizer_new : H264Depacketizer :=
  {| fua_buffer := []; last_seq := None; current_timestamp := 0; drop_count := 0 |}.

(** The closure [create_video_sample] *)
Definition create_video_sample (addr : SocketAddr) (data : list Z) (ts : Z) (is_last : bool)
    (pkt : RtpPacket) : MediaSample :=
  SampleVideo {|
    vf_rtp_timestamp := ts; vf_width := 0; vf_height := 0; vf_format := Unspecified;
    vf_rotation_deg := 0; vf_is_last_packet := is_last; vf_data := data;
    vf_header_extension := extension (header pkt); vf_csrcs := csrcs (header pkt);
    vf_sequence_number := Some (sequence_number (header pkt));
    vf_payload_type := Some (payload_type (header pkt)); vf_source_addr := Some addr;
    vf_raw_packet := Some pkt |}.

(** The STAP-A loop, with one unit of fuel per byte; the flag says whether a
    length went past the end. *)
Fixpoint stap_loop (fuel : nat) (addr : SocketAddr) (pkt : RtpPacket) (data : list Z) (offset : nat)
    : res Empty_set (list MediaSample * bool) :=
  if (offset + 2 <? length data)%nat then
    match fuel with
    | O => Panic
    | S fuel =>
        nal_len ← be_at 2 data offset;
        let nal_len := Z.to_nat nal_len in
        let offset := (offset + 2)%nat in
        if (length data <? offset + nal_len)%nat then Ok ([], true) else
        nal_data ← or_panic (bytes_slice data offset (offset + nal_len));
        let offset := (offset + nal_len)%nat in
        let is_last := (offset =? length data)%nat && marker (header pkt) in
        '(samples, broken) ← stap_loop fuel addr pkt data offset;
        Ok (create_video_sample addr nal_data (timestamp (header pkt)) is_last pkt :: samples, broken)
    end
  else Ok ([], false).

(** Forgetting the NAL unit in progress *)
Definition fua_lost (d : H264Depacketizer) : H264Depacketizer :=
  d <| drop_count ::= count_drop |> <| fua_buffer := [] |> <| last_seq := None |>.

Definition fua_start (d : H264Depacketizer) (pkt : RtpPacket) (hdr original_nal_type : Z) (rest : list Z)
    : H264Depacketizer :=
  let nri := Z.land hdr 0x60 in
  let reconstructed_header := Z.lor nri original_nal_type in
  d <| fua_buffer := reconstructed_header :: rest |> <| current_timestamp := timestamp (header pkt) |>
    <| last_seq := Some (sequence_number (header pkt)) |>.

Definition fua_continue (d : H264Depacketizer) (addr : SocketAddr) (pkt : RtpPacket) (e_bit : bool)
    (rest : list Z) : H264Depacketizer * list MediaSample :=
  match last_seq d with
  | None => (d, [])
  | Some last =>
      let expected := wadd16 last 1 in
      if negb (sequence_number (header pkt) =? expected) then (fua_lost d, []) else
      if negb (timestamp (header pkt) =? current_timestamp d) then (fua_lost d, []) else
      let d := d <| fua_buffer ::= fun b => b ++ rest |> <| last_seq := Some (sequence_number (header pkt)) |> in
      if e_bit then
        (d <| fua_buffer := [] |> <| last_seq := None |>,
         [create_video_sample addr (fua_buffer d) (current_timestamp d) (marker (header pkt)) pkt])
      else (d, [])
  end.

Definition H264Depacketizer_push (d : H264Depacketizer) (packet : RtpPacket) (clock_rate : Z)
    (addr : SocketAddr) (kind : MediaKind) : Pushed H264Depacketizer :=
  match kind with
  | KindAudio => Ok (d, [from_rtp_packet packet kind clock_rate addr])
  | KindVideo =>
      let payload := payload packet in
      if (length payload =? 0)%nat then Ok (d, [from_rtp_packet packet kind clock_rate addr]) else
      hdr ← idx payload 0;
      let nal_type := Z.land hdr 0x1F in
      if nal_type =? 24 then
        '(samples, broken) ← stap_loop (length payload) addr packet payload 1;
        Ok (if broken : bool then d <| drop_count ::= count_drop |> else d, samples)
      else if nal_type =? 28 then
        if (length payload <? 2)%nat then Ok (d, []) else
        fu_header ← idx payload 1;
        let s_bit := has_bits fu_header 0x80 in
        let e_bit := has_bits fu_header 0x40 in
        let original_nal_type := Z.land fu_header 0x1F in
        rest ← slice payload 2 (length payload);
        if s_bit then Ok (fua_start d packet hdr original_nal_type rest, [])
        else Ok (fua_continue d addr packet e_bit rest)
      else
        Ok (d, [create_video_sample addr payload (timestamp (header packet)) (marker (header packet)) packet])
  end.

(** ** VP9 *)

Record Vp9Descriptor := {
  picture_id : option Z;
  inter_predicted : bool;
  flexible : bool;
  start_of_frame : bool;
  end_of_frame : bool;
  header_len : nat;
}.

(** The parts of [parse_vp9_descriptor]; each takes the position and returns
    the next one.  The Picture ID: *)
Definition vp9_picture_id (payload : list Z) (present : bool) (i : nat) : option (option Z * nat) :=
  if present then
    first ← payload !! i;
    if has_bits first 0x80 then
      second ← payload !! (i + 1)%nat;
      Some (Some (Z.lor (Z.shiftl (Z.land first 0x7f) 8) second), (i + 2)%nat)
    else Some (Some first, (i + 1)%nat)
  else Some (None, i).

Definition vp9_layers (payload : list Z) (present flexible : bool) (i : nat) : option nat :=
  if present then
    _ ← payload !! i;
    let i := (i + 1)%nat in
    if negb flexible then _ ← payload !! i; Some (i + 1)%nat else Some i
  else Some i.

(** [for _ in 0..n { .. if ri & 0x01 == 0 { break } }] *)
Fixpoint vp9_references (n : nat) (payload : list Z) (i : nat) : option nat :=
  match n with
  | O => Some i
  | S n =>
      ri ← payload !! i;
      let i := (i + 1)%nat in
      if has_bits ri 0x01 then vp9_references n payload i else Some i
  end.

(** [for _ in 0..n_g] *)
Fixpoint vp9_picture_group (n : nat) (payload : list Z) (i : nat) : option nat :=
  match n with
  | O => Some i
  | S n =>
      ng ← payload !! i;
      let r := Z.to_nat (Z.land (Z.shiftr ng 2) 0x03) in
      vp9_picture_group n payload (i + 1 + r)
  end.

Definition vp9_scalability (payload : list Z) (i : nat) : option nat :=
  ss ← payload !! i;
  let i := (i + 1)%nat in
  let n_s := Z.to_nat (Z.land (Z.shiftr ss 5) 0x07) in
  let y := has_bits ss 0x10 in
  let g := has_bits ss 0x08 in
  let i := if y then (i + (n_s + 1) * 4)%nat else i in
  i ← (if g then
         n_g ← payload !! i;
         vp9_picture_group (Z.to_nat n_g) payload (i + 1)
       else Some i);
  last ← (if (i =? 0)%nat then None else Some (i - 1)%nat);
  _ ← payload !! last;
  Some i.

Definition parse_vp9_descriptor (payload : list Z) : option Vp9Descriptor :=
  b0 ← payload !! 0%nat;
  let picture_id_present := has_bits b0 0x80 in
  let inter_predicted := has_bits b0 0x40 in
  let layer_indices_present := has_bits b0 0x20 in
  let flexible := has_bits b0 0x10 in
  let start_of_frame := has_bits b0 0x08 in
  let end_of_frame := has_bits b0 0x04 in
  let ss_present := has_bits b0 0x02 in
  '(picture_id, i) ← vp9_picture_id payload picture_id_present 1;
  i ← vp9_layers payload layer_indices_present flexible i;
  i ← (if inter_predicted && flexible then vp9_references 3 payload i else Some i);
  i ← (if ss_present : bool then vp9_scalability payload i else Some i);
  Some {| picture_id := picture_id; inter_predicted := inter_predicted; flexible := flexible;
          start_of_frame := start_of_frame; end_of_frame := end_of_frame; header_len := i |}.

Record Vp9Depacketizer := {
  frame_buffer : list Z;
  vp9_timestamp : Z;
  frame_in_progress : bool;
  vp9_drop_count : Z;
}.
#[export] Instance eta_Vp9Depacketizer : Settable Vp9Depacketizer :=
  settable! Build_Vp9Depacketizer < frame_buffer; vp9_timestamp; frame_in_progress; vp9_drop_count >.

Definition Vp9Depacketizer_new : Vp9Depacketizer :=
  {| frame_buffer := []; vp9_timestamp := 0; frame_in_progress := false; vp9_drop_count := 0 |}.

Definition vp9_dropped (d : Vp9Depacketizer) : Vp9Depacketizer := d <| vp9_drop_count ::= count_drop |>.

(** The frame buffer after the payload of a packet; [None] for a packet that
    belongs to no frame in progress *)
Definition vp9_collect (d : Vp9Depacketizer) (start : bool) (ts : Z) (payload : list Z)
    : option Vp9Depacketizer :=
  let new_picture := negb (ts =? vp9_timestamp d) in
  if start then
    Some (d <| frame_buffer := payload |> <| vp9_timestamp := ts |> <| frame_in_progress := true |>)
  else if frame_in_progress d && negb new_picture then
    Some (d <| frame_buffer ::= fun b => b ++ payload |>)
  else None.

Definition Vp9Depacketizer_push (d : Vp9Depacketizer) (packet : RtpPacket) (clock_rate : Z)
    (addr : SocketAddr) (kind : MediaKind) : Pushed Vp9Depacketizer :=
  match kind with
  | KindAudio => Ok (d, [from_rtp_packet packet kind clock_rate addr])
  | KindVideo =>
      match parse_vp9_descriptor (payload packet) with
      | None => Ok (vp9_dropped d, [])
      | Some desc =>
          if (length (payload packet) <? header_len desc)%nat then Ok (vp9_dropped d, []) else
          payload ← or_panic (bytes_slice (payload packet) (header_len desc) (length (payload packet)));
          match vp9_collect d (start_of_frame desc) (timestamp (header packet)) payload with
          | None => Ok (vp9_dropped d, [])
          | Some d =>
              if end_of_frame desc || marker (header packet) then
                Ok (d <| frame_buffer := [] |> <| frame_in_progress := false |>,
                    [create_video_sample addr (frame_buffer d) (vp9_timestamp d) true packet])
              else Ok (d, [])
          end
      end
  end.

End depacketizer.
