(* ===== verification/PacketizerFacts.v ===== *)
(** * What the packetizers and depacketizers do together

    The payloaders cut a frame into chunks and put a header before each; the
    depacketizers put the chunks of a frame together again. *)
From S2P Require Import Prelude Core BytesCrate RecordSet Rtp Frame Packetizer Depacketizer.

Section facts.
Context `{BytesCrate, !BytesLaws}.

(** ** Payloads as headers before chunks

    [wrap hd first cs] puts [hd first last] before each chunk. *)
Fixpoint wrap (hd : bool → bool → list Z) (first : bool) (cs : list (list Z)) : list (list Z) :=
  match cs with
  | [] => []
  | [c] => [hd first true ++ c]
  | c :: cs => (hd first false ++ c) :: wrap hd false cs
  end.

(** The loop the payloaders share *)
Fixpoint frag_loop (hd : bool → bool → list Z) (fuel max : nat) (data : list Z) (offset : nat) : payloads :=
  if (offset <? length data)%nat then
    match fuel with
    | O => Err Running
    | S fuel =>
        let size := ((length data - offset) `min` max)%nat in
        chunk ← slice data offset (offset + size);
        rest ← frag_loop hd fuel max data (offset + size);
        Ok ((hd (offset =? 0)%nat (length data <=? offset + size)%nat ++ chunk) :: rest)
    end
  else Ok [].

Definition vp8_header (first last : bool) : list Z := [if first then 0x10 else 0x00].
Definition vp9_header (pid : Z) (first last : bool) : list Z :=
  let b0 := Z.lor 0x80 0x10 in
  let b0 := if first then Z.lor b0 0x08 else b0 in
  let b0 := if last then Z.lor b0 0x04 else b0 in
  [b0; Z.lor 0x80 (as_u8 (Z.shiftr pid 8)); as_u8 (Z.land pid 0xff)].
Definition fua_header (nal_type nri : Z) (first last : bool) : list Z :=
  let h := nal_type in
  let h := if first then Z.lor h H264_FU_A_START else h in
  let h := if last then Z.lor h H264_FU_A_END else h in
  [Z.lor nri H264_FU_A_INDICATOR; h].

Lemma vp8_loop_frag fuel max data o : vp8_loop fuel max data o = frag_loop vp8_header fuel max data o.
Proof.
  revert o. induction fuel as [|fuel IH]; intros o; [done|]. cbn [vp8_loop frag_loop]. by rewrite IH.
Qed.
Lemma vp9_loop_frag fuel max pid data o :
  vp9_loop fuel max pid data o = frag_loop (vp9_header pid) fuel max data o.
Proof.
  revert o. induction fuel as [|fuel IH]; intros o; [done|]. cbn [vp9_loop frag_loop]. by rewrite IH.
Qed.
Lemma h264_loop_frag fuel max t nri data o :
  h264_loop fuel max t nri data o = frag_loop (fua_header t nri) fuel max data o.
Proof.
  revert o. induction fuel as [|fuel IH]; intros o; [done|]. cbn [h264_loop frag_loop]. by rewrite IH.
Qed.

Lemma frag_loop_chunks hd fuel max data o :
  (0 < max)%nat → (o ≤ length data)%nat → (length data - o ≤ fuel)%nat →
  frag_loop hd fuel max data o = Ok (wrap hd (o =? 0)%nat (chunks fuel max (drop o data))).
Proof.
  intros Hm. revert o. induction fuel as [|fuel IH]; intros o Ho Hf; cbn [frag_loop].
  { rewrite (proj2 (Nat.ltb_ge _ _)) by lia. by rewrite drop_ge by lia. }
  destruct (Nat.ltb_spec o (length data)) as [Hlt|Hge]; [|by rewrite drop_ge by lia].
  set (size := ((length data - o) `min` max)%nat).
  assert (0 < size)%nat by lia. rewrite slice_ok by lia. run. rewrite IH by lia. run. f_equal.
  destruct (drop o data) as [|x r] eqn:Ed.
  { apply (f_equal length) in Ed. rewrite length_drop in Ed. cbn in Ed. lia. }
  cbn [chunks]. rewrite <- Ed.
  replace (take (o + size - o) (drop o data)) with (take max (drop o data)).
  2:{ replace (o + size - o)%nat with size by lia. unfold size.
      destruct (decide (max ≤ length data - o)%nat).
      - by rewrite Nat.min_r by lia.
      - rewrite Nat.min_l by lia. rewrite !take_ge; [done|rewrite length_drop; lia..]. }
  replace (drop (o + size) data) with (drop max (drop o data)).
  2:{ rewrite drop_drop. destruct (decide (max ≤ length data - o)%nat).
      - unfold size. by rewrite Nat.min_r by lia.
      - rewrite !drop_ge; [done|lia..]. }
  rewrite (proj2 (Nat.eqb_neq (o + size) 0)) by lia.
  destruct (Nat.leb_spec (length data) (o + size)) as [He|He].
  - rewrite (drop_ge (drop o data)) by (rewrite length_drop; lia). by destruct fuel.
  - destruct (drop max (drop o data)) as [|y r'] eqn:Ed'.
    { apply (f_equal length) in Ed'. rewrite !length_drop in Ed'. cbn in Ed'. lia. }
    destruct fuel as [|fuel]; [lia|]. cbn [chunks wrap]. by destruct (chunks _ _ _).
Qed.

Lemma wrap_length hd first cs : length (wrap hd first cs) = length cs.
Proof.
  revert first. induction cs as [|c [|c' cs] IH]; intros first; [done..|].
  cbn [wrap length]. f_equal. apply (IH false).
Qed.

Lemma wrap_Forall (P : list Z → Prop) hd first cs :
  (∀ f l c, c ∈ cs → P (hd f l ++ c)) → Forall P (wrap hd first cs).
Proof.
  revert first. induction cs as [|c [|c' cs] IH]; intros first Hc; cbn [wrap].
  - constructor.
  - constructor; [|constructor]. apply Hc. by left.
  - constructor; [apply Hc; by left|]. apply IH. intros f l x Hx. apply Hc. by right.
Qed.

(** ** H.264 payloads *)

Definition h264_split (mtu : nat) (nal : list Z) : list (list Z) :=
  match nal with
  | [] => []
  | h :: body =>
      if (length body <? mtu)%nat then [nal]
      else wrap (fua_header (Z.land h 0x1F) (Z.land h 0x60)) true (chunks (length body) (mtu - 2) body)
  end.

Lemma chunks_fuel {A} fuel1 fuel2 n (l : list A) :
  (0 < n)%nat → (length l ≤ fuel1)%nat → (length l ≤ fuel2)%nat → chunks fuel1 n l = chunks fuel2 n l.
Proof.
  intros Hn. revert fuel2 l. induction fuel1 as [|fuel1 IH]; intros [|fuel2] [|x l] H1' H2'; cbn [length] in *; try done; try lia.
  cbn [chunks]. f_equal. apply IH; rewrite length_drop; cbn [length]; lia.
Qed.

Lemma h264_payload_split fuel mtu nal :
  (3 ≤ mtu)%nat → (length nal ≤ fuel)%nat → H264Payloader_payload fuel mtu nal = Ok (h264_split mtu nal).
Proof.
  intros Hm Hf. unfold H264Payloader_payload, h264_split. destruct nal as [|h body]; [done|].
  cbn [length Nat.eqb]. run. rewrite slice_ok by (cbn; lia). run.
  cbn [drop length]. rewrite Nat.sub_succ, Nat.sub_0_r, drop_0, take_ge by lia.
  change (idx (h :: body) 0) with (@Ok running Z h). run.
  destruct (Nat.ltb_spec (length body) mtu); [done|]. rewrite h264_loop_frag.
  replace ((mtu - 2) `max` 1)%nat with (mtu - 2)%nat by lia. cbn in Hf.
  rewrite frag_loop_chunks by lia. rewrite drop_0. do 2 f_equal. apply chunks_fuel; lia.
Qed.

Lemma h264_split_small mtu nal : (3 ≤ mtu)%nat → Forall (fun p => (length p ≤ mtu)%nat) (h264_split mtu nal).
Proof.
  intros Hm. unfold h264_split. destruct nal as [|h body]; [constructor|].
  destruct (Nat.ltb_spec (length body) mtu); [constructor; [cbn; lia|constructor]|].
  apply wrap_Forall. intros f l c Hc. cbn.
  pose proof (chunks_small (length body) (mtu - 2) body) as Hs. rewrite Forall_forall in Hs.
  specialize (Hs c Hc). cbn in Hs. lia.
Qed.

(** ** Draining a packetizer *)

Section drain.
Context {E P : Type} `{!Payloader P} (fuel : nat).

(** Samples are taken until the source has none. *)
Fixpoint drain (n : nat) (p : Packetizer (E := E) (P := P)) : res running (list MediaSample) :=
  match n with
  | O => Err Running
  | S n =>
      '(r, p) ← next_sample fuel p;
      match r with
      | Ready s => rest ← drain n p; Ok (s :: rest)
      | Failed _ | Waiting => Ok []
      end
  end.

(** [split] describes the payloader; the payloads it makes of the frames: *)
Definition all_spread (split : P → list Z → list (list Z) * P) : P → list VideoFrame → list MediaSample :=
  fix go pl fs :=
    match fs with
    | [] => []
    | f :: fs => let '(ps, pl) := split pl (vf_data f) in (SampleVideo <$> spread f ps) ++ go pl fs
    end.

Context (split : P → list Z → list (list Z) * P) (m : nat) (good : list Z → Prop).
Hypothesis payload_split : ∀ pl data, good data → payload_of fuel pl m data = (Ok (split pl data).1, (split pl data).2).

Definition packetizer_of (pl : P) (pend : list MediaSample) (fs : list VideoFrame) : Packetizer (E := E) :=
  {| source := inr ∘ SampleVideo <$> fs; mtu := m; payloader := pl; pending := pend |}.

Lemma next_sample_spread fs : ∀ pl pend, Forall (good ∘ vf_data) fs →
  match pend ++ all_spread split pl fs with
  | [] => ∃ pl', next_sample fuel (packetizer_of pl pend fs) = Ok (Waiting, packetizer_of pl' [] [])
  | s :: rest => ∃ pl' pend' fs', next_sample fuel (packetizer_of pl pend fs) = Ok (Ready s, packetizer_of pl' pend' fs') ∧
      rest = pend' ++ all_spread split pl' fs' ∧ Forall (good ∘ vf_data) fs'
  end.
Proof.
  unfold next_sample. cbn [source mtu payloader pending packetizer_of].
  induction fs as [|f fs IH]; intros pl [|s pend] Hg; cbn [app all_spread].
  - by exists pl.
  - by exists pl, pend, [].
  - apply Forall_cons in Hg as [Hf Hfs]. 
    change (inr ∘ SampleVideo <$> f :: fs) with ((inr (SampleVideo f) : E + MediaSample) :: (inr ∘ SampleVideo <$> fs)).
    cbn [next_sample_go packetize_and_push mtu payloader pending Packetizer_new]. rewrite payload_split by done.
    destruct (split pl (vf_data f)) as [ps pl']. cbn [fst snd app]. run. exact (IH pl' _ Hfs).
  - exists pl, pend, (f :: fs). done.
Qed.

Lemma drain_spread n : ∀ pl pend fs, Forall (good ∘ vf_data) fs →
  (length (pend ++ all_spread split pl fs) < n)%nat →
  drain n (packetizer_of pl pend fs) = Ok (pend ++ all_spread split pl fs).
Proof.
  induction n as [|n IH]; intros pl pend fs Hg Hn; [lia|]. cbn [drain].
  pose proof (next_sample_spread fs pl pend Hg) as Hs. destruct (pend ++ all_spread split pl fs) as [|s rest].
  - destruct Hs as (pl' & ->). done.
  - destruct Hs as (pl' & pend' & fs' & -> & -> & Hg'). run. cbn in Hn. rewrite IH by (done || lia). by run.
Qed.
End drain.

(** ** From frames to packets *)

Section stream.
Context (sr default_pt : Z).

(** The packets of the samples, numbered from [seq] *)
Fixpoint send_samples (seq : Z) (l : list MediaSample) : list RtpPacket :=
  match l with
  | [] => []
  | s :: l => let '(p, seq) := into_rtp_packet s sr default_pt seq in p :: send_samples seq l
  end.

Definition packet_for (f : VideoFrame) (seq : Z) (data : list Z) (last : bool) : RtpPacket :=
  {| header := {| marker := last; payload_type := default default_pt (vf_payload_type f);
                  sequence_number := seq; timestamp := vf_rtp_timestamp f; ssrc := sr;
                  csrcs := vf_csrcs f; extension := vf_header_extension f |};
     payload := data; padding_len := 0 |}.

Fixpoint frame_packets (f : VideoFrame) (seq : Z) (ps : list (list Z)) : list RtpPacket :=
  match ps with
  | [] => []
  | [p] => [packet_for f seq p true]
  | p :: ps => packet_for f seq p false :: frame_packets f (wadd16 seq 1) ps
  end.

Lemma spread_cons f p ps :
  spread f (p :: ps) =
    f <| vf_data := p |> <| vf_is_last_packet := bool_decide (ps = []) |> :: spread f ps.
Proof.
  unfold spread. rewrite imap_cons. cbn [length]. f_equal.
  - rewrite Nat.sub_succ, Nat.sub_0_r. destruct ps; [done|]. by rewrite bool_decide_false by done.
  - apply imap_ext. intros i x Hx. apply lookup_lt_Some in Hx. unfold compose.
    rewrite Nat.sub_succ, Nat.sub_0_r.
    replace (S i =? length ps)%nat with (i =? length ps - 1)%nat; [done|].
    destruct (Nat.eqb_spec (S i) (length ps)), (Nat.eqb_spec i (length ps - 1)); done || lia.
Qed.

Lemma wadd16_add x a b : wadd16 (wadd16 x a) b = wadd16 x (a + b).
Proof. unfold wadd16, as_u16. rewrite Zplus_mod_idemp_l. f_equal. lia. Qed.

Lemma into_rtp_spread f data last seq :
  vf_sequence_number f = None →
  into_rtp_packet (SampleVideo (f <| vf_data := data |> <| vf_is_last_packet := last |>)) sr default_pt seq =
    (packet_for f seq data last, wadd16 seq 1).
Proof. intros Hn. unfold into_rtp_packet. rs. by rewrite Hn. Qed.

Lemma send_spread f seq ps rest :
  vf_sequence_number f = None → u16 seq →
  send_samples seq ((SampleVideo <$> spread f ps) ++ rest) =
    frame_packets f seq ps ++ send_samples (wadd16 seq (Z.of_nat (length ps))) rest.
Proof.
  intros Hn. revert seq. induction ps as [|p ps IH]; intros seq Hs.
  - cbn. unfold wadd16, as_u16. by rewrite Z.add_0_r, Z.mod_small by ulia.
  - rewrite spread_cons, fmap_cons. cbn [app send_samples]. rewrite into_rtp_spread by done.
    rewrite IH by (unfold wadd16, as_u16, u16; lia).
    rewrite wadd16_add. replace (1 + Z.of_nat (length ps)) with (Z.of_nat (length (p :: ps))) by (cbn [length]; lia).
    by destruct ps as [|p' ps]; cbn [frame_packets app].
Qed.

(** The elements that a path lets through *)
Fixpoint deliver {A} (mask : list bool) (l : list A) : list A :=
  match mask, l with
  | b :: mask, x :: l => if b : bool then x :: deliver mask l else deliver mask l
  | _, _ => []
  end.

Lemma deliver_app {A} m1 m2 (l1 l2 : list A) :
  length m1 = length l1 → deliver (m1 ++ m2) (l1 ++ l2) = deliver m1 l1 ++ deliver m2 l2.
Proof.
  revert l1. induction m1 as [|b m1 IH]; intros [|x l1] Hl; try done. cbn in *. rewrite IH by lia. by destruct b.
Qed.

Lemma frame_packets_length f seq ps : length (frame_packets f seq ps) = length ps.
Proof.
  revert seq. induction ps as [|p [|p' ps] IH]; intros seq; [done..|]. cbn [frame_packets length] in *. by rewrite IH.
Qed.

Lemma frame_packets_Forall (Q : list Z → Prop) f seq ps :
  Forall Q ps → Forall (fun p => Q (payload p)) (frame_packets f seq ps).
Proof.
  intros Hp. revert seq. induction Hp as [|p [|p' ps] Hp0 Hp IH]; intros seq; cbn [frame_packets];
    [constructor|by repeat constructor|]. constructor; [done|]. apply IH.
Qed.

(** Frames cut by [split], into [count] packets *)
Section path.
Context {P : Type} (split : P → list Z → list (list Z) * P) (count : list Z → nat).
Hypothesis split_count : ∀ pl data, length (split pl data).1 = count data.

(** The packets of the frames, numbered from [n], that arrive *)
Fixpoint received (n : Z) (pl : P) (fs : list VideoFrame) (masks : list (list bool)) : list RtpPacket :=
  match fs, masks with
  | f :: fs, mask :: masks =>
      let '(ps, pl) := split pl (vf_data f) in
      deliver mask (frame_packets f (as_u16 n) ps) ++ received (n + Z.of_nat (length mask)) pl fs masks
  | _, _ => []
  end.

Definition masks_for (fs : list VideoFrame) (masks : list (list bool)) : Prop :=
  Forall2 (fun f mask => length mask = count (vf_data f)) fs masks.

Lemma all_spread_length pl fs masks :
  masks_for fs masks → length (all_spread split pl fs) = length (concat masks).
Proof.
  intros Hm. revert pl. induction Hm as [|f mask fs masks Hl _ IH]; intros pl; [done|]. cbn [all_spread concat].
  specialize (split_count pl (vf_data f)). destruct (split pl (vf_data f)) as [ps pl'].
  rewrite !length_app, IH, length_fmap. unfold spread. rewrite length_imap. cbn in split_count. lia.
Qed.

Lemma deliver_received fs : ∀ masks n pl,
  Forall (fun f => vf_sequence_number f = None) fs → masks_for fs masks →
  deliver (concat masks) (send_samples (as_u16 n) (all_spread split pl fs)) = received n pl fs masks.
Proof.
  induction fs as [|f fs IH]; intros masks n pl Hn Hl; inversion Hl as [|? mask ? masks' Hl1 Hl2]; subst; [done|].
  apply Forall_cons in Hn as [Hf Hfs]. cbn [all_spread concat received].
  pose proof (split_count pl (vf_data f)) as Hc. destruct (split pl (vf_data f)) as [ps pl']. cbn in Hc.
  rewrite send_spread by (done || (unfold as_u16; ulia)).
  rewrite deliver_app by (rewrite frame_packets_length; congruence). f_equal.
  replace (wadd16 (as_u16 n) _) with (as_u16 (n + Z.of_nat (length mask))); [by apply IH|].
  unfold wadd16, as_u16. rewrite Zplus_mod_idemp_l. do 3 f_equal. congruence.
Qed.

Lemma send_small m fs : ∀ pl seq,
  (∀ pl data, Forall (fun p => (length p ≤ m)%nat) (split pl data).1) →
  u16 seq → Forall (fun f => vf_sequence_number f = None) fs →
  Forall (fun p => (length (payload p) ≤ m)%nat) (send_samples seq (all_spread split pl fs)).
Proof.
  induction fs as [|f fs IH]; intros pl seq Hm Hs Hn; [constructor|]. apply Forall_cons in Hn as [Hf Hfs].
  cbn [all_spread]. pose proof (Hm pl (vf_data f)) as Hp. destruct (split pl (vf_data f)) as [ps pl'].
  rewrite send_spread by done. apply Forall_app. split; [|apply IH; try done; unfold wadd16, as_u16; ulia].
  by apply (frame_packets_Forall (fun p => (length p ≤ m)%nat)).
Qed.
End path.

(** ** H.264 over a lossy path *)

Context (clock_rate : Z) (addr : SocketAddr).

Fixpoint h264_push_all (d : H264Depacketizer) (pkts : list RtpPacket) : Pushed H264Depacketizer :=
  match pkts with
  | [] => Ok (d, [])
  | p :: pkts =>
      '(d, out1) ← H264Depacketizer_push d p clock_rate addr KindVideo;
      '(d, out2) ← h264_push_all d pkts;
      Ok (d, out1 ++ out2)
  end.

(** A NAL unit the depacketizer can tell from an aggregate or a fragment *)
Definition wf_nal (nal : list Z) : Prop :=
  match nal with
  | [] => False
  | h :: _ => 0 ≤ h < 128 ∧ Z.land h 0x1F ≠ 24 ∧ Z.land h 0x1F ≠ 28
  end.

Lemma fua_header_bits h first last :
  0 ≤ h < 128 →
  let i := Z.lor (Z.land h 0x60) H264_FU_A_INDICATOR in
  ∃ u, fua_header (Z.land h 0x1F) (Z.land h 0x60) first last = [i; u] ∧
    Z.land i 0x1F = 28 ∧ Z.land i 0x60 = Z.land h 0x60 ∧ has_bits u 0x80 = first ∧
    has_bits u 0x40 = last ∧ Z.land u 0x1F = Z.land h 0x1F ∧ Z.lor (Z.land h 0x60) (Z.land h 0x1F) = h.
Proof.
  intros Hh i. eexists. split; [reflexivity|]. unfold i. clear i.
  set (chk := fun h first last => 
    let i := Z.lor (Z.land h 0x60) H264_FU_A_INDICATOR in
    let u := Z.land h 0x1F in
    let u := if first : bool then Z.lor u H264_FU_A_START else u in
    let u := if last : bool then Z.lor u H264_FU_A_END else u in
    (128 <=? h) || ((Z.land i 0x1F =? 28) && (Z.land i 0x60 =? Z.land h 0x60) && eqb (has_bits u 0x80) first &&
      eqb (has_bits u 0x40) last && (Z.land u 0x1F =? Z.land h 0x1F) &&
      (Z.lor (Z.land h 0x60) (Z.land h 0x1F) =? h))).
  assert (chk h first last = true) as Hc.
  { destruct first, last; (byte_check h; [vm_compute; reflexivity|ulia]). }
  unfold chk in Hc. rewrite (proj2 (Z.leb_gt _ _)) in Hc by lia. cbn [orb] in Hc.
  rewrite !andb_true_iff, !Z.eqb_eq, !eqb_true_iff in Hc. tauto.
Qed.

Lemma push_fragment d f seq h first last c m :
  0 ≤ h < 128 →
  H264Depacketizer_push d (packet_for f seq (fua_header (Z.land h 0x1F) (Z.land h 0x60) first last ++ c) m)
    clock_rate addr KindVideo =
  let pkt := packet_for f seq (fua_header (Z.land h 0x1F) (Z.land h 0x60) first last ++ c) m in
  if first then
    Ok (d <| fua_buffer := h :: c |> <| current_timestamp := vf_rtp_timestamp f |> <| last_seq := Some seq |>, [])
  else Ok (fua_continue d addr pkt last c).
Proof.
  intros Hh. destruct (fua_header_bits h first last Hh) as (u & -> & E1 & E2 & E3 & E4 & E5 & E6).
  unfold H264Depacketizer_push. cbn [payload packet_for app length Nat.eqb Nat.ltb Nat.leb]. unfold idx. cbn [lookup list_lookup].
  run. rewrite E1. cbn [Z.eqb Pos.eqb]. rewrite E3, E4, E5. rewrite slice_ok by (cbn; lia).
  cbn [length drop Nat.sub]. rewrite drop_0, Nat.sub_0_r, take_ge by lia. run. destruct first; [|done].
  unfold fua_start. rewrite E2, E6. done.
Qed.

Lemma push_single d f seq nal m :
  wf_nal nal →
  H264Depacketizer_push d (packet_for f seq nal m) clock_rate addr KindVideo =
    Ok (d, [create_video_sample addr nal (vf_rtp_timestamp f) m (packet_for f seq nal m)]).
Proof.
  destruct nal as [|h body]; [done|]. intros (_ & H24 & H28). unfold H264Depacketizer_push.
  cbn [payload packet_for length Nat.eqb]. unfold idx. cbn [lookup list_lookup]. run.
  by rewrite (proj2 (Z.eqb_neq _ _) H24), (proj2 (Z.eqb_neq _ _) H28).
Qed.

(** The depacketizer waits for a number that has passed: one of the last [K]
    before [n].  No packet among the next [65536 - K] has it. *)
Definition stale (K n : Z) (d : H264Depacketizer) : Prop :=
  ∀ x, last_seq d = Some x → ∃ k, 1 ≤ k ≤ K ∧ wadd16 x 1 = as_u16 (n - k).

Lemma stale_None K n d : last_seq d = None → stale K n d.
Proof. intros E x. by rewrite E. Qed.

Lemma stale_later K n d j : 0 ≤ j → stale K n d → stale (K + j) (n + j) d.
Proof.
  intros Hj Hs x Hx. destruct (Hs x Hx) as (k & ? & E). exists (k + j). split; [lia|].
  rewrite E. f_equal. lia.
Qed.

Lemma stale_weaken K n K' d : stale K n d → K ≤ K' → stale K' n d.
Proof. intros Hs ? x Hx. destruct (Hs x Hx) as (k & ? & E). exists k. split; [lia|done]. Qed.

Lemma stale_mismatch K n d x :
  stale K n d → last_seq d = Some x → K < 65536 → (as_u16 n =? wadd16 x 1) = false.
Proof.
  intros Hs Hx HK. destruct (Hs x Hx) as (k & ? & E). rewrite E. apply Z.eqb_neq. unfold as_u16. intros E'.
  assert ((n - (n - k)) mod 65536 = 0) as Hk by (rewrite Zminus_mod, E', Z.sub_diag; done).
  replace (n - (n - k)) with k in Hk by lia. rewrite Z.mod_small in Hk; lia.
Qed.

Lemma as_u16_next n : wadd16 (as_u16 n) 1 = as_u16 (n + 1).
Proof. unfold wadd16, as_u16. by rewrite Zplus_mod_idemp_l. Qed.

Lemma frame_packets_cons f n p ps :
  ∃ m, frame_packets f (as_u16 n) (p :: ps) = packet_for f (as_u16 n) p m :: frame_packets f (as_u16 (n + 1)) ps ∧
    (m = true ↔ ps = []).
Proof.
  destruct ps as [|p' ps]; [by exists true|]. exists false. split; [|done]. cbn [frame_packets]. by rewrite as_u16_next.
Qed.

Lemma wrap_false_cons hd c cs :
  wrap hd false (c :: cs) = (hd false (bool_decide (cs = [])) ++ c) :: wrap hd false cs.
Proof. destruct cs; [done|]. by rewrite bool_decide_false by done. Qed.

Lemma wrap_true_cons hd c cs :
  wrap hd true (c :: cs) = (hd true (bool_decide (cs = [])) ++ c) :: wrap hd false cs.
Proof. destruct cs; [done|]. by rewrite bool_decide_false by done. Qed.

Section unit.
Context (f : VideoFrame) (h : Z) (Hh : 0 ≤ h < 128).
Abbreviation hd := (fua_header (Z.land h 0x1F) (Z.land h 0x60)).

(** Out of step, fragments are thrown away. *)
Lemma fragments_dropped cs : ∀ mask d K n,
  stale K n d → K + Z.of_nat (length cs) ≤ 65536 → length mask = length cs →
  ∃ d', h264_push_all d (deliver mask (frame_packets f (as_u16 n) (wrap hd false cs))) = Ok (d', []) ∧
    stale (K + Z.of_nat (length cs)) (n + Z.of_nat (length cs)) d'.
Proof.
  induction cs as [|c cs IH]; intros [|b mask] d K n Hs HK Hm; try done.
  { exists d. cbn. by rewrite !Z.add_0_r. }
  cbn [length] in *. rewrite wrap_false_cons.
  destruct (frame_packets_cons f n (hd false (bool_decide (cs = [])) ++ c) (wrap hd false cs)) as (m & -> & _).
  replace (Z.of_nat (S (length cs))) with (1 + Z.of_nat (length cs)) by lia.
  rewrite !Z.add_assoc. cbn [deliver]. destruct b.
  - cbn [h264_push_all]. rewrite push_fragment by done. run. cbn zeta. unfold fua_continue.
    destruct (last_seq d) as [x|] eqn:Hx.
    + cbn [packet_for header sequence_number]. rewrite (stale_mismatch K n d x) by (done || lia). run. cbn [negb].
      destruct (IH mask (fua_lost d) (K + 1) (n + 1)) as (d' & E & ?); [by apply stale_None|lia|lia|].
      exists d'. by rewrite E.
    + destruct (IH mask d (K + 1) (n + 1)) as (d' & E & ?); [by apply stale_None|lia|lia|].
      exists d'. run. by rewrite E.
  - apply IH; [apply stale_later; [lia|done]|lia|lia].
Qed.

(** In step, they are collected until the last one. *)
Lemma fragments_collected cs : ∀ mask d b n,
  last_seq d = Some (as_u16 (n - 1)) → current_timestamp d = vf_rtp_timestamp f → fua_buffer d = b →
  cs ≠ [] → Z.of_nat (length cs) ≤ 65536 → length mask = length cs →
  if forallb id mask then
    ∃ d' pkt, h264_push_all d (deliver mask (frame_packets f (as_u16 n) (wrap hd false cs))) =
      Ok (d', [create_video_sample addr (b ++ concat cs) (vf_rtp_timestamp f) true pkt]) ∧ last_seq d' = None
  else ∃ d', h264_push_all d (deliver mask (frame_packets f (as_u16 n) (wrap hd false cs))) = Ok (d', []) ∧
    stale (Z.of_nat (length cs)) (n + Z.of_nat (length cs)) d'.
Proof.
  induction cs as [|c cs IH]; intros [|bit mask] d b n Hl Ht Hb Hne HK Hm; try done.
  cbn [length forallb] in *. rewrite wrap_false_cons.
  destruct (frame_packets_cons f n (hd false (bool_decide (cs = [])) ++ c) (wrap hd false cs)) as (m & -> & Hmk).
  cbn [deliver]. unfold id at 1. destruct bit; cbn [andb].
  2:{ destruct (fragments_dropped cs mask d 1 (n + 1)) as (d' & E & Hs); [|lia..|].
      { intros x Hx. exists 1. split; [lia|]. rewrite Hl in Hx. injection Hx as <-.
        rewrite as_u16_next. f_equal. lia. }
      exists d'. split; [done|]. replace (Z.of_nat (S (length cs))) with (1 + Z.of_nat (length cs)) by lia.
      by rewrite Z.add_assoc. }
  cbn [h264_push_all]. rewrite push_fragment by done. cbn zeta. unfold fua_continue. rewrite Hl, Ht. subst b.
  cbn [packet_for header sequence_number timestamp marker].
  rewrite as_u16_next, (Z.sub_add 1 n), !Z.eqb_refl. cbn [negb].
  destruct cs as [|c' cs].
  - destruct mask; [|done]. cbn. rewrite (proj2 Hmk eq_refl), app_nil_r. run. rs. rewrite Ht.
    eexists _, _. split; [reflexivity|done].
  - rewrite bool_decide_false by done. run.
    set (d1 := set last_seq _ _).
    specialize (IH mask d1 (fua_buffer d ++ c) (n + 1)). rewrite Z.add_simpl_r in IH.
    destruct (forallb id mask).
    + destruct IH as (d' & pkt & E & ?); [unfold d1; rs; done || congruence..|cbn in *; lia|cbn in *; lia|].
      exists d', pkt. rewrite E. run. cbn [concat app]. by rewrite <- !app_assoc.
    + destruct IH as (d' & E & Hs); [unfold d1; rs; done || congruence..|cbn in *; lia|cbn in *; lia|].
      exists d'. rewrite E. run. split; [done|]. apply (stale_weaken _ _ (Z.of_nat (S (length (c' :: cs))))) in Hs; [|cbn; lia].
      revert Hs. by replace (n + 1 + _) with (n + Z.of_nat (S (length (c' :: cs)))) by (cbn; lia).
Qed.

(** A fragmented unit, whatever was received before *)
Lemma fragments_pushed c cs mask d K n :
  stale K n d → cs ≠ [] → K + Z.of_nat (length (c :: cs)) ≤ 65536 → 0 ≤ K → length mask = length (c :: cs) →
  ∃ d' pkt, h264_push_all d (deliver mask (frame_packets f (as_u16 n) (wrap hd true (c :: cs)))) =
    Ok (d', if forallb id mask
            then [create_video_sample addr (h :: concat (c :: cs)) (vf_rtp_timestamp f) true pkt] else []) ∧
    stale (K + Z.of_nat (length (c :: cs))) (n + Z.of_nat (length (c :: cs))) d'.
Proof.
  intros Hs Hne HK HK0 Hm. destruct mask as [|bit mask]; [done|]. rewrite wrap_true_cons, bool_decide_false by done.
  destruct (frame_packets_cons f n (hd true false ++ c) (wrap hd false cs)) as (m & -> & _).
  cbn [length deliver forallb] in *. unfold id at 1.
  replace (Z.of_nat (S (length cs))) with (1 + Z.of_nat (length cs)) in * by lia. rewrite !Z.add_assoc.
  destruct bit; cbn [andb].
  - cbn [h264_push_all]. rewrite push_fragment by done. cbn zeta. run.
    set (d1 := set last_seq _ _).
    pose proof (fragments_collected cs mask d1 (h :: c) (n + 1)) as Hc.
    rewrite Z.add_simpl_r in Hc.
    destruct (forallb id mask).
    + destruct Hc as (d' & pkt & E & Hl); [unfold d1; rs; done..|done|lia|lia|]. exists d', pkt. rewrite E. run.
      split; [done|by apply stale_None].
    + destruct Hc as (d' & E & Hs'); [unfold d1; rs; done..|done|lia|lia|]. exists d', (packet_for f 0 [] false).
      rewrite E. run. split; [done|]. eapply stale_weaken; [exact Hs'|lia].
  - destruct (fragments_dropped cs mask d (K + 1) (n + 1)) as (d' & E & Hs'); [by apply stale_later|lia..|].
    exists d', (packet_for f 0 [] false). by rewrite E.
Qed.

End unit.

Lemma chunks_concat_length {A} n (l : list A) :
  (0 < n)%nat → (n < length l)%nat → ∃ c c' cs, chunks (length l) n l = c :: c' :: cs.
Proof.
  intros Hn Hl. destruct l as [|x l]; [cbn in Hl; lia|]. cbn [length chunks].
  destruct (drop n (x :: l)) as [|y r] eqn:E.
  { apply (f_equal length) in E. rewrite length_drop in E. cbn in *. lia. }
  destruct l as [|x' l]; [cbn in *; lia|]. cbn [length chunks]. eauto.
Qed.

(** A NAL unit cut by the payloader, over a path that loses packets *)
Lemma unit_pushed f mtu mask d K n :
  (3 ≤ mtu)%nat → wf_nal (vf_data f) → stale K n d → 0 ≤ K →
  length mask = length (h264_split mtu (vf_data f)) → K + Z.of_nat (length mask) ≤ 65536 →
  ∃ d' pkt, h264_push_all d (deliver mask (frame_packets f (as_u16 n) (h264_split mtu (vf_data f)))) =
    Ok (d', if forallb id mask
            then [create_video_sample addr (vf_data f) (vf_rtp_timestamp f) true pkt] else []) ∧
    stale (K + Z.of_nat (length mask)) (n + Z.of_nat (length mask)) d'.
Proof.
  intros Hmtu Hwf Hs HK0 Hm HK. destruct (vf_data f) as [|h body] eqn:Ed; [done|]. unfold h264_split in *.
  destruct (Nat.ltb_spec (length body) mtu).
  - destruct mask as [|b [|]]; try done. cbn [frame_packets deliver forallb length] in *. unfold id.
    destruct b; cbn [h264_push_all andb].
    + rewrite push_single by done. run. eexists _, _. split; [reflexivity|]. by apply stale_later.
    + exists d, (packet_for f 0 [] false). split; [done|by apply stale_later].
  - destruct (chunks_concat_length (mtu - 2) body) as (c & c' & cs & Ec); [lia..|].
    pose proof (concat_chunks (length body) (mtu - 2) body) as Hcc. rewrite Ec in Hm, Hcc |- *.
    rewrite <- Hcc by lia. rewrite wrap_length in Hm. rewrite Hm in HK |- *.
    apply fragments_pushed; try done. by destruct Hwf.
Qed.

(** ** Frames that bring a number

    [packetize_and_push] copies the number of the frame, as a received frame has
    one, to every fragment, and [into_rtp_packet] keeps it. *)
Lemma into_rtp_preset f data last seq s :
  vf_sequence_number f = Some s →
  into_rtp_packet (SampleVideo (f <| vf_data := data |> <| vf_is_last_packet := last |>)) sr default_pt seq =
    (packet_for f s data last, seq).
Proof. intros Hn. unfold into_rtp_packet. rs. by rewrite Hn. Qed.

Lemma preset_dropped f s seq h cs : ∀ d,
  vf_sequence_number f = Some s → 0 ≤ h < 128 → u16 s → last_seq d = None ∨ last_seq d = Some s →
  ∃ d', h264_push_all d (send_samples seq (SampleVideo <$> spread f (wrap (fua_header (Z.land h 0x1F) (Z.land h 0x60)) false cs))) = Ok (d', []).
Proof.
  intros d Hf Hh Hs. revert d. induction cs as [|c cs IH]; intros d Hd; [by exists d|].
  rewrite wrap_false_cons, spread_cons, fmap_cons. cbn [send_samples]. rewrite (into_rtp_preset _ _ _ _ s) by done.
  cbn [h264_push_all]. rewrite push_fragment by done. cbn zeta. unfold fua_continue. cbn [packet_for header sequence_number].
  destruct Hd as [El|El]; rewrite El.
  - destruct (IH d) as (d' & E); [by left|]. exists d'. run. by rewrite E.
  - rewrite (proj2 (Z.eqb_neq s (wadd16 s 1))) by (unfold wadd16, as_u16; mlia). cbn [negb].
    destruct (IH (fua_lost d)) as (d' & E); [by left|]. exists d'. run. by rewrite E.
Qed.

(** Such a frame is lost when it needs more than one packet, also when all of
    them arrive in order. *)
Lemma h264_preset_lost f s m seq d :
  (3 ≤ m)%nat → wf_nal (vf_data f) → (m < length (vf_data f))%nat → vf_sequence_number f = Some s → u16 s →
  ∃ d', h264_push_all d (send_samples seq (SampleVideo <$> spread f (h264_split m (vf_data f)))) = Ok (d', []).
Proof.
  intros Hm Hw Hl Hf Hs. destruct (vf_data f) as [|h body] eqn:Ed; [done|]. destruct Hw as [Hh _]. cbn [length] in Hl. unfold h264_split.
  rewrite (proj2 (Nat.ltb_ge _ _)) by lia. destruct (chunks (length body) (m - 2) body) as [|c cs]; [by exists d|].
  rewrite wrap_true_cons, spread_cons, fmap_cons. cbn [send_samples]. rewrite (into_rtp_preset _ _ _ _ s) by done.
  cbn [h264_push_all]. rewrite push_fragment by done. run. set (d1 := set last_seq _ _).
  destruct (preset_dropped f s seq h cs d1) as (d' & E); [done..|by right|]. exists d'. by rewrite E.
Qed.

(** What a receiver sees of a sample *)
Definition sample_summary (s : MediaSample) : list Z * Z * bool :=
  match s with
  | SampleVideo f => (vf_data f, vf_rtp_timestamp f, vf_is_last_packet f)
  | SampleAudio _ => ([], 0, false)
  end.

Lemma h264_push_all_app d l1 l2 :
  h264_push_all d (l1 ++ l2) =
    ('(d, out1) ← h264_push_all d l1; '(d, out2) ← h264_push_all d l2; Ok (d, out1 ++ out2)).
Proof.
  revert d. induction l1 as [|p l1 IH]; intros d; cbn [app h264_push_all].
  - run. destruct (h264_push_all d l2) as [[]| |]; done.
  - destruct (H264Depacketizer_push d p clock_rate addr KindVideo) as [[d1 out1]| |]; [run|done..].
    rewrite IH. destruct (h264_push_all d1 l1) as [[d2 out2]| |]; [run|done..].
    destruct (h264_push_all d2 l2) as [[d3 out3]| |]; [run|done..]. by rewrite app_assoc.
Qed.

(** The units all of whose packets arrive *)
Fixpoint intact (fs : list VideoFrame) (masks : list (list bool)) : list VideoFrame :=
  match fs, masks with
  | f :: fs, mask :: masks => if forallb id mask then f :: intact fs masks else intact fs masks
  | _, _ => []
  end.
Definition frame_summary (f : VideoFrame) : list Z * Z * bool := (vf_data f, vf_rtp_timestamp f, true).

Definition split_h264 (m : nat) (pl : H264Payloader) (data : list Z) : list (list Z) * H264Payloader :=
  (h264_split m data, pl).
Abbreviation h264_masks m := (masks_for (fun data => length (h264_split m data))).

(** Units one after the other, the masks saying which of their packets arrive *)
Lemma units_pushed mtu pl fs : ∀ masks d K n,
  (3 ≤ mtu)%nat → Forall (fun f => wf_nal (vf_data f)) fs → stale K n d → 0 ≤ K →
  h264_masks mtu fs masks →
  K + Z.of_nat (length (concat masks)) ≤ 65536 →
  ∃ d' out, h264_push_all d (received (split_h264 mtu) n pl fs masks) = Ok (d', out) ∧
    (sample_summary <$> out) = frame_summary <$> intact fs masks.
Proof.
  induction fs as [|f fs IH]; intros masks d K n Hm Hwf Hs HK0 Hl HK.
  { inversion Hl. exists d, []. done. }
  apply Forall_cons in Hwf as [Hf Hfs]. inversion Hl as [|? mask ? masks' Hl1 Hl2]; subst. clear Hl.
  cbn [concat] in HK. rewrite length_app, Nat2Z.inj_add in HK.
  cbn [received intact split_h264].
  destruct (unit_pushed f mtu mask d K n) as (d1 & pkt & E1 & Hs1); [done..|lia|].
  destruct (IH masks' d1 (K + Z.of_nat (length mask)) (n + Z.of_nat (length mask))) as (d2 & out & E2 & Ho);
    [done..|lia|done|lia|].
  eexists d2, _. rewrite h264_push_all_app, E1. run. rewrite E2. run. split; [reflexivity|].
  rewrite fmap_app, Ho. by destruct (forallb id mask).
Qed.

Lemma send_samples_small m fs pl seq :
  (3 ≤ m)%nat → u16 seq → Forall (fun f => vf_sequence_number f = None) fs →
  Forall (fun p => (length (payload p) ≤ m)%nat) (send_samples seq (all_spread (split_h264 m) pl fs)).
Proof. intros Hm. apply send_small. intros. by apply h264_split_small. Qed.

(** C15: H.264 units (first byte below 128, types other than 24 and 28) in
    frames without a sequence number of their own, from the packetizer (mtu at
    least 3), over a path that loses any of up to 65536 packets: the packets
    have at most mtu bytes of payload, and the depacketizer emits exactly the
    units all of whose packets arrive, unchanged, in order and with their time
    stamps. *)
Theorem h264_delivery {E} fuel n m fs masks seq :
  (3 ≤ m)%nat → u16 seq →
  Forall (fun f => wf_nal (vf_data f) ∧ vf_sequence_number f = None ∧ (length (vf_data f) ≤ fuel)%nat) fs →
  h264_masks m fs masks →
  (length (concat masks) < n)%nat → Z.of_nat (length (concat masks)) ≤ 65536 →
  ∃ samples d out,
    drain fuel n (Packetizer_new (E := E) (inr ∘ SampleVideo <$> fs) m H264) = Ok samples ∧
    Forall (fun p => (length (payload p) ≤ m)%nat) (send_samples seq samples) ∧
    h264_push_all H264Depacketizer_new (deliver (concat masks) (send_samples seq samples)) = Ok (d, out) ∧
    (sample_summary <$> out) = frame_summary <$> intact fs masks.
Proof.
  intros Hm Hs Hf Hl Hn HK.
  assert (Forall (fun f => vf_sequence_number f = None) fs) as Hnone by (eapply Forall_impl; [exact Hf|naive_solver]).
  destruct (units_pushed m H264 fs masks H264Depacketizer_new 0 seq) as (d & out & E1 & E2);
    [done|eapply Forall_impl; [exact Hf|naive_solver]|by apply stale_None|done..|].
  exists (all_spread (split_h264 m) H264 fs), d, out. split_and!.
  - apply (drain_spread fuel (split_h264 m) m (fun data => (length data ≤ fuel)%nat)) with (pend := []).
    + intros pl data Hd. unfold payload_of, h264_payloader. by rewrite h264_payload_split.
    + eapply Forall_impl; [exact Hf|]. naive_solver.
    + cbn [app]. by rewrite (all_spread_length (split_h264 m) (fun data => length (h264_split m data)) (fun _ _ => eq_refl) _ fs masks).
  - by apply send_samples_small.
  - replace seq with (as_u16 seq) by (unfold as_u16; rewrite Z.mod_small; [done|ulia]). by rewrite (deliver_received _ (fun data => length (h264_split m data))).
  - done.
Qed.

End stream.
End facts.

(** ** A stream of three units

    The first is cut in four, the second in three, the third is sent whole;
    one packet of the second is lost. *)
Definition nal_frame (ts : Z) (data : list Z) : VideoFrame :=
  VideoFrame_default <| vf_data := data |> <| vf_rtp_timestamp := ts |>.
Definition sample_nals : list VideoFrame :=
  [nal_frame 3000 [0x65; 1; 2; 3; 4; 5; 6; 7]; nal_frame 6000 [0x41; 1; 2; 3; 4; 5; 6]; nal_frame 9000 [0x41; 9]].
Definition sample_loss : list (list bool) := [[true; true; true; true]; [true; false; true]; [true]].
Definition no_addr : SocketAddr := AddrV4 [0; 0; 0; 0] 0.

Lemma h264_delivery_witness :
  ∃ samples d out,
    drain 10 9 (Packetizer_new (E := Empty_set) (inr ∘ SampleVideo <$> sample_nals) 4 H264) = Ok samples ∧
    h264_push_all (H := vec_crate) 90000 no_addr H264Depacketizer_new
      (deliver (concat sample_loss) (send_samples 7 96 65533 samples)) = Ok (d, out) ∧
    (sample_summary <$> out) = [([0x65; 1; 2; 3; 4; 5; 6; 7], 3000, true); ([0x41; 9], 9000, true)].
Proof.
  destruct (h264_delivery (H := vec_crate) 7 96 90000 no_addr (E := Empty_set) 10 9 4 sample_nals sample_loss
    65533) as (samples & d & out & H1 & _ & H2 & H3).
  - lia.
  - ulia.
  - repeat constructor; cbn; lia || done.
  - repeat constructor.
  - cbn. lia.
  - cbn. lia.
  - exists samples, d, out. split_and!; [exact H1|exact H2|exact H3].
Defined.
