(* ===== verification/Vp9Facts.v ===== *)
(** * VP9 over a path that loses packets

    What the VP9 depacketizer makes of the packets of the VP9 payloader, for
    any loss: a frame whose first and last packets arrive is emitted, without
    the chunks that were lost between them. *)
From S2P Require Import Prelude Core BytesCrate RecordSet Rtp Frame Packetizer Depacketizer PacketizerFacts.

Section facts.
Context `{BytesCrate, !BytesLaws}.
Context (sr default_pt clock_rate : Z) (addr : SocketAddr).
Abbreviation packet_for := (packet_for sr default_pt).
Abbreviation frame_packets := (frame_packets sr default_pt).

Fixpoint vp9_push_all (d : Vp9Depacketizer) (pkts : list RtpPacket) : Pushed Vp9Depacketizer :=
  match pkts with
  | [] => Ok (d, [])
  | p :: pkts =>
      '(d, out1) ← Vp9Depacketizer_push d p clock_rate addr KindVideo;
      '(d, out2) ← vp9_push_all d pkts;
      Ok (d, out1 ++ out2)
  end.

Lemma vp9_push_all_app d l1 l2 :
  vp9_push_all d (l1 ++ l2) =
    ('(d, out1) ← vp9_push_all d l1; '(d, out2) ← vp9_push_all d l2; Ok (d, out1 ++ out2)).
Proof.
  revert d. induction l1 as [|p l1 IH]; intros d; cbn [app vp9_push_all].
  - run. destruct (vp9_push_all d l2) as [[]| |]; done.
  - destruct (Vp9Depacketizer_push d p clock_rate addr KindVideo) as [[d1 out1]| |]; [run|done..].
    rewrite IH. destruct (vp9_push_all d1 l1) as [[d2 out2]| |]; [run|done..].
    destruct (vp9_push_all d2 l2) as [[d3 out3]| |]; [run|done..]. by rewrite app_assoc.
Qed.

(** The descriptor the payloader writes *)
Lemma vp9_header_parsed pid first last c :
  0 ≤ pid < 32768 →
  parse_vp9_descriptor (vp9_header pid first last ++ c) =
    Some {| picture_id := Some pid; inter_predicted := false; flexible := true;
            start_of_frame := first; end_of_frame := last; header_len := 3 |}.
Proof.
  intros Hp. unfold parse_vp9_descriptor, vp9_header.
  set (hi := as_u8 (Z.shiftr pid 8)). set (lo := as_u8 (Z.land pid 255)).
  assert (0 ≤ hi < 128) as Hhi. { unfold hi, as_u8. rewrite Z.shiftr_div_pow2 by lia. ulia. }
  assert (has_bits (Z.lor 0x80 hi) 0x80 = true ∧ Z.land (Z.lor 0x80 hi) 0x7f = hi) as [E1 E2].
  { clearbody hi. set (chk := fun h => (128 <=? h) || (has_bits (Z.lor 0x80 h) 0x80 && (Z.land (Z.lor 0x80 h) 0x7f =? h))).
    assert (chk hi = true) as Hc by (byte_check hi; [vm_compute; reflexivity|ulia]).
    unfold chk in Hc. rewrite (proj2 (Z.leb_gt _ _)) in Hc by lia. cbn [orb] in Hc.
    by rewrite andb_true_iff, Z.eqb_eq in Hc. }
  assert (Z.lor (Z.shiftl hi 8) lo = pid) as E3.
  { rewrite lor_bytes2 by (unfold lo, as_u8; ulia). unfold hi, lo, as_u8. change 255 with (Z.ones 8).
    rewrite Z.land_ones, Z.shiftr_div_pow2 by lia. ulia. }
  clearbody hi lo. destruct first, last; cbn; unfold vp9_picture_id; cbn [lookup list_lookup app]; cbn; rewrite E1, E2, E3; done.
Qed.

Lemma vp9_push d f seq pid first last c m :
  0 ≤ pid < 32768 →
  let pkt := packet_for f seq (vp9_header pid first last ++ c) m in
  Vp9Depacketizer_push d pkt clock_rate addr KindVideo =
  match vp9_collect d first (vf_rtp_timestamp f) c with
  | None => Ok (vp9_dropped d, [])
  | Some d =>
      if last || m then
        Ok (d <| frame_buffer := [] |> <| frame_in_progress := false |>,
            [create_video_sample addr (frame_buffer d) (vp9_timestamp d) true pkt])
      else Ok (d, [])
  end.
Proof.
  intros Hp pkt. unfold Vp9Depacketizer_push. unfold pkt at 1 2. cbn [payload PacketizerFacts.packet_for].
  rewrite vp9_header_parsed by done. cbn [header_len start_of_frame end_of_frame].
  unfold pkt at 1 2. cbn [payload PacketizerFacts.packet_for].
  rewrite (proj2 (Nat.ltb_ge _ _)) by (cbn; lia). rewrite bytes_slice_spec, decide_True by (cbn; lia).
  replace (take _ _) with c by (cbn; rewrite ?drop_0, take_ge; [done|lia]). by run.
Qed.

Definition vp9_split (m : nat) (pid : Z) (data : list Z) : list (list Z) :=
  wrap (vp9_header pid) true (chunks (length data) (m - 3) data).

Lemma vp9_payload_split fuel m pid data :
  (4 ≤ m)%nat → (length data ≤ fuel)%nat → data ≠ [] →
  Vp9Payloader_payload fuel pid m data = (Ok (vp9_split m pid data), Z.land (pid + 1) 0x7fff).
Proof.
  intros Hm Hf Hne. unfold Vp9Payloader_payload, vp9_split. destruct data as [|x data]; [done|]. cbn [length Nat.eqb].
  rewrite vp9_loop_frag. replace ((m - 3) `max` 1)%nat with (m - 3)%nat by lia.
  rewrite frag_loop_chunks by (done || lia). rewrite drop_0. do 3 f_equal. apply chunks_fuel; [lia|done..].
Qed.

(** ** A frame *)

Section frame.
Context (f : VideoFrame) (pid : Z) (Hpid : 0 ≤ pid < 32768).
Abbreviation hd := (vp9_header pid).
Abbreviation ts := (vf_rtp_timestamp f).

(** The packet sent for a chunk that is the last one or not *)
Lemma frame_packets_step n first c cs :
  frame_packets f (as_u16 n) (wrap hd first (c :: cs)) =
    packet_for f (as_u16 n) (hd first (bool_decide (cs = [])) ++ c) (bool_decide (cs = [])) ::
    frame_packets f (as_u16 (n + 1)) (wrap hd false cs).
Proof.
  destruct (frame_packets_cons sr default_pt f n (hd first (bool_decide (cs = [])) ++ c) (wrap hd false cs)) as (m & E & Hm).
  replace (wrap hd first (c :: cs)) with ((hd first (bool_decide (cs = [])) ++ c) :: wrap hd false cs)
    by (destruct first; [by rewrite wrap_true_cons|by rewrite wrap_false_cons]).
  rewrite E. do 2 f_equal. destruct cs as [|c' cs].
  - rewrite bool_decide_true by done. by apply Hm.
  - rewrite bool_decide_false by done. destruct m; [|done]. apply proj1 in Hm. specialize (Hm eq_refl).
    apply (f_equal length) in Hm. by rewrite wrap_length in Hm.
Qed.

Definition idle (d : Vp9Depacketizer) : Prop := frame_in_progress d = true → vp9_timestamp d ≠ ts.

Lemma rest_dropped cs : ∀ mask d n, idle d →
  ∃ d', vp9_push_all d (deliver mask (frame_packets f (as_u16 n) (wrap hd false cs))) = Ok (d', []) ∧
    frame_in_progress d' = frame_in_progress d ∧ vp9_timestamp d' = vp9_timestamp d.
Proof.
  induction cs as [|c cs IH]; intros [|b mask] d n Hi; try by exists d.
  rewrite frame_packets_step. cbn [deliver]. destruct b; [|by apply IH].
  cbn [vp9_push_all]. rewrite vp9_push by done. cbn zeta. unfold vp9_collect.
  replace (frame_in_progress d && negb (negb (ts =? vp9_timestamp d))) with false.
  2:{ symmetry. rewrite negb_involutive. unfold idle in Hi. destruct (frame_in_progress d); [|done].
      apply Z.eqb_neq. intros ?. by apply Hi. }
  run. destruct (IH mask (vp9_dropped d) (n + 1)) as (d' & -> & ? & ?); [done|]. by exists d'.
Qed.

Lemma rest_collected cs : ∀ mask d n,
  frame_in_progress d = true → vp9_timestamp d = ts → cs ≠ [] → length mask = length cs →
  ∃ d' pkt, vp9_push_all d (deliver mask (frame_packets f (as_u16 n) (wrap hd false cs))) =
      Ok (d', if default false (last mask)
              then [create_video_sample addr (frame_buffer d ++ concat (deliver mask cs)) ts true pkt] else []) ∧
    frame_in_progress d' = negb (default false (last mask)) ∧ vp9_timestamp d' = ts.
Proof.
  induction cs as [|c cs IH]; intros [|b mask] d n Hp Ht Hne Hm; try done.
  rewrite frame_packets_step. cbn [deliver]. destruct b.
  - cbn [vp9_push_all]. rewrite vp9_push by done. cbn zeta. unfold vp9_collect.
    rewrite Hp, Ht, Z.eqb_refl. cbn [negb andb]. destruct cs as [|c' cs].
    + destruct mask; [|done]. cbn [bool_decide orb]. rewrite bool_decide_true by done. cbn [orb]. run. rs.
      eexists _, _. cbn. rewrite Ht, app_nil_r. split_and!; [reflexivity|done|]. by rs.
    + rewrite bool_decide_false by done. cbn [orb]. run. destruct mask as [|b mask]; [done|].
      destruct (IH (b :: mask) (set frame_buffer (λ b : list Z, b ++ c) d) (n + 1)) as (d' & pkt & -> & ? & ?);
        [by rs..|done|cbn in *; lia|].
      exists d', pkt. run. rewrite last_cons_cons. rs. split_and!; try done. cbn [concat]. by rewrite <- app_assoc.
  - destruct cs as [|c' cs].
    + destruct mask; [|done]. exists d, (packet_for f 0 [] false). done.
    + destruct mask as [|b mask]; [done|]. rewrite last_cons_cons. apply IH; try done. cbn in *; lia.
Qed.

End frame.

(** What is emitted of a frame: nothing, or the chunks that arrived *)
Definition vp9_emitted (m : nat) (f : VideoFrame) (mask : list bool) : list (list Z * Z * bool) :=
  if default false (head mask) && default false (last mask)
  then [(concat (deliver mask (chunks (length (vf_data f)) (m - 3) (vf_data f))), vf_rtp_timestamp f, true)]
  else [].

Lemma vp9_frame_pushed f pid m mask d n :
  0 ≤ pid < 32768 → idle f d → vf_data f ≠ [] →
  length mask = length (chunks (length (vf_data f)) (m - 3) (vf_data f)) →
  ∃ d' out, vp9_push_all d (deliver mask (frame_packets f (as_u16 n) (vp9_split m pid (vf_data f)))) = Ok (d', out) ∧
    (sample_summary <$> out) = vp9_emitted m f mask ∧
    (frame_in_progress d' = true → vp9_timestamp d' = vf_rtp_timestamp f ∨
      frame_in_progress d = true ∧ vp9_timestamp d' = vp9_timestamp d).
Proof.
  intros Hp Hi Hne. unfold vp9_split, vp9_emitted. destruct (vf_data f) as [|x data]; [done|]. cbn [length chunks].
  set (c := take _ _). set (cs := chunks _ _ _). intros Hm. destruct mask as [|b mask]; [done|].
  rewrite (frame_packets_step f pid). cbn [deliver head default length] in *. destruct b; cbn [andb].
  - cbn [vp9_push_all]. rewrite vp9_push by done. cbn zeta. cbn [vp9_collect]. destruct cs as [|c' cs].
    + destruct mask; [|done]. rewrite bool_decide_true by done. cbn [orb]. run. eexists _, _. split; [reflexivity|].
      cbn. by rewrite app_nil_r.
    + rewrite bool_decide_false by done. cbn [orb]. run. set (d1 := set frame_in_progress _ _).
      destruct (rest_collected f pid Hp (c' :: cs) mask d1 (n + 1)) as (d' & pkt & -> & Hpr & Ht);
        [by unfold d1; rs..|done|cbn in *; lia|].
      run. eexists _, _. split; [reflexivity|]. destruct mask as [|b mask]; [done|]. rewrite last_cons_cons.
      split; [|by left]. destruct (default false (last (b :: mask))); [|done].
      cbn [fmap list_fmap sample_summary create_video_sample vf_data vf_rtp_timestamp vf_is_last_packet concat].
      unfold d1. by rs.
  - destruct (rest_dropped f pid Hp cs mask d (n + 1) Hi) as (d' & -> & Hpr & Ht).
    eexists _, _. split; [reflexivity|]. rewrite Hpr, Ht. split; [done|by right].
Qed.

Definition split_vp9 (m : nat) (pl : Vp9Payloader) (data : list Z) : list (list Z) * Vp9Payloader :=
  (vp9_split m (vp9_picture pl) data, {| vp9_picture := Z.land (vp9_picture pl + 1) 0x7fff |}).
Definition vp9_count (m : nat) (data : list Z) : nat := length (chunks (length data) (m - 3) data).

Lemma next_picture pid : 0 ≤ Z.land pid 0x7fff < 32768.
Proof. change 0x7fff with (Z.ones 15). rewrite Z.land_ones by lia. change (2 ^ 15) with 32768. lia. Qed.

Lemma vp9_frames_pushed m fs : ∀ masks d n pl,
  0 ≤ vp9_picture pl < 32768 → Forall (fun f => vf_data f ≠ []) fs →
  NoDup (vf_rtp_timestamp <$> fs) → (frame_in_progress d = true → vp9_timestamp d ∉ vf_rtp_timestamp <$> fs) →
  masks_for (vp9_count m) fs masks →
  ∃ d' out, vp9_push_all d (received sr default_pt (split_vp9 m) n pl fs masks) = Ok (d', out) ∧
    (sample_summary <$> out) = concat (zip_with (vp9_emitted m) fs masks).
Proof.
  induction fs as [|f fs IH]; intros masks d n pl Hp Hf Hnd Hi Hl; inversion Hl as [|? mask ? masks' Hl1 Hl2]; subst.
  { by exists d, []. }
  apply Forall_cons in Hf as [Hf Hfs]. rewrite fmap_cons in Hnd, Hi. apply NoDup_cons in Hnd as [Hn1 Hnd].
  cbn [received split_vp9 zip_with concat]. rewrite vp9_push_all_app.
  destruct (vp9_frame_pushed f (vp9_picture pl) m mask d n) as (d1 & o1 & -> & Ho1 & Ht1); [done| |done..|].
  { intros Hpr E. apply (Hi Hpr). rewrite E. by left. }
  run. destruct (IH masks' d1 (n + Z.of_nat (length mask)) {| vp9_picture := Z.land (vp9_picture pl + 1) 0x7fff |})
    as (d2 & o2 & -> & Ho2); [apply next_picture|done..| |done|].
  { intros Hpr. destruct (Ht1 Hpr) as [->|[Hpr' ->]]; [done|]. intros Hin. apply (Hi Hpr'). by right. }
  run. eexists _, _. split; [reflexivity|]. by rewrite fmap_app, Ho1, Ho2.
Qed.

(** C16: VP9 frames with distinct time stamps from the packetizer (mtu at least
    4) over a path that loses any packets: of each frame whose first and last
    packets arrive the depacketizer emits the chunks that arrived, joined and
    marked as complete, and nothing of the others; so all frames come out
    unchanged when nothing is lost, and with a hole when only a middle packet
    is. *)
Theorem vp9_delivery {E} fuel n m fs masks seq pl :
  (4 ≤ m)%nat → u16 seq → 0 ≤ vp9_picture pl < 32768 →
  Forall (fun f => vf_data f ≠ [] ∧ vf_sequence_number f = None ∧ (length (vf_data f) ≤ fuel)%nat) fs →
  NoDup (vf_rtp_timestamp <$> fs) → masks_for (vp9_count m) fs masks → (length (concat masks) < n)%nat →
  ∃ samples d out,
    drain fuel n (Packetizer_new (E := E) (inr ∘ SampleVideo <$> fs) m pl) = Ok samples ∧
    Forall (fun p => (length (payload p) ≤ m)%nat) (send_samples sr default_pt seq samples) ∧
    vp9_push_all Vp9Depacketizer_new (deliver (concat masks) (send_samples sr default_pt seq samples)) = Ok (d, out) ∧
    (sample_summary <$> out) = concat (zip_with (vp9_emitted m) fs masks).
Proof.
  intros Hm Hs Hp Hf Hnd Hl Hn.
  assert (Forall (fun f => vf_sequence_number f = None) fs) as Hnone by (eapply Forall_impl; [exact Hf|naive_solver]).
  assert (∀ pl data, length (split_vp9 m pl data).1 = vp9_count m data) as Hc by (intros; apply wrap_length).
  destruct (vp9_frames_pushed m fs masks Vp9Depacketizer_new seq pl) as (d & out & E1 & E2);
    [done|eapply Forall_impl; [exact Hf|naive_solver]|done..|].
  exists (all_spread (split_vp9 m) pl fs), d, out. split_and!.
  - apply (drain_spread fuel (split_vp9 m) m (fun data => data ≠ [] ∧ (length data ≤ fuel)%nat)) with (pend := []).
    + intros pl' data [Hd1 Hd2]. unfold payload_of, vp9_payloader. by rewrite vp9_payload_split.
    + eapply Forall_impl; [exact Hf|]. naive_solver.
    + cbn [app]. by rewrite (all_spread_length _ (vp9_count m) Hc _ _ masks).
  - apply send_small; [|done..]. intros pl' data. apply wrap_Forall. intros first lst c Hcs.
    pose proof (chunks_small (length data) (m - 3) data) as Hsm. rewrite Forall_forall in Hsm.
    specialize (Hsm c Hcs). cbn in *. lia.
  - replace seq with (as_u16 seq) by (unfold as_u16; rewrite Z.mod_small; [done|ulia]).
    by rewrite (deliver_received _ _ _ (vp9_count m)).
  - done.
Qed.

End facts.

(** ** Two frames of three packets

    The middle packet of the first and the last packet of the second are
    lost: the first is emitted with a hole, the second is not. *)
Definition sample_frames : list VideoFrame := [nal_frame 3000 [1; 2; 3; 4; 5]; nal_frame 6000 [6; 7; 8; 9; 10; 11]].
Definition sample_holes : list (list bool) := [[true; false; true]; [true; true; false]].

Lemma vp9_delivery_witness :
  ∃ samples d out,
    drain 10 9
      (Packetizer_new (E := Empty_set) (inr ∘ SampleVideo <$> sample_frames) 5 {| vp9_picture := 32767 |}) = Ok samples ∧
    vp9_push_all (H := vec_crate) 90000 no_addr Vp9Depacketizer_new
      (deliver (concat sample_holes) (send_samples 7 98 65533 samples)) = Ok (d, out) ∧
    (sample_summary <$> out) = [([1; 2; 5], 3000, true)].
Proof.
  destruct (vp9_delivery (H := vec_crate) (H0 := vec_laws) 7 98 90000 no_addr (E := Empty_set) 10 9 5 sample_frames
    sample_holes 65533 {| vp9_picture := 32767 |}) as (samples & d & out & H1 & _ & H2 & H3).
  - lia.
  - ulia.
  - cbn. lia.
  - repeat constructor; cbn; lia || done.
  - apply NoDup_cons. split; [|apply NoDup_singleton]. cbn. intros [=]%list_elem_of_singleton.
  - repeat constructor.
  - cbn. lia.
  - exists samples, d, out. split_and!; [exact H1|exact H2|exact H3].
Defined.
