(* ===== verification/MediaRobust.v ===== *)
(** * Payloads of any bytes

    The depacketizers return on every packet, aggregates are taken apart into
    the units they hold, and the payloaders that do not return. *)
From S2P Require Import Prelude Core BytesCrate RecordSet Rtp Frame Packetizer Depacketizer.

Section robust.
Context `{BytesCrate, !BytesLaws}.

(** ** VP9 descriptors lie within the payload *)

Lemma vp9_picture_id_bound p present i r j :
  vp9_picture_id p present i = Some (r, j) → (i ≤ length p)%nat → (i ≤ j ≤ length p)%nat.
Proof.
  unfold vp9_picture_id. destruct present; [|intros [= <- <-]; lia].
  destruct (p !! i) as [x|] eqn:E; [|done]. apply lookup_lt_Some in E. cbn. destruct (has_bits x 128).
  - destruct (p !! (i + 1)%nat) as [y|] eqn:E2; [|done]. apply lookup_lt_Some in E2. intros [= <- <-]. lia.
  - intros [= <- <-]. lia.
Qed.

Lemma vp9_layers_bound p present fl i j :
  vp9_layers p present fl i = Some j → (i ≤ length p)%nat → (i ≤ j ≤ length p)%nat.
Proof.
  unfold vp9_layers. destruct present; [|intros [= <-]; lia].
  destruct (p !! i) as [x|] eqn:E; [|done]. apply lookup_lt_Some in E. cbn. destruct fl; cbn.
  - intros [= <-]. lia.
  - destruct (p !! (i + 1)%nat) as [y|] eqn:E2; [|done]. apply lookup_lt_Some in E2. intros [= <-]. lia.
Qed.

Lemma vp9_references_bound n p : ∀ i j, vp9_references n p i = Some j → (i ≤ length p)%nat → (i ≤ j ≤ length p)%nat.
Proof.
  induction n as [|n IH]; intros i j; cbn [vp9_references]; [intros [= <-]; lia|].
  destruct (p !! i) as [x|] eqn:E; [|done]. apply lookup_lt_Some in E. cbn. destruct (has_bits x 1).
  - intros Hr ?. apply IH in Hr; lia.
  - intros [= <-]. lia.
Qed.

Lemma vp9_picture_group_grows n p : ∀ i j, vp9_picture_group n p i = Some j → (i ≤ j)%nat.
Proof.
  induction n as [|n IH]; intros i j; cbn [vp9_picture_group]; [intros [= <-]; lia|].
  destruct (p !! i) as [x|] eqn:E; [|done]. cbn. intros Hr%IH. lia.
Qed.

Lemma vp9_scalability_bound p i j : vp9_scalability p i = Some j → (i ≤ j ≤ length p)%nat.
Proof.
  unfold vp9_scalability. destruct (p !! i) as [x|] eqn:E; [|done]. cbn.
  set (k := if has_bits x 16 then _ else _). assert (i < k)%nat as Hk by (unfold k; destruct (has_bits x 16); lia).
  destruct (if has_bits x 8 then _ else _) as [l|] eqn:Eg; [|done]. cbn.
  assert (k ≤ l)%nat as Hl.
  { destruct (has_bits x 8); [|injection Eg as <-; lia].
    destruct (p !! k) as [y|]; [|done]. cbn in Eg. apply vp9_picture_group_grows in Eg. lia. }
  destruct (Nat.eqb_spec l 0); [done|]. cbn. destruct (p !! (l - 1)%nat) as [z|] eqn:Ez; [|done].
  apply lookup_lt_Some in Ez. intros [= <-]. lia.
Qed.

Lemma vp9_descriptor_bound p desc : parse_vp9_descriptor p = Some desc → (1 ≤ header_len desc ≤ length p)%nat.
Proof.
  unfold parse_vp9_descriptor. destruct (p !! 0%nat) as [b0|] eqn:E0; [|done]. apply lookup_lt_Some in E0. cbn.
  destruct (vp9_picture_id _ _ _) as [[pid i]|] eqn:E1; [|done]. apply vp9_picture_id_bound in E1; [|lia]. cbn.
  destruct (vp9_layers _ _ _ _) as [j|] eqn:E2; [|done]. apply vp9_layers_bound in E2; [|lia]. cbn.
  destruct (if _ && _ then _ else _) as [k|] eqn:E3; [|done]. cbn.
  assert (j ≤ k ≤ length p)%nat as Hk.
  { destruct (_ && _); [|injection E3 as <-; lia]. apply (vp9_references_bound 3) in E3; lia. }
  destruct (if has_bits b0 2 then _ else _) as [l|] eqn:E4; [|done]. cbn. intros [= <-]. cbn.
  destruct (has_bits b0 2); [|injection E4 as <-; lia]. apply vp9_scalability_bound in E4. lia.
Qed.

(** ** No packet stops a depacketizer *)

Lemma stap_returns fuel addr pkt data : ∀ offset,
  (length data ≤ offset + fuel)%nat →
  ∃ samples broken, stap_loop fuel addr pkt data offset = Ok (samples, broken).
Proof.
  induction fuel as [|fuel IH]; intros offset Hf; cbn [stap_loop];
    destruct (Nat.ltb_spec (offset + 2) (length data)); try (by eexists _, _); [lia|].
  rewrite be_at_ok by lia. run. set (n := Z.to_nat _).
  destruct (Nat.ltb_spec (length data) (offset + 2 + n)); [by eexists _, _|].
  rewrite bytes_slice_spec, decide_True by lia. run.
  destruct (IH (offset + 2 + n)%nat) as (ss & b & ->); [lia|]. run. by eexists _, _.
Qed.

(** The depacketizers return on every packet, from every state. *)
Theorem depacketizers_return dh dv pkt clock_rate addr kind :
  (∃ d out, H264Depacketizer_push dh pkt clock_rate addr kind = Ok (d, out)) ∧
  (∃ d out, Vp9Depacketizer_push dv pkt clock_rate addr kind = Ok (d, out)).
Proof.
  split.
  - unfold H264Depacketizer_push. destruct kind; [by eexists _, _|].
    destruct (payload pkt) as [|x data] eqn:Ep; [by eexists _, _|]. cbn [length Nat.eqb].
    change (idx (x :: data) 0) with (@Ok Empty_set Z x). run. destruct (Z.land x 31 =? 24).
    { destruct (stap_returns (S (length data)) addr pkt (x :: data) 1) as (ss & b & ->); [cbn; lia|]. run. by eexists _, _. }
    destruct (Z.land x 31 =? 28); [|by eexists _, _]. destruct data as [|y data]; [by eexists _, _|].
    cbn [length Nat.ltb Nat.leb]. unfold idx. cbn [lookup list_lookup]. run. rewrite slice_ok by (cbn; lia). run.
    destruct (has_bits y 128); [by eexists _, _|]. destruct (fua_continue _ _ _ _ _). by eexists _, _.
  - unfold Vp9Depacketizer_push. destruct kind; [by eexists _, _|].
    destruct (parse_vp9_descriptor _) as [desc|] eqn:Ed; [|by eexists _, _].
    destruct (Nat.ltb_spec (length (payload pkt)) (header_len desc)); [by eexists _, _|].
    rewrite bytes_slice_spec, decide_True by lia. run.
    destruct (vp9_collect _ _ _ _); [|by eexists _, _]. destruct (end_of_frame desc || marker (header pkt)); by eexists _, _.
Qed.

(** ** Aggregates *)

(** A STAP-A payload: each unit after its length *)
Definition stap_body (units : list (list Z)) : list Z :=
  concat ((fun u => to_be 2 (Z.of_nat (length u)) ++ u) <$> units).

Fixpoint stap_samples (addr : SocketAddr) (pkt : RtpPacket) (units : list (list Z)) : list MediaSample :=
  match units with
  | [] => []
  | u :: units =>
      create_video_sample addr u (timestamp (header pkt)) (bool_decide (units = []) && marker (header pkt)) pkt ::
      stap_samples addr pkt units
  end.

Lemma stap_body_nil units : Forall (fun u => u ≠ []) units → (length (stap_body units) = 0)%nat ↔ units = [].
Proof.
  destruct units as [|u units]; [done|]. intros _. split; [|done]. unfold stap_body. cbn [fmap list_fmap concat].
  rewrite !length_app, length_to_be. lia.
Qed.

Lemma stap_units units : ∀ fuel addr pkt pre,
  Forall (fun u => u ≠ [] ∧ Z.of_nat (length u) < 65536) units → (length (stap_body units) ≤ fuel)%nat →
  stap_loop fuel addr pkt (pre ++ stap_body units) (length pre) = Ok (stap_samples addr pkt units, false).
Proof.
  induction units as [|u units IH]; intros fuel addr pkt pre Hu Hf.
  { cbn [stap_body fmap list_fmap concat app]. destruct fuel; cbn [stap_loop];
      (rewrite (proj2 (Nat.ltb_ge _ _)) by (rewrite length_app; cbn; lia)); done. }
  apply Forall_cons in Hu as [[Hne Hlen] Hu].
  assert (stap_body (u :: units) = to_be 2 (Z.of_nat (length u)) ++ u ++ stap_body units) as Eb
    by (unfold stap_body; cbn [fmap list_fmap concat]; by rewrite <- app_assoc).
  rewrite Eb in Hf |- *. rewrite !length_app, length_to_be in Hf. destruct u as [|x u]; [done|]. set (v := x :: u) in *.
  assert (0 < length v)%nat by (cbn; lia).
  destruct fuel as [|fuel]; [lia|]. cbn [stap_loop].
  rewrite (proj2 (Nat.ltb_lt _ _)) by (rewrite !length_app, length_to_be; lia).
  rewrite be_at_skip by lia. rewrite Nat.sub_diag, be_at_hd by apply length_to_be. run.
  rewrite of_be_to_be_16 by ulia. rewrite Nat2Z.id.
  rewrite (proj2 (Nat.ltb_ge _ _)) by (rewrite !length_app, length_to_be; lia).
  rewrite bytes_slice_spec, decide_True by (rewrite !length_app, length_to_be; lia).
  rewrite !app_assoc. rewrite <- (app_assoc (pre ++ _)).
  replace (length pre + 2)%nat with (length (pre ++ to_be 2 (Z.of_nat (length v)))) by (rewrite length_app, length_to_be; lia).
  rewrite drop_app_length, Nat.add_comm, Nat.add_sub, take_app_length. run.
  rewrite Nat.add_comm, <- length_app, app_assoc, IH by (done || lia). run.
  cbn [stap_samples]. do 4 f_equal.
  rewrite (length_app _ (stap_body units)). case_bool_decide as Hnil.
  - rewrite Hnil. rewrite (proj2 (Nat.eqb_eq _ _)) by (cbn; lia). done.
  - rewrite (proj2 (Nat.eqb_neq _ _)); [done|]. assert (length (stap_body units) ≠ 0)%nat; [|lia].
    rewrite stap_body_nil; [done|]. eapply Forall_impl; [exact Hu|]. by intros ? [].
Qed.

(** An aggregate is taken apart into its units, the last one marked. *)
Theorem stap_taken_apart d pkt clock_rate addr nri units :
  Forall (fun u => u ≠ [] ∧ Z.of_nat (length u) < 65536) units → Z.land nri 0x1F = 24 →
  payload pkt = nri :: stap_body units →
  H264Depacketizer_push d pkt clock_rate addr KindVideo = Ok (d, stap_samples addr pkt units).
Proof.
  intros Hu Hn Hp. unfold H264Depacketizer_push. rewrite Hp. cbn [length Nat.eqb]. 
  change (idx (nri :: stap_body units) 0) with (@Ok Empty_set Z nri). run. rewrite Hn. cbn [Z.eqb Pos.eqb].
  pose proof (stap_units units (S (length (stap_body units))) addr pkt [nri] Hu) as Es. cbn [app length] in Es.
  rewrite Es by lia. by run.
Qed.

(** ** Sizes that leave no room *)

(** The VP8 payloader with an mtu of 1 and the simple payloader with an mtu
    of 0 never return on a frame that is not empty, and the VP8 payloader with
    an mtu of 0 aborts. *)
Theorem payloader_stuck data :
  data ≠ [] →
  (∀ fuel, Vp8Payloader_payload fuel 1 data = Err Running) ∧
  (∀ fuel, SimplePayloader_payload fuel 0 data = Err Running) ∧
  (∀ fuel, Vp8Payloader_payload fuel 0 data = Panic).
Proof.
  intros Hne. destruct data as [|x data]; [done|]. split_and!; intros fuel.
  - unfold Vp8Payloader_payload. cbn [length Nat.eqb Nat.sub]. induction fuel as [|fuel IH]; [done|].
    cbn [vp8_loop length Nat.ltb Nat.leb Nat.sub]. rewrite Nat.min_0_r, slice_ok by (cbn; lia). run. cbn [Nat.add]. by rewrite IH.
  - unfold SimplePayloader_payload. induction fuel as [|fuel IH]; [done|].
    cbn [simple_loop length Nat.ltb Nat.leb Nat.sub]. rewrite Nat.min_0_r, bytes_slice_spec, decide_True by (cbn; lia).
    run. cbn [Nat.add]. by rewrite IH.
  - done.
Qed.
End robust.

