(* ===== verification/Float64.v ===== *)
(** * Double-precision numbers and durations

    The [f64] of the source is the executable specification of IEEE 754
    binary64 in the Standard Library, with the operations of the Rust type.
    A [Duration] or [Instant] is an integer number of nanoseconds. *)
From Stdlib Require Import SpecFloat.
From S2P Require Import Prelude.

Abbreviation f64 := spec_float.

Definition f_add : f64 → f64 → f64 := SFadd 53 1024.
Definition f_sub : f64 → f64 → f64 := SFsub 53 1024.
Definition f_mul : f64 → f64 → f64 := SFmul 53 1024.
Definition f_div : f64 → f64 → f64 := SFdiv 53 1024.
Definition f_abs : f64 → f64 := SFabs.

(** [n as f64] *)
Definition f_of_Z (n : Z) : f64 := binary_normalize 53 1024 n 0 false.

Definition is_nan (x : f64) : bool := match x with S754_nan => true | _ => false end.

(** [f64::min], [f64::max]: a NaN gives way to the other argument *)
Definition f_min (x y : f64) : f64 :=
  if is_nan x then y else if is_nan y then x else if SFltb y x then y else x.
Definition f_max (x y : f64) : f64 :=
  if is_nan x then y else if is_nan y then x else if SFltb x y then y else x.

(** [x.clamp(lo, hi)] asserts [lo <= hi]. *)
Definition f_clamp {E} (x lo hi : f64) : res E f64 :=
  if SFleb lo hi then Ok (if SFltb x lo then lo else if SFltb hi x then hi else x) else Panic.

Definition NANOS : Z := 1000000000.
Definition millis (n : Z) : Z := n * 1000000.
Definition secs (n : Z) : Z := n * NANOS.

(** [num / den], ties to even *)
Definition round_half_even (num den : Z) : Z :=
  let q := num / den in
  let r := num mod den in
  if 2 * r <? den then q else
  if den <? 2 * r then q + 1 else
  if Z.even q then q else q + 1.

(** [Duration::from_secs_f64] aborts on a number that is negative, too large or
    not a number. *)
Definition from_secs_f64 {E} (x : f64) : res E Z :=
  match x with
  | S754_zero _ => Ok 0
  | S754_finite false m e =>
      let '(num, den) := if 0 <=? e then (Zpos m * 2 ^ e, 1) else (Zpos m, 2 ^ (- e)) in
      if num <? 2 ^ 64 * den then Ok (round_half_even (num * NANOS) den) else Panic
  | _ => Panic
  end.

(** [Duration::as_secs_f64] *)
Definition as_secs_f64 (d : Z) : f64 :=
  f_add (f_of_Z (d / NANOS)) (f_div (f_of_Z (d mod NANOS)) (f_of_Z NANOS)).

(** ** Bounds of a clamped number *)

Lemma SFcompare_antisym x y : SFcompare y x = CompOpp <$> SFcompare x y.
Proof.
  destruct x as [[]|[]| |[] mx ex], y as [[]|[]| |[] my ey]; try done; cbn [SFcompare fmap option_fmap option_map].
  all: rewrite (Z.compare_antisym ex ey); destruct (Z.compare_spec ex ey); try done; cbn [CompOpp]; f_equal.
  all: change (Pos.compare_cont Eq) with Pos.compare; by rewrite (Pos.compare_antisym mx my).
Qed.

Lemma SFcompare_nan x y : is_nan x = false → is_nan y = false → SFcompare x y ≠ None.
Proof. by destruct x as [[]|[]| |[] mx ex], y as [[]|[]| |[] my ey]. Qed.

Lemma SFltb_false_leb x y : is_nan x = false → is_nan y = false → SFltb x y = false → SFleb y x = true.
Proof.
  intros Hx Hy. pose proof (SFcompare_nan x y Hx Hy). unfold SFltb, SFleb. rewrite (SFcompare_antisym x y).
  by destruct (SFcompare x y) as [[]|].
Qed.

Lemma SFleb_refl x : is_nan x = false → SFleb x x = true.
Proof.
  intros Hx. destruct (SFltb x x) eqn:E; [|by apply SFltb_false_leb]. unfold SFltb in E. unfold SFleb.
  by destruct (SFcompare x x) as [[]|].
Qed.

(** A clamped number that is a number lies between the bounds. *)
Lemma f_clamp_bounds {E} x lo hi y :
  @f_clamp E x lo hi = Ok y → is_nan x = false → SFleb lo y = true ∧ SFleb y hi = true.
Proof.
  unfold f_clamp. destruct (SFleb lo hi) eqn:Hlh; [|done]. intros [= <-] Hx.
  assert (is_nan lo = false ∧ is_nan hi = false) as [Hl Hh].
  { unfold SFleb in Hlh. by destruct lo as [[]|[]| |[] ? ?], hi as [[]|[]| |[] ? ?]. }
  destruct (SFltb x lo) eqn:E1; [split; [by apply SFleb_refl|done]|].
  destruct (SFltb hi x) eqn:E2; [split; [done|by apply SFleb_refl]|].
  split; by apply SFltb_false_leb.
Qed.

Example secs_roundtrip : from_secs_f64 (as_secs_f64 1234567890) = @Ok unit _ 1234567890.
Proof. vm_compute. reflexivity. Qed.
