(* ===== verification/DataChannel.v ===== *)
(** * Data channels ([src/transports/datachannel.rs])

    The messages that open a channel (DCEP, RFC 8832), the state of a channel
    and its buffered-amount accounting.  The queue of events towards the
    application is the list of all events sent so far. *)
From S2P Require Import Prelude Core BytesCrate Utf8 RecordSet.

Definition DATA_CHANNEL_PPID_DCEP : Z := 50.
Definition DATA_CHANNEL_PPID_STRING : Z := 51.
Definition DATA_CHANNEL_PPID_BINARY : Z := 53.
Definition DCEP_TYPE_OPEN : Z := 0x03.
Definition DCEP_TYPE_ACK : Z := 0x02.

Record DataChannelOpen := {
  open_message_type : Z;
  channel_type : Z;
  priority : Z;
  reliability_parameter : Z;
  open_label : list Z;
  open_protocol : list Z;
}.
Record DataChannelAck := { ack_message_type : Z }.

Section codec.
Context `{BytesCrate}.

Definition DataChannelOpen_marshal (m : DataChannelOpen) : list Z :=
  let buf := put_u8 [] (open_message_type m) in
  let buf := put_u8 buf (channel_type m) in
  let buf := put_u16 buf (priority m) in
  let buf := put_u32 buf (reliability_parameter m) in
  let buf := put_u16 buf (as_u16 (Z.of_nat (length (open_label m)))) in
  let buf := put_u16 buf (as_u16 (Z.of_nat (length (open_protocol m)))) in
  let buf := put_slice buf (open_label m) in
  put_slice buf (open_protocol m).

Definition DataChannelOpen_unmarshal (data : list Z) : res RtcError DataChannelOpen :=
  let buf := data in
  if (remaining buf <? 12)%nat then Err (Internal "DCEP Open message too short") else
  '(message_type, buf) ← or_panic (get_u8 buf);
  if negb (message_type =? DCEP_TYPE_OPEN) then Err (Internal "Invalid DCEP message type") else
  '(channel_type, buf) ← or_panic (get_u8 buf);
  '(priority, buf) ← or_panic (get_u16 buf);
  '(reliability_parameter, buf) ← or_panic (get_u32 buf);
  '(label_len, buf) ← or_panic (get_u16 buf);
  '(protocol_len, buf) ← or_panic (get_u16 buf);
  let label_len := Z.to_nat label_len in
  let protocol_len := Z.to_nat protocol_len in
  if (remaining buf <? label_len + protocol_len)%nat
  then Err (Internal "DCEP Open message too short for payload") else
  '(label_bytes, buf) ← or_panic (split_to label_len buf);
  '(protocol_bytes, buf) ← or_panic (split_to protocol_len buf);
  label ← ok_or (from_utf8 label_bytes) (Internal "utf-8: ");
  protocol ← ok_or (from_utf8 protocol_bytes) (Internal "utf-8: ");
  Ok {| open_message_type := message_type; channel_type := channel_type; priority := priority;
        reliability_parameter := reliability_parameter; open_label := label; open_protocol := protocol |}.

End codec.

Definition DataChannelAck_marshal (m : DataChannelAck) : list Z := [ack_message_type m].

Definition DataChannelAck_unmarshal (data : list Z) : res RtcError DataChannelAck :=
  if (length data =? 0)%nat then Err (Internal "DCEP Ack message too short") else
  message_type ← idx data 0;
  if negb (message_type =? DCEP_TYPE_ACK) then Err (Internal "Invalid DCEP message type") else
  Ok {| ack_message_type := message_type |}.

(** ** Channels *)

Inductive DataChannelEvent :=
| EventOpen
| EventMessage (data : list Z)
| EventClose
| EventBufferedAmountLow (amount : Z).

Inductive DataChannelState := DcConnecting | DcOpen | DcClosing | DcClosed.
#[export] Instance DataChannelState_eq_dec : EqDecision DataChannelState.
Proof. solve_decision. Defined.

(** [From<usize> for DataChannelState] *)
Definition DataChannelState_from (v : Z) : DataChannelState :=
  match v with 0 => DcConnecting | 1 => DcOpen | 2 => DcClosing | _ => DcClosed end.
Definition DataChannelState_usize (s : DataChannelState) : Z :=
  match s with DcConnecting => 0 | DcOpen => 1 | DcClosing => 2 | DcClosed => 3 end.

Record DataChannelConfig := {
  cfg_label : list Z;
  cfg_protocol : list Z;
  cfg_ordered : bool;
  cfg_max_retransmits : option Z;
  cfg_max_packet_life_time : option Z;
  cfg_max_payload_size : option Z;
  cfg_negotiated : option Z;
  cfg_buffered_amount_low_threshold : Z;
}.

(** The atomics hold the states as numbers; here they are the states.  The
    transport keeps weak references: [dc_alive] says whether they can still be
    upgraded, [dc_tx] whether the sender of events is still there. *)
Record DataChannel := {
  dc_id : Z;
  dc_label : list Z;
  dc_protocol : list Z;
  dc_ordered : bool;
  dc_max_retransmits : option Z;
  dc_max_packet_life_time : option Z;
  dc_max_payload_size : Z;
  dc_negotiated : bool;
  dc_state : DataChannelState;
  dc_next_ssn : Z;
  dc_tx : bool;
  dc_events : list DataChannelEvent;
  dc_reassembly_buffer : list Z;
  dc_buffered_amount : Z;
  dc_buffered_amount_low_threshold : Z;
  dc_above_low_threshold : bool;
  dc_alive : bool;
}.
#[export] Instance eta_DataChannel : Settable DataChannel :=
  settable! Build_DataChannel < dc_id; dc_label; dc_protocol; dc_ordered; dc_max_retransmits;
    dc_max_packet_life_time; dc_max_payload_size; dc_negotiated; dc_state; dc_next_ssn; dc_tx; dc_events;
    dc_reassembly_buffer; dc_buffered_amount; dc_buffered_amount_low_threshold; dc_above_low_threshold;
    dc_alive >.

Definition DataChannel_new (id : Z) (config : DataChannelConfig) : DataChannel := {|
  dc_id := id; dc_label := cfg_label config; dc_protocol := cfg_protocol config;
  dc_ordered := cfg_ordered config; dc_max_retransmits := cfg_max_retransmits config;
  dc_max_packet_life_time := cfg_max_packet_life_time config;
  dc_max_payload_size := default 1200 (cfg_max_payload_size config);
  dc_negotiated := bool_decide (is_Some (cfg_negotiated config));
  dc_state := DcConnecting; dc_next_ssn := 0; dc_tx := true; dc_events := [];
  dc_reassembly_buffer := []; dc_buffered_amount := 0;
  dc_buffered_amount_low_threshold := cfg_buffered_amount_low_threshold config;
  dc_above_low_threshold := false; dc_alive := true |}.

Definition send_event (e : DataChannelEvent) (dc : DataChannel) : DataChannel :=
  if dc_tx dc then dc <| dc_events ::= fun l => l ++ [e] |> else dc.

Definition close_channel (dc : DataChannel) : DataChannel := dc <| dc_tx := false |>.

Definition set_buffered_amount_low_threshold (threshold : Z) (dc : DataChannel) : DataChannel :=
  dc <| dc_buffered_amount_low_threshold := threshold |>.

Definition on_buffered_amount (amount : Z) (dc : DataChannel) : DataChannel :=
  let prev := dc_buffered_amount dc in
  let dc := dc <| dc_buffered_amount := amount |> in
  if prev =? amount then dc else
  let threshold := dc_buffered_amount_low_threshold dc in
  if threshold =? 0 then dc else
  if threshold <? amount then dc <| dc_above_low_threshold := true |> else
  if dc_above_low_threshold dc
  then send_event (EventBufferedAmountLow amount) (dc <| dc_above_low_threshold := false |>)
  else dc.

(** ** Properties *)

Section codec_facts.
Context `{BytesCrate, !BytesLaws}.

Definition wf_open (m : DataChannelOpen) : Prop :=
  open_message_type m = DCEP_TYPE_OPEN ∧ u8 (channel_type m) ∧ u16 (priority m) ∧
  u32 (reliability_parameter m) ∧
  valid_utf8 (open_label m) = true ∧ Z.of_nat (length (open_label m)) < 65536 ∧
  valid_utf8 (open_protocol m) = true ∧ Z.of_nat (length (open_protocol m)) < 65536.

(** C30: Every well-formed DATA_CHANNEL_OPEN message is read back from its
    encoding unchanged. *)
Theorem dcep_open_roundtrip m :
  wf_open m → DataChannelOpen_unmarshal (DataChannelOpen_marshal m) = Ok m.
Proof.
  destruct m as [mt ct p rp l pr]. intros (Ht & Hc & Hp & Hr & Hl & Hll & Hpr & Hpl). cbn in *. subst mt.
  unfold DataChannelOpen_marshal, DataChannelOpen_unmarshal. cbn [open_message_type channel_type priority
    reliability_parameter open_label open_protocol]. autorewrite with crate.
  unfold as_u16. rewrite !Z.mod_small by lia. cbn [app]. rewrite <- !app_assoc.
  rewrite (proj2 (Nat.ltb_ge _ _)) by (rewrite !length_app, !length_to_be; lia).
  rewrite read_be_8 by (unfold DCEP_TYPE_OPEN; ulia). run. rewrite Z.eqb_refl. run.
  autorewrite with crate. rewrite read_be_8 by done. run.
  autorewrite with crate. rewrite read_be_16 by done. run.
  autorewrite with crate. rewrite read_be_32 by done. run.
  autorewrite with crate. rewrite read_be_16 by ulia. run.
  autorewrite with crate. rewrite read_be_16 by ulia. run.
  autorewrite with crate. rewrite !Nat2Z.id. rewrite (proj2 (Nat.ltb_ge _ _)) by (rewrite length_app; lia).
  rewrite split_front_app by done. run. rewrite split_to_spec, split_front_ge, take_ge by lia. run.
  rewrite !from_utf8_valid by done. by run.
Qed.
End codec_facts.

(** The events for a sequence of amounts: one each time the amount comes back
    to the threshold or below it *)
Fixpoint low_edges (threshold : Z) (above : bool) (amounts : list Z) : list DataChannelEvent :=
  match amounts with
  | [] => []
  | a :: amounts =>
      (if negb (threshold <? a) && above then [EventBufferedAmountLow a] else []) ++
      low_edges threshold (threshold <? a) amounts
  end.

Theorem buffered_amount_low_edges amounts : ∀ dc,
  dc_buffered_amount_low_threshold dc ≠ 0 → dc_tx dc = true →
  dc_above_low_threshold dc = (dc_buffered_amount_low_threshold dc <? dc_buffered_amount dc) →
  dc_events (fold_left (fun dc a => on_buffered_amount a dc) amounts dc) =
    dc_events dc ++ low_edges (dc_buffered_amount_low_threshold dc) (dc_above_low_threshold dc) amounts.
Proof.
  induction amounts as [|a amounts IH]; intros dc Ht Htx Ha; [by rewrite app_nil_r|]. cbn [fold_left low_edges].
  unfold on_buffered_amount at 2. cbv zeta. rs. destruct (Z.eqb_spec (dc_buffered_amount dc) a) as [E|Hne].
  - rewrite IH; rs; try done; [|by rewrite E in Ha]. rewrite <- E, <- Ha. f_equal.
    by destruct (dc_above_low_threshold dc).
  - rewrite (proj2 (Z.eqb_neq _ _) Ht). destruct (_ <? a) eqn:Elt.
    + rewrite IH; rs; done.
    + cbn [negb andb]. destruct (dc_above_low_threshold dc) eqn:Eab.
      * unfold send_event at 1. rs. rewrite Htx. rewrite IH; rs; try done. by rewrite <- app_assoc.
      * rewrite IH; rs; [|done..|by rewrite Eab, Elt]. by rewrite Eab.
Qed.

Lemma dcep_open_roundtrip_witness :
  let m := {| open_message_type := DCEP_TYPE_OPEN; channel_type := 0x81; priority := 256; reliability_parameter := 3;
              open_label := [99; 104; 97; 116]; open_protocol := [] |} in
  DataChannelOpen_unmarshal (H := vec_crate) (DataChannelOpen_marshal (H := vec_crate) m) = Ok m.
Proof.
  intros m. apply (dcep_open_roundtrip (H0 := vec_laws)). repeat split; try done; ulia.
Defined.
