(* ===== verification/Crc32c.v ===== *)
(** * The checksum of SCTP ([src/transports/sctp.rs])

    CRC-32C by table, by the instructions of x86-64 and aarch64, and bit by
    bit.  The processor instructions are parameters with their documented
    behaviour. *)
From S2P Require Import Prelude.

Definition CRC32C_POLY : Z := 0x82F63B78.

(** One turn of the inner loop of [crc32c_table] *)
Definition crc_bit (crc : Z) : Z :=
  if negb (Z.land crc 1 =? 0) then Z.lxor (Z.shiftr crc 1) CRC32C_POLY else Z.shiftr crc 1.

Definition crc32c_table : list Z := (fun i => Nat.iter 8 crc_bit (Z.of_nat i)) <$> seq 0 256.

Definition not32 (x : Z) : Z := Z.lxor x 0xFFFFFFFF.

(** [table[((crc ^ byte as u32) & 0xFF) as usize] ^ (crc >> 8)] *)
Definition crc32c_byte (table : list Z) (crc byte : Z) : Z :=
  Z.lxor (nth (Z.to_nat (Z.land (Z.lxor crc byte) 0xFF)) table 0) (Z.shiftr crc 8).

Definition crc32c_soft_append (crc : Z) (data : list Z) : Z :=
  not32 (fold_left (crc32c_byte crc32c_table) data (not32 crc)).

(** The eight-byte steps and the remainder of [crc32c_append_x86] and
    [crc32c_append_aarch64] *)
Section hardware.
Context (crc32_u8 crc32_u64 : Z → Z → Z).

Definition crc32c_append_hw (crc : Z) (data : list Z) : Z :=
  let whole := (8 * (length data / 8))%nat in
  let c := fold_left (fun c chunk => crc32_u64 c (of_be (reverse chunk))) (chunks (length data) 8 (take whole data))
             (Z.lxor crc 0xFFFFFFFF) in
  Z.lxor (fold_left crc32_u8 (drop whole data) (as_u32 c)) 0xFFFFFFFF.
End hardware.

(** [sctp_crc32c_append], on a processor without the instructions, and
    [sctp_crc32c] *)
Definition sctp_crc32c_append (crc : Z) (data : list Z) : Z := crc32c_soft_append crc data.
Definition sctp_crc32c (data : list Z) : Z := sctp_crc32c_append 0 data.

(** ** The table is eight steps of the division by the polynomial *)

Lemma crc_bit_eq x : crc_bit x = Z.lxor (Z.shiftr x 1) (if Z.odd x then CRC32C_POLY else 0).
Proof.
  unfold crc_bit. change 1 with (Z.ones 1) at 1. rewrite Z.land_ones by lia. change (2 ^ 1) with 2.
  rewrite Zmod_odd. destruct (Z.odd x); [done|]. by rewrite Z.lxor_0_r.
Qed.

Lemma crc_bit_lxor x y : crc_bit (Z.lxor x y) = Z.lxor (crc_bit x) (crc_bit y).
Proof.
  rewrite !crc_bit_eq, Z.shiftr_lxor. rewrite <- !Z.bit0_odd, Z.lxor_spec.
  destruct (Z.testbit x 0), (Z.testbit y 0); cbn [xorb];
    rewrite ?Z.lxor_0_r, ?Z.lxor_assoc; try done.
  - f_equal. by rewrite (Z.lxor_comm _ CRC32C_POLY), <- !Z.lxor_assoc, Z.lxor_nilpotent, Z.lxor_0_l.
  - f_equal. apply Z.lxor_comm.
Qed.

Definition crc_bits (n : nat) (x : Z) : Z := Nat.iter n crc_bit x.

Lemma crc_bits_lxor n x y : crc_bits n (Z.lxor x y) = Z.lxor (crc_bits n x) (crc_bits n y).
Proof.
  induction n as [|n IH]; [done|]. unfold crc_bits in *. rewrite !Nat.iter_succ.
  by rewrite IH, crc_bit_lxor.
Qed.

Lemma crc_bits_shiftl n x : crc_bits n (Z.shiftl x (Z.of_nat n)) = x.
Proof.
  unfold crc_bits. induction n as [|n IH]; [by rewrite Z.shiftl_0_r|]. rewrite Nat.iter_succ_r. rewrite crc_bit_eq.
  rewrite <- Z.bit0_odd, Z.shiftl_spec_low, Z.lxor_0_r by lia. rewrite <- Z.shiftl_opp_r, Z.shiftl_shiftl by lia.
  rewrite <- IH at 2. do 2 f_equal. lia.
Qed.

Lemma crc_split x : x = Z.lxor (Z.land x 0xFF) (Z.shiftl (Z.shiftr x 8) 8).
Proof.
  apply Z.bits_inj'. intros n Hn. change 0xFF with (Z.ones 8). rewrite Z.lxor_spec, Z.land_spec, Z.shiftl_spec by lia.
  destruct (decide (n < 8)).
  - rewrite Z.ones_spec_low, (Z.testbit_neg_r _ (n - 8)) by lia. by destruct (Z.testbit x n).
  - rewrite Z.ones_spec_high, Z.shiftr_spec by lia. replace (n - 8 + 8) with n by lia. by destruct (Z.testbit x n).
Qed.

Lemma crc32c_table_nth x : 0 ≤ x < 256 → nth (Z.to_nat x) crc32c_table 0 = crc_bits 8 x.
Proof.
  intros Hx. unfold crc32c_table. rewrite <- (Z2Nat.id x) at 2 by lia.
  apply nth_lookup_Some. rewrite list_lookup_fmap, lookup_seq_lt by lia. done.
Qed.

Lemma crc32c_byte_bits c b : u8 b → crc32c_byte crc32c_table c b = crc_bits 8 (Z.lxor c b).
Proof.
  intros Hb. unfold crc32c_byte. rewrite crc32c_table_nth.
  2:{ change 0xFF with (Z.ones 8). rewrite Z.land_ones by lia. change (2 ^ 8) with 256. lia. }
  rewrite (crc_split (Z.lxor c b)) at 2. rewrite crc_bits_lxor. f_equal.
  change 8 with (Z.of_nat 8) at 3. rewrite crc_bits_shiftl, Z.shiftr_lxor.
  assert (Z.shiftr b 8 = 0) as -> by (rewrite Z.shiftr_div_pow2 by lia; apply Z.div_small; ulia). by rewrite Z.lxor_0_r.
Qed.

(** ** Appending *)

Lemma not32_twice x : not32 (not32 x) = x.
Proof. unfold not32. by rewrite Z.lxor_assoc, Z.lxor_nilpotent, Z.lxor_0_r. Qed.

Lemma crc32c_append_app crc a b :
  sctp_crc32c_append (sctp_crc32c_append crc a) b = sctp_crc32c_append crc (a ++ b).
Proof. unfold sctp_crc32c_append, crc32c_soft_append. by rewrite not32_twice, fold_left_app. Qed.

(** ** Bits and bytes *)

Definition crc_step (c b : Z) : Z := crc_bits 8 (Z.lxor c b).

Lemma fold_crc_step data c :
  Forall u8 data → fold_left (crc32c_byte crc32c_table) data c = fold_left crc_step data c.
Proof.
  revert c. induction data as [|b data IH]; intros c Hd; [done|]. apply Forall_cons in Hd as [Hb Hd].
  cbn [fold_left]. rewrite crc32c_byte_bits by done. by apply IH.
Qed.

Lemma crc_bit_u32 x : u32 x → u32 (crc_bit x).
Proof.
  intros Hx. rewrite crc_bit_eq. apply (lxor_bound 32); [lia|rewrite Z.shiftr_div_pow2 by lia; change (2 ^ 32) with 4294967296; ulia|].
  by destruct (Z.odd x).
Qed.

(** The step loses nothing: only zero becomes zero. *)
Lemma crc_bit_zero x : u32 x → crc_bit x = 0 → x = 0.
Proof.
  intros Hx. rewrite crc_bit_eq. intros E. apply Z.lxor_eq in E. rewrite Z.shiftr_div_pow2 in E by lia.
  pose proof (Zdiv2_odd_eqn x) as Hd. rewrite Z.div2_div in Hd. change (2 ^ 1) with 2 in E. rewrite E in Hd.
  unfold CRC32C_POLY in *. destruct (Z.odd x); ulia.
Qed.

Lemma crc_bits_u32 n x : u32 x → u32 (crc_bits n x).
Proof. intros Hx. unfold crc_bits. induction n as [|n IH]; [done|]. rewrite Nat.iter_succ. by apply crc_bit_u32. Qed.

Lemma crc_bits_zero n x : u32 x → crc_bits n x = 0 → x = 0.
Proof.
  intros Hx. induction n as [|n IH]; [done|]. unfold crc_bits. rewrite Nat.iter_succ.
  intros E%crc_bit_zero; [by apply IH|]. by apply crc_bits_u32.
Qed.

Lemma lxor_u32 x y : u32 x → u32 y → u32 (Z.lxor x y).
Proof. intros Hx Hy. by apply (lxor_bound 32). Qed.

Lemma u8_u32 x : u8 x → u32 x.
Proof. ulia. Qed.

Lemma crc_step_u32 c b : u32 c → u8 b → u32 (crc_step c b).
Proof. intros Hc Hb. apply crc_bits_u32, lxor_u32; [done|by apply u8_u32]. Qed.

Lemma fold_crc_step_u32 data c : Forall u8 data → u32 c → u32 (fold_left crc_step data c).
Proof. intros Hd. revert c. induction Hd as [|b data Hb _ IH]; intros c Hc; [done|]. by apply IH, crc_step_u32. Qed.

(** ** The instructions compute the same *)

Section equivalence.
Context (crc32_u8 crc32_u64 : Z → Z → Z).
Hypothesis crc32_u8_spec : ∀ c b, u32 c → u8 b → crc32_u8 c b = crc_step c b.
Hypothesis crc32_u64_spec : ∀ c bs, u32 c → Forall u8 bs → length bs = 8%nat →
  crc32_u64 c (of_be (reverse bs)) = fold_left crc_step bs c.

Lemma fold_u64 cs : ∀ c, u32 c → Forall (fun bs => Forall u8 bs ∧ length bs = 8%nat) cs →
  fold_left (fun c chunk => crc32_u64 c (of_be (reverse chunk))) cs c = fold_left crc_step (concat cs) c.
Proof.
  induction cs as [|bs cs IH]; intros c Hc Hf; [done|]. apply Forall_cons in Hf as [[Hb Hl] Hf]. cbn [fold_left concat].
  rewrite crc32_u64_spec, fold_left_app by done. apply IH; [by apply fold_crc_step_u32|done].
Qed.

Lemma fold_u8 data : ∀ c, u32 c → Forall u8 data → fold_left crc32_u8 data c = fold_left crc_step data c.
Proof.
  induction data as [|b data IH]; intros c Hc Hd; [done|]. apply Forall_cons in Hd as [Hb Hd]. cbn [fold_left].
  rewrite crc32_u8_spec by done. by apply IH; [apply crc_step_u32|].
Qed.

Lemma chunks_exact {A} n fuel (l : list A) :
  (0 < n)%nat → (length l ≤ fuel)%nat → (∃ k, length l = n * k)%nat →
  Forall (fun c => length c = n) (chunks fuel n l).
Proof.
  intros Hn. revert l. induction fuel as [|fuel IH]; intros [|x l] Hf [k Hk]; cbn [chunks]; try constructor.
  - rewrite length_take, Hk. cbn [length] in Hk. destruct k; [lia|]. nia.
  - apply IH; rewrite length_drop; [cbn [length] in *; lia|]. exists (k - 1)%nat.
    rewrite Nat.mul_sub_distr_l, Hk. lia.
Qed.

(** C29: With the CRC instructions as documented (each divides the next bytes by
    the Castagnoli polynomial), the accelerated checksum of any bytes, eight at
    a time and then one at a time, is the one of the table-driven routine. *)
Theorem crc32c_hw_equiv crc data :
  u32 crc → Forall u8 data → crc32c_append_hw crc32_u8 crc32_u64 crc data = crc32c_soft_append crc data.
Proof.
  intros Hc Hd. unfold crc32c_append_hw, crc32c_soft_append, not32. cbv zeta.
  set (whole := (8 * (length data / 8))%nat).
  assert (whole ≤ length data)%nat as Hw by (unfold whole; pose proof (Nat.Div0.div_mod (length data) 8); lia).
  assert (u32 (Z.lxor crc 0xFFFFFFFF)) as Hn by (apply lxor_u32; [done|ulia]).
  assert (Forall u8 (take whole data) ∧ Forall u8 (drop whole data)) as [Ht Hr] by (split; [by apply Forall_take|by apply Forall_drop]).
  assert (concat (chunks (length data) 8 (take whole data)) = take whole data) as Ecc
    by (apply concat_chunks; rewrite ?length_take; lia).
  rewrite fold_u64; [rewrite Ecc|done|].
  - f_equal. unfold as_u32. rewrite Z.mod_small by (apply fold_crc_step_u32; done).
    rewrite fold_u8 by (done || by apply fold_crc_step_u32).
    by rewrite <- fold_left_app, take_drop, fold_crc_step.
  - pose proof (chunks_exact 8 (length data) (take whole data)) as Hx.
    rewrite length_take, Nat.min_l in Hx by lia. specialize (Hx ltac:(lia) Hw ltac:(by eexists)).
    apply Forall_and. split; [|done]. rewrite <- Ecc in Ht. clear -Ht.
    induction (chunks (length data) 8 (take whole data)) as [|c cs IH]; [constructor|].
    cbn in Ht. apply Forall_app in Ht as [Ht1 Ht2]. constructor; [done|]. by apply IH.
Qed.
End equivalence.

(** ** Bursts *)

(** Bytes as one little-endian number *)
Fixpoint le_num (d : list Z) : Z :=
  match d with [] => 0 | b :: d => Z.lxor b (Z.shiftl (le_num d) 8) end.

Lemma fold_crc_le d c : fold_left crc_step d c = crc_bits (8 * length d) (Z.lxor c (le_num d)).
Proof.
  revert c. induction d as [|b d IH]; intros c; cbn [fold_left le_num length]; [cbn; by rewrite Z.lxor_0_r|].
  rewrite IH. unfold crc_step.
  rewrite <- (crc_bits_shiftl 8 (le_num d)) at 1. rewrite <- crc_bits_lxor. unfold crc_bits.
  rewrite <- Nat.iter_add. rewrite Z.lxor_assoc. do 2 f_equal. lia.
Qed.

Lemma le_num_high b d : u8 b → Z.land (le_num (b :: d)) 0xFF = b ∧ Z.shiftr (le_num (b :: d)) 8 = le_num d.
Proof.
  intros Hb. cbn [le_num]. assert (Z.shiftr b 8 = 0) as Hs
    by (rewrite Z.shiftr_div_pow2 by lia; apply Z.div_small; ulia). split.
  - change 0xFF with (Z.ones 8). apply Z.bits_inj'. intros n Hn. rewrite Z.land_spec, Z.lxor_spec, Z.shiftl_spec by lia.
    destruct (decide (n < 8)).
    + rewrite Z.ones_spec_low, (Z.testbit_neg_r _ (n - 8)) by lia. by destruct (Z.testbit b n).
    + rewrite Z.ones_spec_high, andb_false_r by lia. replace n with (n - 8 + 8) by lia.
      by rewrite <- Z.shiftr_spec, Hs, Z.testbit_0_l by lia.
  - rewrite Z.shiftr_lxor, Hs, Z.lxor_0_l, Z.shiftr_shiftl_l by lia. by rewrite Z.shiftl_0_r.
Qed.

Lemma le_num_inj d d' : length d = length d' → Forall u8 d → Forall u8 d' → le_num d = le_num d' → d = d'.
Proof.
  revert d'. induction d as [|b d IH]; intros [|b' d'] Hl Hd Hd' E; try done.
  apply Forall_cons in Hd as [Hb Hd]. apply Forall_cons in Hd' as [Hb' Hd'].
  destruct (le_num_high b d Hb) as [H1 H2]. destruct (le_num_high b' d' Hb') as [H1' H2'].
  rewrite E in H1, H2. f_equal; [congruence|]. apply IH; [by injection Hl|done..|congruence].
Qed.

Lemma le_num_bound d : Forall u8 d → 0 ≤ le_num d < 2 ^ (8 * Z.of_nat (length d)).
Proof.
  induction 1 as [|b d Hb _ IH]; [cbn; lia|]. cbn [le_num length].
  replace (8 * Z.of_nat (S (length d))) with (8 + 8 * Z.of_nat (length d)) by lia.
  apply lxor_bound; [lia| |].
  - split; [ulia|]. rewrite Z.pow_add_r by lia. change (2 ^ 8) with 256. ulia.
  - rewrite Z.shiftl_mul_pow2, Z.pow_add_r by lia. change (2 ^ 8) with 256. lia.
Qed.

Lemma crc_bits_add m n x : crc_bits (n + m) x = crc_bits m (crc_bits n x).
Proof. unfold crc_bits. by rewrite Nat.add_comm, Nat.iter_add. Qed.

Lemma lxor_cancel a b p : Z.lxor a p = Z.lxor b p → a = b.
Proof. intros E. apply (f_equal (fun x => Z.lxor x p)) in E. by rewrite !Z.lxor_assoc, !Z.lxor_nilpotent, !Z.lxor_0_r in E. Qed.
Lemma lxor_cancel_l a b p : Z.lxor p a = Z.lxor p b → a = b.
Proof. rewrite !(Z.lxor_comm p). apply lxor_cancel. Qed.

(** Two messages that differ only within four consecutive bytes have different
    checksums. *)
Theorem crc32c_burst pre d d' post :
  Forall u8 pre → Forall u8 d → Forall u8 d' → Forall u8 post →
  length d = length d' → (length d ≤ 4)%nat → d ≠ d' →
  sctp_crc32c (pre ++ d ++ post) ≠ sctp_crc32c (pre ++ d' ++ post).
Proof.
  intros Hpre Hd Hd' Hpost Hl H4 Hne. unfold sctp_crc32c, sctp_crc32c_append, crc32c_soft_append.
  rewrite !fold_crc_step by (by rewrite !Forall_app). rewrite !fold_left_app.
  set (c := fold_left crc_step pre (not32 0)). intros E. apply (f_equal not32) in E. rewrite !not32_twice in E.
  apply Hne, le_num_inj; try done. apply Z.lxor_eq.
  assert (∀ x, Forall u8 x → (length x ≤ 4)%nat → u32 (le_num x)) as Hu.
  { intros x Hx Hx4. pose proof (le_num_bound x Hx) as [? Hb]. split; [done|].
    eapply Z.lt_le_trans; [exact Hb|]. change 4294967296 with (2 ^ 32). apply Z.pow_le_mono_r; lia. }
  apply (crc_bits_zero (8 * length d + 8 * length post)).
  { apply lxor_u32; apply Hu; done || lia. }
  rewrite crc_bits_add, !crc_bits_lxor. rewrite !(fold_crc_le post), !fold_crc_le, !crc_bits_lxor in E.
  rewrite <- Hl in E. apply lxor_cancel in E. apply Z.lxor_eq_0_iff. by apply lxor_cancel_l in E.
Qed.

(** The instructions as steps of the bitwise division *)
Definition ex_u64 (c w : Z) : Z := fold_left crc_step (reverse (to_be 8 w)) c.

Lemma ex_u64_spec c bs : Forall u8 bs → length bs = 8%nat → ex_u64 c (of_be (reverse bs)) = fold_left crc_step bs c.
Proof.
  intros Hb Hl. unfold ex_u64. rewrite <- (reverse_involutive bs) at 2. f_equal. f_equal.
  rewrite <- (length_reverse bs) in Hl. rewrite <- Hl. apply to_be_of_be. by apply Forall_reverse.
Qed.

Lemma crc32c_hw_equiv_witness :
  crc32c_append_hw crc_step ex_u64 0 [49; 50; 51; 52; 53; 54; 55; 56; 57] = crc32c_soft_append 0 [49; 50; 51; 52; 53; 54; 55; 56; 57] ∧
  crc32c_soft_append 0 [49; 50; 51; 52; 53; 54; 55; 56; 57] = 0xE3069283.
Proof.
  split; [apply crc32c_hw_equiv|vm_compute; reflexivity].
  - done.
  - intros c bs _. apply ex_u64_spec.
  - ulia.
  - repeat constructor; ulia.
Defined.
