(* ===== verification/SctpQueues.v ===== *)
(** * Queues and timers of an SCTP association ([src/transports/sctp.rs])

    Serial-number comparison, ordered delivery of a stream, gap blocks,
    the effect of a SACK on the queue of sent chunks, and the retransmission
    timeout.  Instants are in nanoseconds; sizes in bytes. *)
From Stdlib Require Import SpecFloat.
From S2P Require Import Prelude BTree Float64 RecordSet.

Definition DUP_THRESH : Z := 3.
Definition MAX_INBOUND_STREAM_PENDING : nat := 128.

(** [a.wrapping_sub(b) as i32] *)
Definition tsn_diff (a b : Z) : Z := as_i32 (wsub32 a b).
Definition tsn_gt (a b : Z) : bool := 0 <? tsn_diff a b.
Definition ssn_gt (a b : Z) : bool := 0 <? as_i16 (wsub16 a b).

Definition len (l : list Z) : Z := Z.of_nat (length l).

(** ** Ordered delivery *)

Record InboundStream := { next_ssn : Z; pending : list (Z * list Z) }.
Definition InboundStream_new : InboundStream := {| next_ssn := 0; pending := [] |}.

(** Every turn removes an entry: one unit of fuel per entry. *)
Fixpoint drain_loop (fuel : nat) (s : InboundStream) : list (list Z) * InboundStream :=
  match bt_get (next_ssn s) (pending s), fuel with
  | Some msg, S fuel =>
      let '(out, s') := drain_loop fuel {| next_ssn := wadd16 (next_ssn s) 1;
                                           pending := bt_remove (next_ssn s) (pending s) |} in
      (msg :: out, s')
  | _, _ => ([], s)
  end.
Definition drain_ready (s : InboundStream) : list (list Z) * InboundStream :=
  drain_loop (length (pending s)) s.

Definition enqueue (s : InboundStream) (ssn : Z) (msg : list Z) : list (list Z) * InboundStream :=
  let insert s := drain_ready {| next_ssn := next_ssn s; pending := bt_insert ssn msg (pending s) |} in
  if (MAX_INBOUND_STREAM_PENDING <=? length (pending s))%nat then
    let '(ready, s) := drain_ready s in
    if negb (length ready =? 0)%nat then (ready, s) else insert s
  else insert s.

Definition advance_ssn_to (s : InboundStream) (ssn : Z) : InboundStream :=
  if ssn_gt (wadd16 ssn 1) (next_ssn s) then
    {| next_ssn := wadd16 ssn 1;
       pending := filter (fun kv => ssn_gt kv.1 ssn = true) (pending s) |}
  else s.

(** ** Gap blocks *)

(** [blocks.push] of the run from [start] to [end], if the offsets fit *)
Definition push_block (cum : Z) (blocks : list (Z * Z)) (run : Z * Z) : list (Z * Z) :=
  let start_off := wsub32 run.1 cum in
  let end_off := wsub32 run.2 cum in
  if (start_off <=? 65535) && (end_off <=? 65535) then blocks ++ [(start_off, end_off)] else blocks.

(** The loop over the keys, with the blocks and the current run *)
Fixpoint gap_loop (keys : list Z) (cum : Z) (blocks : list (Z * Z)) (current : option (Z * Z))
    : list (Z * Z) * option (Z * Z) :=
  match keys with
  | [] => (blocks, current)
  | tsn :: keys =>
      if tsn_diff tsn cum <=? 0 then gap_loop keys cum blocks current else
      let '(blocks, current) :=
        match current with
        | Some (start, end_) =>
            if tsn =? wadd32 end_ 1 then (blocks, (start, tsn))
            else (push_block cum blocks (start, end_), (tsn, tsn))
        | None => (blocks, (tsn, tsn))
        end in
      if (16 <=? length blocks)%nat then (blocks, Some current) else gap_loop keys cum blocks (Some current)
  end.

Definition build_gap_ack_blocks_from_map (received : list (Z * (Z * list Z))) (cum : Z) : list (Z * Z) :=
  let '(blocks, current) := gap_loop received.*1 cum [] None in
  match current with
  | Some run => if (length blocks <? 16)%nat then push_block cum blocks run else blocks
  | None => blocks
  end.

(** ** Sent chunks *)

Record ChunkRecord := {
  cr_payload : list Z;
  cr_sent_time : Z;
  cr_transmit_count : Z;
  cr_missing_reports : Z;
  cr_abandoned : bool;
  cr_fast_retransmit : bool;
  cr_needs_retransmit : bool;
  cr_fast_retransmit_time : option Z;
  cr_in_flight : bool;
  cr_acked : bool;
  cr_stream_id : Z;
  cr_ssn : Z;
  cr_flags : Z;
  cr_max_retransmits : option Z;
  cr_expiry : option Z;
}.
#[export] Instance eta_ChunkRecord : Settable ChunkRecord :=
  settable! Build_ChunkRecord < cr_payload; cr_sent_time; cr_transmit_count; cr_missing_reports; cr_abandoned;
    cr_fast_retransmit; cr_needs_retransmit; cr_fast_retransmit_time; cr_in_flight; cr_acked; cr_stream_id;
    cr_ssn; cr_flags; cr_max_retransmits; cr_expiry >.

Record OutboundChunk := {
  oc_stream_id : Z;
  oc_ppid : Z;
  oc_payload : list Z;
  oc_flags : Z;
  oc_ssn : Z;
  oc_max_retransmits : option Z;
  oc_expiry : option Z;
}.

Record SackOutcome := {
  flight_reduction : Z;
  bytes_acked_by_cum_tsn : Z;
  bytes_acked_by_gap : Z;
  rtt_samples : list f64;
  retransmit : list (Z * list Z);
  head_moved : bool;
  max_reported : Z;
  bytes_acked_per_stream : list (Z * Z);
}.
#[export] Instance eta_SackOutcome : Settable SackOutcome :=
  settable! Build_SackOutcome < flight_reduction; bytes_acked_by_cum_tsn; bytes_acked_by_gap; rtt_samples;
    retransmit; head_moved; max_reported; bytes_acked_per_stream >.
Definition SackOutcome_default : SackOutcome := {|
  flight_reduction := 0; bytes_acked_by_cum_tsn := 0; bytes_acked_by_gap := 0; rtt_samples := [];
  retransmit := []; head_moved := false; max_reported := 0; bytes_acked_per_stream := [] |}.

Abbreviation SentQueue := (list (Z * ChunkRecord)).

(** The highest TSN a SACK reports *)
Definition highest_reported (cum : Z) (gaps : list (Z * Z)) : Z :=
  fold_left (fun m '(_, end_) =>
    let block_end := wadd32 cum end_ in if 0 <? tsn_diff block_end m then block_end else m) gaps cum.

Definition rtt_sample (now : Z) (r : ChunkRecord) : f64 := as_secs_f64 (duration_since now (cr_sent_time r)).

(** Step 1: a chunk that the cumulative TSN acknowledges is removed. *)
Definition ack_removed (now : Z) (o : SackOutcome) (r : ChunkRecord) : SackOutcome :=
  let l := len (cr_payload r) in
  let o := o <| bytes_acked_per_stream ::= fun ps => ps ++ [(cr_stream_id r, l)] |> in
  let o := if cr_in_flight r then o <| flight_reduction ::= Z.add l |> else o in
  let o := o <| bytes_acked_by_cum_tsn ::= Z.add l |> in
  if (cr_transmit_count r =? 1) && negb (cr_acked r)
  then o <| rtt_samples ::= fun l => l ++ [rtt_sample now r] |> else o.

(** Step 2: the chunks of a gap block *)
Definition block_keys (q : SentQueue) (s e : Z) : list Z :=
  if s <=? e then filter (fun k => s ≤ k ∧ k ≤ e) q.*1
  else filter (fun k => s ≤ k) q.*1 ++ filter (fun k => k ≤ e) q.*1.

Definition ack_gap (now : Z) (qo : SentQueue * SackOutcome) (tsn : Z) : SentQueue * SackOutcome :=
  let '(q, o) := qo in
  match bt_get tsn q with
  | Some r =>
      if cr_acked r then (q, o) else
      let l := len (cr_payload r) in
      let o := o <| bytes_acked_by_gap ::= Z.add l |>
                 <| bytes_acked_per_stream ::= fun ps => ps ++ [(cr_stream_id r, l)] |> in
      let o := if cr_in_flight r then o <| flight_reduction ::= Z.add l |> else o in
      let o := if cr_transmit_count r =? 1
               then o <| rtt_samples ::= fun l => l ++ [rtt_sample now r] |> else o in
      (bt_insert tsn (r <| cr_acked := true |> <| cr_in_flight := false |> <| cr_payload := [] |>) q, o)
  | None => (q, o)
  end.

Definition ack_block (now cum : Z) (qo : SentQueue * SackOutcome) (block : Z * Z) : SentQueue * SackOutcome :=
  fold_left (ack_gap now) (block_keys qo.1 (wadd32 cum block.1) (wadd32 cum block.2)) qo.

(** Step 3: missing reports.  The record, the bytes that leave the flight and
    whether the chunk is to be sent again *)
Definition can_fast_retransmit (now max_tsn_retransmits : Z) (r : ChunkRecord) : bool :=
  if cr_fast_retransmit r then
    if max_tsn_retransmits <=? cr_transmit_count r then false else
    match cr_fast_retransmit_time r with
    | Some fr_time =>
        if duration_since now fr_time <? millis 50 then false else DUP_THRESH <=? cr_missing_reports r
    | None => true
    end
  else true.

Definition report_missing (now max_tsn_retransmits max_rep : Z) (count : bool) (tsn : Z) (r : ChunkRecord)
    : ChunkRecord * Z * bool :=
  if (tsn_diff tsn max_rep <=? 0) && negb (cr_acked r) then
    if negb count then (r, 0, false) else
    let r := r <| cr_missing_reports := Z.min 255 (cr_missing_reports r + 1) |> in
    if (DUP_THRESH <=? cr_missing_reports r) && negb (cr_abandoned r) && can_fast_retransmit now max_tsn_retransmits r then
      let lost := if cr_in_flight r then len (cr_payload r) else 0 in
      (r <| cr_missing_reports := 0 |> <| cr_transmit_count ::= Z.add 1 |> <| cr_sent_time := now |>
         <| cr_fast_retransmit := true |> <| cr_needs_retransmit := true |> <| cr_fast_retransmit_time := Some now |>
         <| cr_in_flight := false |>, lost, true)
    else (r, 0, false)
  else (r, 0, false).

Fixpoint report_all (now max_tsn_retransmits max_rep : Z) (count : bool) (q : SentQueue)
    : SentQueue * Z * list (Z * list Z) :=
  match q with
  | [] => ([], 0, [])
  | (tsn, r) :: q =>
      let '(r', lost, again) := report_missing now max_tsn_retransmits max_rep count tsn r in
      let '(q', lost', retr) := report_all now max_tsn_retransmits max_rep count q in
      ((tsn, r') :: q', lost + lost', if again then (tsn, cr_payload r') :: retr else retr)
  end.

(** A SACK older than everything outstanding changes nothing. *)
Definition late_sack (q : SentQueue) (cum : Z) (gaps : list (Z * Z)) : bool :=
  match bt_first q with
  | Some lowest => (tsn_diff cum (wsub32 lowest 1) <? 0) && (tsn_diff (highest_reported cum gaps) lowest <? 0)
  | None => false
  end.

Definition apply_sack_to_sent_queue (q : SentQueue) (cum : Z) (gaps : list (Z * Z)) (now : Z) (count : bool)
    (max_tsn_retransmits : Z) : SentQueue * SackOutcome :=
  let before_head := bt_first q in
  if late_sack q cum gaps then (q, SackOutcome_default) else
  let max_rep := highest_reported cum gaps in
  let outcome := SackOutcome_default <| max_reported := max_rep |> in
  let removed := filter (fun kv => tsn_diff kv.1 cum ≤ 0) q in
  let q := filter (fun kv => ¬ tsn_diff kv.1 cum ≤ 0) q in
  let outcome := fold_left (ack_removed now) removed.*2 outcome in
  let '(q, outcome) := fold_left (ack_block now cum) gaps (q, outcome) in
  let '(q, lost, retr) := report_all now max_tsn_retransmits max_rep count q in
  (q, outcome <| flight_reduction ::= Z.add lost |> <| retransmit := retr |>
              <| head_moved := negb (bool_decide (before_head = bt_first q)) |>).

(** ** Retransmission timeout *)

Definition RTO_ALPHA : f64 := f_div (f_of_Z 1) (f_of_Z 8).
Definition RTO_BETA : f64 := f_div (f_of_Z 1) (f_of_Z 4).

Record RtoCalculator := { srtt : f64; rttvar : f64; rto : f64; rto_min : f64; rto_max : f64 }.
#[export] Instance eta_RtoCalculator : Settable RtoCalculator :=
  settable! Build_RtoCalculator < srtt; rttvar; rto; rto_min; rto_max >.

Definition RtoCalculator_new (initial min max : f64) : RtoCalculator :=
  {| srtt := f_of_Z 0; rttvar := f_of_Z 0; rto := initial; rto_min := min; rto_max := max |}.

(** [(srtt + 4.0 * rttvar).clamp(min, max)] *)
Definition computed_rto {E} (c : RtoCalculator) : res E f64 :=
  f_clamp (f_add (srtt c) (f_mul (f_of_Z 4) (rttvar c))) (rto_min c) (rto_max c).

Definition RtoCalculator_update {E} (c : RtoCalculator) (rtt : f64) : res E RtoCalculator :=
  let c :=
    if SFeqb (srtt c) (f_of_Z 0) then c <| srtt := rtt |> <| rttvar := f_div rtt (f_of_Z 2) |>
    else
      let var := f_add (f_mul (f_sub (f_of_Z 1) RTO_BETA) (rttvar c))
                       (f_mul RTO_BETA (f_abs (f_sub (srtt c) rtt))) in
      c <| rttvar := var |>
        <| srtt := f_add (f_mul (f_sub (f_of_Z 1) RTO_ALPHA) (srtt c)) (f_mul RTO_ALPHA rtt) |> in
  r ← computed_rto c;
  Ok (c <| rto := r |>).

Definition RtoCalculator_backoff (c : RtoCalculator) : RtoCalculator :=
  c <| rto := f_min (f_mul (rto c) (f_of_Z 2)) (rto_max c) |>.
