(* ===== verification/Sctp.v ===== *)
(** * The SCTP association ([src/transports/sctp.rs])

    [SctpInner] as a state and its methods as state transformers.  The fields
    of the struct are grouped: what the receiving side keeps ([rx]), what the
    sending side keeps ([tx]), congestion control and timers ([cc]), and the
    association itself ([assoc]).  A method runs without interruption, at the
    instant [now]; [wall] is the wall clock in milliseconds.  Packets handed to
    DTLS are appended to [out].  Wake-ups ([Notify]) only choose when the loop
    turns, so they are no part of the state, and neither is the cached timeout.

    A method can fail with an error of the source; [Hangs] marks a task that
    waits for window credit in the middle of a method, or that loops forever. *)
From Stdlib Require Import SpecFloat.
From S2P Require Import Prelude Core BytesCrate BTree Float64 StateRes RecordSet DataChannel Crc32c SctpQueues.

Definition SCTP_COMMON_HEADER_SIZE : nat := 12.
Definition CHUNK_HEADER_SIZE : nat := 4.
Definition MAX_SCTP_PACKET_SIZE : Z := 1200.
Definition DEFAULT_MAX_PAYLOAD_SIZE : Z := 1172.
Definition CWND_INITIAL : Z := MAX_SCTP_PACKET_SIZE * 10.
Definition SSTHRESH_MIN : Z := MAX_SCTP_PACKET_SIZE * 4.
Definition CWND_MIN_AFTER_RTO : Z := MAX_SCTP_PACKET_SIZE * 4.
Definition MAX_DUPS_BUFFER_SIZE : nat := 32.
Definition MAX_RECEIVED_QUEUE_SIZE : nat := 512.
Definition FAST_RECOVERY_REENTRY_COOLDOWN : Z := millis 500.
Definition SCTP_MAX_INIT_RETRANS : Z := 8.
Definition SACK_DELAY : Z := millis 0.
Definition RETRANSMIT_BURST : Z := 4.
Definition COOKIE_LIFETIME_MS : Z := 60000.
Definition USIZE_MAX : Z := 18446744073709551615.

Definition CT_DATA : Z := 0.
Definition CT_INIT : Z := 1.
Definition CT_INIT_ACK : Z := 2.
Definition CT_SACK : Z := 3.
Definition CT_HEARTBEAT : Z := 4.
Definition CT_HEARTBEAT_ACK : Z := 5.
Definition CT_ABORT : Z := 6.
Definition CT_SHUTDOWN : Z := 7.
Definition CT_SHUTDOWN_ACK : Z := 8.
Definition CT_COOKIE_ECHO : Z := 10.
Definition CT_COOKIE_ACK : Z := 11.
Definition CT_RECONFIG : Z := 130.
Definition CT_FORWARD_TSN : Z := 192.
Definition RECONFIG_PARAM_OUTGOING_SSN_RESET : Z := 13.
Definition RECONFIG_PARAM_RESPONSE : Z := 16.
Definition RECONFIG_RESPONSE_SUCCESS_NOTHING_TO_DO : Z := 0.
Definition RECONFIG_RESPONSE_SUCCESS_PERFORMED : Z := 1.

Inductive SctpState := New | Connecting | Connected | Closed.
#[export] Instance SctpState_eq_dec : EqDecision SctpState.
Proof. solve_decision. Defined.

(** Why a method stops *)
Inductive stop := Failed (e : RtcError) | Hangs.

(** ** State *)

Record RxState := {
  cumulative_tsn_ack : Z;
  received_queue : list (Z * (Z * list Z));
  inbound_streams : list (Z * InboundStream);
  used_rwnd : Z;
  dups_buffer : list Z;
  sack_needed : bool;
  sack_delayed_until : option Z;
}.
Record TxState := {
  next_tsn : Z;
  sent_queue : SentQueue;
  outbound_queue : list OutboundChunk;
  queued_bytes : Z;
  flight_size : Z;
  stream_buffered : list (Z * Z);
  advanced_peer_ack_tsn : Z;
  forward_tsn_pending : bool;
  forward_tsn_streams : list (Z * Z);
  has_pr_sctp : bool;
}.
Record CcState := {
  cwnd_tx : Z;
  cwnd_rx : Z;
  ssthresh : Z;
  partial_bytes_acked : Z;
  peer_rwnd : Z;
  fast_recovery_exit_tsn : Z;
  fast_recovery_active : bool;
  fast_recovery_transmit : bool;
  last_fast_recovery_entry : Z;
  window_limited : bool;
  rto_state : RtoCalculator;
  last_t3_fire_time : option Z;
  last_send_or_ack : Z;
  tlp_probe_sent : bool;
  last_sack_sig : Z;
}.
Record AssocState := {
  state : SctpState;
  verification_tag : Z;
  remote_verification_tag : Z;
  association_error_count : Z;
  heartbeat_sent_time : option Z;
  consecutive_heartbeat_failures : Z;
  last_sack_time : option Z;
  t1_chunk : option (Z * list Z * Z);
  t1_failures : Z;
  t1_sent_time : option Z;
  t1_active : bool;
  reconfig_request_sn : Z;
  peer_reconfig_request_sn : Z;
  close_reason : option string;
}.
Record SctpStats := {
  stats_bytes_sent : Z;
  stats_bytes_received : Z;
  stats_packets_sent : Z;
  stats_packets_received : Z;
  stats_retransmissions : Z;
  stats_heartbeats_sent : Z;
  stats_tlp_probes : Z;
}.
Record SctpInner := {
  rx : RxState;
  tx : TxState;
  cc : CcState;
  assoc : AssocState;
  stats : SctpStats;
  data_channels : list DataChannel;
  (** the ids sent to [new_data_channel_tx] *)
  new_channels : list Z;
  out : list (list Z);
  (** whether the receiver of [outgoing_packet_tx] is still there *)
  out_open : bool;
  draws : nat;
}.

#[export] Instance eta_RxState : Settable RxState :=
  settable! Build_RxState < cumulative_tsn_ack; received_queue; inbound_streams; used_rwnd; dups_buffer;
    sack_needed; sack_delayed_until >.
#[export] Instance eta_TxState : Settable TxState :=
  settable! Build_TxState < next_tsn; sent_queue; outbound_queue; queued_bytes; flight_size; stream_buffered;
    advanced_peer_ack_tsn; forward_tsn_pending; forward_tsn_streams; has_pr_sctp >.
#[export] Instance eta_CcState : Settable CcState :=
  settable! Build_CcState < cwnd_tx; cwnd_rx; ssthresh; partial_bytes_acked; peer_rwnd; fast_recovery_exit_tsn;
    fast_recovery_active; fast_recovery_transmit; last_fast_recovery_entry; window_limited; rto_state;
    last_t3_fire_time; last_send_or_ack; tlp_probe_sent; last_sack_sig >.
#[export] Instance eta_AssocState : Settable AssocState :=
  settable! Build_AssocState < state; verification_tag; remote_verification_tag; association_error_count;
    heartbeat_sent_time; consecutive_heartbeat_failures; last_sack_time; t1_chunk; t1_failures; t1_sent_time;
    t1_active; reconfig_request_sn; peer_reconfig_request_sn; close_reason >.
#[export] Instance eta_SctpStats : Settable SctpStats :=
  settable! Build_SctpStats < stats_bytes_sent; stats_bytes_received; stats_packets_sent; stats_packets_received;
    stats_retransmissions; stats_heartbeats_sent; stats_tlp_probes >.
#[export] Instance eta_SctpInner : Settable SctpInner :=
  settable! Build_SctpInner < rx; tx; cc; assoc; stats; data_channels; new_channels; out; out_open; draws >.

(** What [SctpTransport::new] takes from its arguments and the configuration *)
Record SctpConfig := {
  local_port : Z;
  remote_port : Z;
  is_client : bool;
  has_listener : bool;
  cookie_hmac_key : list Z;
  local_rwnd : Z;
  max_association_retransmits : Z;
  heartbeat_interval : Z;
  max_tsn_retransmits : Z;
  max_burst_packets : Z;
  max_cwnd : Z;
  max_buffered_amount : Z;
  cfg_rto_initial : Z;
  cfg_rto_min : Z;
  cfg_rto_max : Z;
}.

Definition SctpInner_new (cfg : SctpConfig) (now : Z) (channels : list DataChannel) : SctpInner := {|
  rx := {| cumulative_tsn_ack := 0; received_queue := []; inbound_streams := []; used_rwnd := 0;
           dups_buffer := []; sack_needed := false; sack_delayed_until := None |};
  tx := {| next_tsn := 0; sent_queue := []; outbound_queue := []; queued_bytes := 0; flight_size := 0;
           stream_buffered := []; advanced_peer_ack_tsn := 0; forward_tsn_pending := false;
           forward_tsn_streams := []; has_pr_sctp := false |};
  cc := {| cwnd_tx := CWND_INITIAL; cwnd_rx := CWND_INITIAL; ssthresh := USIZE_MAX; partial_bytes_acked := 0;
           peer_rwnd := 256 * 1024; fast_recovery_exit_tsn := 0; fast_recovery_active := false;
           fast_recovery_transmit := false; last_fast_recovery_entry := now - secs 10;
           window_limited := false;
           rto_state := RtoCalculator_new (as_secs_f64 (cfg_rto_initial cfg)) (as_secs_f64 (cfg_rto_min cfg))
                          (as_secs_f64 (cfg_rto_max cfg));
           last_t3_fire_time := None; last_send_or_ack := now; tlp_probe_sent := false; last_sack_sig := 0 |};
  assoc := {| state := New; verification_tag := 0; remote_verification_tag := 0; association_error_count := 0;
              heartbeat_sent_time := None; consecutive_heartbeat_failures := 0; last_sack_time := None;
              t1_chunk := None; t1_failures := 0; t1_sent_time := None; t1_active := false;
              reconfig_request_sn := 0; peer_reconfig_request_sn := 4294967295; close_reason := None |};
  stats := {| stats_bytes_sent := 0; stats_bytes_received := 0; stats_packets_sent := 0;
              stats_packets_received := 0; stats_retransmissions := 0; stats_heartbeats_sent := 0;
              stats_tlp_probes := 0 |};
  data_channels := channels; new_channels := []; out := []; out_open := true; draws := 0 |}.

(** [fetch_add] and [fetch_sub] on [usize] and [u64] *)
Definition uadd (x y : Z) : Z := as_u64 (x + y).
Definition usub (x y : Z) : Z := as_u64 (x - y).
Definition saturating_sub (x y : Z) : Z := Z.max 0 (x - y).

(** The padding after [n] bytes *)
Definition pad4 (n : nat) : nat := ((4 - n mod 4) mod 4)%nat.

(** [channels.iter().find_map(|w| w.upgrade().filter(|d| d.id == id))] *)
Definition is_channel (id : Z) (dc : DataChannel) : bool := dc_alive dc && (dc_id dc =? id).
Definition find_channel (id : Z) (l : list DataChannel) : option DataChannel := List.find (is_channel id) l.
Fixpoint update_channel (id : Z) (f : DataChannel → DataChannel) (l : list DataChannel) : list DataChannel :=
  match l with
  | [] => []
  | dc :: l => if is_channel id dc then f dc :: l else dc :: update_channel id f l
  end.

(** The initiating parameters of INIT and INIT ACK *)
Record InitParams := { init_tag : Z; init_rwnd : Z; init_tsn : Z; init_rest : list Z }.

Section engine.
Context `{BytesCrate}.
(** HMAC-SHA1, of a third-party library; [random_u32], by the number of the draw *)
Context (hmac_sha1 : list Z → list Z → list Z) (random_u32 : nat → Z).
Context (cfg : SctpConfig) (wall : option Z) (now : Z).

Abbreviation M := (stM SctpInner stop).
Abbreviation err e := (fail (Failed (Internal e))).

Definition upd_rx (f : RxState → RxState) : M unit := modify (fun s => s <| rx ::= f |>).
Definition upd_tx (f : TxState → TxState) : M unit := modify (fun s => s <| tx ::= f |>).
Definition upd_cc (f : CcState → CcState) : M unit := modify (fun s => s <| cc ::= f |>).
Definition upd_assoc (f : AssocState → AssocState) : M unit := modify (fun s => s <| assoc ::= f |>).
Definition upd_stats (f : SctpStats → SctpStats) : M unit := modify (fun s => s <| stats ::= f |>).
Definition upd_channels (f : list DataChannel → list DataChannel) : M unit :=
  modify (fun s => s <| data_channels ::= f |>).
Definition draw_u32 : M Z := fun s => (s <| draws ::= S |>, Ok (random_u32 (draws s))).

(** A read of the [bytes] crate, which aborts when the data is too short *)
Definition get {A} (r : option A) : M A := lift (or_panic r).

Definition set_state (st : SctpState) : M unit := upd_assoc (set state (fun _ => st)).
Definition set_close_reason (r : string) : M unit := upd_assoc (set close_reason (fun _ => Some r)).

(** [for m in l { f(m) }] *)
Fixpoint for_each {A} (l : list A) (f : A → M unit) : M unit :=
  match l with [] => mret tt | x :: l => f x;; for_each l f end.

(** ** Packets *)

Definition send_packet_with_tag (chunks : list (list Z)) (tag : Z) : M unit :=
  let buf := put_u16 [] (local_port cfg) in
  let buf := put_u16 buf (remote_port cfg) in
  let buf := put_u32 buf tag in
  let buf := put_u32 buf 0 in
  let buf := fold_left put_slice chunks buf in
  let checksum := sctp_crc32c buf in
  let buf := take 8 buf ++ to_le 4 checksum ++ drop 12 buf in
  upd_stats (fun st => st <| stats_bytes_sent ::= fun n => uadd n (len buf) |>
                          <| stats_packets_sent ::= fun n => uadd n 1 |>);;
  s ← get_st;
  if out_open s then modify (fun s => s <| out ::= fun l => l ++ [buf] |>)
  else
    set_close_reason "TRANSPORT_CLOSED";;
    set_state Closed;;
    err "Transport channel closed".

(** The loop over the chunks, with the batch and its length *)
Fixpoint batch_loop (chunks batch : list (list Z)) (current_len : Z) (tag : Z) : M unit :=
  match chunks with
  | [] => if (length batch =? 0)%nat then mret tt else send_packet_with_tag batch tag
  | chunk :: chunks =>
      if negb (length batch =? 0)%nat && (MAX_SCTP_PACKET_SIZE <? current_len + len chunk) then
        send_packet_with_tag batch tag;;
        batch_loop chunks [chunk] (Z.of_nat SCTP_COMMON_HEADER_SIZE + len chunk) tag
      else batch_loop chunks (batch ++ [chunk]) (current_len + len chunk) tag
  end.
Definition transmit_chunks_with_tag (chunks : list (list Z)) (tag : Z) : M unit :=
  if (length chunks =? 0)%nat then mret tt else
  batch_loop chunks [] (Z.of_nat SCTP_COMMON_HEADER_SIZE) tag.
Definition transmit_chunks (chunks : list (list Z)) : M unit :=
  s ← get_st; transmit_chunks_with_tag chunks (remote_verification_tag (assoc s)).

(** A chunk: type, flags, length, value, padding *)
Definition build_chunk (type_ flags : Z) (value : list Z) : list Z :=
  let chunk_len := (CHUNK_HEADER_SIZE + length value)%nat in
  let buf := put_u8 [] type_ in
  let buf := put_u8 buf flags in
  let buf := put_u16 buf (as_u16 (Z.of_nat chunk_len)) in
  let buf := put_slice buf value in
  Nat.iter (pad4 chunk_len) (fun b => put_u8 b 0) buf.

Definition send_chunk (type_ flags : Z) (value : list Z) (tag : Z) : M unit :=
  transmit_chunks_with_tag [build_chunk type_ flags value] tag.

Definition create_data_chunk (channel_id ppid : Z) (data : list Z) (ssn flags tsn : Z) : list Z :=
  let chunk_len := (4 + (12 + length data))%nat in
  let buf := put_u8 [] CT_DATA in
  let buf := put_u8 buf flags in
  let buf := put_u16 buf (as_u16 (Z.of_nat chunk_len)) in
  let buf := put_u32 buf tsn in
  let buf := put_u16 buf channel_id in
  let buf := put_u16 buf ssn in
  let buf := put_u32 buf ppid in
  let buf := put_slice buf data in
  Nat.iter (pad4 chunk_len) (fun b => put_u8 b 0) buf.

(** ** Buffered amounts *)

Definition publish_stream_buffered (stream_id amount : Z) : M unit :=
  upd_channels (update_channel stream_id (on_buffered_amount amount)).

Definition account_stream_queued (stream_id l : Z) : M unit :=
  if l =? 0 then mret tt else
  s ← get_st;
  let amount := Z.min USIZE_MAX (default 0 (bt_get stream_id (stream_buffered (tx s))) + l) in
  upd_tx (set stream_buffered (bt_insert stream_id amount));;
  publish_stream_buffered stream_id amount.

Definition account_stream_acked (stream_id l : Z) : M unit :=
  s ← get_st;
  match bt_get stream_id (stream_buffered (tx s)) with
  | Some entry =>
      let amount := saturating_sub entry l in
      upd_tx (set stream_buffered (bt_insert stream_id amount));;
      publish_stream_buffered stream_id amount
  | None => publish_stream_buffered stream_id 0
  end.

Definition clear_stream_buffered (stream_id : Z) : M unit :=
  upd_tx (set stream_buffered (bt_remove stream_id));;
  publish_stream_buffered stream_id 0.

(** ** Sending messages *)

(** The fragments of a message; the loop never ends when the size is 0. *)
Fixpoint fragment_loop (fuel : nat) (data : list Z) (max_payload_size : nat) (offset : nat)
    (mk : list Z → Z → OutboundChunk) (flags_base : Z) : res stop (list OutboundChunk) :=
  let total_len := length data in
  if (offset <? total_len)%nat then
    match fuel with
    | O => Err Hangs
    | S fuel =>
        let chunk_payload_size := ((total_len - offset) `min` max_payload_size)%nat in
        let flags := flags_base in
        let flags := if (offset =? 0)%nat then Z.lor flags 0x02 else flags in
        let flags := if (total_len <=? offset + chunk_payload_size)%nat then Z.lor flags 0x01 else flags in
        payload ← or_panic (bytes_slice data offset (offset + chunk_payload_size));
        rest ← fragment_loop fuel data max_payload_size (offset + chunk_payload_size) mk flags_base;
        Ok (mk payload flags :: rest)
    end
  else Ok [].

Definition send_data_raw (channel_id ppid : Z) (data : list Z) : M unit :=
  s ← get_st;
  let dc_opt := find_channel channel_id (data_channels s) in
  let is_dcep := ppid =? DATA_CHANNEL_PPID_DCEP in
  '(ordered, ssn, max_payload_size, max_retransmits, expiry) ←
    match dc_opt with
    | Some dc =>
        let ordered := if is_dcep then false else dc_ordered dc in
        (if ordered then upd_channels (update_channel channel_id (set dc_next_ssn (fun n => wadd16 n 1))) else mret tt);;
        let ssn := if ordered then dc_next_ssn dc else 0 in
        let size := Z.min (dc_max_payload_size dc) DEFAULT_MAX_PAYLOAD_SIZE in
        if is_dcep then mret (ordered, ssn, size, None, None) else
        let max_retransmits := dc_max_retransmits dc in
        let expiry := (fun ms => now + millis ms) <$> dc_max_packet_life_time dc in
        when (bool_decide (is_Some max_retransmits) || bool_decide (is_Some expiry))
          (upd_tx (set has_pr_sctp (fun _ => true)));;
        mret (ordered, ssn, size, max_retransmits, expiry)
    | None => mret (negb is_dcep, 0, DEFAULT_MAX_PAYLOAD_SIZE, None, None)
    end;
  let total_len := len data in
  let flags_base := if negb ordered then 0x04 else 0x00 in
  s ← get_st;
  if bool_decide (state (assoc s) = Closed) then err "sctp association closed" else
  if negb ((max_buffered_amount cfg =? 0) ||
           (flight_size (tx s) + queued_bytes (tx s) <=? max_buffered_amount cfg)) then fail Hangs else
  upd_tx (set queued_bytes (fun n => uadd n total_len));;
  account_stream_queued channel_id total_len;;
  let mk payload flags := {| oc_stream_id := channel_id; oc_ppid := ppid; oc_payload := payload; oc_flags := flags;
    oc_ssn := ssn; oc_max_retransmits := max_retransmits; oc_expiry := expiry |} in
  if total_len =? 0 then upd_tx (set outbound_queue (fun q => q ++ [mk [] (Z.lor flags_base 0x03)])) else
  frags ← lift (fragment_loop (length data) data (Z.to_nat max_payload_size) 0 mk flags_base);
  upd_tx (set outbound_queue (fun q => q ++ frags)).

Definition send_data (channel_id : Z) (data : list Z) : M unit :=
  send_data_raw channel_id DATA_CHANNEL_PPID_BINARY data.
Definition send_text (channel_id : Z) (data : list Z) : M unit :=
  send_data_raw channel_id DATA_CHANNEL_PPID_STRING data.

Definition send_dcep_open (dc : DataChannel) : M unit :=
  let channel_type :=
    if dc_ordered dc then
      if bool_decide (is_Some (dc_max_retransmits dc)) then 0x01 else
      if bool_decide (is_Some (dc_max_packet_life_time dc)) then 0x02 else 0x00
    else
      if bool_decide (is_Some (dc_max_retransmits dc)) then 0x81 else
      if bool_decide (is_Some (dc_max_packet_life_time dc)) then 0x82 else 0x80 in
  let reliability_parameter :=
    match dc_max_retransmits dc, dc_max_packet_life_time dc with
    | Some r, _ => r
    | None, Some t => t
    | None, None => 0
    end in
  send_data_raw (dc_id dc) DATA_CHANNEL_PPID_DCEP
    (DataChannelOpen_marshal {| open_message_type := DCEP_TYPE_OPEN; channel_type := channel_type; priority := 0;
       reliability_parameter := reliability_parameter; open_label := dc_label dc; open_protocol := dc_protocol dc |}).

Definition send_dcep_ack (channel_id : Z) : M unit :=
  send_data_raw channel_id DATA_CHANNEL_PPID_DCEP (DataChannelAck_marshal {| ack_message_type := DCEP_TYPE_ACK |}).

(** ** SACK chunks *)

Definition advertised_rwnd (s : SctpInner) : Z :=
  let byte_based := saturating_sub (local_rwnd cfg) (used_rwnd (rx s)) in
  if ((MAX_RECEIVED_QUEUE_SIZE * 7 / 8) `max` 1 <=? length (received_queue (rx s)))%nat then 0 else
  if byte_based <? 4294967296 then byte_based else 0.

Definition build_gap_ack_blocks (s : SctpInner) (cum : Z) : list (Z * Z) :=
  build_gap_ack_blocks_from_map (received_queue (rx s)) cum.

Definition create_sack_chunk : M (list Z) :=
  s ← get_st;
  let cum := cumulative_tsn_ack (rx s) in
  let gap_blocks := build_gap_ack_blocks s cum in
  let dups := take 32 (dups_buffer (rx s)) in
  upd_rx (set dups_buffer (drop 32));;
  let sack := put_u32 [] cum in
  let sack := put_u32 sack (advertised_rwnd s) in
  let sack := put_u16 sack (as_u16 (Z.of_nat (length gap_blocks))) in
  let sack := put_u16 sack (as_u16 (Z.of_nat (length dups))) in
  let sack := fold_left (fun b '(start, end_) => put_u16 (put_u16 b start) end_) gap_blocks sack in
  let sack := fold_left put_u32 dups sack in
  mret (build_chunk CT_SACK 0 sack).

Definition schedule_sack_delayed : M unit :=
  s ← get_st;
  match sack_delayed_until (rx s) with
  | Some _ => upd_rx (fun r => r <| sack_delayed_until := None |> <| sack_needed := true |>)
  | None => upd_rx (set sack_delayed_until (fun _ => Some (now + SACK_DELAY)))
  end.

Definition schedule_sack_immediate : M unit :=
  upd_rx (fun r => r <| sack_delayed_until := None |> <| sack_needed := true |>).

Definition flush_expired_sack_delay : M unit :=
  s ← get_st;
  match sack_delayed_until (rx s) with
  | Some d =>
      when (d <=? now) (upd_rx (fun r => r <| sack_delayed_until := None |> <| sack_needed := true |>))
  | None => mret tt
  end.

(** ** Partial reliability *)

Definition should_abandon (r : ChunkRecord) : bool :=
  cr_abandoned r ||
  match cr_max_retransmits r with Some max_r => max_r <? cr_transmit_count r | None => false end ||
  match cr_expiry r with Some exp => exp <? now | None => false end.

(** Marking the chunks of the abandoned messages; the flight shrinks. *)
Fixpoint mark_abandoned (set_ : list (Z * Z)) (q : SentQueue) (flight : Z) : SentQueue * Z :=
  match q with
  | [] => ([], flight)
  | (tsn, r) :: q =>
      if bool_decide ((cr_stream_id r, cr_ssn r) ∈ set_) then
        let flight := if cr_in_flight r then saturating_sub flight (len (cr_payload r)) else flight in
        let '(q, flight) := mark_abandoned set_ q flight in
        ((tsn, r <| cr_abandoned := true |> <| cr_needs_retransmit := false |> <| cr_in_flight := false |>) :: q, flight)
      else
        let '(q, flight) := mark_abandoned set_ q flight in
        ((tsn, r) :: q, flight)
  end.

(** The loop that moves the point past abandoned chunks *)
Fixpoint advance_point (q : SentQueue) (new_advanced : Z) (has_abandoned : bool) : Z * bool :=
  match q with
  | [] => (new_advanced, has_abandoned)
  | (tsn, r) :: q =>
      if negb (tsn_gt tsn new_advanced) && negb (tsn =? wadd32 new_advanced 1)
      then advance_point q new_advanced has_abandoned else
      if negb (tsn =? wadd32 new_advanced 1) then (new_advanced, has_abandoned) else
      if cr_abandoned r then advance_point q tsn true else (new_advanced, has_abandoned)
  end.

(** The highest sequence number abandoned per stream *)
Definition forward_pairs (removed : SentQueue) : list (Z * Z) :=
  fold_left (fun m '(_, r) =>
    if cr_abandoned r then
      let e := default 0 (bt_get (cr_stream_id r) m) in
      bt_insert (cr_stream_id r) (if ssn_gt (cr_ssn r) e || (e =? 0) then cr_ssn r else e) m
    else m) removed [].

Definition update_advanced_peer_ack_point : M unit :=
  s ← get_st;
  let t := tx s in
  let set_ := (fun r => (cr_stream_id r, cr_ssn r)) <$>
    filter (fun r => (negb (cr_acked r || cr_abandoned r) && should_abandon r) = true) (sent_queue t).*2 in
  let '(q, flight) := mark_abandoned set_ (sent_queue t) (flight_size t) in
  upd_tx (fun t => t <| sent_queue := q |> <| flight_size := flight |>);;
  let last_sacked := cumulative_tsn_ack (rx s) in
  let advanced := if tsn_gt last_sacked (advanced_peer_ack_tsn t) then last_sacked else advanced_peer_ack_tsn t in
  let '(new_advanced, has_abandoned) := advance_point q advanced false in
  when (has_abandoned && tsn_gt new_advanced advanced)
    (upd_tx (fun t => t <| advanced_peer_ack_tsn := new_advanced |> <| forward_tsn_pending := true |>
       <| forward_tsn_streams := forward_pairs (filter (fun kv => tsn_gt kv.1 new_advanced = false) q) |>
       <| sent_queue := filter (fun kv => tsn_gt kv.1 new_advanced = true) q |>)).

Definition create_forward_tsn_chunk : M (option (list Z)) :=
  s ← get_st;
  let advanced := advanced_peer_ack_tsn (tx s) in
  if negb (tsn_gt advanced (cumulative_tsn_ack (rx s))) then mret None else
  let pairs := forward_tsn_streams (tx s) in
  upd_tx (set forward_tsn_streams (fun _ => []));;
  let body := put_u32 [] advanced in
  let body := fold_left (fun b '(sid, ssn) => put_u16 (put_u16 b sid) ssn) pairs body in
  mret (Some (build_chunk CT_FORWARD_TSN 0 body)).

(** ** Transmission *)

(** The retransmit phase: the queue, the flight and the chunks to send *)
Fixpoint retransmit_phase (q : SentQueue) (flight : Z) : SentQueue * Z * list (list Z) :=
  match q with
  | [] => ([], flight, [])
  | (tsn, r) :: q =>
      if cr_needs_retransmit r then
        let flight := if cr_in_flight r then flight else uadd flight (len (cr_payload r)) in
        let '(q, flight, chunks) := retransmit_phase q flight in
        ((tsn, r <| cr_in_flight := true |> <| cr_needs_retransmit := false |> <| cr_sent_time := now |>) :: q,
         flight, cr_payload r :: chunks)
      else
        let '(q, flight, chunks) := retransmit_phase q flight in
        ((tsn, r) :: q, flight, chunks)
  end.

(** The chunks that fit: the batch and what remains *)
Fixpoint take_batch (outbound : list OutboundChunk) (budget : Z) (count : nat)
    : list OutboundChunk * list OutboundChunk :=
  match outbound with
  | [] => ([], [])
  | c :: outbound' =>
      if (0 <? budget) && (count <? 1000)%nat then
        let wire := (CHUNK_HEADER_SIZE + 12 + length (oc_payload c))%nat in
        let padded := Z.of_nat (wire + pad4 wire) in
        let '(batch, rest) := take_batch outbound' (saturating_sub budget padded) (S count) in
        (c :: batch, rest)
      else ([], outbound)
  end.

Definition new_record (c : OutboundChunk) (wire_chunk : list Z) : ChunkRecord := {|
  cr_payload := wire_chunk; cr_sent_time := now; cr_transmit_count := 1; cr_missing_reports := 0;
  cr_abandoned := false; cr_fast_retransmit := false; cr_needs_retransmit := false;
  cr_fast_retransmit_time := None; cr_in_flight := true; cr_acked := false; cr_stream_id := oc_stream_id c;
  cr_ssn := oc_ssn c; cr_flags := oc_flags c; cr_max_retransmits := oc_max_retransmits c; cr_expiry := oc_expiry c |}.

(** Numbering the batch *)
Fixpoint send_batch (batch : list OutboundChunk) (t : TxState) : TxState * list (list Z) :=
  match batch with
  | [] => (t, [])
  | c :: batch =>
      let tsn := next_tsn t in
      let wire_chunk := create_data_chunk (oc_stream_id c) (oc_ppid c) (oc_payload c) (oc_ssn c) (oc_flags c) tsn in
      let t := t <| next_tsn := wadd32 tsn 1 |> <| sent_queue ::= bt_insert tsn (new_record c wire_chunk) |>
                 <| flight_size ::= fun f => uadd f (len wire_chunk) |> in
      let '(t, chunks) := send_batch batch t in
      (t, wire_chunk :: chunks)
  end.

Definition note_send_or_ack : M unit := upd_cc (set last_send_or_ack (fun _ => now)).

Definition effective_window (s : SctpInner) : Z :=
  let burst_limit := if 0 <? max_burst_packets cfg then max_burst_packets cfg * MAX_SCTP_PACKET_SIZE
                     else 4 * MAX_SCTP_PACKET_SIZE in
  Z.min (Z.min (flight_size (tx s) + burst_limit) (cwnd_tx (cc s))) (peer_rwnd (cc s)).

(** The SACK that is due *)
Definition take_sack : M (list (list Z)) :=
  s ← get_st;
  if sack_needed (rx s) then
    upd_rx (set sack_needed (fun _ => false));;
    c ← create_sack_chunk; mret [c]
  else mret [].

Definition transmit_retransmissions : M (list (list Z)) :=
  s ← get_st;
  let '(q, flight, chunks) := retransmit_phase (sent_queue (tx s)) (flight_size (tx s)) in
  upd_tx (fun t => t <| sent_queue := q |> <| flight_size := flight |>);;
  when (negb (length chunks =? 0)%nat) (upd_cc (set fast_recovery_transmit (fun _ => false)));;
  mret chunks.

Definition transmit_new (window : Z) : M (list (list Z)) :=
  s ← get_st;
  let available := saturating_sub window (flight_size (tx s)) in
  let '(batch, rest) := take_batch (outbound_queue (tx s)) available 0 in
  let dequeued_bytes := Z.of_nat (sum_list_with (fun c => length (oc_payload c)) batch) in
  upd_cc (set window_limited (fun _ => negb (length rest =? 0)%nat || (1000 <=? length batch)%nat));;
  let t := tx s <| outbound_queue := rest |> <| queued_bytes ::= fun n => usub n dequeued_bytes |> in
  let '(t, chunks) := send_batch batch t in
  upd_tx (fun _ => t);;
  when (negb (length chunks =? 0)%nat) note_send_or_ack;;
  mret chunks.

Definition transmit_forward_tsn : M (list (list Z)) :=
  s ← get_st;
  if has_pr_sctp (tx s) then
    update_advanced_peer_ack_point;;
    s ← get_st;
    let pending := forward_tsn_pending (tx s) in
    upd_tx (set forward_tsn_pending (fun _ => false));;
    if pending then
      fwd ← create_forward_tsn_chunk;
      mret (match fwd with Some c => [c] | None => [] end)
    else mret []
  else mret [].

Definition transmit : M unit :=
  sack ← take_sack;
  s ← get_st;
  let window := effective_window s in
  again ← transmit_retransmissions;
  fresh ← transmit_new window;
  fwd ← transmit_forward_tsn;
  let chunks_to_send := sack ++ again ++ fresh ++ fwd in
  if (length chunks_to_send =? 0)%nat then mret tt else transmit_chunks chunks_to_send.

(** ** Setting up *)

Definition t1_start (chunk_type : Z) (chunk_body : list Z) (vtag : Z) : M unit :=
  upd_assoc (fun a => a <| t1_chunk := Some (chunk_type, chunk_body, vtag) |> <| t1_failures := 0 |>
                        <| t1_sent_time := Some now |> <| t1_active := true |>).
Definition t1_cancel : M unit :=
  upd_assoc (fun a => a <| t1_active := false |> <| t1_chunk := None |> <| t1_sent_time := None |>
                        <| t1_failures := 0 |>).

Definition generate_cookie : list Z :=
  let timestamp := to_be 8 (default 0 wall) in
  timestamp ++ hmac_sha1 (cookie_hmac_key cfg) timestamp.

Definition validate_cookie (cookie : list Z) : bool :=
  let now_ms := default 0 wall in
  if negb (length cookie =? 28)%nat then false else
  let timestamp := take 8 cookie in
  let received_mac := drop 8 cookie in
  if negb (bool_decide (hmac_sha1 (cookie_hmac_key cfg) timestamp = received_mac)) then false else
  let stamp_ms := of_be timestamp in
  if (now_ms <? stamp_ms) || (COOKIE_LIFETIME_MS <? now_ms - stamp_ms) then false else true.

(** Tag, window, streams, initial TSN and the two extension parameters *)
Definition init_prefix (tag tsn : Z) : list Z :=
  let b := put_u32 [] tag in
  let b := put_u32 b (as_u32 (local_rwnd cfg)) in
  let b := put_u16 b 10 in
  let b := put_u16 b 10 in
  let b := put_u32 b tsn in
  let b := put_u16 b 0xC000 in
  let b := put_u16 b 4 in
  let b := put_u16 b 0x8008 in
  let b := put_u16 b 5 in
  let b := put_u8 b 0xC0 in
  let b := put_u8 b 0 in
  put_u16 b 0.

Definition send_init : M unit :=
  local_tag ← draw_u32;
  upd_assoc (set verification_tag (fun _ => local_tag));;
  initial_tsn ← draw_u32;
  upd_tx (set next_tsn (fun _ => initial_tsn));;
  let b := init_prefix local_tag initial_tsn in
  let b := put_u16 b 12 in
  let b := put_u16 b 6 in
  let b := put_u16 b 5 in
  let init_params := put_u16 b 0 in
  send_chunk CT_INIT 0 init_params 0;;
  t1_start CT_INIT init_params 0.

(** The fixed parameters *)
Definition get_init (chunk : list Z) : M InitParams :=
  '(initiate_tag, buf) ← get (get_u32 chunk);
  '(a_rwnd, buf) ← get (get_u32 buf);
  '(_, buf) ← get (get_u16 buf);
  '(_, buf) ← get (get_u16 buf);
  '(initial_tsn, buf) ← get (get_u32 buf);
  mret {| init_tag := initiate_tag; init_rwnd := a_rwnd; init_tsn := initial_tsn; init_rest := buf |}.

(** What both sides take from them *)
Definition learn_init (p : InitParams) : M unit :=
  upd_cc (fun c => c <| peer_rwnd := init_rwnd p |> <| ssthresh := Z.max (init_rwnd p) SSTHRESH_MIN |>);;
  upd_assoc (set remote_verification_tag (fun _ => init_tag p));;
  upd_rx (set cumulative_tsn_ack (fun _ => wsub32 (init_tsn p) 1)).

Definition handle_init (chunk : list Z) : M unit :=
  if (remaining chunk <? 16)%nat then mret tt else
  p ← get_init chunk;
  learn_init p;;
  local_tag ← draw_u32;
  upd_assoc (set verification_tag (fun _ => local_tag));;
  let cookie := generate_cookie in
  initial_tsn ← draw_u32;
  upd_tx (set next_tsn (fun _ => initial_tsn));;
  let b := init_prefix local_tag initial_tsn in
  let b := put_u16 b 7 in
  let b := put_u16 b (as_u16 (4 + len cookie)) in
  let b := put_slice b cookie in
  let b := Nat.iter (pad4 (length cookie)) (fun b => put_u8 b 0) b in
  send_chunk CT_INIT_ACK 0 b (init_tag p).

(** The parameter loop: the last State Cookie *)
Fixpoint cookie_loop (fuel : nat) (buf : list Z) (cookie : option (list Z)) : res stop (option (list Z)) :=
  if (remaining buf <? 4)%nat then Ok cookie else
  match fuel with
  | O => Err Hangs
  | S fuel =>
      '(param_type, buf) ← or_panic (get_u16 buf);
      '(param_len, buf) ← or_panic (get_u16 buf);
      let param_len := Z.to_nat param_len in
      if (param_len <? 4)%nat || (remaining buf <? param_len - 4)%nat then Ok cookie else
      '(param_value, buf) ← or_panic (split_to (param_len - 4) buf);
      buf ← (if (pad4 param_len <=? remaining buf)%nat then or_panic (advance (pad4 param_len) buf) else Ok buf);
      cookie_loop fuel buf (if param_type =? 7 then Some param_value else cookie)
  end.

Definition handle_init_ack (chunk : list Z) : M unit :=
  t1_cancel;;
  if (remaining chunk <? 16)%nat then mret tt else
  p ← get_init chunk;
  learn_init p;;
  cookie ← lift (cookie_loop (length chunk) (init_rest p) None);
  match cookie with
  | Some cookie_bytes =>
      s ← get_st;
      let tag := remote_verification_tag (assoc s) in
      send_chunk CT_COOKIE_ECHO 0 cookie_bytes tag;;
      t1_start CT_COOKIE_ECHO cookie_bytes tag
  | None => mret tt
  end.

(** An error of the source is only logged. *)
Definition logged (m : M unit) : M unit :=
  try_catch m mret (fun e => match e with Failed _ => mret tt | Hangs => fail Hangs end).

(** Connected: the channels that wait are opened. *)
Definition open_channel (i : nat) : M unit :=
  s ← get_st;
  match data_channels s !! i with
  | Some dc =>
      if dc_negotiated dc then
        upd_channels (alter (fun dc => send_event EventOpen (dc <| dc_state := DcOpen |>)) i)
      else when (bool_decide (dc_state dc = DcConnecting)) (logged (send_dcep_open dc))
  | None => mret tt
  end.

Definition connected : M unit :=
  upd_assoc (set state (fun _ => Connected));;
  upd_tx (fun t => t <| advanced_peer_ack_tsn := wsub32 (next_tsn t) 1 |>);;
  upd_channels (filter (fun dc => dc_alive dc = true));;
  s ← get_st;
  for_each (seq 0 (length (data_channels s))) open_channel.

Definition handle_cookie_ack : M unit := t1_cancel;; connected.

Definition handle_cookie_echo (chunk : list Z) : M unit :=
  if negb (validate_cookie chunk) then mret tt else
  s ← get_st;
  send_chunk CT_COOKIE_ACK 0 [] (remote_verification_tag (assoc s));;
  connected.

Definition handle_t1_timeout : M unit :=
  s ← get_st;
  match t1_sent_time (assoc s) with
  | None => mret tt
  | Some t =>
      d ← lift (from_secs_f64 (rto (rto_state (cc s))));
      if negb (t + d <=? now) then mret tt else
      let failures := as_u32 (t1_failures (assoc s) + 1) in
      upd_assoc (set t1_failures (fun _ => failures));;
      if SCTP_MAX_INIT_RETRANS <? failures then
        t1_cancel;; set_close_reason "INIT_TIMEOUT";; set_state Closed
      else
        upd_cc (set rto_state RtoCalculator_backoff);;
        match t1_chunk (assoc s) with
        | Some (chunk_type, chunk_body, vtag) =>
            upd_assoc (set t1_sent_time (fun _ => Some now));;
            send_chunk chunk_type 0 chunk_body vtag
        | None => mret tt
        end
  end.

(** ** Timeouts *)

(** The loop over the sent chunks when T3 expires *)
Fixpoint t3_mark (q : SentQueue) (count : Z) : SentQueue :=
  match q with
  | [] => []
  | (tsn, r) :: q =>
      if negb (cr_acked r) && negb (cr_abandoned r) then
        let r := r <| cr_in_flight := false |> in
        let is_pr_sctp := bool_decide (is_Some (cr_max_retransmits r)) || bool_decide (is_Some (cr_expiry r)) in
        if is_pr_sctp && (max_tsn_retransmits cfg <=? cr_transmit_count r)
        then (tsn, r <| cr_abandoned := true |>) :: t3_mark q count else
        if count <? RETRANSMIT_BURST then
          (tsn, r <| cr_needs_retransmit := true |> <| cr_transmit_count ::= Z.add 1 |> <| cr_sent_time := now |>)
            :: t3_mark q (count + 1)
        else (tsn, r <| cr_sent_time := now |>) :: t3_mark q count
      else (tsn, r) :: t3_mark q count
  end.

Definition t3_expired (q : SentQueue) (rto_dur : Z) : bool :=
  existsb (fun '(_, r) => negb (cr_acked r) && negb (cr_abandoned r) && (cr_sent_time r + rto_dur <=? now)) q.

Definition handle_timeout : M unit :=
  s ← get_st;
  rto_dur ← lift (from_secs_f64 (rto (rto_state (cc s))));
  let too_soon := match last_t3_fire_time (cc s) with
                  | Some last => duration_since now last <? rto_dur / 2
                  | None => false
                  end in
  if too_soon || negb (t3_expired (sent_queue (tx s)) rto_dur) then mret tt else
  upd_cc (fun c => c <| last_t3_fire_time := Some now |> <| tlp_probe_sent := false |>
                     <| rto_state ::= RtoCalculator_backoff |>);;
  upd_tx (fun t => t <| sent_queue := t3_mark (sent_queue t) 0 |> <| flight_size := 0 |>);;
  let new_ssthresh := Z.max (cwnd_tx (cc s) / 2) (4 * MAX_SCTP_PACKET_SIZE) in
  upd_cc (fun c => c <| partial_bytes_acked := 0 |> <| fast_recovery_active := false |>
    <| fast_recovery_exit_tsn := 0 |> <| fast_recovery_transmit := false |> <| ssthresh := new_ssthresh |>
    <| cwnd_tx := Z.max new_ssthresh CWND_MIN_AFTER_RTO |>).

Definition update_rto (rtt : f64) : M unit :=
  s ← get_st;
  c ← lift (RtoCalculator_update (rto_state (cc s)) rtt);
  upd_cc (set rto_state (fun _ => c)).

Definition tlp_pto (s : SctpInner) : res stop Z :=
  let c := rto_state (cc s) in
  let pto_floor := f_max (f_div (rto_min c) (f_of_Z 2)) (f_div (f_of_Z 1) (f_of_Z 1000)) in
  let base := if SFltb (f_of_Z 0) (srtt c) then srtt c else rto c in
  from_secs_f64 (f_max (f_mul (f_of_Z 2) base) pto_floor).

(** The highest chunk that is neither acknowledged nor abandoned *)
Definition probe_tail (q : SentQueue) : option (Z * ChunkRecord) :=
  last (filter (fun kv => (negb (cr_acked kv.2) && negb (cr_abandoned kv.2)) = true) q).

Definition maybe_send_tlp_probe : M bool :=
  s ← get_st;
  if tlp_probe_sent (cc s) then mret false else
  match probe_tail (sent_queue (tx s)) with
  | None => mret false
  | Some (tsn, r) =>
      let r' := r <| cr_needs_retransmit := true |> <| cr_transmit_count ::= Z.add 1 |> <| cr_sent_time := now |>
                  <| cr_in_flight := true |> in
      upd_tx (fun t => t <| sent_queue ::= bt_insert tsn r' |>
                <| flight_size ::= fun f => if cr_in_flight r then f else uadd f (len (cr_payload r)) |>);;
      upd_cc (set tlp_probe_sent (fun _ => true));;
      upd_stats (set stats_tlp_probes (fun n => uadd n 1));;
      mret true
  end.

Definition tlp_timeout (s : SctpInner) : res stop Z :=
  let has_inflight := existsb (fun '(_, r) => negb (cr_acked r) && negb (cr_abandoned r) && cr_in_flight r)
                        (sent_queue (tx s)) in
  if negb has_inflight || tlp_probe_sent (cc s) then Ok (secs 3600) else
  let elapsed := duration_since now (last_send_or_ack (cc s)) in
  pto ← tlp_pto s;
  Ok (if pto <=? elapsed then millis 1 else pto - elapsed).

Definition send_heartbeat : M unit :=
  s ← get_st;
  let alive := match last_sack_time (assoc s) with
               | Some t => duration_since now t <? secs 30
               | None => false
               end in
  let error_count := as_u32 (association_error_count (assoc s) + 1) in
  let missed := bool_decide (is_Some (heartbeat_sent_time (assoc s))) in
  (if missed then
     if alive then upd_assoc (fun a => a <| association_error_count := 0 |> <| consecutive_heartbeat_failures := 0 |>)
     else upd_assoc (fun a => a <| consecutive_heartbeat_failures ::= fun n => as_u32 (n + 1) |>
                                <| association_error_count := error_count |>)
   else mret tt);;
  if missed && negb alive && (max_association_retransmits cfg <=? error_count) && (0 <? max_association_retransmits cfg) then
    set_close_reason "HEARTBEAT_TIMEOUT";; set_state Closed
  else
    upd_assoc (set heartbeat_sent_time (fun _ => Some now));;
    info ← draw_u32;
    let buf := put_u32 (put_u16 (put_u16 [] 1) 8) info in
    let tag := remote_verification_tag (assoc s) in
    if tag =? 0 then mret tt else
    upd_stats (set stats_heartbeats_sent (fun n => uadd n 1));;
    send_chunk CT_HEARTBEAT 0 buf tag.

Definition handle_heartbeat (chunk : list Z) : M unit :=
  s ← get_st; send_chunk CT_HEARTBEAT_ACK 0 chunk (remote_verification_tag (assoc s)).

Definition handle_heartbeat_ack : M unit :=
  s ← get_st;
  upd_assoc (fun a => a <| association_error_count := 0 |> <| consecutive_heartbeat_failures := 0 |>);;
  match heartbeat_sent_time (assoc s) with
  | Some start =>
      update_rto (as_secs_f64 (duration_since now start));;
      upd_assoc (set heartbeat_sent_time (fun _ => None))
  | None => mret tt
  end.

(** ** Incoming SACKs *)

Fixpoint read_gap_blocks (n : nat) (buf : list Z) : res stop (list (Z * Z)) :=
  match n with
  | O => Ok []
  | S n =>
      if (remaining buf <? 4)%nat then Ok [] else
      '(start, buf) ← or_panic (get_u16 buf);
      '(end_, buf) ← or_panic (get_u16 buf);
      blocks ← read_gap_blocks n buf;
      Ok ((start, end_) :: blocks)
  end.

Definition sack_signature (cum : Z) (gaps : list (Z * Z)) : Z :=
  fold_left (fun sig '(start, end_) =>
    let block := Z.lor (Z.shiftl start 16) end_ in
    as_u64 (as_u64 (sig * 0x9E3779B185EBCA87) + Z.lxor block (Z.shiftr sig 32))) gaps (Z.shiftl cum 32).

(** Progress resets the error counter, or lowers it. *)
Definition sack_progress (gaps : list (Z * Z)) (o : SackOutcome) : M unit :=
  if (0 <? bytes_acked_by_cum_tsn o) || negb (length (rtt_samples o) =? 0)%nat then
    upd_assoc (set association_error_count (fun _ => 0));;
    upd_cc (set last_t3_fire_time (fun _ => None));;
    note_send_or_ack;;
    upd_cc (set tlp_probe_sent (fun _ => false));;
    upd_cc (fun c =>
      if (ssthresh c <=? SSTHRESH_MIN) && (0 <? bytes_acked_by_cum_tsn o) && (ssthresh c * 4 / 5 <=? cwnd_tx c)
      then c <| ssthresh := Z.min (Z.max (cwnd_tx c * 2) (CWND_INITIAL * 2)) (max_cwnd cfg) |> else c)
  else
    when (negb (length gaps =? 0)%nat && (0 <? bytes_acked_by_gap o))
      (upd_assoc (fun a =>
         let count := association_error_count a in
         if 0 <? count then
           let packets_acked := (bytes_acked_by_gap o + (MAX_SCTP_PACKET_SIZE - 1)) / MAX_SCTP_PACKET_SIZE in
           let reduction := Z.max (Z.min (as_u32 packets_acked) count) 1 in
           a <| association_error_count := saturating_sub count reduction |>
         else a)).

(** Without a fresh sample, progress brings the timeout back to its computed
    value. *)
Definition reset_rto (o : SackOutcome) : M unit :=
  if (length (rtt_samples o) =? 0)%nat && ((0 <? bytes_acked_by_cum_tsn o) || (0 <? bytes_acked_by_gap o)) then
    s ← get_st;
    let c := rto_state (cc s) in
    if SFltb (f_of_Z 0) (srtt c) then
      r ← lift (computed_rto c);
      when (SFltb r (rto c)) (upd_cc (fun cs => cs <| rto_state := c <| rto := r |> |>))
    else mret tt
  else mret tt.

(** The congestion window; [flight] is the flight after the reduction. *)
Definition grow_window (cum flight : Z) (o : SackOutcome) (c : CcState) : CcState :=
  let cwnd := cwnd_tx c in
  let thresh := ssthresh c in
  let was_in := fast_recovery_active c in
  let is_in := was_in && (tsn_diff cum (fast_recovery_exit_tsn c) <? 0) in
  let done_bytes := bytes_acked_by_cum_tsn o + bytes_acked_by_gap o in
  let c := if was_in && negb is_in
           then c <| fast_recovery_active := false |> <| fast_recovery_exit_tsn := 0 |> <| cwnd_tx := thresh |>
                  <| partial_bytes_acked := 0 |>
           else c in
  if is_in then
    if (0 <? done_bytes) && (cwnd <? max_cwnd cfg)
    then c <| cwnd_tx ::= Z.add (Z.min (cwnd + done_bytes) (max_cwnd cfg) - cwnd) |> else c
  else if (0 <? done_bytes) && (window_limited c || (cwnd <=? flight)) && (cwnd <? max_cwnd cfg) then
    if cwnd <=? thresh then c <| cwnd_tx ::= Z.add (Z.min (cwnd + done_bytes) (max_cwnd cfg) - cwnd) |>
    else
      let total_pba := partial_bytes_acked c + done_bytes in
      if cwnd <=? total_pba
      then c <| partial_bytes_acked := usub total_pba cwnd |>
             <| cwnd_tx ::= Z.add (Z.min (cwnd + MAX_SCTP_PACKET_SIZE) (max_cwnd cfg) - cwnd) |>
      else c <| partial_bytes_acked := total_pba |>
  else c.

Definition enter_fast_recovery (cum next : Z) (c : CcState) : CcState :=
  let is_in := fast_recovery_active c && (tsn_diff cum (fast_recovery_exit_tsn c) <? 0) in
  if is_in then c else
  if duration_since now (last_fast_recovery_entry c) <? FAST_RECOVERY_REENTRY_COOLDOWN then c else
  let near_floor := cwnd_tx c <=? SSTHRESH_MIN * 2 in
  let cut w := Z.max (if near_floor then w * 7 / 10 else w / 2) SSTHRESH_MIN in
  let new_ssthresh := Z.min (cut (cwnd_tx c)) (cut (cwnd_rx c)) in
  c <| ssthresh := new_ssthresh |> <| cwnd_tx := new_ssthresh |> <| cwnd_rx := new_ssthresh |>
    <| partial_bytes_acked := 0 |> <| fast_recovery_active := true |> <| fast_recovery_transmit := true |>
    <| fast_recovery_exit_tsn := wsub32 next 1 |> <| last_fast_recovery_entry := now |>.

Definition handle_sack (chunk : list Z) : M unit :=
  if (length chunk <? 12)%nat then mret tt else
  upd_assoc (set last_sack_time (fun _ => Some now));;
  '(cum, buf) ← get (get_u32 chunk);
  '(a_rwnd, buf) ← get (get_u32 buf);
  '(num_gap_ack_blocks, buf) ← get (get_u16 buf);
  '(_, buf) ← get (get_u16 buf);
  upd_cc (set peer_rwnd (fun _ => a_rwnd));;
  gaps ← lift (read_gap_blocks (Z.to_nat num_gap_ack_blocks) buf);
  s ← get_st;
  let sig := sack_signature cum gaps in
  let count_missing_reports := negb (last_sack_sig (cc s) =? sig) in
  upd_cc (set last_sack_sig (fun _ => sig));;
  let '(q, o) := apply_sack_to_sent_queue (sent_queue (tx s)) cum gaps now count_missing_reports
                   (max_tsn_retransmits cfg) in
  upd_tx (set sent_queue (fun _ => q));;
  upd_stats (set stats_retransmissions (fun n => uadd n (Z.of_nat (length (retransmit o)))));;
  for_each (filter (fun '(_, l) => 0 < l) (bytes_acked_per_stream o)) (fun '(sid, l) => account_stream_acked sid l);;
  sack_progress gaps o;;
  for_each (rtt_samples o) update_rto;;
  reset_rto o;;
  when (0 <? flight_reduction o)
    (upd_tx (set flight_size (fun f => saturating_sub f (flight_reduction o)));;
     s ← get_st;
     upd_cc (grow_window cum (flight_size (tx s)) o));;
  s ← get_st;
  when (negb (length (retransmit o) =? 0)%nat) (upd_cc (enter_fast_recovery cum (next_tsn (tx s))));;
  transmit.

(** ** Incoming data *)

Definition stream_of (sid : Z) (m : list (Z * InboundStream)) : InboundStream :=
  default InboundStream_new (bt_get sid m).

(** [streams.entry(stream_id).or_insert_with(InboundStream::new).enqueue(..)] *)
Definition enqueue_message (stream_id ssn : Z) (msg : list Z) : M (list (list Z)) :=
  s ← get_st;
  let '(ready, st) := enqueue (stream_of stream_id (inbound_streams (rx s))) ssn msg in
  upd_rx (set inbound_streams (bt_insert stream_id st));;
  mret ready.

Definition deliver_messages (stream_id : Z) (msgs : list (list Z)) : M unit :=
  upd_channels (update_channel stream_id (fun dc => fold_left (fun dc m => send_event (EventMessage m) dc) msgs dc)).

Definition handle_dcep (stream_id : Z) (data : list Z) : M unit :=
  if (length data =? 0)%nat then mret tt else
  msg_type ← lift (idx data 0);
  if msg_type =? DCEP_TYPE_OPEN then
    open ← lift (match DataChannelOpen_unmarshal data with
                 | Ok m => Ok m | Err e => Err (Failed e) | Panic => Panic
                 end);
    s ← get_st;
    match find_channel stream_id (data_channels s) with
    | Some _ => mret tt
    | None =>
        let kind := Z.land (channel_type open) 0x03 in
        let config := {|
          cfg_label := open_label open; cfg_protocol := open_protocol open;
          cfg_ordered := Z.land (channel_type open) 0x80 =? 0;
          cfg_max_retransmits := if kind =? 0x01 then Some (as_u16 (reliability_parameter open)) else None;
          cfg_max_packet_life_time := if kind =? 0x02 then Some (as_u16 (reliability_parameter open)) else None;
          cfg_max_payload_size := None; cfg_negotiated := None; cfg_buffered_amount_low_threshold := 0 |} in
        let dc := send_event EventOpen (DataChannel_new stream_id config <| dc_state := DcOpen |>) in
        (* without a listener the only strong reference goes away *)
        upd_channels (fun l => l ++ [dc <| dc_alive := has_listener cfg |>]);;
        when (has_listener cfg) (modify (fun s => s <| new_channels ::= fun l => l ++ [stream_id] |>))
    end;;
    send_dcep_ack stream_id
  else if msg_type =? DCEP_TYPE_ACK then
    upd_channels (update_channel stream_id (fun dc =>
      if bool_decide (dc_state dc = DcConnecting) then send_event EventOpen (dc <| dc_state := DcOpen |>) else dc))
  else mret tt.

Definition process_data_payload (flags : Z) (chunk : list Z) : M unit :=
  buf ← get (advance 4 chunk);
  '(stream_id, buf) ← get (get_u16 buf);
  '(stream_seq, buf) ← get (get_u16 buf);
  '(payload_proto, user_data) ← get (get_u32 buf);
  let unordered := negb (Z.land flags 0x04 =? 0) in
  if payload_proto =? DATA_CHANNEL_PPID_DCEP then
    (if negb unordered then enqueue_message stream_id stream_seq [];; mret tt else mret tt);;
    handle_dcep stream_id user_data
  else
    s ← get_st;
    match find_channel stream_id (data_channels s) with
    | Some dc =>
        let b_bit := negb (Z.land flags 0x02 =? 0) in
        let e_bit := negb (Z.land flags 0x01 =? 0) in
        let buffer := (if b_bit then [] else dc_reassembly_buffer dc) ++ user_data in
        if e_bit then
          upd_channels (update_channel stream_id (set dc_reassembly_buffer (fun _ => [])));;
          if unordered || negb (dc_ordered dc) then deliver_messages stream_id [buffer]
          else ready ← enqueue_message stream_id stream_seq buffer; deliver_messages stream_id ready
        else upd_channels (update_channel stream_id (set dc_reassembly_buffer (fun _ => buffer)))
    | None => mret tt
    end.

(** The chunks in order from [next] on leave the queue. *)
Fixpoint drain_received (fuel : nat) (next : Z) (q : list (Z * (Z * list Z)))
    : list (Z * list Z) * list (Z * (Z * list Z)) :=
  match bt_get next q, fuel with
  | Some entry, S fuel =>
      let '(l, q') := drain_received fuel (wadd32 next 1) (bt_remove next q) in (entry :: l, q')
  | _, _ => ([], q)
  end.

Definition process_drained (entry : Z * list Z) : M unit :=
  let '(p_flags, p_chunk) := entry in
  s ← get_st;
  let next_tsn := wadd32 (cumulative_tsn_ack (rx s)) 1 in
  process_data_payload p_flags p_chunk;;
  upd_rx (fun r => r <| cumulative_tsn_ack := next_tsn |> <| used_rwnd ::= fun n => usub n (len p_chunk) |>).

Definition handle_data (flags : Z) (chunk : list Z) : M unit :=
  if (remaining chunk <? 12)%nat then mret tt else
  '(tsn, _) ← get (get_u32 chunk);
  s ← get_st;
  let diff := wsub32 tsn (cumulative_tsn_ack (rx s)) in
  if (diff =? 0) || (0x80000000 <? diff) then
    upd_rx (set dups_buffer (fun d => if (length d <? MAX_DUPS_BUFFER_SIZE)%nat then d ++ [tsn] else d));;
    schedule_sack_immediate
  else if (diff =? 1) && (length (received_queue (rx s)) =? 0)%nat then
    process_data_payload flags chunk;;
    upd_rx (set cumulative_tsn_ack (fun _ => tsn));;
    schedule_sack_delayed
  else
    (match bt_get tsn (received_queue (rx s)) with
     | Some _ => mret tt
     | None => upd_rx (fun r => r <| used_rwnd ::= fun n => uadd n (len chunk) |>
                                  <| received_queue ::= bt_insert tsn (flags, chunk) |>)
     end);;
    s ← get_st;
    let '(to_process, q) := drain_received (length (received_queue (rx s)))
                              (wadd32 (cumulative_tsn_ack (rx s)) 1) (received_queue (rx s)) in
    upd_rx (set received_queue (fun _ => q));;
    for_each to_process process_drained;;
    schedule_sack_immediate.

(** ** Forward TSN and stream reset *)

Fixpoint read_pairs (fuel : nat) (buf : list Z) : res stop (list (Z * Z)) :=
  if (remaining buf <? 4)%nat then Ok [] else
  match fuel with
  | O => Err Hangs
  | S fuel =>
      '(sid, buf) ← or_panic (get_u16 buf);
      '(ssn, buf) ← or_panic (get_u16 buf);
      rest ← read_pairs fuel buf;
      Ok ((sid, ssn) :: rest)
  end.

Definition advance_stream (pair : Z * Z) : M unit :=
  let '(sid, ssn) := pair in
  s ← get_st;
  match bt_get sid (inbound_streams (rx s)) with
  | Some st =>
      let '(ready, st) := drain_ready (advance_ssn_to st ssn) in
      upd_rx (set inbound_streams (bt_insert sid st));;
      deliver_messages sid ready
  | None => mret tt
  end.

Definition handle_forward_tsn (chunk : list Z) : M unit :=
  if (length chunk <? 4)%nat then mret tt else
  '(new_cum, buf) ← get (get_u32 chunk);
  pairs ← lift (read_pairs (length buf) buf);
  s ← get_st;
  if cumulative_tsn_ack (rx s) <? new_cum then
    upd_rx (fun r => r <| cumulative_tsn_ack := new_cum |>
                       <| received_queue ::= filter (fun kv => new_cum < kv.1) |>);;
    for_each pairs advance_stream
  else mret tt.

Definition send_reconfig_response (response_sn result : Z) : M unit :=
  let param := put_u32 (put_u32 (put_u16 (put_u16 [] RECONFIG_PARAM_RESPONSE) 12) response_sn) result in
  let chunk := put_slice (put_u16 (put_u8 (put_u8 [] CT_RECONFIG) 0) 16) param in
  s ← get_st;
  transmit_chunks_with_tag [chunk] (remote_verification_tag (assoc s)).

Fixpoint read_streams (fuel : nat) (buf : list Z) : res stop (list Z) :=
  if (remaining buf <? 2)%nat then Ok [] else
  match fuel with
  | O => Err Hangs
  | S fuel =>
      '(sid, buf) ← or_panic (get_u16 buf);
      rest ← read_streams fuel buf;
      Ok (sid :: rest)
  end.

Definition handle_reconfig_outgoing_ssn_reset (buf : list Z) : M unit :=
  if (remaining buf <? 12)%nat then mret tt else
  '(request_sn, buf) ← get (get_u32 buf);
  '(_, buf) ← get (get_u32 buf);
  '(_, buf) ← get (get_u32 buf);
  s ← get_st;
  let last_peer_sn := peer_reconfig_request_sn (assoc s) in
  if (request_sn <=? last_peer_sn) && negb (last_peer_sn =? 4294967295)
  then send_reconfig_response request_sn RECONFIG_RESPONSE_SUCCESS_NOTHING_TO_DO else
  upd_assoc (set peer_reconfig_request_sn (fun _ => request_sn));;
  streams ← lift (read_streams (length buf) buf);
  let all := (length streams =? 0)%nat in
  upd_channels (fmap (fun dc => if dc_alive dc && (all || bool_decide (dc_id dc ∈ streams))
                                then dc <| dc_next_ssn := 0 |> else dc));;
  upd_rx (set inbound_streams (fun m => if all then [] else fold_left (fun m sid => bt_remove sid m) streams m));;
  send_reconfig_response request_sn RECONFIG_RESPONSE_SUCCESS_PERFORMED.

(** [handle_reconfig_response] only logs. *)
Fixpoint handle_reconfig (fuel : nat) (buf : list Z) : M unit :=
  if (remaining buf <? 4)%nat then mret tt else
  match fuel with
  | O => fail Hangs
  | S fuel =>
      '(param_type, buf) ← get (get_u16 buf);
      '(param_length, buf) ← get (get_u16 buf);
      let param_length := Z.to_nat param_length in
      if (param_length <? 4)%nat || (remaining buf <? param_length - 4)%nat then mret tt else
      '(param_data, buf) ← get (split_to (param_length - 4) buf);
      buf ← (if (pad4 param_length <=? remaining buf)%nat then get (advance (pad4 param_length) buf) else mret buf);
      when (param_type =? RECONFIG_PARAM_OUTGOING_SSN_RESET) (handle_reconfig_outgoing_ssn_reset param_data);;
      handle_reconfig fuel buf
  end.

Definition send_reconfig_ssn_reset (streams : list Z) : M unit :=
  s ← get_st;
  let request_sn := reconfig_request_sn (assoc s) in
  upd_assoc (set reconfig_request_sn (fun n => as_u32 (n + 1)));;
  let param_len := (16 + length streams * 2)%nat in
  let param := put_u16 [] RECONFIG_PARAM_OUTGOING_SSN_RESET in
  let param := put_u16 param (as_u16 (Z.of_nat param_len)) in
  let param := put_u32 param request_sn in
  let param := put_u32 param 0 in
  let param := put_u32 param (next_tsn (tx s)) in
  let param := fold_left put_u16 streams param in
  let param := Nat.iter (pad4 param_len) (fun b => put_u8 b 0) param in
  let chunk_len := (4 + length param)%nat in
  let chunk := put_slice (put_u16 (put_u8 (put_u8 [] CT_RECONFIG) 0) (as_u16 (Z.of_nat chunk_len))) param in
  transmit_chunks_with_tag [chunk] (remote_verification_tag (assoc s)).

Definition close_data_channel (channel_id : Z) : M unit :=
  clear_stream_buffered channel_id;;
  upd_channels (update_channel channel_id (set dc_state (fun _ => DcClosing)));;
  send_reconfig_ssn_reset [channel_id];;
  upd_rx (set inbound_streams (bt_remove channel_id));;
  upd_channels (update_channel channel_id (fun dc => send_event EventClose (dc <| dc_state := DcClosed |>))).

(** ** Packets *)

Definition handle_chunk (chunk_type chunk_flags : Z) (value : list Z) : M unit :=
  if chunk_type =? CT_INIT then handle_init value else
  if chunk_type =? CT_INIT_ACK then handle_init_ack value else
  if chunk_type =? CT_COOKIE_ECHO then handle_cookie_echo value else
  if chunk_type =? CT_COOKIE_ACK then handle_cookie_ack else
  if chunk_type =? CT_DATA then handle_data chunk_flags value else
  if chunk_type =? CT_SACK then handle_sack value else
  if chunk_type =? CT_HEARTBEAT then handle_heartbeat value else
  if chunk_type =? CT_HEARTBEAT_ACK then handle_heartbeat_ack else
  if chunk_type =? CT_FORWARD_TSN then handle_forward_tsn value else
  if chunk_type =? CT_RECONFIG then handle_reconfig (length value) value else
  if chunk_type =? CT_ABORT then set_close_reason "REMOTE_ABORT";; set_state Closed else
  if chunk_type =? CT_SHUTDOWN then
    s ← get_st; send_chunk CT_SHUTDOWN_ACK 0 [] (remote_verification_tag (assoc s))
  else
  if chunk_type =? CT_SHUTDOWN_ACK then set_close_reason "REMOTE_SHUTDOWN";; set_state Closed else
  mret tt.

Fixpoint chunk_loop (fuel : nat) (buf : list Z) : M unit :=
  if (remaining buf <? CHUNK_HEADER_SIZE)%nat then mret tt else
  match fuel with
  | O => fail Hangs
  | S fuel =>
      '(chunk_type, buf) ← get (get_u8 buf);
      '(chunk_flags, buf) ← get (get_u8 buf);
      '(chunk_length, buf) ← get (get_u16 buf);
      let chunk_length := Z.to_nat chunk_length in
      if (chunk_length <? CHUNK_HEADER_SIZE)%nat || (remaining buf <? chunk_length - CHUNK_HEADER_SIZE)%nat
      then mret tt else
      '(chunk_value, buf) ← get (split_to (chunk_length - CHUNK_HEADER_SIZE) buf);
      buf ← (if (pad4 chunk_length <=? remaining buf)%nat then get (advance (pad4 chunk_length) buf) else mret buf);
      handle_chunk chunk_type chunk_flags chunk_value;;
      chunk_loop fuel buf
  end.

Definition checksum_ok (packet : list Z) (received : Z) : bool :=
  let crc := sctp_crc32c (take 8 packet) in
  let crc := sctp_crc32c_append crc [0; 0; 0; 0] in
  sctp_crc32c_append crc (drop 12 packet) =? received.

(** The ports and the verification tag are read and not compared. *)
Definition handle_packet (packet : list Z) : M unit :=
  if (length packet <? SCTP_COMMON_HEADER_SIZE)%nat then mret tt else
  upd_stats (fun st => st <| stats_bytes_received ::= fun n => uadd n (len packet) |>
                          <| stats_packets_received ::= fun n => uadd n 1 |>);;
  '(_, buf) ← get (get_u16 packet);
  '(_, buf) ← get (get_u16 buf);
  '(_, buf) ← get (get_u32 buf);
  '(received_checksum, buf) ← get (get_u32_le buf);
  if negb (checksum_ok packet received_checksum) then mret tt else
  chunk_loop (length buf) buf.

(** ** The loop of the association *)

(** What ends the wait of the loop *)
Inductive wake :=
| Closing
| DtlsLost (reason : string)
| DtlsGone
| DtlsOther
| Woken
| Slept
| Incoming (packet : option (list Z)).

(** Start-up, once DTLS is connected *)
Definition loop_start : M unit := set_state Connecting;; when (is_client cfg) (logged send_init).

(** Before the wait: [None] ends the loop, otherwise how long to sleep *)
Definition rto_timeout (s : SctpInner) : res stop Z :=
  match filter (fun r => cr_acked r = false) (sent_queue (tx s)).*2 with
  | [] => Ok (secs 3600)
  | r :: rs =>
      d ← from_secs_f64 (rto (rto_state (cc s)));
      let soonest := fold_left (fun e r => Z.min e (cr_sent_time r)) rs (cr_sent_time r) + d in
      Ok (if now <? soonest then soonest - now else millis 1)
  end.
Definition t1_timeout (s : SctpInner) : res stop Z :=
  match t1_sent_time (assoc s) with
  | Some sent =>
      if t1_active (assoc s) then
        d ← from_secs_f64 (rto (rto_state (cc s)));
        Ok (if now <? sent + d then sent + d - now else millis 1)
      else Ok (secs 3600)
  | None => Ok (secs 3600)
  end.
Definition sack_delay_timeout (s : SctpInner) : Z :=
  match sack_delayed_until (rx s) with
  | Some d => if now <? d then d - now else millis 1
  | None => secs 3600
  end.
Definition loop_prepare (last_heartbeat : Z) : M (option Z) :=
  s ← get_st;
  if bool_decide (state (assoc s) = Closed) then mret None else
  rto_t ← lift (rto_timeout s);
  let heartbeat_t := if last_heartbeat + heartbeat_interval cfg <=? now then millis 1
                     else last_heartbeat + heartbeat_interval cfg - now in
  t1_t ← lift (t1_timeout s);
  let sack_t := sack_delay_timeout s in
  flush_expired_sack_delay;;
  s ← get_st;
  tlp_t ← lift (tlp_timeout s);
  (if tlp_t <=? millis 1 then maybe_send_tlp_probe;; mret tt else mret tt);;
  mret (Some (Z.min (Z.min (Z.min (Z.min rto_t heartbeat_t) t1_t) sack_t) tlp_t)).

(** After the wait, with the packets that are queued behind the first: [None]
    ends the loop, otherwise the time of the last heartbeat *)
Definition loop_wake (last_heartbeat : Z) (w : wake) (batch : list (list Z)) : M (option Z) :=
  r ← match w with
      | Closing => set_close_reason "LOCAL_CLOSE";; mret None
      | DtlsLost reason => set_close_reason reason;; mret None
      | DtlsGone => set_close_reason "DTLS_CHANNEL_CLOSED";; mret None
      | DtlsOther => mret (Some last_heartbeat)
      | Woken => logged transmit;; mret (Some last_heartbeat)
      | Slept =>
          logged handle_t1_timeout;;
          maybe_send_tlp_probe;;
          logged handle_timeout;;
          if last_heartbeat + heartbeat_interval cfg <=? now
          then logged send_heartbeat;; mret (Some now) else mret (Some last_heartbeat)
      | Incoming None => set_close_reason "INCOMING_CHANNEL_CLOSED";; mret None
      | Incoming (Some packet) => logged (handle_packet packet);; mret (Some last_heartbeat)
      end;
  match r with
  | None => mret None
  | Some last_heartbeat =>
      for_each batch (fun p => logged (handle_packet p));;
      logged transmit;;
      mret (Some last_heartbeat)
  end.

(** [SctpCleanupGuard::drop], when the loop ends or is cancelled *)
Definition loop_exit : M unit :=
  set_state Closed;;
  upd_channels (fmap (fun dc =>
    if dc_alive dc then
      let closed := bool_decide (dc_state dc = DcClosed) in
      let dc := dc <| dc_state := DcClosed |> in
      if closed then dc else close_channel (send_event EventClose dc)
    else dc)).
End engine.
