(* ===== verification/SctpWire.v ===== *)
(** * SCTP packets on the wire

    What the methods of the association write, as byte strings, and what
    [handle_packet] reads from them. *)
From S2P Require Import Prelude Core BytesCrate BTree StateRes RecordSet DataChannel Crc32c SctpQueues Sctp.

(** A chunk: type, flags and value *)
Record Chunk := { ch_type : Z; ch_flags : Z; ch_value : list Z }.

Definition chunk_bytes (c : Chunk) : list Z :=
  to_be 1 (ch_type c) ++ to_be 1 (ch_flags c) ++ to_be 2 (4 + len (ch_value c)) ++ ch_value c ++
  replicate (pad4 (4 + length (ch_value c))) 0.

Definition wf_chunk (c : Chunk) : Prop := u8 (ch_type c) ∧ u8 (ch_flags c) ∧ 4 + len (ch_value c) < 65536.

(** The value of a DATA chunk *)
Definition data_value (tsn sid ssn ppid : Z) (data : list Z) : list Z :=
  to_be 4 tsn ++ to_be 2 sid ++ to_be 2 ssn ++ to_be 4 ppid ++ data.

Definition sack_value (cum rwnd : Z) (gaps : list (Z * Z)) (dups : list Z) : list Z :=
  to_be 4 cum ++ to_be 4 rwnd ++ to_be 2 (Z.of_nat (length gaps)) ++ to_be 2 (Z.of_nat (length dups)) ++
  concat ((fun '(a, b) => to_be 2 a ++ to_be 2 b) <$> gaps) ++ concat (to_be 4 <$> dups).

Definition packet_header (cfg : SctpConfig) (tag : Z) : list Z :=
  to_be 2 (local_port cfg) ++ to_be 2 (remote_port cfg) ++ to_be 4 tag.

Definition packet_bytes (cfg : SctpConfig) (tag : Z) (body : list Z) : list Z :=
  packet_header cfg tag ++ to_le 4 (sctp_crc32c (packet_header cfg tag ++ [0; 0; 0; 0] ++ body)) ++ body.

Lemma crc32c_u32 data : u32 (sctp_crc32c data).
Proof.
  unfold sctp_crc32c, sctp_crc32c_append, crc32c_soft_append. apply lxor_u32; [|ulia].
  assert (u32 (not32 0)) as H0 by done. revert H0. generalize (not32 0). induction data as [|b data IH]; intros c Hc; [done|].
  cbn [fold_left]. apply IH. unfold crc32c_byte. apply lxor_u32.
  - rewrite crc32c_table_nth.
    + apply crc_bits_u32. change 0xFF with (Z.ones 8). rewrite Z.land_ones by lia. change (2 ^ 8) with 256. ulia.
    + change 0xFF with (Z.ones 8). rewrite Z.land_ones by lia. change (2 ^ 8) with 256. lia.
  - rewrite Z.shiftr_div_pow2 by lia. ulia.
Qed.

Section wire.
Context `{BytesCrate, !BytesLaws}.

Lemma pad_bytes n (l : list Z) : Nat.iter n (fun b => put_u8 b 0) l = l ++ replicate n 0.
Proof.
  induction n as [|n IH]; [by rewrite app_nil_r|]. rewrite Nat.iter_succ, IH, put_u8_spec. rewrite <- app_assoc. f_equal.
  change (to_be 1 0) with [0]. by rewrite <- replicate_S_end.
Qed.

Lemma as_u16_to_be x : to_be 2 (as_u16 x) = to_be 2 x.
Proof. apply (to_be_mod 2). Qed.

Lemma build_chunk_bytes type_ flags value :
  build_chunk type_ flags value = chunk_bytes {| ch_type := type_; ch_flags := flags; ch_value := value |}.
Proof.
  unfold build_chunk, chunk_bytes. cbn [ch_type ch_flags ch_value]. rewrite pad_bytes. autorewrite with crate.
  rewrite as_u16_to_be. cbn [app]. rewrite <- !app_assoc. do 3 f_equal. unfold len, CHUNK_HEADER_SIZE. f_equal. lia.
Qed.

Definition data_chunk (c : OutboundChunk) (tsn : Z) : Chunk :=
  {| ch_type := CT_DATA; ch_flags := oc_flags c;
     ch_value := data_value tsn (oc_stream_id c) (oc_ssn c) (oc_ppid c) (oc_payload c) |}.

Lemma create_data_chunk_bytes c tsn :
  create_data_chunk (oc_stream_id c) (oc_ppid c) (oc_payload c) (oc_ssn c) (oc_flags c) tsn = chunk_bytes (data_chunk c tsn).
Proof.
  unfold create_data_chunk, chunk_bytes, data_chunk, data_value. cbn [ch_type ch_flags ch_value]. rewrite pad_bytes.
  autorewrite with crate. rewrite as_u16_to_be. cbn [app]. rewrite <- !app_assoc.
  unfold len. rewrite !length_app, !length_to_be.
  by replace (4 + Z.of_nat (4 + (2 + (2 + (4 + length (oc_payload c)))))) with (Z.of_nat (4 + (12 + length (oc_payload c)))) by lia.
Qed.

Lemma fold_put_pairs gaps b :
  fold_left (fun b '(x, y) => put_u16 (put_u16 b x) y) gaps b =
    b ++ concat ((fun '(x, y) => to_be 2 x ++ to_be 2 y) <$> gaps).
Proof.
  revert b. induction gaps as [|[x y] gaps IH]; intros b; [by rewrite app_nil_r|]. cbn [fold_left].
  rewrite IH. autorewrite with crate. cbn [fmap list_fmap concat]. by rewrite <- !app_assoc.
Qed.

Lemma fold_put_u32 l b : fold_left put_u32 l b = b ++ concat (to_be 4 <$> l).
Proof.
  revert b. induction l as [|x l IH]; intros b; [by rewrite app_nil_r|]. cbn [fold_left].
  rewrite IH. autorewrite with crate. cbn [fmap list_fmap concat]. by rewrite <- !app_assoc.
Qed.

Lemma fold_put_slice l b : fold_left put_slice l b = b ++ concat l.
Proof.
  revert b. induction l as [|x l IH]; intros b; [by rewrite app_nil_r|]. cbn [fold_left concat].
  rewrite IH. autorewrite with crate. by rewrite <- app_assoc.
Qed.

(** The SACK of the state *)
Definition sack_chunk (cfg : SctpConfig) (s : SctpInner) : Chunk :=
  let cum := cumulative_tsn_ack (rx s) in
  {| ch_type := CT_SACK; ch_flags := 0;
     ch_value := sack_value cum (advertised_rwnd cfg s) (build_gap_ack_blocks s cum) (take 32 (dups_buffer (rx s))) |}.

Lemma create_sack_eq cfg s :
  create_sack_chunk cfg s = (s <| rx ::= set dups_buffer (drop 32) |>, Ok (chunk_bytes (sack_chunk cfg s))).
Proof.
  unfold create_sack_chunk, sack_chunk, sack_value. cbv zeta.
  unfold mbind, stM_bind, get_st, upd_rx, modify, mret, stM_ret. f_equal. f_equal. rewrite build_chunk_bytes.
  rewrite fold_put_u32, fold_put_pairs. autorewrite with crate. rewrite !as_u16_to_be. cbn [app].
  by rewrite <- !app_assoc.
Qed.

(** ** Sending a packet *)

Lemma take_drop_header (h z b : list Z) : length h = 8%nat → length z = 4%nat →
  take 8 (h ++ z ++ b) = h ∧ drop 12 (h ++ z ++ b) = b.
Proof.
  intros Hh Hz. split; [by rewrite <- Hh, take_app_length|]. rewrite app_assoc.
  apply drop_app_length'. rewrite length_app. lia.
Qed.

Lemma send_packet_eq cfg chunks tag s :
  send_packet_with_tag cfg chunks tag s =
    let p := packet_bytes cfg tag (concat chunks) in
    let s := s <| stats ::= fun st => st <| stats_bytes_sent ::= fun n => uadd n (len p) |>
                                        <| stats_packets_sent ::= fun n => uadd n 1 |> |> in
    if out_open s then (s <| out ::= fun l => l ++ [p] |>, Ok tt)
    else (s <| assoc ::= set close_reason (fun _ => Some "TRANSPORT_CLOSED") |>
            <| assoc ::= set state (fun _ => Closed) |>, Err (Failed (Internal "Transport channel closed"))).
Proof.
  unfold send_packet_with_tag. cbv zeta. rewrite fold_put_slice. autorewrite with crate. cbn [app].
  set (h := (to_be 2 (local_port cfg) ++ to_be 2 (remote_port cfg)) ++ to_be 4 tag).
  replace ((h ++ to_be 4 0) ++ concat chunks) with (packet_header cfg tag ++ [0; 0; 0; 0] ++ concat chunks)
    by (unfold h, packet_header; by rewrite <- !app_assoc).
  destruct (take_drop_header (packet_header cfg tag) [0; 0; 0; 0] (concat chunks)) as [-> ->]; [done..|].
  fold (packet_bytes cfg tag (concat chunks)).
  unfold mbind, stM_bind, get_st, upd_stats, modify, mret, stM_ret, set_close_reason, set_state, upd_assoc, fail.
  by destruct (out_open _).
Qed.

(** ** Reading a packet *)

Lemma read_le_to_le x r : u32 x → read_le 4 (to_le 4 x ++ r) = Some (x, r).
Proof.
  intros Hx. unfold read_le, to_le. rewrite split_front_app by (rewrite length_reverse; apply length_to_be).
  cbn. rewrite reverse_involutive. by rewrite of_be_to_be_32.
Qed.

Lemma checksum_packet cfg tag body :
  checksum_ok (packet_bytes cfg tag body) (sctp_crc32c (packet_header cfg tag ++ [0; 0; 0; 0] ++ body)) = true.
Proof.
  unfold checksum_ok, packet_bytes.
  destruct (take_drop_header (packet_header cfg tag) (to_le 4 (sctp_crc32c (packet_header cfg tag ++ [0; 0; 0; 0] ++ body))) body)
    as [-> ->]; [done|unfold to_le; by rewrite length_reverse, length_to_be|].
  unfold sctp_crc32c at 1. rewrite !crc32c_append_app. rewrite <- ?app_assoc. apply Z.eqb_refl.
Qed.

Section run.
Context (hmac_sha1 : list Z → list Z → list Z) (random_u32 : nat → Z).
Context (cfg : SctpConfig) (wall : option Z) (now : Z).
Abbreviation chunk_loop := (chunk_loop hmac_sha1 random_u32 cfg wall now).
Abbreviation handle_chunk := (handle_chunk hmac_sha1 random_u32 cfg wall now).
Abbreviation handle_packet := (handle_packet hmac_sha1 random_u32 cfg wall now).

Lemma get_bind {A B} (r : option A) a (f : A → stM SctpInner stop B) s : r = Some a → (get r ≫= f) s = f a s.
Proof. by intros ->. Qed.

Lemma chunk_loop_cons fuel c buf s :
  wf_chunk c →
  chunk_loop (S fuel) (chunk_bytes c ++ buf) s =
    (handle_chunk (ch_type c) (ch_flags c) (ch_value c);; chunk_loop fuel buf) s.
Proof.
  intros (Ht & Hf & Hl). unfold chunk_bytes. cbn [Sctp.chunk_loop]. rewrite <- !app_assoc. autorewrite with crate.
  rewrite (proj2 (Nat.ltb_ge _ _)) by (rewrite !length_app, !length_to_be; unfold CHUNK_HEADER_SIZE; lia).
  erewrite get_bind by (by apply read_be_8). cbv beta iota zeta. rewrite get_u8_spec. erewrite get_bind by (by apply read_be_8).
  cbv beta iota zeta. rewrite get_u16_spec. erewrite get_bind by (apply read_be_16; unfold len in *; ulia). cbv beta iota zeta.
  set (n := length (ch_value c)). unfold len. fold n.
  replace (Z.to_nat (4 + Z.of_nat n)) with (4 + n)%nat by lia. autorewrite with crate.
  rewrite (proj2 (Nat.ltb_ge (4 + n) _)) by (unfold CHUNK_HEADER_SIZE; lia).
  rewrite (proj2 (Nat.ltb_ge _ _)) by (rewrite !length_app, length_replicate; unfold CHUNK_HEADER_SIZE; lia). cbn [orb].
  erewrite get_bind by (apply split_front_app; unfold CHUNK_HEADER_SIZE; lia). cbv beta iota zeta.
  rewrite remaining_spec, (proj2 (Nat.leb_le _ _)) by (rewrite length_app, length_replicate; lia).
  rewrite advance_spec. unfold mbind at 1, stM_bind at 1. unfold get at 1, lift at 1.
  rewrite split_front_app by apply length_replicate. done.
Qed.

(** Nothing is read from less than a header. *)
Lemma chunk_loop_nil fuel s : chunk_loop fuel [] s = (s, Ok tt).
Proof. destruct fuel; cbn [Sctp.chunk_loop]; by rewrite remaining_spec. Qed.

Lemma chunk_loop_chunks cs : ∀ fuel s,
  Forall wf_chunk cs → (length cs ≤ fuel)%nat →
  chunk_loop fuel (concat (chunk_bytes <$> cs)) s =
    for_each cs (fun c => handle_chunk (ch_type c) (ch_flags c) (ch_value c)) s.
Proof.
  induction cs as [|c cs IH]; intros fuel s Hw Hf; [apply chunk_loop_nil|].
  apply Forall_cons in Hw as [Hc Hw]. destruct fuel as [|fuel]; [cbn in Hf; lia|].
  cbn [fmap list_fmap concat for_each]. rewrite chunk_loop_cons by done.
  unfold mbind, stM_bind. destruct (handle_chunk _ _ _ s) as [s' [[]|e|]]; [|done..]. apply IH; [done|cbn in Hf; lia].
Qed.

Lemma concat_chunk_bytes_length cs : (length cs ≤ length (concat (chunk_bytes <$> cs)))%nat.
Proof.
  induction cs as [|c cs IH]; [done|]. cbn [fmap list_fmap concat length]. unfold chunk_bytes at 1.
  rewrite !length_app, !length_to_be. lia.
Qed.

(** A packet of well-formed chunks is read as these chunks. *)
Lemma handle_packet_chunks tag cfg' cs s :
  Forall wf_chunk cs →
  let p := packet_bytes cfg' tag (concat (chunk_bytes <$> cs)) in
  handle_packet p s =
    for_each cs (fun c => handle_chunk (ch_type c) (ch_flags c) (ch_value c))
      (s <| stats ::= fun st => st <| stats_bytes_received ::= fun n => uadd n (len p) |>
                                   <| stats_packets_received ::= fun n => uadd n 1 |> |>).
Proof.
  intros Hw p. unfold Sctp.handle_packet.
  assert (12 ≤ length p)%nat as Hlen.
  { unfold p, packet_bytes, packet_header, to_le. rewrite !length_app, !length_to_be, length_reverse, length_to_be. lia. }
  rewrite (proj2 (Nat.ltb_ge _ _)) by (unfold SCTP_COMMON_HEADER_SIZE; lia).
  set (crc := sctp_crc32c (packet_header cfg' tag ++ [0; 0; 0; 0] ++ concat (chunk_bytes <$> cs))).
  pose proof (checksum_packet cfg' tag (concat (chunk_bytes <$> cs))) as Hok. fold crc in Hok. fold p in Hok.
  assert (p = to_be 2 (local_port cfg') ++ to_be 2 (remote_port cfg') ++ to_be 4 tag ++ to_le 4 crc ++ concat (chunk_bytes <$> cs)) as Ep
    by (unfold p, packet_bytes, packet_header; rewrite <- !app_assoc; done).
  unfold upd_stats, modify. unfold mbind at 1, stM_bind at 1. cbv beta iota.
  erewrite get_bind by (rewrite Ep, get_u16_spec; apply read_be_to_be). cbv beta iota.
  erewrite get_bind by (rewrite get_u16_spec; apply read_be_to_be). cbv beta iota.
  erewrite get_bind by (rewrite get_u32_spec; apply read_be_to_be). cbv beta iota.
  erewrite get_bind by (rewrite get_u32_le_spec; apply read_le_to_le, crc32c_u32). cbv beta iota.
  fold crc. rewrite Hok. cbn [negb].
  apply chunk_loop_chunks; [done|apply concat_chunk_bytes_length].
Qed.
End run.
End wire.
