(* ===== verification/SctpRecv.v ===== *)
(** * The receiving side of an association

    DATA chunks that arrive in any order, any number of times, have the effect
    of processing once, in the order of their numbers, the longest prefix of
    the sequence that has arrived. *)
From S2P Require Import Prelude Core BytesCrate BTree StateRes RecordSet DataChannel SctpQueues Sctp SctpWire.

(** The number of the [i]-th chunk after [t0] *)
Definition tsn_at (t0 i : Z) : Z := as_u32 (t0 + i).

Lemma tsn_at_u32 t0 i : u32 (tsn_at t0 i).
Proof. unfold tsn_at. ulia. Qed.

Lemma tsn_at_diff t0 i j : -2147483648 ≤ i - j < 2147483648 → tsn_diff (tsn_at t0 i) (tsn_at t0 j) = i - j.
Proof.
  intros Hd. unfold tsn_diff, tsn_at, wsub32, as_i32, as_u32.
  rewrite <- Zminus_mod. replace (t0 + i - (t0 + j)) with (i - j) by lia.
  rewrite Zplus_mod_idemp_l. rewrite Z.mod_small by lia. lia.
Qed.

Lemma tsn_at_sub t0 i j : 0 ≤ i - j < 4294967296 → wsub32 (tsn_at t0 i) (tsn_at t0 j) = i - j.
Proof.
  intros Hd. unfold wsub32, tsn_at, as_u32. rewrite <- Zminus_mod.
  replace (t0 + i - (t0 + j)) with (i - j) by lia. apply Z.mod_small. lia.
Qed.

Lemma tsn_at_sub_neg t0 i j : -4294967296 < i - j < 0 → wsub32 (tsn_at t0 i) (tsn_at t0 j) = 4294967296 + (i - j).
Proof.
  intros Hd. unfold wsub32, tsn_at, as_u32. rewrite <- Zminus_mod.
  replace (t0 + i - (t0 + j)) with (4294967296 + (i - j) + (-1) * 4294967296) by lia.
  rewrite Z.mod_add by lia. apply Z.mod_small. lia.
Qed.

Lemma tsn_at_next t0 i j : wadd32 (tsn_at t0 i) j = tsn_at t0 (i + j).
Proof. unfold wadd32, tsn_at, as_u32. rewrite Zplus_mod_idemp_l. f_equal. lia. Qed.

Lemma tsn_at_prev t0 i j : wsub32 (tsn_at t0 i) j = tsn_at t0 (i - j).
Proof. unfold wsub32, tsn_at, as_u32. rewrite Zminus_mod_idemp_l. f_equal. lia. Qed.

Lemma tsn_at_inj t0 i j : tsn_at t0 i = tsn_at t0 j → -4294967296 < i - j < 4294967296 → i = j.
Proof.
  intros E Hd. destruct (decide (0 ≤ i - j)).
  - pose proof (tsn_at_sub t0 i j) as Hs. rewrite E in Hs. unfold wsub32, as_u32 in Hs. rewrite Z.sub_diag in Hs. cbn in Hs. lia.
  - pose proof (tsn_at_sub_neg t0 i j) as Hs. rewrite E in Hs. unfold wsub32, as_u32 in Hs. rewrite Z.sub_diag in Hs. cbn in Hs. lia.
Qed.

(** ** What the application sees of a channel *)

Record View := {
  v_id : Z; v_alive : bool; v_ordered : bool; v_tx : bool; v_partial : list Z; v_messages : list (list Z);
}.
#[export] Instance eta_View : Settable View :=
  settable! Build_View < v_id; v_alive; v_ordered; v_tx; v_partial; v_messages >.

Definition message_of (e : DataChannelEvent) : option (list Z) :=
  match e with EventMessage m => Some m | _ => None end.

Definition view (dc : DataChannel) : View := {|
  v_id := dc_id dc; v_alive := dc_alive dc; v_ordered := dc_ordered dc; v_tx := dc_tx dc;
  v_partial := dc_reassembly_buffer dc; v_messages := omap message_of (dc_events dc) |}.

Definition is_view (id : Z) (v : View) : bool := v_alive v && (v_id v =? id).

(** The first match is updated. *)
Fixpoint update_first {A} (p : A → bool) (g : A → A) (l : list A) : list A :=
  match l with
  | [] => []
  | v :: l => if p v then g v :: l else v :: update_first p g l
  end.
Definition update_view (id : Z) : (View → View) → list View → list View := update_first (is_view id).

Lemma update_channel_first {A} (h : DataChannel → A) (p : A → bool) id f g l :
  (∀ dc, p (h dc) = is_channel id dc) → (∀ dc, h (f dc) = g (h dc)) →
  h <$> update_channel id f l = update_first p g (h <$> l).
Proof.
  intros Hp Hf. induction l as [|dc l IH]; [done|]. cbn [update_channel fmap list_fmap update_first].
  rewrite Hp. destruct (is_channel id dc); cbn [fmap list_fmap]; [by rewrite Hf|]. f_equal. exact IH.
Qed.

Lemma view_update id f g l :
  (∀ dc, view (f dc) = g (view dc)) → view <$> update_channel id f l = update_view id g (view <$> l).
Proof. intros Hf. by apply update_channel_first. Qed.

Lemma find_update_first {A} (p p' : A → bool) g l :
  (∀ v, p' (g v) = p' v) → (∀ v, p v = true → p' v = true → g v = v) →
  List.find p' (update_first p g l) = List.find p' l.
Proof.
  intros Hg Hp. induction l as [|v l IH]; [done|]. cbn [update_first]. destruct (p v) eqn:E; cbn [List.find]; [|by rewrite IH].
  rewrite Hg. destruct (p' v) eqn:E'; [|done]. by rewrite Hp.
Qed.

Lemma find_update_same {A} (p : A → bool) g l :
  (∀ v, p (g v) = p v) → List.find p (update_first p g l) = g <$> List.find p l.
Proof.
  intros Hg. induction l as [|v l IH]; [done|]. cbn [update_first]. destruct (p v) eqn:E; cbn [List.find].
  - by rewrite Hg, E.
  - by rewrite E.
Qed.

Lemma update_view_id id g l : (∀ v, g v = v) → update_view id g l = l.
Proof.
  intros Hg. unfold update_view. induction l as [|v l IH]; [done|]. cbn [update_first]. rewrite Hg, IH. by destruct (is_view id v).
Qed.

Lemma update_view_twice id g1 g2 l :
  (∀ v, v_id (g1 v) = v_id v ∧ v_alive (g1 v) = v_alive v) →
  update_view id g2 (update_view id g1 l) = update_view id (fun v => g2 (g1 v)) l.
Proof.
  intros Hg. unfold update_view. induction l as [|v l IH]; [done|]. cbn [update_first].
  destruct (is_view id v) eqn:E; cbn [update_first].
  - destruct (Hg v) as [E1 E2]. unfold is_view in *. by rewrite E1, E2, E.
  - by rewrite E, IH.
Qed.

(** Only the first match is updated: what matters is the update on it. *)
Lemma update_first_ext {A} (p : A → bool) g1 g2 l v :
  List.find p l = Some v → g1 v = g2 v → update_first p g1 l = update_first p g2 l.
Proof.
  induction l as [|v' l IH]; [done|]. cbn [List.find update_first]. destruct (p v').
  - by intros [= ->] ->.
  - intros Hf Hg. by rewrite IH.
Qed.

Lemma update_first_id {A} (p : A → bool) g l v : List.find p l = Some v → g v = v → update_first p g l = l.
Proof.
  induction l as [|v' l IH]; [done|]. cbn [List.find update_first]. destruct (p v').
  - by intros [= ->] ->.
  - intros Hf Hg. by rewrite IH.
Qed.

Lemma find_view id l : List.find (is_view id) (view <$> l) = view <$> find_channel id l.
Proof.
  unfold find_channel. induction l as [|dc l IH]; [done|]. cbn [fmap list_fmap List.find].
  change (is_view id (view dc)) with (is_channel id dc). by destruct (is_channel id dc).
Qed.

(** ** What sending depends on *)

Record Sending := {
  sd_id : Z; sd_alive : bool; sd_ordered : bool; sd_size : Z; sd_ssn : Z; sd_retransmits : option Z; sd_life_time : option Z;
}.
#[export] Instance eta_Sending : Settable Sending :=
  settable! Build_Sending < sd_id; sd_alive; sd_ordered; sd_size; sd_ssn; sd_retransmits; sd_life_time >.

Definition send_view (dc : DataChannel) : Sending := {|
  sd_id := dc_id dc; sd_alive := dc_alive dc; sd_ordered := dc_ordered dc; sd_size := dc_max_payload_size dc;
  sd_ssn := dc_next_ssn dc; sd_retransmits := dc_max_retransmits dc; sd_life_time := dc_max_packet_life_time dc |}.
Definition is_sending (id : Z) (d : Sending) : bool := sd_alive d && (sd_id d =? id).

Lemma find_sending id l : List.find (is_sending id) (send_view <$> l) = send_view <$> find_channel id l.
Proof.
  unfold find_channel. induction l as [|dc l IH]; [done|]. cbn [fmap list_fmap List.find].
  change (is_sending id (send_view dc)) with (is_channel id dc). by destruct (is_channel id dc).
Qed.

Lemma update_channel_fmap {A} (h : DataChannel → A) id f l :
  (∀ dc, h (f dc) = h dc) → h <$> update_channel id f l = h <$> l.
Proof.
  intros Hf. induction l as [|dc l IH]; [done|]. cbn [update_channel].
  destruct (is_channel id dc); cbn [fmap list_fmap]; [by rewrite Hf|]. f_equal. exact IH.
Qed.

(** ** Events *)

Lemma view_send_message m dc :
  view (send_event (EventMessage m) dc) = (if v_tx (view dc) then view dc <| v_messages ::= fun l => l ++ [m] |> else view dc).
Proof.
  unfold send_event. cbn [view v_tx]. destruct (dc_tx dc) eqn:E; [|done]. unfold view. rs. rewrite omap_app. by rewrite E.
Qed.

Lemma view_send_other e dc : message_of e = None → view (send_event e dc) = view dc.
Proof.
  intros He. unfold send_event. destruct (dc_tx dc) eqn:E; [|done]. unfold view. rs.
  rewrite omap_app. cbn. by rewrite He, app_nil_r, E.
Qed.

Lemma view_buffered a dc : view (on_buffered_amount a dc) = view dc.
Proof.
  unfold on_buffered_amount. cbv zeta. repeat case_match; try done. by rewrite view_send_other.
Qed.

Lemma send_view_event e dc : send_view (send_event e dc) = send_view dc.
Proof. unfold send_event. by destruct (dc_tx dc). Qed.

Lemma send_view_buffered a dc : send_view (on_buffered_amount a dc) = send_view dc.
Proof. unfold on_buffered_amount. cbv zeta. repeat case_match; try done. by rewrite send_view_event. Qed.

Lemma send_view_messages ms dc : send_view (fold_left (fun dc m => send_event (EventMessage m) dc) ms dc) = send_view dc.
Proof. revert dc. induction ms as [|m ms IH]; intros dc; [done|]. cbn. by rewrite IH, send_view_event. Qed.

(** ** One chunk *)

Definition first_fragment (c : OutboundChunk) : bool := negb (Z.land (oc_flags c) 0x02 =? 0).
Definition last_fragment (c : OutboundChunk) : bool := negb (Z.land (oc_flags c) 0x01 =? 0).
Definition ordered_chunk (c : OutboundChunk) : bool := Z.land (oc_flags c) 0x04 =? 0.

(** What a chunk does to the channel it is for *)
Definition receive (c : OutboundChunk) (v : View) : View :=
  let buffer := (if first_fragment c then [] else v_partial v) ++ oc_payload c in
  if last_fragment c then
    let v := v <| v_partial := [] |> in
    if v_tx v then v <| v_messages ::= fun l => l ++ [buffer] |> else v
  else v <| v_partial := buffer |>.
Definition view_step (l : list View) (c : OutboundChunk) : list View := update_view (oc_stream_id c) (receive c) l.

(** A chunk that a sender can make *)
Definition wf_outbound (c : OutboundChunk) : Prop :=
  u16 (oc_stream_id c) ∧ u16 (oc_ssn c) ∧ u32 (oc_ppid c) ∧ u8 (oc_flags c) ∧ len (oc_payload c) ≤ 1172 ∧
  oc_ppid c ≠ DATA_CHANNEL_PPID_DCEP.

Lemma wf_data_chunk c tsn : wf_outbound c → wf_chunk (data_chunk c tsn).
Proof.
  intros (? & ? & ? & ? & ? & _). unfold wf_chunk, data_chunk, data_value, len in *. cbn [ch_type ch_flags ch_value].
  rewrite !length_app, !length_to_be. split; [done|]. split; [done|]. lia.
Qed.

Definition stream_at (ssn : Z) : InboundStream := {| next_ssn := ssn; pending := [] |}.

Lemma enqueue_next ssn msg : u16 ssn → enqueue (stream_at ssn) ssn msg = ([msg], stream_at (wadd16 ssn 1)).
Proof.
  intros Hs. unfold enqueue, drain_ready, stream_at. cbn -[wadd16]. rewrite Z.eqb_refl. cbn -[wadd16]. done.
Qed.

Lemma keep_streams s : s <| rx ::= set inbound_streams (fun _ => inbound_streams (rx s)) |> = s.
Proof. by destruct s as [[]]. Qed.

Lemma keep_channels s r : s <| rx := r |> <| data_channels := data_channels s |> = s <| rx := r |>.
Proof. by destruct s. Qed.

Section receive.
Context `{BytesCrate, !BytesLaws}.
Context (cfg : SctpConfig) (now : Z).

Lemma process_data_read c tsn flags s :
  wf_outbound c →
  process_data_payload cfg now flags (data_value tsn (oc_stream_id c) (oc_ssn c) (oc_ppid c) (oc_payload c)) s =
  match find_channel (oc_stream_id c) (data_channels s) with
  | Some dc =>
      let b_bit := negb (Z.land flags 0x02 =? 0) in
      let e_bit := negb (Z.land flags 0x01 =? 0) in
      let buffer := (if b_bit then [] else dc_reassembly_buffer dc) ++ oc_payload c in
      if e_bit then
        (upd_channels (update_channel (oc_stream_id c) (set dc_reassembly_buffer (fun _ => [])));;
        if negb (Z.land flags 0x04 =? 0) || negb (dc_ordered dc) then deliver_messages (oc_stream_id c) [buffer]
        else ready ← enqueue_message (oc_stream_id c) (oc_ssn c) buffer; deliver_messages (oc_stream_id c) ready) s
      else upd_channels (update_channel (oc_stream_id c) (set dc_reassembly_buffer (fun _ => buffer))) s
  | None => (s, Ok tt)
  end.
Proof.
  intros (Hsid & Hssn & Hppid & _ & _ & Hd). unfold process_data_payload, data_value.
  erewrite get_bind by (rewrite advance_spec, split_front_app by apply length_to_be; done).
  cbv beta iota. erewrite get_bind by (rewrite get_u16_spec; by apply read_be_16). cbv beta iota.
  erewrite get_bind by (rewrite get_u16_spec; by apply read_be_16). cbv beta iota.
  erewrite get_bind by (rewrite get_u32_spec; by apply read_be_32). cbv beta iota.
  rewrite (proj2 (Z.eqb_neq _ _) Hd). unfold get_st at 1. unfold mbind at 1, stM_bind at 1. cbv beta iota.
  destruct (find_channel _ _); [|done]. cbv zeta. by destruct (negb (Z.land flags 1 =? 0)).
Qed.

(** A chunk for a channel, when the stream is at its number *)
Lemma process_data_chunk c tsn s dc :
  wf_outbound c → find_channel (oc_stream_id c) (data_channels s) = Some dc → dc_ordered dc = ordered_chunk c →
  bt_wf (inbound_streams (rx s)) →
  (ordered_chunk c = true → stream_of (oc_stream_id c) (inbound_streams (rx s)) = stream_at (oc_ssn c)) →
  ∃ st dcs,
    process_data_payload cfg now (oc_flags c) (ch_value (data_chunk c tsn)) s =
      (s <| rx ::= set inbound_streams (fun _ => st) |> <| data_channels := dcs |>, Ok tt) ∧
    view <$> dcs = view_step (view <$> data_channels s) c ∧ send_view <$> dcs = send_view <$> data_channels s ∧
    bt_wf st ∧
    ∀ sid, stream_of sid st = if ordered_chunk c && last_fragment c && (sid =? oc_stream_id c)
                              then stream_at (wadd16 (oc_ssn c) 1) else stream_of sid (inbound_streams (rx s)).
Proof.
  intros Hw Hf Ho Hbt Hst. cbn [data_chunk ch_value]. rewrite process_data_read, Hf by done. cbv zeta.
  assert (List.find (is_view (oc_stream_id c)) (view <$> data_channels s) = Some (view dc)) as Hv
    by (by rewrite find_view, Hf).
  fold (first_fragment c) (last_fragment c) (ordered_chunk c). rewrite Ho.
  set (buf := (if first_fragment c then [] else dc_reassembly_buffer dc) ++ oc_payload c).
  set (clear := update_channel (oc_stream_id c) (set dc_reassembly_buffer (fun _ => [])) (data_channels s)).
  assert (∀ dcs, dcs = update_channel (oc_stream_id c) (send_event (EventMessage buf)) clear → last_fragment c = true →
    view <$> dcs = view_step (view <$> data_channels s) c ∧ send_view <$> dcs = send_view <$> data_channels s) as Hdel.
  { intros dcs -> Hl. unfold clear. split.
    - rewrite (view_update _ _ (fun v => if v_tx v then v <| v_messages ::= fun l => l ++ [buf] |> else v))
        by apply view_send_message.
      rewrite (view_update _ _ (fun v => v <| v_partial := [] |>)) by done.
      rewrite update_view_twice by done. apply (update_first_ext _ _ _ _ _ Hv). unfold receive. by rewrite Hl.
    - rewrite update_channel_fmap by (intros; apply send_view_event). by apply update_channel_fmap. }
  destruct (last_fragment c) eqn:Hl; cbn [andb].
  2: { eexists (inbound_streams (rx s)), _. split; [|split; [|split; [|split; [done|]]]].
       - rewrite keep_streams. reflexivity.
       - rewrite (view_update _ _ (fun v => v <| v_partial := buf |>)) by done.
         apply (update_first_ext _ _ _ _ _ Hv). unfold receive. by rewrite Hl.
       - by apply update_channel_fmap.
       - intros sid. by rewrite andb_false_r. }
  destruct (ordered_chunk c) eqn:Hoc; cbn [negb orb andb].
  - unfold upd_channels, modify, enqueue_message, deliver_messages, upd_channels, upd_rx, modify, mbind, stM_bind, get_st. rs.
    rewrite Hst by done. rewrite enqueue_next by apply Hw. cbn [fold_left].
    eexists _, _. split; [reflexivity|]. destruct (Hdel _ eq_refl eq_refl) as [H1 H2]. split; [exact H1|]. split; [exact H2|].
    split; [by apply bt_insert_wf|]. intros sid. unfold stream_of. rewrite bt_get_insert by done. by destruct (sid =? oc_stream_id c).
  - unfold upd_channels, modify, deliver_messages, upd_channels, upd_rx, modify, mbind, stM_bind, get_st. rs.
    eexists (inbound_streams (rx s)), _. split; [rewrite keep_streams; reflexivity|]. destruct (Hdel _ eq_refl eq_refl) as [H1 H2]. done.
Qed.

(** ** The sequence of chunks *)

(** How many ordered messages of a stream a sequence of chunks completes *)
Definition completes (sid : Z) (c : OutboundChunk) : bool :=
  ordered_chunk c && last_fragment c && (sid =? oc_stream_id c).
Definition ssn_count (sid : Z) (cs : list OutboundChunk) : Z :=
  Z.of_nat (length (filter (fun c => completes sid c = true) cs)).

Lemma ssn_count_snoc sid cs c :
  as_u16 (ssn_count sid (cs ++ [c])) =
    if completes sid c then wadd16 (as_u16 (ssn_count sid cs)) 1 else as_u16 (ssn_count sid cs).
Proof.
  unfold ssn_count. rewrite filter_app, length_app, filter_cons. destruct (completes sid c); cbn.
  - unfold wadd16, as_u16. rewrite Nat2Z.inj_add, Zplus_mod_idemp_l. done.
  - by rewrite Nat.add_0_r.
Qed.

(** The chunks of a sender whose channels, at the receiver, are [v0] *)
Definition data_ok (v0 : list View) (chs : list OutboundChunk) : Prop := ∀ i c, chs !! i = Some c →
  wf_outbound c ∧
  (∃ v, List.find (is_view (oc_stream_id c)) v0 = Some v ∧ v_ordered v = ordered_chunk c) ∧
  (ordered_chunk c = true → oc_ssn c = as_u16 (ssn_count (oc_stream_id c) (take i chs))).

Definition static (v : View) : Z * bool * bool * bool := (v_id v, v_alive v, v_ordered v, v_tx v).

Lemma static_receive c v : static (receive c v) = static v.
Proof. unfold receive. cbv zeta. by repeat case_match. Qed.

Lemma static_view_step l c : static <$> view_step l c = static <$> l.
Proof.
  unfold view_step, update_view. induction l as [|v l IH]; [done|]. cbn [update_first].
  destruct (is_view _ v); cbn [fmap list_fmap]; [by rewrite static_receive|]. f_equal. exact IH.
Qed.

Lemma static_fold cs l : static <$> fold_left view_step cs l = static <$> l.
Proof. revert l. induction cs as [|c cs IH]; intros l; [done|]. cbn [fold_left]. by rewrite IH, static_view_step. Qed.

Lemma find_static id l l' v :
  static <$> l' = static <$> l → List.find (is_view id) l = Some v →
  ∃ v', List.find (is_view id) l' = Some v' ∧ static v' = static v.
Proof.
  revert l. induction l' as [|v1 l' IH]; intros [|v2 l]; [done..|]. cbn [fmap list_fmap]. intros [= E1 E2 E3 E4 E] Hf.
  cbn [List.find] in *. unfold is_view in *. rewrite E1, E2. destruct (v_alive v2 && (v_id v2 =? id)); [|by eapply IH].
  simplify_eq. exists v1. split; [done|]. unfold static. by rewrite E1, E2, E3, E4.
Qed.

Context (u0 : Z) (v0 : list View) (chs : list OutboundChunk).

(** The first [n] chunks have been processed. *)
Record processed (n : nat) (s : SctpInner) : Prop := {
  pr_le : (n ≤ length chs)%nat;
  pr_cum : cumulative_tsn_ack (rx s) = tsn_at u0 (Z.of_nat n - 1);
  pr_wf : bt_wf (inbound_streams (rx s));
  pr_streams sid : stream_of sid (inbound_streams (rx s)) = stream_at (as_u16 (ssn_count sid (take n chs)));
  pr_views : view <$> data_channels s = fold_left view_step (take n chs) v0;
}.

(** What is queued are chunks of the sequence, from the [n]-th on. *)
Definition entry (i : nat) (c : OutboundChunk) : Z * list Z :=
  (oc_flags c, ch_value (data_chunk c (tsn_at u0 (Z.of_nat i)))).
Record queued (n : nat) (q : list (Z * (Z * list Z))) : Prop := {
  qu_wf : bt_wf q;
  qu_get k e : bt_get k q = Some e →
    ∃ i c, (n ≤ i)%nat ∧ chs !! i = Some c ∧ k = tsn_at u0 (Z.of_nat i) ∧ e = entry i c;
}.

Definition tsn_queued (i : nat) (q : list (Z * (Z * list Z))) : Prop := is_Some (bt_get (tsn_at u0 (Z.of_nat i)) q).

Context (Hok : data_ok v0 chs) (Hlen : Z.of_nat (length chs) < 2147483648).

Lemma index_inj i j (c d : OutboundChunk) :
  chs !! i = Some c → chs !! j = Some d → tsn_at u0 (Z.of_nat i) = tsn_at u0 (Z.of_nat j) → i = j.
Proof.
  intros Hi%lookup_lt_Some Hj%lookup_lt_Some E. apply tsn_at_inj in E; lia.
Qed.

Lemma queued_remove n q : queued n q → queued (S n) (bt_remove (tsn_at u0 (Z.of_nat n)) q).
Proof.
  intros [Hw Hg]. split; [by apply bt_remove_wf|]. intros k e Hk.
  rewrite bt_get_remove in Hk by done. destruct (Z.eqb_spec k (tsn_at u0 (Z.of_nat n))) as [|Hne]; [done|].
  destruct (Hg k e Hk) as (i & c & Hi & Hc & -> & ->).
  exists i, c. split_and!; try done. destruct (decide (i = n)) as [->|]; [done|lia].
Qed.

(** The next chunk is processed. *)
Lemma process_next n c s :
  processed n s → chs !! n = Some c →
  ∃ st dcs,
    process_data_payload cfg now (oc_flags c) (ch_value (data_chunk c (tsn_at u0 (Z.of_nat n)))) s =
      (s <| rx ::= set inbound_streams (fun _ => st) |> <| data_channels := dcs |>, Ok tt) ∧
    send_view <$> dcs = send_view <$> data_channels s ∧
    ∀ s', cumulative_tsn_ack (rx s') = tsn_at u0 (Z.of_nat n) → inbound_streams (rx s') = st → data_channels s' = dcs →
      processed (S n) s'.
Proof.
  intros [Hle Hcum Hwf Hst Hvs] Hc. destruct (Hok _ _ Hc) as (Hw & (v & Hv & Ho) & Hssn).
  destruct (find_static _ _ _ _ (static_fold (take n chs) v0) Hv) as (v' & Hv' & Es).
  rewrite <- Hvs, find_view in Hv'. apply fmap_Some in Hv' as (dc & Hdc & ->).
  destruct (process_data_chunk c (tsn_at u0 (Z.of_nat n)) s dc Hw Hdc) as (st & dcs & E & E1 & E2 & E3 & E4).
  - rewrite <- Ho. by injection Es.
  - done.
  - intros Hoc. rewrite Hst. by rewrite Hssn.
  - exists st, dcs. split; [done|]. split; [done|]. intros s' Hcum' Hst' Hdcs'.
    assert (take (S n) chs = take n chs ++ [c]) as Et by (by apply take_S_r).
    split.
    + apply lookup_lt_Some in Hc. lia.
    + rewrite Hcum'. f_equal. lia.
    + by rewrite Hst'.
    + intros sid. rewrite Hst', E4, Et, ssn_count_snoc. unfold completes.
      destruct (ordered_chunk c && last_fragment c && (sid =? oc_stream_id c)) eqn:Eb; [|apply Hst].
      apply andb_true_iff in Eb as [[Hoc _]%andb_true_iff ->%Z.eqb_eq]. by rewrite Hssn.
    + by rewrite Hdcs', E1, Hvs, Et, fold_left_app.
Qed.

Lemma process_drained_next n c s :
  processed n s → chs !! n = Some c →
  ∃ r dcs,
    process_drained cfg now (entry n c) s = (s <| rx := r |> <| data_channels := dcs |>, Ok tt) ∧
    send_view <$> dcs = send_view <$> data_channels s ∧ received_queue r = received_queue (rx s) ∧
    processed (S n) (s <| rx := r |> <| data_channels := dcs |>).
Proof.
  intros Hp Hc. destruct (process_next n c s Hp Hc) as (st & dcs & E & E1 & E2).
  unfold process_drained, entry, mbind, stM_bind, get_st. rewrite E. unfold upd_rx, modify.
  eexists _, dcs. split; [reflexivity|]. split; [done|]. split; [done|]. apply E2; [|done..].
  change (wadd32 (cumulative_tsn_ack (rx s)) 1 = tsn_at u0 (Z.of_nat n)).
  rewrite (pr_cum _ _ Hp), tsn_at_next. f_equal. lia.
Qed.

(** Draining the queue processes the chunks that follow without a gap. *)
Lemma process_queue fuel : ∀ n q l q' s,
  queued n q → drain_received fuel (tsn_at u0 (Z.of_nat n)) q = (l, q') → processed n s →
  ∃ n' r dcs, (n ≤ n')%nat ∧
    for_each l (process_drained cfg now) s = (s <| rx := r |> <| data_channels := dcs |>, Ok tt) ∧
    send_view <$> dcs = send_view <$> data_channels s ∧ received_queue r = received_queue (rx s) ∧
    processed n' (s <| rx := r |> <| data_channels := dcs |>) ∧ queued n' q' ∧
    (∀ i, (n' ≤ i < length chs)%nat → tsn_queued i q → tsn_queued i q') ∧
    ((length q ≤ fuel)%nat → ¬ tsn_queued n' q').
Proof.
  assert (∀ s, s <| rx := rx s |> <| data_channels := data_channels s |> = s) as Hs by (by intros []).
  induction fuel as [|fuel IH]; intros n q l q' s Hq; cbn [drain_received].
  { intros Hd Hp. assert (l = [] ∧ q' = q) as [-> ->] by (destruct (bt_get _ q); by simplify_eq).
    exists n, (rx s), (data_channels s). rewrite Hs. repeat (split; [done|]).
    intros Hl. destruct q; [by intros [? ?]|cbn in Hl; lia]. }
  destruct (bt_get _ q) as [e|] eqn:Eg.
  2: { intros [= <- <-] Hp. exists n, (rx s), (data_channels s). rewrite Hs. repeat (split; [done|]).
       intros _. unfold tsn_queued. rewrite Eg. by intros [? ?]. }
  destruct (drain_received fuel _ _) as [l1 q1] eqn:Ed. intros [= <- <-] Hp.
  destruct (qu_get _ _ Hq _ _ Eg) as (i & c & Hi & Hc & Ei & ->).
  assert (∃ d, chs !! n = Some d) as [d Hd].
  { apply lookup_lt_is_Some. apply lookup_lt_Some in Hc. lia. }
  pose proof (index_inj _ _ _ _ Hd Hc Ei) as <-. simplify_eq.
  destruct (process_drained_next n c s Hp Hc) as (r1 & dcs1 & E1 & Ev1 & Er1 & Hp1).
  rewrite tsn_at_next in Ed. replace (Z.of_nat n + 1) with (Z.of_nat (S n)) in Ed by lia.
  destruct (IH (S n) _ _ _ _ (queued_remove n q Hq) Ed Hp1) as (n' & r & dcs & Hn & E & Ev & Er & Hp' & Hq' & Hk & Hd').
  exists n', r, dcs. split; [lia|]. cbn [for_each]. rewrite (bind_eq _ _ _ _ _ E1). split; [exact E|].
  split; [by rewrite Ev|]. split; [by rewrite Er|]. split; [done|]. split; [done|].
  split; [|intros Hl; apply Hd'; pose proof (bt_remove_length_lt _ _ (mk_is_Some _ _ Eg)); lia].
  intros j Hj [e He]. apply Hk; [done|]. unfold tsn_queued. rewrite bt_get_remove by apply Hq.
  rewrite (proj2 (Z.eqb_neq _ _)); [eauto|]. intros Ej. apply tsn_at_inj in Ej; lia.
Qed.

(** The receiver has chunk [i]: processed, or in the queue. *)
Definition has (n : nat) (s : SctpInner) (i : nat) : Prop := (i < n)%nat ∨ tsn_queued i (received_queue (rx s)).

(** Between two chunks, what is queued comes after a gap. *)
Definition rx_inv (n : nat) (s : SctpInner) : Prop :=
  processed n s ∧ queued n (received_queue (rx s)) ∧ ¬ tsn_queued n (received_queue (rx s)).

Lemma processed_ext n s s' :
  processed n s → cumulative_tsn_ack (rx s') = cumulative_tsn_ack (rx s) →
  inbound_streams (rx s') = inbound_streams (rx s) → view <$> data_channels s' = view <$> data_channels s →
  processed n s'.
Proof. intros [H1 H2 H3 H4 H5] E1 E2 E3. split; [done|congruence|by rewrite E2|intros; by rewrite E2|congruence]. Qed.

Lemma queued_weaken n n' q : queued n' q → (n ≤ n')%nat → queued n q.
Proof.
  intros [Hw Hg] Hn. split; [done|]. intros k e Hk. destruct (Hg k e Hk) as (i & c & Hi & ?). exists i, c. split; [lia|done].
Qed.

Lemma queued_insert n q i c :
  queued n q → (n ≤ i)%nat → chs !! i = Some c → queued n (bt_insert (tsn_at u0 (Z.of_nat i)) (entry i c) q).
Proof.
  intros [Hw Hg] Hi Hc. split; [by apply bt_insert_wf|]. intros k e. rewrite bt_get_insert by done.
  destruct (Z.eqb_spec k (tsn_at u0 (Z.of_nat i))) as [->|]; [|apply Hg]. intros [= <-]. eauto 10.
Qed.

Lemma tsn_queued_insert i j e q :
  bt_wf q → tsn_queued i (bt_insert (tsn_at u0 (Z.of_nat j)) e q) ↔
              tsn_at u0 (Z.of_nat i) = tsn_at u0 (Z.of_nat j) ∨ tsn_queued i q.
Proof.
  intros Hw. unfold tsn_queued. rewrite bt_get_insert by done.
  destruct (Z.eqb_spec (tsn_at u0 (Z.of_nat i)) (tsn_at u0 (Z.of_nat j))); naive_solver.
Qed.

(** What a step of the receiver leaves: more has arrived, and what sending
    depends on is as before. *)
Definition rx_step (n : nat) (s : SctpInner) (i : nat) (out : SctpInner * res stop unit) : Prop :=
  ∃ n' r dcs, (n ≤ n')%nat ∧ out = (s <| rx := r |> <| data_channels := dcs |>, Ok tt) ∧
    send_view <$> dcs = send_view <$> data_channels s ∧
    rx_inv n' (s <| rx := r |> <| data_channels := dcs |>) ∧
    has n' (s <| rx := r |> <| data_channels := dcs |>) i ∧
    ∀ j, (j < length chs)%nat → has n s j → has n' (s <| rx := r |> <| data_channels := dcs |>) j.

Definition receive_queued : stM SctpInner stop unit :=
  s ← get_st;
  let '(to_process, q) := drain_received (length (received_queue (rx s)))
                            (wadd32 (cumulative_tsn_ack (rx s)) 1) (received_queue (rx s)) in
  upd_rx (set received_queue (fun _ => q));;
  for_each to_process (process_drained cfg now);;
  schedule_sack_immediate.

Lemma receive_queued_step n s i :
  processed n s → queued n (received_queue (rx s)) → (i < length chs)%nat → has n s i → rx_step n s i (receive_queued s).
Proof.
  intros Hp Hq Hi Hh. unfold receive_queued. unfold get_st at 1. unfold mbind at 1, stM_bind at 1. cbv beta iota.
  destruct (drain_received _ _ _) as [l q] eqn:Ed.
  rewrite (pr_cum _ _ Hp), tsn_at_next in Ed. replace (Z.of_nat n - 1 + 1) with (Z.of_nat n) in Ed by lia.
  set (s1 := s <| rx ::= set received_queue (fun _ => q) |>).
  assert (processed n s1) as Hp1 by (by eapply processed_ext).
  destruct (process_queue _ _ _ _ _ s1 Hq Ed Hp1) as (n' & r & dcs & Hn & E & Ev & Er & Hp' & Hq' & Hk & Hd).
  rewrite (bind_eq _ _ s s1 tt eq_refl). rewrite (bind_eq _ _ _ _ _ E).
  unfold schedule_sack_immediate, upd_rx, modify.
  assert (∀ j, (j < length chs)%nat → has n s j → (j < n')%nat ∨ tsn_queued j q) as Hkeep.
  { intros j Hj [Hlt|Hqj]; [left; lia|]. destruct (decide (j < n')%nat); [by left|]. right. apply Hk; [lia|done]. }
  exists n', (r <| sack_delayed_until := None |> <| sack_needed := true |>), dcs.
  assert (received_queue r = q) as Er' by (by rewrite Er).
  split; [done|]. split; [reflexivity|]. split; [done|]. unfold has, rx_inv. rs. rewrite Er'.
  split; [split; [by eapply processed_ext|split; [done|by apply Hd]]|]. split; [by apply Hkeep|]. intros j Hj Hhj. by apply Hkeep.
Qed.

(** DATA chunk [i] arrives, in whatever order, for the first time or again. *)
Lemma handle_data_step n s i c :
  rx_inv n s → chs !! i = Some c →
  rx_step n s i (handle_data cfg now (oc_flags c) (ch_value (data_chunk c (tsn_at u0 (Z.of_nat i)))) s).
Proof.
  intros (Hp & Hq & Hd) Hc. pose proof (lookup_lt_Some _ _ _ Hc) as Hi. pose proof (pr_le _ _ Hp) as Hn.
  unfold handle_data. rewrite remaining_spec.
  rewrite (proj2 (Nat.ltb_ge _ _)) by (cbn [data_chunk ch_value]; unfold data_value; rewrite !length_app, !length_to_be; lia).
  erewrite get_bind by (cbn [data_chunk ch_value]; unfold data_value; rewrite get_u32_spec; apply read_be_32, tsn_at_u32).
  cbv beta iota zeta. rewrite (bind_eq get_st _ s s s eq_refl).
  rewrite (pr_cum _ _ Hp). destruct (decide (i < n)%nat) as [Hlt|Hge].
  - (* a chunk that was processed *)
    replace ((wsub32 _ _ =? 0) || _) with true.
    2: { symmetry. destruct (decide (i = n - 1)%nat) as [->|].
         - rewrite tsn_at_sub by lia. apply orb_true_iff. left. apply Z.eqb_eq. lia.
         - rewrite tsn_at_sub_neg by lia. apply orb_true_iff. right. apply Z.ltb_lt. lia. }
    eexists n, _, (data_channels s). split; [done|].
    unfold upd_rx, modify, schedule_sack_immediate, mbind, stM_bind, upd_rx, modify.
    split; [rewrite keep_channels; reflexivity|]. split; [done|]. unfold rx_inv, has. rs.
    split; [split; [by eapply processed_ext|done]|]. split; [by left|done].
  - rewrite !tsn_at_sub by lia.
    replace ((_ =? 0) || _) with false by (symmetry; apply orb_false_iff; split; [apply Z.eqb_neq; lia|apply Z.ltb_ge; lia]).
    destruct ((_ =? 1) && _) eqn:Efast.
    + (* the next chunk, and nothing is queued *)
      apply andb_true_iff in Efast as [En%Z.eqb_eq Eq%Nat.eqb_eq]. assert (i = n) as -> by lia.
      apply nil_length_inv in Eq.
      destruct (process_next n c s Hp Hc) as (st & dcs & E & Ev & Hnext). rewrite (bind_eq _ _ _ _ _ E).
      assert (∃ r, (upd_rx (set cumulative_tsn_ack (fun _ => tsn_at u0 (Z.of_nat n)));; schedule_sack_delayed now)
                (s <| rx ::= set inbound_streams (fun _ => st) |> <| data_channels := dcs |>) =
              (s <| rx := r |> <| data_channels := dcs |>, @Ok stop unit tt) ∧
              received_queue r = received_queue (rx s) ∧ cumulative_tsn_ack r = tsn_at u0 (Z.of_nat n) ∧ inbound_streams r = st)
        as (r & Er & Er1 & Er2 & Er3).
      { unfold schedule_sack_delayed, upd_rx, modify, mbind, stM_bind, get_st. rs.
        destruct (sack_delayed_until (rx s)); eexists; (split; [reflexivity|done]). }
      rewrite Er. exists (S n), r, dcs. split; [lia|]. split; [done|]. split; [done|]. unfold rx_inv, has. rs.
      rewrite Er1. split; [split; [by apply Hnext|rewrite Eq; split; [split; [constructor|done]|by intros [? ?]]]|]. split; [left; lia|].
      intros j _ [Hj|Hj]; [left; lia|by right].
    + (* the chunk is queued *)
      change (rx_step n s i (((match bt_get (tsn_at u0 (Z.of_nat i)) (received_queue (rx s)) with
        | Some _ => mret tt
        | None => upd_rx (fun r => r <| used_rwnd ::= fun n => uadd n (len (ch_value (data_chunk c (tsn_at u0 (Z.of_nat i))))) |>
                                     <| received_queue ::= bt_insert (tsn_at u0 (Z.of_nat i)) (entry i c) |>)
        end) ;; receive_queued) s)).
      destruct (bt_get _ _) as [e|] eqn:Eg.
      * apply receive_queued_step; [done..|]. right. unfold tsn_queued. by rewrite Eg.
      * set (s1 := s <| rx ::= fun r => r <| used_rwnd ::= fun n => uadd n (len (ch_value (data_chunk c (tsn_at u0 (Z.of_nat i))))) |>
                                           <| received_queue ::= bt_insert (tsn_at u0 (Z.of_nat i)) (entry i c) |> |>).
        rewrite (bind_eq _ _ s s1 tt eq_refl).
        assert (processed n s1) as Hp1 by (by eapply processed_ext).
        assert (queued n (received_queue (rx s1))) as Hq1 by (apply queued_insert; [done|lia|done]).
        assert (∀ j, has n s j → has n s1 j) as Hh1.
        { intros j [Hj|Hj]; [by left|right]. apply tsn_queued_insert; [apply Hq|by right]. }
        assert (has n s1 i) as Hi1 by (right; apply tsn_queued_insert; [apply Hq|by left]).
        destruct (receive_queued_step n s1 i Hp1 Hq1 Hi Hi1) as (n' & r & dcs & H1 & H2 & H3 & H4 & H5 & H6).
        exists n', r, dcs. split; [done|]. split; [exact H2|]. split; [exact H3|]. split; [exact H4|]. split; [exact H5|].
        intros j Hj Hhj. by apply H6, Hh1.
Qed.

(** ** What a SACK says *)

(** The chunks that an acknowledgement of the first [n] chunks with these gap
    blocks reports are held. *)
Definition truthful (held : nat → Prop) (n : nat) (gaps : list (Z * Z)) : Prop :=
  (∀ i, (i < n)%nat → held i) ∧
  Forall (fun '(a, b) => 1 ≤ a ≤ b ∧ b ≤ 65535 ∧ ∀ i, a ≤ Z.of_nat i - Z.of_nat n + 1 ≤ b → held i) gaps.

Definition run_held (held : nat → Prop) (n : nat) (run : Z * Z) : Prop :=
  ∃ i j, run = (tsn_at u0 (Z.of_nat i), tsn_at u0 (Z.of_nat j)) ∧ (n ≤ i ≤ j)%nat ∧ (j < length chs)%nat ∧
    ∀ l, (i ≤ l ≤ j)%nat → held l.

Lemma push_block_truthful held n blocks run :
  truthful held n blocks → run_held held n run →
  truthful held n (push_block (tsn_at u0 (Z.of_nat n - 1)) blocks run).
Proof.
  intros [Hn Hb] (i & j & -> & Hij & Hj & Hl). unfold push_block. cbn [fst snd].
  rewrite !tsn_at_sub by lia. destruct ((_ <=? _) && _) eqn:E; [|done].
  apply andb_true_iff in E as [E1%Z.leb_le E2%Z.leb_le]. split; [done|]. apply Forall_app. split; [done|].
  apply Forall_singleton. split; [lia|]. split; [lia|]. intros l Hlr. apply Hl. lia.
Qed.

Lemma push_block_length cum blocks run : (length (push_block cum blocks run) ≤ S (length blocks))%nat.
Proof. unfold push_block. destruct (_ && _); [rewrite length_app; cbn|]; lia. Qed.

Lemma gap_loop_truthful held n keys : ∀ blocks current,
  Forall (fun k => ∃ i, k = tsn_at u0 (Z.of_nat i) ∧ (n ≤ i < length chs)%nat ∧ held i) keys →
  truthful held n blocks → (length blocks < 16)%nat → (∀ run, current = Some run → run_held held n run) →
  let '(blocks', current') := gap_loop keys (tsn_at u0 (Z.of_nat n - 1)) blocks current in
  truthful held n blocks' ∧ (length blocks' ≤ 16)%nat ∧ ∀ run, current' = Some run → run_held held n run.
Proof.
  induction keys as [|k keys IH]; intros blocks current Hk Hb Hl Hc; [cbn; split; [done|]; split; [lia|done]|].
  apply Forall_cons in Hk as [(i & -> & Hi & Hh) Hk]. cbn [gap_loop]. rewrite tsn_at_diff by lia.
  rewrite (proj2 (Z.leb_gt _ _)) by lia.
  assert (run_held held n (tsn_at u0 (Z.of_nat i), tsn_at u0 (Z.of_nat i))) as Hone.
  { exists i, i. split; [done|]. split; [lia|]. split; [lia|]. intros l Hlr. by replace l with i by lia. }
  assert (∀ blocks1 run, truthful held n blocks1 → (length blocks1 ≤ 16)%nat → run_held held n run →
    let '(blocks', current') := if (16 <=? length blocks1)%nat then (blocks1, Some run)
                                else gap_loop keys (tsn_at u0 (Z.of_nat n - 1)) blocks1 (Some run) in
    truthful held n blocks' ∧ (length blocks' ≤ 16)%nat ∧ ∀ run, current' = Some run → run_held held n run) as Hgo.
  { intros blocks1 run Hb1 Hl1 Hr1. destruct (Nat.leb_spec 16 (length blocks1)).
    - split; [done|]. split; [done|]. by intros ? [= <-].
    - apply IH; [done..|]. by intros ? [= <-]. }
  destruct current as [[start end_]|]; [|apply Hgo; [done|lia|done]].
  pose proof (Hc _ eq_refl) as Hrun. destruct (Z.eqb_spec (tsn_at u0 (Z.of_nat i)) (wadd32 end_ 1)) as [En|En].
  - apply Hgo; [done|lia|]. destruct Hrun as (a & b & [= -> ->] & Hab & Hbl & Hhl).
    rewrite tsn_at_next in En. apply tsn_at_inj in En; [|lia]. exists a, i. split; [done|]. split; [lia|]. split; [lia|].
    intros l Hlr. destruct (decide (l = i)) as [->|]; [done|]. apply Hhl. lia.
  - apply Hgo; [by apply push_block_truthful| |done]. pose proof (push_block_length (tsn_at u0 (Z.of_nat n - 1)) blocks (start, end_)). lia.
Qed.

Lemma gap_blocks_truthful n s :
  rx_inv n s →
  truthful (fun i => (i < length chs)%nat ∧ has n s i) n (build_gap_ack_blocks s (cumulative_tsn_ack (rx s))) ∧
  (length (build_gap_ack_blocks s (cumulative_tsn_ack (rx s))) ≤ 16)%nat.
Proof.
  intros (Hp & Hq & _). rewrite (pr_cum _ _ Hp). unfold build_gap_ack_blocks, build_gap_ack_blocks_from_map.
  pose proof (gap_loop_truthful (fun i => (i < length chs)%nat ∧ has n s i) n (received_queue (rx s)).*1 [] None) as Hg.
  destruct (gap_loop _ _ _ _) as [blocks current]. destruct Hg as (Hb & Hl & Hc).
  - apply Forall_forall. intros k Hk. apply bt_get_elem in Hk as [e He].
    destruct (qu_get _ _ Hq _ _ He) as (i & c & Hi & Hci & -> & _). exists i. split; [done|].
    apply lookup_lt_Some in Hci. split; [lia|]. split; [done|]. right. eexists. exact He.
  - split; [|done]. intros i Hi. pose proof (pr_le _ _ Hp). split; [lia|by left].
  - cbn. lia.
  - done.
  - destruct current as [run|]; [|done]. destruct (Nat.ltb_spec (length blocks) 16); [|done].
    split; [apply push_block_truthful; [done|by apply Hc]|].
    pose proof (push_block_length (tsn_at u0 (Z.of_nat n - 1)) blocks run). lia.
Qed.
End receive.
