(* ===== verification/SctpSend.v ===== *)
(** * The sending side of an association

    The queue of sent chunks holds, for every chunk that has been numbered and
    that the receiver may not have, the bytes to send again.  Acknowledgements
    that report only chunks the receiver holds keep it so, and so do timeouts,
    probes, retransmissions and new transmissions. *)
From S2P Require Import Prelude Core BytesCrate BTree StateRes RecordSet DataChannel SctpQueues Sctp SctpWire SctpRecv.

(** ** Updates of flags *)

Definition same (r r' : ChunkRecord) : Prop :=
  cr_payload r' = cr_payload r ∧ cr_acked r' = cr_acked r ∧ cr_abandoned r' = cr_abandoned r ∧
  cr_max_retransmits r' = cr_max_retransmits r ∧ cr_expiry r' = cr_expiry r.
Definition same_entry (e e' : Z * ChunkRecord) : Prop := e'.1 = e.1 ∧ same e.2 e'.2.
Definition same_queue : SentQueue → SentQueue → Prop := Forall2 same_entry.

#[export] Instance same_refl : Reflexive same.
Proof. by intros r. Qed.
#[export] Instance same_entry_refl : Reflexive same_entry.
Proof. by intros e. Qed.

Lemma same_queue_keys q q' : same_queue q q' → q'.*1 = q.*1.
Proof. induction 1 as [|e e' q q' [E _] _ IH]; [done|]. cbn. by rewrite E, IH. Qed.

Lemma same_queue_get q q' k : same_queue q q' → option_Forall2 same (bt_get k q) (bt_get k q').
Proof.
  induction 1 as [|[k0 r] [k1 r'] q q' [E Hs] _ IH]; [constructor|]. cbn in *. rewrite E.
  destruct (k =? k0); [by constructor|done].
Qed.

Lemma same_queue_update q k r r' : bt_get k q = Some r → bt_wf q → same r r' → same_queue q (bt_insert k r' q).
Proof.
  intros Hg Hw Hs. induction q as [|[k0 r0] q IH]; [done|]. apply bt_wf_cons in Hw as [Hw Hall]. cbn in Hg |- *.
  destruct (Z.eqb_spec k k0) as [->|Hne].
  - simplify_eq. rewrite Z.ltb_irrefl. constructor; [done|]. change (Forall2 same_entry q q). reflexivity.
  - assert (k ∈ q.*1) as Hin by (apply bt_get_elem; eauto).
    rewrite Forall_forall in Hall. pose proof (Hall _ Hin). rewrite (proj2 (Z.ltb_ge _ _)) by lia.
    constructor; [done|]. by apply IH.
Qed.

Section send.
Context `{BytesCrate, !BytesLaws}.
Context (cfg : SctpConfig) (now : Z).
Context (t0 : Z) (chs : list OutboundChunk).
Context (Hlen : Z.of_nat (length chs) < 2147483648).

Definition reliable (c : OutboundChunk) : Prop := oc_max_retransmits c = None ∧ oc_expiry c = None.
Definition wire (i : nat) (c : OutboundChunk) : list Z := chunk_bytes (data_chunk c (tsn_at t0 (Z.of_nat i))).

(** ** The queue of sent chunks

    [k] chunks have been numbered; [held i] when the receiver has chunk [i]. *)

Record entry_ok (held : nat → Prop) (k : nat) (key : Z) (r : ChunkRecord) (i : nat) (c : OutboundChunk) : Prop := {
  en_lt : (i < k)%nat;
  en_chunk : chs !! i = Some c;
  en_key : key = tsn_at t0 (Z.of_nat i);
  en_kept : cr_abandoned r = false ∧ cr_max_retransmits r = None ∧ cr_expiry r = None;
  en_payload : if cr_acked r then cr_payload r = [] ∧ held i else cr_payload r = wire i c;
}.

Record sent_ok (held : nat → Prop) (k : nat) (q : SentQueue) : Prop := {
  so_le : (k ≤ length chs)%nat;
  so_wf : bt_wf q;
  so_entry key r : bt_get key q = Some r → ∃ i c, entry_ok held k key r i c;
  so_all i : (i < k)%nat → held i ∨ ∃ r, bt_get (tsn_at t0 (Z.of_nat i)) q = Some r ∧ cr_acked r = false;
}.

Lemma sent_ok_held (held held' : nat → Prop) k q :
  (∀ i, (i < k)%nat → held i → held' i) → sent_ok held k q → sent_ok held' k q.
Proof.
  intros Hh [H1 H2 H3 H4]. split; [done..| |].
  - intros key r Hk. destruct (H3 key r Hk) as (i & c & [E1 E2 E3 E4 E5]). exists i, c. split; try done.
    destruct (cr_acked r); [|done]. destruct E5; eauto.
  - intros i Hi. destruct (H4 i Hi); eauto.
Qed.

Lemma sent_ok_same held k q q' : same_queue q q' → sent_ok held k q → sent_ok held k q'.
Proof.
  intros Hs [H1 H2 H3 H4]. split; [done|unfold bt_wf; by rewrite (same_queue_keys q q')| |].
  - intros key r' Hk. pose proof (same_queue_get q q' key Hs) as Hg. rewrite Hk in Hg.
    inversion Hg as [r r1 (E1 & E2 & E3 & E4 & E5) Er|]; subst. destruct (H3 key r (eq_sym Er)) as (i & c & [F1 F2 F3 F4 F5]).
    exists i, c. split; try done; [by rewrite E3, E4, E5|]. by rewrite E2, E1.
  - intros i Hi. destruct (H4 i Hi) as [|(r & Hr & Ha)]; [by left|]. right.
    pose proof (same_queue_get q q' (tsn_at t0 (Z.of_nat i)) Hs) as Hg. rewrite Hr in Hg.
    inversion Hg as [r1 r' (E1 & E2 & E3) Er Er'|]; subst. exists r'. split; [done|congruence].
Qed.

(** Two numbered chunks with the same number are the same chunk. *)
Lemma sent_index held k q i j : sent_ok held k q → (i < k)%nat → (j < k)%nat →
  tsn_at t0 (Z.of_nat i) = tsn_at t0 (Z.of_nat j) → i = j.
Proof. intros Ho Hi Hj E. pose proof (so_le _ _ _ Ho). apply tsn_at_inj in E; lia. Qed.

(** ** Timeouts, probes and retransmissions *)

Definition kept (e : Z * ChunkRecord) : Prop :=
  cr_abandoned e.2 = false ∧ cr_max_retransmits e.2 = None ∧ cr_expiry e.2 = None.

Lemma sent_ok_kept held k q : sent_ok held k q → Forall kept q.
Proof.
  intros Ho. apply Forall_forall. intros [key r] Hin. apply bt_get_in in Hin; [|apply Ho].
  destruct (so_entry _ _ _ Ho _ _ Hin) as (i & c & He). apply He.
Qed.

Lemma t3_mark_same q count : Forall kept q → same_queue q (t3_mark cfg now q count).
Proof.
  intros Hk. revert count. induction Hk as [|[key r] q (E1 & E2 & E3) _ IH]; intros count; [constructor|].
  cbn [t3_mark fst snd] in *. rewrite E1. destruct (negb (cr_acked r) && _); [|constructor; [done|apply IH]].
  change (cr_max_retransmits (r <| cr_in_flight := false |>)) with (cr_max_retransmits r).
  change (cr_expiry (r <| cr_in_flight := false |>)) with (cr_expiry r). rewrite E2, E3.
  rewrite !bool_decide_false by (by intros [? ?]). cbn [orb andb].
  destruct (count <? RETRANSMIT_BURST); (constructor; [|apply IH]); done.
Qed.

Lemma report_all_same q max_rep count : same_queue q (report_all now (max_tsn_retransmits cfg) max_rep count q).1.1.
Proof.
  induction q as [|[key r] q IH]; [constructor|]. cbn [report_all].
  assert (same r (report_missing now (max_tsn_retransmits cfg) max_rep count key r).1.1) as Hr
    by (unfold report_missing; cbv zeta; by repeat case_match).
  destruct (report_missing _ _ _ _ _ _) as [[r' lost] again]. destruct (report_all _ _ _ _ _) as [[q' lost'] retr].
  constructor; done.
Qed.

Lemma retransmit_phase_same q : ∀ flight,
  same_queue q (retransmit_phase now q flight).1.1 ∧
  Forall (fun b => ∃ e, e ∈ q ∧ b = cr_payload e.2) (retransmit_phase now q flight).2.
Proof.
  induction q as [|[key r] q IH]; intros flight; [by repeat constructor|]. cbn [retransmit_phase].
  assert (∀ f, same_queue q (retransmit_phase now q f).1.1 ∧
    Forall (fun b => ∃ e, e ∈ (key, r) :: q ∧ b = cr_payload e.2) (retransmit_phase now q f).2) as IH'.
  { intros f. destruct (IH f) as [H1 H2]. split; [done|]. eapply Forall_impl; [exact H2|]. cbn.
    intros b (e & He & ->). exists e. split; [by right|done]. }
  destruct (cr_needs_retransmit r).
  - match goal with |- context [retransmit_phase now q ?f] => destruct (IH' f) as [H1 H2];
      destruct (retransmit_phase now q f) as [[q' fl'] l'] end.
    split; [by constructor|]. constructor; [|done]. exists (key, r). split; [left|done].
  - destruct (IH' flight) as [H1 H2]. destruct (retransmit_phase now q flight) as [[q' fl'] l']. split; [by constructor|done].
Qed.

Lemma sent_payload held k q b : sent_ok held k q → (∃ e, e ∈ q ∧ b = cr_payload e.2) →
  b = [] ∨ ∃ i c, chs !! i = Some c ∧ b = wire i c.
Proof.
  intros Ho ([key r] & Hin & ->). apply bt_get_in in Hin; [|apply Ho].
  destruct (so_entry _ _ _ Ho _ _ Hin) as (i & c & [E1 E2 E3 E4 E5]). destruct (cr_acked r); [left; apply E5|].
  right. exists i, c. done.
Qed.

(** ** Acknowledgements *)

(** The numbers of a gap block are those of its offsets. *)
Lemma block_range n a b i :
  (i < length chs)%nat → (n ≤ length chs)%nat → 1 ≤ a ≤ b → b ≤ 65535 →
  let s := wadd32 (tsn_at t0 (Z.of_nat n - 1)) a in
  let e := wadd32 (tsn_at t0 (Z.of_nat n - 1)) b in
  let key := tsn_at t0 (Z.of_nat i) in
  (if s <=? e then s ≤ key ≤ e else s ≤ key ∨ key ≤ e) → a ≤ Z.of_nat i - Z.of_nat n + 1 ≤ b.
Proof.
  intros Hi Hn Ha Hb. cbv zeta. rewrite !tsn_at_next. unfold tsn_at, as_u32.
  destruct (Z.leb_spec ((t0 + (Z.of_nat n - 1 + a)) mod 4294967296) ((t0 + (Z.of_nat n - 1 + b)) mod 4294967296)) as [Hs|Hs]; intros Hk; mlia.
Qed.

Lemma block_keys_range q s e key :
  key ∈ block_keys q s e → if s <=? e then s ≤ key ≤ e else s ≤ key ∨ key ≤ e.
Proof.
  unfold block_keys. destruct (s <=? e).
  - intros [Hk _]%list_elem_of_filter. done.
  - intros [[Hk _]%list_elem_of_filter|[Hk _]%list_elem_of_filter]%elem_of_app; auto.
Qed.

Lemma ack_gap_ok (held : nat → Prop) k q o key :
  sent_ok held k q → (∀ i, (i < k)%nat → key = tsn_at t0 (Z.of_nat i) → held i) → sent_ok held k (ack_gap now (q, o) key).1.
Proof.
  intros Ho Hh. unfold ack_gap. destruct (bt_get key q) as [r|] eqn:Er; [|done]. destruct (cr_acked r) eqn:Ea; [done|]. cbn [fst].
  destruct (so_entry _ _ _ Ho _ _ Er) as (i & c & [E1 E2 E3 E4 E5]). destruct Ho as [H1 H2 H3 H4].
  split; [done|by apply bt_insert_wf| |].
  - intros key' r'. rewrite bt_get_insert by done. destruct (Z.eqb_spec key' key) as [->|]; [|apply H3].
    intros [= <-]. exists i, c. split; try done. cbn. split; [done|]. by apply Hh.
  - intros j Hj. rewrite bt_get_insert by done. destruct (Z.eqb_spec (tsn_at t0 (Z.of_nat j)) key) as [<-|]; [|by apply H4].
    left. by apply Hh.
Qed.

Lemma ack_block_ok (held : nat → Prop) k n a b qo :
  sent_ok held k qo.1 → (n ≤ length chs)%nat → 1 ≤ a ≤ b → b ≤ 65535 →
  (∀ i, a ≤ Z.of_nat i - Z.of_nat n + 1 ≤ b → held i) →
  sent_ok held k (ack_block now (tsn_at t0 (Z.of_nat n - 1)) qo (a, b)).1.
Proof.
  intros Ho Hn Ha Hb Hh. unfold ack_block. cbn [fst snd].
  assert (∀ key, key ∈ block_keys qo.1 (wadd32 (tsn_at t0 (Z.of_nat n - 1)) a) (wadd32 (tsn_at t0 (Z.of_nat n - 1)) b) →
    ∀ i, (i < k)%nat → key = tsn_at t0 (Z.of_nat i) → held i) as Hkeys.
  { intros key Hk i Hi ->. apply Hh. apply block_range; try done; [pose proof (so_le _ _ _ Ho); lia|].
    by apply (block_keys_range qo.1). }
  revert Ho Hkeys. generalize (block_keys qo.1 (wadd32 (tsn_at t0 (Z.of_nat n - 1)) a) (wadd32 (tsn_at t0 (Z.of_nat n - 1)) b)).
  intros keys. revert qo. induction keys as [|key keys IH]; intros [q o] Ho Hk; [done|]. cbn [fold_left].
  apply IH; [|intros; eapply Hk; [right|..]; done]. apply ack_gap_ok; [done|]. apply Hk. left.
Qed.

Lemma remove_acked_ok (held : nat → Prop) k n q :
  sent_ok held k q → (n ≤ length chs)%nat → (∀ i, (i < n)%nat → held i) →
  sent_ok held k (filter (fun kv => ¬ tsn_diff kv.1 (tsn_at t0 (Z.of_nat n - 1)) ≤ 0) q).
Proof.
  intros [H1 H2 H3 H4] Hn Hh.
  split; [done|by apply bt_filter_wf| |].
  - intros key r Hk. apply (H3 key r). destruct (decide (tsn_diff key (tsn_at t0 (Z.of_nat n - 1)) ≤ 0)).
    + rewrite bt_get_filter_out in Hk; [done|]. intros v. cbn. lia.
    + by rewrite bt_get_filter_in in Hk.
  - intros i Hi. destruct (decide (i < n)%nat); [left; by apply Hh|].
    rewrite bt_get_filter_in; [by apply H4|]. intros v. cbn. rewrite tsn_at_diff by lia. lia.
Qed.

Lemma apply_sack_ok held k n gaps count q :
  sent_ok held k q → (n ≤ length chs)%nat → truthful held n gaps →
  sent_ok held k (apply_sack_to_sent_queue q (tsn_at t0 (Z.of_nat n - 1)) gaps now count (max_tsn_retransmits cfg)).1.
Proof.
  intros Ho Hn [Hh Hg]. unfold apply_sack_to_sent_queue. destruct (late_sack _ _ _); [done|].
  match goal with |- context [fold_left (ack_block _ _) gaps (?q0, ?o0)] =>
    assert (∀ qo, sent_ok held k qo.1 →
      sent_ok held k (fold_left (ack_block now (tsn_at t0 (Z.of_nat n - 1))) gaps qo).1) as Hfold;
    [|pose proof (Hfold (q0, o0) (remove_acked_ok held k n q Ho Hn Hh)) as Hq;
      destruct (fold_left (ack_block _ _) gaps (q0, o0)) as [q1 o1]]
  end.
  - clear -Hg Hn Hlen. induction Hg as [|[a b] gaps (Ha & Hb & Hr) _ IH]; intros qo Ho; [done|]. cbn [fold_left].
    apply IH. by apply ack_block_ok.
  - match goal with |- context [report_all ?n ?m ?r ?c ?q] => pose proof (report_all_same q r c) as Hs;
      destruct (report_all n m r c q) as [[q2 lost] retr] end.
    cbn in *. by eapply sent_ok_same.
Qed.

(** ** New chunks *)

Lemma sent_ok_new held k q c :
  sent_ok held k q → chs !! k = Some c → reliable c →
  sent_ok held (S k) (bt_insert (tsn_at t0 (Z.of_nat k)) (new_record now c (wire k c)) q).
Proof.
  intros [H1 H2 H3 H4] Hc [Hr1 Hr2]. pose proof (lookup_lt_Some _ _ _ Hc) as Hk. split; [lia|by apply bt_insert_wf| |].
  - intros key r. rewrite bt_get_insert by done. destruct (Z.eqb_spec key (tsn_at t0 (Z.of_nat k))) as [->|].
    + intros [= <-]. exists k, c. split; try done. lia.
    + intros Hg. destruct (H3 _ _ Hg) as (i & c' & [E1 E2 E3 E4 E5]). exists i, c'. split; try done. lia.
  - intros i Hi. rewrite bt_get_insert by done.
    destruct (Z.eqb_spec (tsn_at t0 (Z.of_nat i)) (tsn_at t0 (Z.of_nat k))) as [E|E]; [right; by eexists|].
    apply H4. destruct (decide (i = k)) as [->|]; [done|lia].
Qed.

(** The sending side after [k] chunks have been numbered *)
Record tx_ok (held : nat → Prop) (k : nat) (t : TxState) : Prop := {
  tx_next : next_tsn t = tsn_at t0 (Z.of_nat k);
  tx_queue : outbound_queue t = drop k chs;
  tx_sent : sent_ok held k (sent_queue t);
  tx_pr : has_pr_sctp t = false;
}.

Lemma tx_ok_ext held k t t' :
  tx_ok held k t → next_tsn t' = next_tsn t → outbound_queue t' = outbound_queue t →
  same_queue (sent_queue t) (sent_queue t') → has_pr_sctp t' = has_pr_sctp t → tx_ok held k t'.
Proof. intros [H1 H2 H3 H4] E1 E2 E3 E4. split; [congruence..|by eapply sent_ok_same|congruence]. Qed.

Lemma take_batch_app l : ∀ budget count, let '(batch, rest) := take_batch l budget count in l = batch ++ rest.
Proof.
  induction l as [|c l IH]; intros budget count; [done|]. cbn [take_batch]. destruct ((0 <? budget) && _); [|done].
  match goal with |- context [take_batch l ?b ?n] => specialize (IH b n); destruct (take_batch l b n) end. cbn. by rewrite <- IH.
Qed.

Context (Hrel : Forall reliable chs).

Lemma send_batch_ok held batch : ∀ k t,
  next_tsn t = tsn_at t0 (Z.of_nat k) → sent_ok held k (sent_queue t) →
  (∀ j c, batch !! j = Some c → chs !! (k + j)%nat = Some c) →
  let '(t', chunks) := send_batch now batch t in
  next_tsn t' = tsn_at t0 (Z.of_nat (k + length batch)) ∧ sent_ok held (k + length batch) (sent_queue t') ∧
  outbound_queue t' = outbound_queue t ∧ has_pr_sctp t' = has_pr_sctp t ∧
  Forall (fun b => ∃ i c, chs !! i = Some c ∧ b = wire i c) chunks.
Proof.
  induction batch as [|c batch IH]; intros k t Hn Ho Hb; cbn [send_batch].
  { cbn. rewrite Nat.add_0_r. done. }
  cbv zeta. rewrite Hn, create_data_chunk_bytes. fold (wire k c).
  pose proof (Hb 0%nat c eq_refl) as Hc. rewrite Nat.add_0_r in Hc.
  set (t1 := t <| next_tsn := _ |> <| sent_queue ::= _ |> <| flight_size ::= _ |>).
  specialize (IH (S k) t1). destruct (send_batch now batch t1) as [t' chunks]. cbn [length].
  replace (k + S (length batch))%nat with (S k + length batch)%nat by lia.
  destruct IH as (E1 & E2 & E3 & E4 & E5).
  - unfold t1. rs. rewrite tsn_at_next. f_equal. lia.
  - unfold t1. rs. apply sent_ok_new; [done..|]. rewrite Forall_lookup in Hrel. by eapply Hrel.
  - intros j c' Hj. rewrite <- (Hb (S j) c' Hj). f_equal. lia.
  - split; [done|]. split; [done|]. split; [done|]. split; [done|]. constructor; [by exists k, c|done].
Qed.

Lemma transmit_new_tx held k t window :
  tx_ok held k t →
  let '(batch, rest) := take_batch (outbound_queue t) window 0 in
  ∀ qb, let '(t', chunks) := send_batch now batch (t <| outbound_queue := rest |> <| queued_bytes := qb |>) in
  tx_ok held (k + length batch) t' ∧ Forall (fun b => ∃ i c, chs !! i = Some c ∧ b = wire i c) chunks.
Proof.
  intros [H1 H2 H3 H4]. pose proof (take_batch_app (outbound_queue t) window 0) as Hb.
  destruct (take_batch _ _ _) as [batch rest]. rewrite H2 in Hb. intros qb.
  match goal with |- context [send_batch now batch ?t1] =>
    pose proof (send_batch_ok held batch k t1 H1 H3) as Hs; destruct (send_batch now batch t1) as [t' chunks] end.
  destruct Hs as (E1 & E2 & E3 & E4 & E5).
  - intros j c Hj. rewrite <- lookup_drop, Hb. by apply lookup_app_l_Some.
  - split; [|done]. split.
    1: exact E1. 2: exact E2. 2: by rewrite E4.
    rewrite E3. change (rest = drop (k + length batch) chs). rewrite <- drop_drop, Hb. by rewrite drop_app_length.
Qed.
End send.
