(* ===== verification/SctpEnd.v ===== *)
(** * One endpoint of an established association

    The invariant of an endpoint between the chunks it sends and the chunks of
    its peer, and that every turn of its loop keeps it, whatever packets of the
    peer it is given. *)
From Stdlib Require Import SpecFloat.
From S2P Require Import Prelude Core BytesCrate BTree Float64 StateRes RecordSet DataChannel SctpQueues Sctp SctpWire SctpRecv SctpSend.

(** ** What is on the wire

    A sender whose chunks are [chs], from number [t0], and which has received
    the chunks [hs] of the sequence [pchs], from number [u0], sends these. *)

Definition beat (c : Chunk) : Prop := (ch_type c = CT_HEARTBEAT ∨ ch_type c = CT_HEARTBEAT_ACK) ∧
  u8 (ch_flags c) ∧ len (ch_value c) ≤ 1184.

Record sack_ok (u0 : Z) (pchs : list OutboundChunk) (hs : nat → Prop) (c : Chunk) (n : nat) (rwnd : Z)
    (gaps : list (Z * Z)) (dups : list Z) : Prop := {
  sk_chunk : c = {| ch_type := CT_SACK; ch_flags := 0; ch_value := sack_value (tsn_at u0 (Z.of_nat n - 1)) rwnd gaps dups |};
  sk_rwnd : u32 rwnd;
  sk_le : (n ≤ length pchs)%nat;
  sk_gaps : (length gaps ≤ 16)%nat;
  sk_dups : (length dups ≤ 32)%nat;
  sk_true : truthful (fun i => (i < length pchs)%nat ∧ hs i) n gaps;
}.

Inductive wire_ok (t0 : Z) (chs : list OutboundChunk) (u0 : Z) (pchs : list OutboundChunk) (hs : nat → Prop)
    (c : Chunk) : Prop :=
| wire_data i d : chs !! i = Some d → c = data_chunk d (tsn_at t0 (Z.of_nat i)) → wire_ok t0 chs u0 pchs hs c
| wire_sack n rwnd gaps dups : sack_ok u0 pchs hs c n rwnd gaps dups → wire_ok t0 chs u0 pchs hs c
| wire_beat : beat c → wire_ok t0 chs u0 pchs hs c.

Definition packet_ok t0 chs u0 pchs hs (p : list Z) : Prop :=
  (∃ cfg tag cs, p = packet_bytes cfg tag (concat (chunk_bytes <$> cs)) ∧ Forall (wire_ok t0 chs u0 pchs hs) cs) ∧
  len p ≤ MAX_SCTP_PACKET_SIZE.

(** What is passed to be sent: a chunk, or nothing *)
Definition bytes_ok t0 chs u0 pchs hs (b : list Z) : Prop :=
  b = [] ∨ ∃ c, b = chunk_bytes c ∧ wire_ok t0 chs u0 pchs hs c.

Lemma truthful_mono (h h' : nat → Prop) n gaps : (∀ i, h i → h' i) → truthful h n gaps → truthful h' n gaps.
Proof.
  intros Hh [H1 H2]. split; [auto|]. eapply Forall_impl; [exact H2|]. intros [a b] (Ha & Hb & Hi). eauto 10.
Qed.

Lemma wire_ok_mono t0 chs chs' u0 pchs pchs' (hs hs' : nat → Prop) c :
  chs `prefix_of` chs' → pchs `prefix_of` pchs' → (∀ i, (i < length pchs)%nat → hs i → hs' i) →
  wire_ok t0 chs u0 pchs hs c → wire_ok t0 chs' u0 pchs' hs' c.
Proof.
  intros Hc Hp Hh [i d Hi Ec|n rwnd gaps dups [E1 E2 E3 E4 E5 E6]|Hb].
  - eapply wire_data; [|done]. by eapply prefix_lookup_Some.
  - apply prefix_length in Hp. eapply (wire_sack _ _ _ _ _ _ n rwnd gaps dups). split; try done; [lia|].
    eapply truthful_mono; [|exact E6]. cbn. intros i [? ?]. split; [lia|auto].
  - by apply wire_beat.
Qed.

Lemma packet_ok_mono t0 chs chs' u0 pchs pchs' (hs hs' : nat → Prop) p :
  chs `prefix_of` chs' → pchs `prefix_of` pchs' → (∀ i, (i < length pchs)%nat → hs i → hs' i) →
  packet_ok t0 chs u0 pchs hs p → packet_ok t0 chs' u0 pchs' hs' p.
Proof.
  intros Hc Hp Hh [(cfg & tag & cs & -> & Hcs) Hl]. split; [|done]. exists cfg, tag, cs. split; [done|].
  eapply Forall_impl; [exact Hcs|]. intros c. by apply wire_ok_mono.
Qed.

Lemma sack_value_length u0 pchs hs c n rwnd gaps dups : sack_ok u0 pchs hs c n rwnd gaps dups → len (ch_value c) ≤ 500.
Proof.
  intros [-> _ _ Hg Hd _]. cbn [ch_value]. unfold sack_value, len. rewrite !length_app, !length_to_be.
  assert (length (concat ((fun '(a, b) => to_be 2 a ++ to_be 2 b) <$> gaps)) = 4 * length gaps)%nat as ->.
  { clear. induction gaps as [|[a b] gaps IH]; [done|]. cbn [fmap list_fmap concat]. rewrite !length_app, !length_to_be.
    cbn [length]. rewrite IH. lia. }
  assert (length (concat (to_be 4 <$> dups)) = 4 * length dups)%nat as ->.
  { clear. induction dups as [|d dups IH]; [done|]. cbn [fmap list_fmap concat]. rewrite !length_app, !length_to_be.
    cbn [length]. rewrite IH. lia. }
  lia.
Qed.

Lemma wire_ok_wf t0 chs u0 pchs hs c : Forall wf_outbound chs → wire_ok t0 chs u0 pchs hs c → wf_chunk c.
Proof.
  intros Hw [i d Hi ->|n rwnd gaps dups Hs|(Ht & Hf & Hb)]; [|..|split; [by destruct Ht as [->| ->]|split; [done|lia]]].
  - apply wf_data_chunk. rewrite Forall_lookup in Hw. by eapply Hw.
  - pose proof (sack_value_length _ _ _ _ _ _ _ _ Hs) as Hl. rewrite (sk_chunk _ _ _ _ _ _ _ _ Hs) in *.
    split; [done|]. split; [done|]. lia.
Qed.

(** A chunk fits in a packet of its own. *)
Lemma chunk_bytes_length c : len (ch_value c) ≤ 1184 → len (chunk_bytes c) ≤ 1188.
Proof.
  unfold chunk_bytes, len. rewrite !length_app, !length_to_be, length_replicate. unfold pad4.
  pose proof (Nat.Div0.div_mod (4 + length (ch_value c)) 4) as E.
  pose proof (Nat.mod_upper_bound (4 + length (ch_value c)) 4). pose proof (Nat.mod_upper_bound (4 - (4 + length (ch_value c)) mod 4) 4).
  destruct ((4 + length (ch_value c)) mod 4)%nat as [|k] eqn:Ek; [cbn; lia|].
  rewrite (Nat.mod_small (4 - S k) 4) by lia. lia.
Qed.

Lemma wire_ok_length t0 chs u0 pchs hs c :
  Forall (fun c => len (oc_payload c) ≤ 1172) chs → wire_ok t0 chs u0 pchs hs c → len (chunk_bytes c) ≤ 1188.
Proof.
  intros Hw [i d Hi ->|n rwnd gaps dups Hs|(_ & _ & Hb)]; apply chunk_bytes_length; [|..|done].
  - rewrite Forall_lookup in Hw. apply Hw in Hi. cbn [ch_value data_chunk]. unfold data_value, len in *.
    rewrite !length_app, !length_to_be. lia.
  - pose proof (sack_value_length _ _ _ _ _ _ _ _ Hs). lia.
Qed.

Lemma packet_bytes_length cfg tag body : len (packet_bytes cfg tag body) = 12 + len body.
Proof. unfold packet_bytes, packet_header, len, to_le. rewrite !length_app, length_reverse, !length_to_be. lia. Qed.

Lemma concat_bytes_ok t0 chs u0 pchs hs bs :
  Forall (bytes_ok t0 chs u0 pchs hs) bs →
  ∃ cs, concat bs = concat (chunk_bytes <$> cs) ∧ Forall (wire_ok t0 chs u0 pchs hs) cs.
Proof.
  induction 1 as [|b bs [->|(c & -> & Hc)] _ (cs & E & Hcs)]; [by exists []| |].
  - by exists cs.
  - exists (c :: cs). split; [cbn; by rewrite E|by constructor].
Qed.

Section endpoint.
Context `{BytesCrate, !BytesLaws}.
Context (hmac_sha1 : list Z → list Z → list Z) (random_u32 : nat → Z).
Context (cfg : SctpConfig) (wall : option Z) (now : Z).
Context (t0 : Z) (chs : list OutboundChunk) (u0 : Z) (pchs : list OutboundChunk) (v0 : list View).
Context (held : nat → Prop) (sv : list Sending).

(** [k] chunks have been numbered, [n] of the peer's processed; the peer holds
    [held], and has been told of [hs]. *)
Record end_at (hs : nat → Prop) (k n : nat) (s : SctpInner) : Prop := {
  e_tx : tx_ok t0 chs held k (tx s);
  e_rx : rx_inv u0 v0 pchs n s;
  e_has j : hs j → (j < length pchs)%nat ∧ has u0 n s j;
  e_out : Forall (packet_ok t0 chs u0 pchs hs) (out s);
  e_open : out_open s = true;
  e_t1 : t1_sent_time (assoc s) = None;
  e_sv : send_view <$> data_channels s = sv;
}.
Definition end_ok (hs : nat → Prop) (s : SctpInner) : Prop := ∃ k n, end_at hs k n s.

(** ** What an endpoint may change freely, besides the queue of sent chunks *)

Record frame (s s' : SctpInner) : Prop := {
  fr_cum : cumulative_tsn_ack (rx s') = cumulative_tsn_ack (rx s);
  fr_received : received_queue (rx s') = received_queue (rx s);
  fr_streams : inbound_streams (rx s') = inbound_streams (rx s);
  fr_next : next_tsn (tx s') = next_tsn (tx s);
  fr_outbound : outbound_queue (tx s') = outbound_queue (tx s);
  fr_pr : has_pr_sctp (tx s') = has_pr_sctp (tx s);
  fr_out : out s' = out s;
  fr_open : out_open s' = out_open s;
  fr_t1 : t1_sent_time (assoc s') = t1_sent_time (assoc s);
  fr_view : view <$> data_channels s' = view <$> data_channels s;
  fr_send : send_view <$> data_channels s' = send_view <$> data_channels s;
}.

Lemma end_at_ext hs k n s s' :
  end_at hs k n s → frame s s' → sent_ok t0 chs held k (sent_queue (tx s')) → end_at hs k n s'.
Proof.
  intros [H1 H2 H3 H4 H5 H6 H7] [F1 F2 F3 F4 F5 F7 F8 F9 F10 F11 F12] Hs. split.
  - destruct H1 as [E1 E2 _ E4]. split; [by rewrite F4|by rewrite F5|done|by rewrite F7].
  - destruct H2 as (Hp & Hq & Hd). unfold rx_inv. rewrite F2. split; [by eapply processed_ext|done].
  - intros j Hh. unfold has. rewrite F2. by apply H3.
  - by rewrite F8.
  - by rewrite F9.
  - by rewrite F10.
  - by rewrite F12.
Qed.

Lemma frame_end hs s s' : frame s s' → sent_queue (tx s') = sent_queue (tx s) → end_ok hs s → end_ok hs s'.
Proof.
  intros Hf Hq (k & n & He). exists k, n. eapply end_at_ext; [done..|]. rewrite Hq. apply He.
Qed.

Lemma preserves_frame hs f :
  (∀ s, frame s (f s) ∧ sent_queue (tx (f s)) = sent_queue (tx s)) →
  preserves (end_ok hs) (modify f : stM SctpInner stop unit).
Proof. intros Hf. apply preserves_modify. intros s. by apply frame_end; apply Hf. Qed.

Ltac by_frame := unfold upd_rx, upd_tx, upd_cc, upd_assoc, upd_stats, set_state, set_close_reason, modify;
  apply preserves_frame; intros []; split; [split; reflexivity|reflexivity].

Lemma preserves_for_each {A} P (l : list A) (f : A → stM SctpInner stop unit) :
  (∀ x, x ∈ l → preserves P (f x)) → preserves P (for_each l f).
Proof.
  induction l as [|x l IH]; intros Hf; [apply preserves_ret|]. cbn [for_each]. apply preserves_bind.
  - apply Hf. left.
  - intros _. apply IH. intros y Hy. apply Hf. by right.
Qed.

Lemma preserves_logged P m : preserves P m → preserves P (logged m).
Proof.
  intros Hm. apply preserves_try; [done|intros; apply preserves_ret|]. intros []; [apply preserves_ret|apply preserves_fail].
Qed.

(** ** Sending packets *)

Lemma send_packet_ok hs bs tag :
  Forall (bytes_ok t0 chs u0 pchs hs) bs → len (concat bs) ≤ 1188 → preserves (end_ok hs) (send_packet_with_tag cfg bs tag).
Proof.
  intros Hb Hl s (k & n & He). rewrite send_packet_eq. cbv zeta.
  change (out_open (s <| stats ::= _ |>)) with (out_open s). rewrite (e_open _ _ _ _ He).
  destruct (concat_bytes_ok _ _ _ _ _ _ Hb) as (cs & E & Hcs). rewrite E in *. exists k, n. destruct He as [H1 (Hp & Hq & Hd) H3 H4 H5 H6 H7].
  split; try done; [split; [by eapply processed_ext|done]|]. apply Forall_app. split; [done|]. apply Forall_singleton.
  split; [by exists cfg, tag, cs|]. rewrite packet_bytes_length. unfold MAX_SCTP_PACKET_SIZE. lia.
Qed.

Context (Hsmall : Forall (fun c => len (oc_payload c) ≤ 1172) chs).

Lemma batch_loop_ok hs bs tag : ∀ batch,
  Forall (bytes_ok t0 chs u0 pchs hs) batch → len (concat batch) ≤ 1188 → Forall (bytes_ok t0 chs u0 pchs hs) bs →
  preserves (end_ok hs) (batch_loop cfg bs batch (12 + len (concat batch)) tag).
Proof.
  induction bs as [|b bs IH]; intros batch Hb Hl Hbs; cbn [batch_loop].
  - destruct (_ =? 0)%nat; [apply preserves_ret|by apply send_packet_ok].
  - apply Forall_cons in Hbs as [H1 H2].
    assert (len b ≤ 1188) as Hb1. { destruct H1 as [->|(c & -> & Hc)]; [done|by eapply wire_ok_length]. }
    assert (len (concat [b]) = len b) as Eb by (cbn; by rewrite app_nil_r).
    assert (len (concat (batch ++ [b])) = len (concat batch) + len b) as Ec.
    { unfold len. rewrite concat_app, length_app. cbn. rewrite app_nil_r. lia. }
    destruct (negb _ && _) eqn:E.
    + apply preserves_bind; [by apply send_packet_ok|]. intros _. change (Z.of_nat SCTP_COMMON_HEADER_SIZE) with 12. rewrite <- Eb.
      apply IH; [by constructor|by rewrite Eb|done].
    + rewrite <- Z.add_assoc, <- Ec. apply IH; [apply Forall_app; split; [done|by constructor]| |done].
      apply andb_false_iff in E as [E|E%Z.ltb_ge]; [|unfold MAX_SCTP_PACKET_SIZE in E; lia].
      apply negb_false_iff, Nat.eqb_eq, nil_length_inv in E as ->. cbn [app]. by rewrite Eb.
Qed.

Lemma transmit_with_tag_ok hs bs tag :
  Forall (bytes_ok t0 chs u0 pchs hs) bs → preserves (end_ok hs) (transmit_chunks_with_tag cfg bs tag).
Proof.
  intros Hb. unfold transmit_chunks_with_tag. destruct (_ =? 0)%nat; [apply preserves_ret|].
  apply (batch_loop_ok hs bs tag []); [constructor|done|done].
Qed.

Lemma transmit_chunks_ok hs bs : Forall (bytes_ok t0 chs u0 pchs hs) bs → preserves (end_ok hs) (transmit_chunks cfg bs).
Proof. intros Hb. unfold transmit_chunks. apply preserves_get_bind. intros s Hs. by apply transmit_with_tag_ok. Qed.

Lemma send_beat_ok hs type_ value tag :
  beat {| ch_type := type_; ch_flags := 0; ch_value := value |} → preserves (end_ok hs) (send_chunk cfg type_ 0 value tag).
Proof.
  intros Hb. apply transmit_with_tag_ok. apply Forall_singleton. right. eexists. split; [apply build_chunk_bytes|by apply wire_beat].
Qed.

(** ** Transmission *)

Context (Hlen : Z.of_nat (length chs) < 2147483648) (Hrel : Forall reliable chs).
Context (Hplen : Z.of_nat (length pchs) < 2147483648) (Hok : data_ok v0 pchs).

Definition ends (hs0 : nat → Prop) (s : SctpInner) : Prop := ∃ hs : nat → Prop, (∀ j, hs0 j → hs j) ∧ end_ok hs s.

Lemma preserves_ends {A} hs0 (m : stM SctpInner stop A) : (∀ hs, preserves (end_ok hs) m) → preserves (ends hs0) m.
Proof. intros Hm s (hs & Hh & He). exists hs. split; [done|]. by apply Hm. Qed.

Lemma advertised_rwnd_u32 s : u32 (advertised_rwnd cfg s).
Proof.
  unfold advertised_rwnd, saturating_sub. destruct (_ <=? _)%nat; [done|].
  match goal with |- context [?x <? 4294967296] => destruct (Z.ltb_spec x 4294967296) end; ulia.
Qed.

Lemma sack_chunk_ok n s : rx_inv u0 v0 pchs n s →
  wire_ok t0 chs u0 pchs (fun j => (j < length pchs)%nat ∧ has u0 n s j) (sack_chunk cfg s).
Proof.
  intros Hr. destruct (gap_blocks_truthful u0 v0 pchs Hplen n s Hr) as [Ht Hl]. unfold sack_chunk. cbv zeta.
  rewrite (pr_cum _ _ _ _ _ (proj1 Hr)) in *. eapply wire_sack. split; [done|apply advertised_rwnd_u32| | | |].
  - apply Hr.
  - exact Hl.
  - rewrite length_take. lia.
  - eapply truthful_mono; [|exact Ht]. cbn; intros i [Hi Hh]; done.
Qed.

Lemma take_sack_ok hs s : end_ok hs s →
  ∃ hs' : nat → Prop, (∀ j, hs j → hs' j) ∧ end_ok hs' (take_sack cfg s).1 ∧
    ∀ l, (take_sack cfg s).2 = Ok l → Forall (bytes_ok t0 chs u0 pchs hs') l.
Proof.
  intros (k & n & He). unfold take_sack. rewrite (bind_eq get_st _ s s s eq_refl).
  destruct (sack_needed (rx s)).
  2: { exists hs. split; [done|]. split; [by exists k, n|]. by intros l [= <-]. }
  set (s1 := s <| rx ::= set sack_needed (fun _ => false) |>). rewrite (bind_eq _ _ s s1 tt eq_refl).
  rewrite (bind_eq _ _ _ _ _ (create_sack_eq cfg s1)). destruct He as [H1 (Hp & Hq & Hd) H3 H4 H5 H6 H7].
  assert (rx_inv u0 v0 pchs n s1) as Hr1 by (split; [by eapply processed_ext|done]).
  exists (fun j => hs j ∨ ((j < length pchs)%nat ∧ has u0 n s j)). split; [by left|]. split.
  - exists k, n. split; try done.
    + split; [by eapply processed_ext|done].
    + intros j [Hh|Hh]; [by apply H3|done].
    + eapply Forall_impl; [exact H4|]. intros p. apply packet_ok_mono; [done..|]. by left.
  - intros l [= <-]. apply Forall_singleton. right. eexists. split; [done|].
    eapply wire_ok_mono; [done..| |by apply sack_chunk_ok]. by right.
Qed.

Lemma transmit_retransmissions_ok hs :
  yields (end_ok hs) (transmit_retransmissions now) (Forall (bytes_ok t0 chs u0 pchs hs)).
Proof.
  unfold transmit_retransmissions. intros s (k & n & He). rewrite (bind_eq get_st _ s s s eq_refl).
  destruct (retransmit_phase_same now (sent_queue (tx s)) (flight_size (tx s))) as [Hs Hc].
  destruct (retransmit_phase _ _ _) as [[q flight] chunks]. cbn [fst snd] in *.
  pose proof (tx_sent _ _ _ _ _ (e_tx _ _ _ _ He)) as Hq.
  assert (Forall (bytes_ok t0 chs u0 pchs hs) chunks) as Hb.
  { eapply Forall_impl; [exact Hc|]. intros b Hb. destruct (sent_payload _ _ _ _ _ _ Hq Hb) as [->|(i & c & Hi & ->)]; [by left|].
    right. eexists. split; [done|]. by eapply wire_data. }
  unfold upd_tx, upd_cc, modify, when.
  destruct (negb (length chunks =? 0)%nat); (split; [|by intros a [= <-]]); exists k, n;
    (eapply end_at_ext; [done|split; reflexivity|by eapply sent_ok_same]).
Qed.

Lemma transmit_new_ok hs window :
  yields (end_ok hs) (transmit_new now window) (Forall (bytes_ok t0 chs u0 pchs hs)).
Proof.
  unfold transmit_new. intros s (k & n & He). rewrite (bind_eq get_st _ s s s eq_refl).
  pose proof (transmit_new_tx now t0 chs Hrel held k (tx s) (saturating_sub window (flight_size (tx s))) (e_tx _ _ _ _ He)) as Hn.
  cbv zeta. destruct (take_batch _ _ _) as [batch rest].
  specialize (Hn (usub (queued_bytes (tx s)) (Z.of_nat (sum_list_with (fun c => length (oc_payload c)) batch)))).
  match goal with |- context [send_batch now batch ?t1] =>
    change t1 with (tx s <| outbound_queue := rest |>
      <| queued_bytes := usub (queued_bytes (tx s)) (Z.of_nat (sum_list_with (fun c => length (oc_payload c)) batch)) |>) end.
  destruct (send_batch _ _ _) as [t chunks]. destruct Hn as [Ht Hc].
  assert (Forall (bytes_ok t0 chs u0 pchs hs) chunks) as Hb.
  { eapply Forall_impl; [exact Hc|]. intros b (i & c & Hi & ->). right. eexists. split; [done|]. by eapply wire_data. }
  unfold upd_tx, upd_cc, modify, note_send_or_ack, upd_cc, modify, when. destruct He as [H1 (Hp & Hq & Hd) H3 H4 H5 H6 H7].
  destruct (negb (length chunks =? 0)%nat); (split; [|by intros a [= <-]]); exists (k + length batch)%nat, n;
    (split; try done; split; [by eapply processed_ext|done]).
Qed.

Lemma transmit_ok hs0 : preserves (ends hs0) (transmit cfg now).
Proof.
  intros s (hs & Hh & He). unfold transmit. destruct (take_sack_ok hs s He) as (hs' & Hh' & He' & Hl).
  assert (∀ r, end_ok hs' r → ends hs0 r) as Hends by (intros r Hr; exists hs'; split; [auto|done]).
  unfold mbind at 1, stM_bind at 1. destruct (take_sack cfg s) as [s1 [sack|e|]]; cbn [fst snd] in *; [|by apply Hends..].
  specialize (Hl sack eq_refl). apply Hends.
  match goal with |- end_ok hs' (?m s1).1 => assert (preserves (end_ok hs') m) as Hm; [|by apply Hm] end.
  apply preserves_bind; [apply preserves_get|intros s2].
  eapply yields_bind_preserves; [apply transmit_retransmissions_ok|intros again Ha].
  eapply yields_bind_preserves; [apply transmit_new_ok|intros fresh Hf].
  eapply (yields_bind_preserves _ _ _ (fun l => l = [])); [|intros fwd ->].
  - intros s3 (k & n & Hs). unfold transmit_forward_tsn. rewrite (bind_eq get_st _ s3 s3 s3 eq_refl).
    rewrite (tx_pr _ _ _ _ _ (e_tx _ _ _ _ Hs)). split; [by exists k, n|]. by intros a [= <-].
  - destruct (_ =? 0)%nat; [apply preserves_ret|]. apply transmit_chunks_ok. rewrite app_nil_r.
    rewrite !Forall_app. done.
Qed.

(** ** Acknowledgements *)

Lemma publish_ok hs sid amount : preserves (end_ok hs) (publish_stream_buffered sid amount : stM SctpInner stop unit).
Proof.
  apply preserves_frame. intros s. split; [|done]. split; try done; cbn.
  - apply (update_channel_fmap view). intros; apply view_buffered.
  - apply (update_channel_fmap send_view). intros; apply send_view_buffered.
Qed.

(** Updates of what the invariant does not mention *)
Ltac end_step :=
  match goal with
  | |- preserves _ (mret _) => apply preserves_ret
  | |- preserves _ (fail _) => apply preserves_fail
  | |- preserves _ (lift _) => apply preserves_lift
  | |- preserves _ (get _) => apply preserves_lift
  | |- preserves _ get_st => apply preserves_get
  | |- preserves _ (publish_stream_buffered _ _) => apply publish_ok
  | |- preserves _ (for_each _ _) => apply preserves_for_each; intros ? _
  | |- preserves _ (when _ _) => apply preserves_when
  | |- preserves _ (_ ≫= _) => apply preserves_bind; [|intros ?]
  | |- preserves _ (if ?b then _ else _) => destruct b
  | |- preserves _ (match ?x with _ => _ end) => destruct x
  | |- preserves _ (let '(_, _) := ?x in _) => destruct x
  | |- preserves _ _ => by_frame
  end.
Ltac end_steps := repeat end_step.

Lemma account_acked_ok hs sid l : preserves (end_ok hs) (account_stream_acked sid l : stM SctpInner stop unit).
Proof. unfold account_stream_acked. end_steps. Qed.

Lemma note_ok hs : preserves (end_ok hs) (note_send_or_ack now : stM SctpInner stop unit).
Proof. unfold note_send_or_ack. end_steps. Qed.

Lemma update_rto_ok hs rtt : preserves (end_ok hs) (update_rto rtt).
Proof. unfold update_rto. end_steps. Qed.

Lemma sack_progress_ok hs gaps o : preserves (end_ok hs) (sack_progress cfg now gaps o).
Proof.
  unfold sack_progress. destruct (_ || _).
  - repeat (apply preserves_bind; [first [apply note_ok|end_step]|intros _]). apply preserves_frame.
    intros s. split; [|done]. destruct s. by split.
  - apply preserves_when. apply preserves_frame. intros s. split; [|done]. split; try done.
    unfold set. cbn. by destruct (0 <? _).
Qed.

Lemma reset_rto_ok hs o : preserves (end_ok hs) (reset_rto o).
Proof. unfold reset_rto. end_steps. Qed.

Lemma read_gap_blocks_pairs gaps rest :
  Forall (fun '(a, b) => u16 a ∧ u16 b) gaps →
  read_gap_blocks (length gaps) (concat ((fun '(a, b) => to_be 2 a ++ to_be 2 b) <$> gaps) ++ rest) = Ok gaps.
Proof.
  induction 1 as [|[a b] gaps [Ha Hb] _ IH]; [done|]. cbn [length read_gap_blocks fmap list_fmap concat].
  rewrite <- !app_assoc, remaining_spec.
  rewrite (proj2 (Nat.ltb_ge _ _)) by (rewrite !length_app, !length_to_be; lia).
  rewrite get_u16_spec, read_be_16 by done. cbn [or_panic mbind res_bind].
  rewrite get_u16_spec, read_be_16 by done. cbn [or_panic mbind res_bind].
  fold (fmap (fun '(a, b) => to_be 2 a ++ to_be 2 b) gaps). by rewrite IH.
Qed.

(** The rest of [handle_sack] once the chunk has been read *)
Definition sack_effect (cum : Z) (gaps : list (Z * Z)) : stM SctpInner stop unit :=
  s ← get_st;
  let sig := sack_signature cum gaps in
  let count_missing_reports := negb (last_sack_sig (cc s) =? sig) in
  upd_cc (set last_sack_sig (fun _ => sig));;
  let '(q, o) := apply_sack_to_sent_queue (sent_queue (tx s)) cum gaps now count_missing_reports
                   (max_tsn_retransmits cfg) in
  upd_tx (set sent_queue (fun _ => q));;
  upd_stats (set stats_retransmissions (fun n => uadd n (Z.of_nat (length (retransmit o)))));;
  for_each (filter (fun '(_, l) => 0 < l) (bytes_acked_per_stream o)) (fun '(sid, l) => account_stream_acked sid l);;
  sack_progress cfg now gaps o;;
  for_each (rtt_samples o) update_rto;;
  reset_rto o;;
  when (0 <? flight_reduction o)
    (upd_tx (set flight_size (fun f => saturating_sub f (flight_reduction o)));;
     s ← get_st;
     upd_cc (grow_window cfg cum (flight_size (tx s)) o));;
  s ← get_st;
  when (negb (length (retransmit o) =? 0)%nat) (upd_cc (enter_fast_recovery now cum (next_tsn (tx s))));;
  transmit cfg now.

Lemma handle_sack_read hs c n rwnd gaps dups s :
  sack_ok t0 chs hs c n rwnd gaps dups →
  handle_sack cfg now (ch_value c) s =
    (upd_assoc (set last_sack_time (fun _ => Some now));; upd_cc (set peer_rwnd (fun _ => rwnd));;
     sack_effect (tsn_at t0 (Z.of_nat n - 1)) gaps) s.
Proof.
  intros [-> Hr _ Hg _ [_ Ht]]. cbn [ch_value]. unfold handle_sack, sack_value.
  rewrite (proj2 (Nat.ltb_ge _ _)) by (rewrite !length_app, !length_to_be; lia).
  set (s1 := s <| assoc ::= set last_sack_time (fun _ => Some now) |>). rewrite !(bind_eq (upd_assoc _) _ s s1 tt eq_refl).
  erewrite get_bind by (rewrite get_u32_spec; apply read_be_32, tsn_at_u32). cbv beta iota.
  erewrite get_bind by (rewrite get_u32_spec; by apply read_be_32). cbv beta iota.
  erewrite get_bind by (rewrite get_u16_spec; apply read_be_16; ulia). cbv beta iota.
  erewrite get_bind by (rewrite get_u16_spec; apply read_be_to_be). cbv beta iota.
  rewrite Nat2Z.id, read_gap_blocks_pairs; [reflexivity|].
  eapply Forall_impl; [exact Ht|]. intros [a b] (? & ? & _). ulia.
Qed.

Lemma sack_effect_ok hs0 n gaps :
  (n ≤ length chs)%nat → truthful (fun i => (i < length chs)%nat ∧ held i) n gaps →
  preserves (ends hs0) (sack_effect (tsn_at t0 (Z.of_nat n - 1)) gaps).
Proof.
  intros Hn Ht. unfold sack_effect. apply preserves_get_bind. intros s (hs & Hh & k & n' & He). cbv zeta.
  set (s1 := s <| cc ::= set last_sack_sig (fun _ => sack_signature (tsn_at t0 (Z.of_nat n - 1)) gaps) |>).
  rewrite (bind_eq (upd_cc _) _ s s1 tt eq_refl).
  pose proof (apply_sack_ok cfg now t0 chs Hlen held k n gaps
    (negb (last_sack_sig (cc s) =? sack_signature (tsn_at t0 (Z.of_nat n - 1)) gaps)) _ (tx_sent _ _ _ _ _ (e_tx _ _ _ _ He)) Hn) as Hq.
  destruct (apply_sack_to_sent_queue _ _ _ _ _ _) as [q o]. cbn [fst] in Hq.
  set (s2 := s1 <| tx ::= set sent_queue (fun _ => q) |>).
  rewrite (bind_eq (upd_tx _) _ s1 s2 tt eq_refl).
  assert (ends hs0 s2) as Hs2.
  { exists hs. split; [done|]. exists k, n'. eapply end_at_ext; [done|split; reflexivity|]. apply Hq.
    eapply truthful_mono; [|exact Ht]. by intros i [_ Hi]. }
  match goal with |- ends hs0 (?m s2).1 => assert (preserves (ends hs0) m) as Hm; [|by apply Hm] end.
  apply preserves_bind; [apply preserves_ends; intros; by_frame|intros _].
  apply preserves_bind; [apply preserves_ends; intros; apply preserves_for_each; intros [? ?] _; apply account_acked_ok|intros _].
  apply preserves_bind; [apply preserves_ends; intros; apply sack_progress_ok|intros _].
  apply preserves_bind; [apply preserves_ends; intros; apply preserves_for_each; intros ? _; apply update_rto_ok|intros _].
  apply preserves_bind; [apply preserves_ends; intros; apply reset_rto_ok|intros _].
  apply preserves_bind; [apply preserves_ends; intros; end_steps|intros _].
  apply preserves_bind; [apply preserves_get|intros ?].
  apply preserves_bind; [apply preserves_ends; intros; end_steps|intros _]. apply transmit_ok.
Qed.

Lemma handle_sack_ok hs0 c n rwnd gaps dups :
  sack_ok t0 chs held c n rwnd gaps dups → preserves (ends hs0) (handle_sack cfg now (ch_value c)).
Proof.
  intros Hc s Hs. rewrite (handle_sack_read _ _ _ _ _ _ _ Hc).
  match goal with |- ends hs0 (?m s).1 => assert (preserves (ends hs0) m) as Hm; [|by apply Hm] end.
  apply preserves_bind; [apply preserves_ends; intros; by_frame|intros _].
  apply preserves_bind; [apply preserves_ends; intros; by_frame|intros _].
  apply sack_effect_ok; apply Hc.
Qed.

(** ** Data, heartbeats and packets *)

Lemma handle_data_ok hs0 i c :
  pchs !! i = Some c →
  preserves (ends hs0) (handle_data cfg now (oc_flags c) (ch_value (data_chunk c (tsn_at u0 (Z.of_nat i))))).
Proof.
  intros Hc s (hs & Hh & k & n & [H1 H2 H3 H4 H5 H6 H7]).
  destruct (handle_data_step cfg now u0 v0 pchs Hok Hplen n s i c H2 Hc) as (n' & r & dcs & Hn & -> & Ev & Hr & _ & Hk).
  exists hs. split; [done|]. exists k, n'. split; try done; [|by rewrite <- H7]. intros j [Hj Hhj]%H3. split; [done|]. by apply Hk.
Qed.

Lemma handle_heartbeat_ok hs value :
  len value ≤ 1184 → preserves (end_ok hs) (handle_heartbeat cfg value).
Proof.
  intros Hv. unfold handle_heartbeat. apply preserves_bind; [apply preserves_get|intros s]. apply send_beat_ok.
  split; [by right|]. by split.
Qed.

Lemma handle_heartbeat_ack_ok hs : preserves (end_ok hs) (handle_heartbeat_ack now).
Proof. unfold handle_heartbeat_ack, update_rto. end_steps. Qed.

Abbreviation handle_chunk := (handle_chunk hmac_sha1 random_u32 cfg wall now).
Abbreviation handle_packet := (handle_packet hmac_sha1 random_u32 cfg wall now).

Lemma handle_chunk_ok hs0 c :
  wire_ok u0 pchs t0 chs held c → preserves (ends hs0) (handle_chunk (ch_type c) (ch_flags c) (ch_value c)).
Proof.
  intros [i d Hi ->|n rwnd gaps dups Hs|(Ht & _ & Hw)].
  - by apply handle_data_ok.
  - pose proof (sk_chunk _ _ _ _ _ _ _ _ Hs) as E. replace (ch_type c) with CT_SACK by (by rewrite E).
    by eapply handle_sack_ok.
  - apply preserves_ends. intros hs. destruct Ht as [->| ->]; [apply handle_heartbeat_ok, Hw|apply handle_heartbeat_ack_ok].
Qed.

Lemma handle_packet_ok hs0 p : packet_ok u0 pchs t0 chs held p → preserves (ends hs0) (handle_packet p).
Proof.
  intros [(cfg' & tag & cs & -> & Hcs) _] s Hs. rewrite handle_packet_chunks.
  - match goal with |- ends hs0 (?m ?s1).1 => assert (preserves (ends hs0) m) as Hm end.
    { apply preserves_for_each. intros c Hc. apply handle_chunk_ok. rewrite Forall_forall in Hcs. by apply Hcs. }
    apply Hm. match goal with |- ends hs0 (s <| stats ::= ?f |>) =>
      refine (preserves_ends (A := unit) hs0 (modify (fun s => s <| stats ::= f |>)) _ s Hs) end.
    intros hs. by_frame.
  - eapply Forall_impl; [exact Hcs|]. intros c. apply wire_ok_wf. apply Forall_lookup. intros i d Hi. by apply (Hok i d).
Qed.

(** ** Timers *)

Lemma handle_t1_ok hs : preserves (end_ok hs) (handle_t1_timeout cfg now).
Proof.
  unfold handle_t1_timeout. apply preserves_get_bind. intros s (k & n & He). rewrite (e_t1 _ _ _ _ He). by exists k, n.
Qed.

(** An update of the queue that changes flags only *)
Lemma preserves_same hs f :
  (∀ s k, sent_ok t0 chs held k (sent_queue (tx s)) →
     frame s (f s) ∧ same_queue (sent_queue (tx s)) (sent_queue (tx (f s)))) →
  preserves (end_ok hs) (modify f : stM SctpInner stop unit).
Proof.
  intros Hf. apply preserves_modify. intros s (k & n & He). destruct (Hf s k (tx_sent _ _ _ _ _ (e_tx _ _ _ _ He))) as [Hs Hq].
  exists k, n. eapply end_at_ext; [done..|]. eapply sent_ok_same; [done|apply He].
Qed.

Lemma handle_timeout_ok hs : preserves (end_ok hs) (handle_timeout cfg now).
Proof.
  unfold handle_timeout. apply preserves_bind; [apply preserves_get|intros s0].
  apply preserves_bind; [apply preserves_lift|intros d]. cbv zeta. destruct (_ || _); [apply preserves_ret|].
  apply preserves_bind; [by_frame|intros _]. apply preserves_bind; [|intros _; by_frame].
  apply preserves_same. intros s k Ho. split; [by split|]. apply t3_mark_same. by eapply sent_ok_kept.
Qed.

Lemma probe_tail_elem q e : probe_tail q = Some e → e ∈ q.
Proof.
  unfold probe_tail. intros He%last_Some_elem_of. by apply list_elem_of_filter in He as [_ ?].
Qed.

Lemma tlp_probe_ok hs : preserves (end_ok hs) (maybe_send_tlp_probe now : stM SctpInner stop bool).
Proof.
  unfold maybe_send_tlp_probe. apply preserves_get_bind. intros s (k & n & He).
  destruct (tlp_probe_sent (cc s)); [by exists k, n|].
  destruct (probe_tail (sent_queue (tx s))) as [[key r]|] eqn:Ep; [|by exists k, n].
  cbv zeta. set (r' := r <| cr_needs_retransmit := true |> <| cr_transmit_count ::= _ |> <| cr_sent_time := now |> <| cr_in_flight := true |>).
  set (s1 := s <| tx ::= fun t => t <| sent_queue ::= bt_insert key r' |>
                <| flight_size ::= fun f => if cr_in_flight r then f else uadd f (len (cr_payload r)) |> |>).
  rewrite (bind_eq (upd_tx _) _ s s1 tt eq_refl).
  match goal with |- end_ok hs (?m s1).1 => assert (preserves (end_ok hs) m) as Hm by end_steps end. apply Hm.
  pose proof (tx_sent _ _ _ _ _ (e_tx _ _ _ _ He)) as Ho. exists k, n. eapply end_at_ext; [done|by split|].
  eapply sent_ok_same; [|exact Ho]. apply (same_queue_update _ _ r); [|apply Ho|done].
  apply bt_get_in; [apply Ho|]. by apply probe_tail_elem.
Qed.

Lemma send_heartbeat_ok hs : preserves (end_ok hs) (send_heartbeat random_u32 cfg now).
Proof.
  unfold send_heartbeat. apply preserves_bind; [apply preserves_get|intros s0]. cbv zeta.
  apply preserves_bind; [end_steps|intros _]. destruct (_ && _); [end_steps|].
  apply preserves_bind; [by_frame|intros _].
  apply preserves_bind; [unfold draw_u32; intros s; apply frame_end; destruct s; [by split|done]|intros info].
  destruct (_ =? 0); [apply preserves_ret|]. apply preserves_bind; [by_frame|intros _].
  apply send_beat_ok. split; [by left|]. autorewrite with crate. by split.
Qed.

(** ** The loop *)

Lemma loop_prepare_ok hs0 last_heartbeat : preserves (ends hs0) (loop_prepare cfg now last_heartbeat).
Proof.
  apply preserves_ends. intros hs. unfold loop_prepare, flush_expired_sack_delay.
  apply preserves_bind; [apply preserves_get|intros s]. destruct (bool_decide _); [apply preserves_ret|].
  do 5 (apply preserves_bind; [end_steps|intros ?]). apply preserves_bind; [|intros ?; apply preserves_ret].
  destruct (_ <=? _); [|apply preserves_ret]. apply preserves_bind; [apply tlp_probe_ok|intros ?; apply preserves_ret].
Qed.

Lemma loop_wake_ok hs0 last_heartbeat w batch :
  (∀ p, w = Incoming (Some p) → packet_ok u0 pchs t0 chs held p) → Forall (packet_ok u0 pchs t0 chs held) batch →
  preserves (ends hs0) (loop_wake hmac_sha1 random_u32 cfg wall now last_heartbeat w batch).
Proof.
  intros Hw Hb. unfold loop_wake. apply preserves_bind.
  - destruct w as [|reason| | | | |[p|]]; try (apply preserves_ends; intros hs; end_steps; fail).
    + apply preserves_bind; [apply preserves_logged, transmit_ok|intros _; apply preserves_ret].
    + apply preserves_bind; [apply preserves_logged, preserves_ends, handle_t1_ok|intros _].
      apply preserves_bind; [apply preserves_ends, tlp_probe_ok|intros _].
      apply preserves_bind; [apply preserves_logged, preserves_ends, handle_timeout_ok|intros _].
      destruct (_ <=? _); [|apply preserves_ret].
      apply preserves_bind; [apply preserves_logged, preserves_ends, send_heartbeat_ok|intros _; apply preserves_ret].
    + apply preserves_bind; [apply preserves_logged, handle_packet_ok, Hw, eq_refl|intros _; apply preserves_ret].
  - intros [lh|]; [|apply preserves_ret]. apply preserves_bind.
    + apply preserves_for_each. intros p Hp. apply preserves_logged, handle_packet_ok. rewrite Forall_forall in Hb. by apply Hb.
    + intros _. apply preserves_bind; [apply preserves_logged, transmit_ok|intros _; apply preserves_ret].
Qed.
End endpoint.
