(* ===== verification/SctpMessage.v ===== *)
(** * Messages in fragments

    What [send_data_raw] cuts a message into, and what processing the fragments
    in order makes of them. *)
From S2P Require Import Prelude Core BytesCrate BTree StateRes RecordSet DataChannel SctpQueues Sctp SctpWire SctpRecv SctpSend.

(** The first fragment is marked as such, and so is the last. *)
Fixpoint marked (first : bool) (l : list OutboundChunk) : Prop :=
  match l with
  | [] => False
  | c :: l => first_fragment c = first ∧
      match l with [] => last_fragment c = true | _ :: _ => last_fragment c = false ∧ marked false l end
  end.

Record message (id ppid ssn : Z) (ordered : bool) (data : list Z) (l : list OutboundChunk) : Prop := {
  msg_marked : marked true l;
  msg_data : concat (oc_payload <$> l) = data;
  msg_chunk : Forall (fun c => oc_stream_id c = id ∧ oc_ppid c = ppid ∧ oc_ssn c = ssn ∧
    ordered_chunk c = ordered ∧ u8 (oc_flags c) ∧ len (oc_payload c) ≤ 1172 ∧ reliable c) l;
  msg_length : (length l ≤ length data + 1)%nat;
}.

(** ** Cutting *)

Section fragments.
Context `{BytesCrate, !BytesLaws}.
Context (id ppid ssn : Z) (ordered : bool).

Definition fragment (payload : list Z) (flags : Z) : OutboundChunk :=
  {| oc_stream_id := id; oc_ppid := ppid; oc_payload := payload; oc_flags := flags; oc_ssn := ssn;
     oc_max_retransmits := None; oc_expiry := None |}.

Definition flags_base : Z := if negb ordered then 0x04 else 0x00.

(** The flags of a fragment, read back *)
Lemma fragment_flags payload (b e : bool) :
  let flags := if b then Z.lor flags_base 2 else flags_base in
  let flags := if e then Z.lor flags 1 else flags in
  let c := fragment payload flags in
  first_fragment c = b ∧ last_fragment c = e ∧ ordered_chunk c = ordered ∧ u8 (oc_flags c).
Proof.
  unfold first_fragment, last_fragment, ordered_chunk, flags_base, fragment. cbn [oc_flags]. by destruct b, e, ordered.
Qed.

Lemma fragment_loop_ok data size : (1 ≤ size)%nat → Z.of_nat size ≤ 1172 → ∀ fuel offset,
  (offset < length data)%nat → (length data - offset ≤ fuel)%nat →
  ∃ l, fragment_loop fuel data size offset fragment flags_base = Ok l ∧
    marked (offset =? 0)%nat l ∧ concat (oc_payload <$> l) = drop offset data ∧
    Forall (fun c => oc_stream_id c = id ∧ oc_ppid c = ppid ∧ oc_ssn c = ssn ∧
      ordered_chunk c = ordered ∧ u8 (oc_flags c) ∧ len (oc_payload c) ≤ 1172 ∧ reliable c) l ∧
    (length l ≤ length data - offset)%nat.
Proof.
  intros Hs Hs' fuel. induction fuel as [|fuel IH]; intros offset Ho Hf; [lia|].
  cbn [fragment_loop]. rewrite (proj2 (Nat.ltb_lt _ _) Ho). cbv zeta.
  set (sz := ((length data - offset) `min` size)%nat). rewrite bytes_slice_spec, decide_True by lia.
  cbn [or_panic mbind res_bind]. replace (offset + sz - offset)%nat with sz by lia.
  assert (len (take sz (drop offset data)) ≤ 1172) as Hl by (unfold len; rewrite length_take; lia).
  pose proof (fragment_flags (take sz (drop offset data)) (offset =? 0)%nat (length data <=? offset + sz)%nat) as (F1 & F2 & F3 & F4).
  set (c := fragment _ _) in *. destruct (Nat.leb_spec (length data) (offset + sz)) as [He|He].
  - assert (fragment_loop fuel data size (offset + sz) fragment flags_base = Ok []) as ->.
    { destruct fuel; cbn [fragment_loop]; by rewrite (proj2 (Nat.ltb_ge _ _) He). }
    cbn [mbind res_bind]. exists [c]. split; [done|]. split; [done|]. split.
    { cbn. rewrite app_nil_r. apply take_ge. rewrite length_drop. lia. }
    split; [|cbn; lia]. apply Forall_singleton. by split_and!.
  - destruct (IH (offset + sz)%nat) as (l & -> & Hm & Hd & Hc & Hn); [lia..|]. cbn [mbind res_bind].
    exists (c :: l). split; [done|]. replace (offset + sz =? 0)%nat with false in Hm by (symmetry; apply Nat.eqb_neq; lia).
    split; [|split; [|split]].
    + destruct l as [|c' l]; [done|]. split; [done|]. by split.
    + cbn [fmap list_fmap concat]. change (list_fmap _ _ oc_payload l) with (oc_payload <$> l). rewrite Hd.
      change (oc_payload c) with (take sz (drop offset data)). rewrite <- (take_drop sz (drop offset data)) at 2.
      by rewrite drop_drop.
    + constructor; [|done]. by split_and!.
    + cbn. lia.
Qed.

(** The chunks of a message that is not for partial reliability *)
Definition fragments (size : nat) (data : list Z) : res stop (list OutboundChunk) :=
  if len data =? 0 then Ok [fragment [] (Z.lor flags_base 0x03)]
  else fragment_loop (length data) data size 0 fragment flags_base.

Lemma fragments_ok size data : (1 ≤ size)%nat → Z.of_nat size ≤ 1172 →
  ∃ l, fragments size data = Ok l ∧ message id ppid ssn ordered data l.
Proof.
  intros Hs Hs'. unfold fragments. destruct (Z.eqb_spec (len data) 0) as [E|E].
  - unfold len in E. destruct data; [|cbn in E; lia]. eexists. split; [done|].
    pose proof (fragment_flags [] true true) as (F1 & F2 & F3 & F4). cbn zeta in *.
    replace (Z.lor (Z.lor flags_base 2) 1) with (Z.lor flags_base 3) in * by (unfold flags_base; by destruct ordered).
    split; [by split|done| |cbn; lia]. apply Forall_singleton. split_and!; done.
  - unfold len in E. destruct (fragment_loop_ok data size Hs Hs' (length data) 0) as (l & -> & Hm & Hd & Hc & Hn); [lia..|].
    exists l. split; [done|]. split; [done..|lia].
Qed.
End fragments.

(** ** Reassembling *)

Lemma receive_stable c v : v_id (receive c v) = v_id v ∧ v_alive (receive c v) = v_alive v.
Proof. pose proof (static_receive c v) as E. by injection E. Qed.

(** Chunks of one stream update one channel. *)
Lemma fold_view_step id cs : ∀ l, Forall (fun c => oc_stream_id c = id) cs →
  fold_left view_step cs l = update_view id (fun v => fold_left (fun v c => receive c v) cs v) l.
Proof.
  induction cs as [|c cs IH]; intros l Hc; [by rewrite update_view_id|]. apply Forall_cons in Hc as [E Hc].
  cbn [fold_left]. rewrite IH by done. unfold view_step at 1. rewrite E, update_view_twice; [done|]. apply receive_stable.
Qed.

Lemma receive_marked first cs : ∀ v, marked first cs → v_tx v = true →
  fold_left (fun v c => receive c v) cs v =
    v <| v_partial := [] |>
      <| v_messages ::= fun l => l ++ [(if first then [] else v_partial v) ++ concat (oc_payload <$> cs)] |>.
Proof.
  revert first. induction cs as [|c cs IH]; intros first v Hm Hv; [done|]. cbn [fold_left].
  destruct Hm as [Hf Hm]. destruct cs as [|c' cs].
  - cbn. rewrite app_nil_r. unfold receive. rewrite Hm, Hf. cbv zeta. change (v_tx (v <| v_partial := [] |>)) with (v_tx v).
    by rewrite Hv.
  - destruct Hm as [Hl Hm]. rewrite (IH false); [|done|].
    + unfold receive. rewrite Hl, Hf. cbv zeta. rs. cbn [fmap list_fmap concat]. rewrite <- app_assoc. by destruct v.
    + unfold receive. by rewrite Hl.
Qed.

(** Part of a message delivers nothing. *)
Lemma receive_partial first cs j : ∀ v, marked first cs → (j < length cs)%nat →
  let v' := fold_left (fun v c => receive c v) (take j cs) v in
  v_messages v' = v_messages v ∧ static v' = static v.
Proof.
  revert first j. induction cs as [|c cs IH]; intros first j v Hm Hj; [done|]. destruct j as [|j]; [done|].
  cbn [take fold_left]. destruct Hm as [_ Hm]. destruct cs as [|c' cs]; [cbn in Hj; lia|]. destruct Hm as [Hl Hm].
  destruct (IH false j (receive c v) Hm) as [E1 E2]; [cbn in *; lia|]. cbv zeta in *. rewrite E1, E2, static_receive.
  split; [|done]. unfold receive. by rewrite Hl.
Qed.

(** No message is completed before the last fragment, and one is then. *)
Lemma completes_marked first id cs j :
  marked first cs → (j < length cs)%nat → Forall (fun c => completes id c = false) (take j cs).
Proof.
  revert first j. induction cs as [|c cs IH]; intros first j Hm Hj; [by rewrite take_nil|]. destruct j as [|j]; [constructor|].
  cbn [take]. destruct Hm as [_ Hm]. destruct cs as [|c' cs]; [cbn in Hj; lia|]. destruct Hm as [Hl Hm].
  constructor; [unfold completes; by rewrite Hl, andb_false_r|]. eapply IH; [done|cbn in *; lia].
Qed.
