(* ===== verification/SctpSystem.v ===== *)
(** * Two endpoints over a network

    Two established endpoints exchange packets over a network that loses,
    repeats and reorders them.  Whatever happens, the messages each application
    has received on a channel are the first ones that were sent on it, in order
    and each once; and when a sender has nothing left to send or to have
    acknowledged, all of them have been received. *)
From stdpp Require Import relations.
From S2P Require Import Prelude Core BytesCrate BTree StateRes RecordSet DataChannel SctpQueues Sctp SctpWire SctpRecv SctpSend SctpEnd SctpMessage.

(** ** Sending a message *)

Definition bump (d : Sending) : Sending := if sd_ordered d then d <| sd_ssn ::= fun n => wadd16 n 1 |> else d.

Section send.
Context `{BytesCrate, !BytesLaws}.
Context (cfg : SctpConfig) (now : Z).

Lemma account_queued_eq sid l s :
  ∃ sb dcs, account_stream_queued sid l s = (s <| tx ::= set stream_buffered (fun _ => sb) |> <| data_channels := dcs |>, @Ok stop unit tt) ∧
    view <$> dcs = view <$> data_channels s ∧ send_view <$> dcs = send_view <$> data_channels s.
Proof.
  assert (∀ s : SctpInner, s <| tx ::= set stream_buffered (fun _ => stream_buffered (tx s)) |> <| data_channels := data_channels s |> = s)
    as Hs by (by intros [? []]).
  unfold account_stream_queued. destruct (l =? 0).
  { exists (stream_buffered (tx s)), (data_channels s). by rewrite Hs. }
  eexists _, _. split; [reflexivity|]. split.
  - apply (update_channel_fmap view). intros; apply view_buffered.
  - apply (update_channel_fmap send_view). intros; apply send_view_buffered.
Qed.

(** A message that is sent joins the queue, in fragments. *)
Record sent (id ppid : Z) (data : list Z) (dc : DataChannel) (s s' : SctpInner) (l : list OutboundChunk) : Prop := {
  se_message : message id ppid (if dc_ordered dc then dc_next_ssn dc else 0) (dc_ordered dc) data l;
  se_queue : outbound_queue (tx s') = outbound_queue (tx s) ++ l;
  se_rx : rx s' = rx s;
  se_next : next_tsn (tx s') = next_tsn (tx s);
  se_sent : sent_queue (tx s') = sent_queue (tx s);
  se_pr : has_pr_sctp (tx s') = has_pr_sctp (tx s);
  se_out : out s' = out s;
  se_open : out_open s' = out_open s;
  se_t1 : t1_sent_time (assoc s') = t1_sent_time (assoc s);
  se_view : view <$> data_channels s' = view <$> data_channels s;
  se_send : send_view <$> data_channels s' = update_first (is_sending id) bump (send_view <$> data_channels s);
}.

Lemma send_data_raw_ok id ppid data dc s s' :
  ppid ≠ DATA_CHANNEL_PPID_DCEP → find_channel id (data_channels s) = Some dc →
  1 ≤ dc_max_payload_size dc → dc_max_retransmits dc = None → dc_max_packet_life_time dc = None →
  send_data_raw cfg now id ppid data s = (s', Ok tt) → ∃ l, sent id ppid data dc s s' l.
Proof.
  intros Hp Hdc Hsize Hr Hl. unfold send_data_raw. rewrite (bind_eq get_st _ s s s eq_refl). rewrite Hdc.
  rewrite (proj2 (Z.eqb_neq _ _) Hp). cbv zeta. rewrite Hr, Hl.
  set (s1 := if dc_ordered dc then s <| data_channels ::= update_channel id (set dc_next_ssn (fun n => wadd16 n 1)) |> else s).
  set (ssn := if dc_ordered dc then dc_next_ssn dc else 0).
  erewrite (bind_eq _ _ s s1 (dc_ordered dc, ssn, Z.min (dc_max_payload_size dc) DEFAULT_MAX_PAYLOAD_SIZE, None, None))
    by (unfold s1, ssn; destruct (dc_ordered dc); reflexivity).
  cbv beta iota. rewrite (bind_eq get_st _ s1 s1 s1 eq_refl).
  unfold fail. destruct (bool_decide _); [by intros [=]|]. destruct (negb _); [by intros [=]|].
  set (s2 := s1 <| tx ::= set queued_bytes (fun n => uadd n (len data)) |>). rewrite (bind_eq (upd_tx _) _ s1 s2 tt eq_refl).
  destruct (account_queued_eq id (len data) s2) as (sb & dcs & E & Ev & Es). rewrite (bind_eq _ _ _ _ _ E).
  set (s3 := s2 <| tx ::= _ |> <| data_channels := dcs |>).
  destruct (fragments_ok id ppid ssn (dc_ordered dc) (Z.to_nat (Z.min (dc_max_payload_size dc) DEFAULT_MAX_PAYLOAD_SIZE)) data)
    as (l & El & Hm); [unfold DEFAULT_MAX_PAYLOAD_SIZE; lia..|].
  intros Hsend. exists l.
  assert (s' = s3 <| tx ::= set outbound_queue (fun q => q ++ l) |>) as ->.
  { unfold fragments in El. destruct (len data =? 0).
    - injection El as <-. by injection Hsend as <-.
    - change (fragment_loop _ _ _ _ _ _) with
        (fragment_loop (length data) data (Z.to_nat (Z.min (dc_max_payload_size dc) DEFAULT_MAX_PAYLOAD_SIZE)) 0
           (fragment id ppid ssn) (flags_base (dc_ordered dc))) in Hsend.
      rewrite El in Hsend. by injection Hsend as <-. }
  clear Hsend. split; try (unfold s3, s2, s1; by destruct (dc_ordered dc)).
  - change (view <$> dcs = view <$> data_channels s). rewrite Ev. unfold s2, s1. rs.
    destruct (dc_ordered dc); [|done]. by apply (update_channel_fmap view).
  - change (send_view <$> dcs = update_first (is_sending id) bump (send_view <$> data_channels s)). rewrite Es. unfold s2, s1. rs.
    assert (List.find (is_sending id) (send_view <$> data_channels s) = Some (send_view dc)) as Hf by (by rewrite find_sending, Hdc).
    destruct (dc_ordered dc) eqn:Eo.
    + rs. rewrite (update_channel_first send_view (is_sending id) id _ (fun d => d <| sd_ssn ::= fun n => wadd16 n 1 |>)) by done.
      apply (update_first_ext _ _ _ _ _ Hf). unfold bump. cbn. by rewrite Eo.
    + symmetry. apply (update_first_id _ _ _ _ Hf). unfold bump. cbn. by rewrite Eo.
Qed.
End send.

(** ** Growing sequences *)

Lemma queued_prefix u0 chs chs' n q : chs `prefix_of` chs' → queued u0 chs n q → queued u0 chs' n q.
Proof.
  intros Hp [H1 H2]. split; [done|]. intros k e Hk. destruct (H2 k e Hk) as (i & c & Hi & Hc & ?).
  exists i, c. split; [done|]. split; [by eapply prefix_lookup_Some|done].
Qed.

Lemma take_prefix {A} (l l' : list A) n : l `prefix_of` l' → (n ≤ length l)%nat → take n l' = take n l.
Proof. intros [k ->] Hn. by apply take_app_le. Qed.

Lemma processed_prefix u0 v0 chs chs' n s : chs `prefix_of` chs' → processed u0 v0 chs n s → processed u0 v0 chs' n s.
Proof.
  intros Hp [H1 H2 H3 H4 H5]. pose proof (take_prefix _ _ n Hp H1) as Et. pose proof (prefix_length _ _ Hp).
  split; [lia|done..|intros; by rewrite Et|by rewrite Et].
Qed.

Lemma sent_ok_prefix t0 chs chs' held k q : chs `prefix_of` chs' → sent_ok t0 chs held k q → sent_ok t0 chs' held k q.
Proof.
  intros Hp [H1 H2 H3 H4]. pose proof (prefix_length _ _ Hp). split; [lia|done| |done].
  intros key r Hk. destruct (H3 key r Hk) as (i & c & [E1 E2 E3 E4 E5]). exists i, c. split; try done.
  by eapply prefix_lookup_Some.
Qed.

Section grow.
Context (t0 u0 : Z) (v0 : list View).

(** The peer has sent more. *)
Lemma end_at_peer chs pchs pchs' held sv hs k n s :
  pchs `prefix_of` pchs' →
  end_at t0 chs u0 pchs v0 held sv hs k n s → end_at t0 chs u0 pchs' v0 held sv hs k n s.
Proof.
  intros Hp [H1 (Hr1 & Hr2 & Hr3) H3 H4 H5 H6 H7]. pose proof (prefix_length _ _ Hp). split; try done.
  - split; [by eapply processed_prefix|]. split; [by eapply queued_prefix|done].
  - intros j [Hj Hh]%H3. split; [lia|done].
  - eapply Forall_impl; [exact H4|]. intros p. by apply packet_ok_mono.
Qed.

(** The peer has received more. *)
Lemma end_at_held chs pchs held (held' : nat → Prop) sv hs k n s :
  (∀ i, held i → held' i) →
  end_at t0 chs u0 pchs v0 held sv hs k n s → end_at t0 chs u0 pchs v0 held' sv hs k n s.
Proof.
  intros Hh [[E1 E2 E3 E4] H2 H3 H4 H5 H6 H7]. split; try done. split; try done. eapply sent_ok_held; [|done]. auto.
Qed.

(** A message was sent. *)
Lemma end_at_sent chs pchs held sv hs k n s id ppid data dc s' l :
  sent id ppid data dc s s' l → end_at t0 chs u0 pchs v0 held sv hs k n s →
  end_at t0 (chs ++ l) u0 pchs v0 held (update_first (is_sending id) bump sv) hs k n s'.
Proof.
  intros [S1 S2 S3 S4 S5 S6 S7 S8 S9 S10 S11] [[E1 E2 E3 E4] (Hr1 & Hr2 & Hr3) H3 H4 H5 H6 H7].
  assert (chs `prefix_of` chs ++ l) as Hp by by apply prefix_app_r.
  split.
  - split; [by rewrite S4| |rewrite S5; by eapply sent_ok_prefix|by rewrite S6].
    rewrite S2, E2. symmetry. apply drop_app_le. apply (so_le _ _ _ _ _ E3).
  - split; [eapply processed_ext; [done|by rewrite S3..|done]|by rewrite S3].
  - intros j Hh. unfold has. rewrite S3. by apply H3.
  - rewrite S7. eapply Forall_impl; [exact H4|]. intros p. by apply packet_ok_mono.
  - by rewrite S8.
  - by rewrite S9.
  - by rewrite S11, H7.
Qed.
End grow.

(** ** What has been delivered *)

Abbreviation log := (list (Z * list Z)).

(** The chunks of the messages that were sent, in order *)
Inductive cut (v0 : list View) : log → list OutboundChunk → Prop :=
| cut_nil : cut v0 [] []
| cut_snoc l chs id ppid ssn ordered data cs v :
    cut v0 l chs → message id ppid ssn ordered data cs →
    List.find (is_view id) v0 = Some v → v_tx v = true → cut v0 (l ++ [(id, data)]) (chs ++ cs).

Definition sent_on (id : Z) (l : log) : list (list Z) := (filter (fun m => m.1 = id) l).*2.
Definition inbox (id : Z) (vs : list View) : option (list (list Z)) := v_messages <$> List.find (is_view id) vs.

Lemma is_view_id id g v : (v_id (g v) = v_id v ∧ v_alive (g v) = v_alive v) → is_view id (g v) = is_view id v.
Proof. intros [E1 E2]. unfold is_view. by rewrite E1, E2. Qed.

Lemma receive_all_stable cs v :
  v_id (fold_left (fun v c => receive c v) cs v) = v_id v ∧ v_alive (fold_left (fun v c => receive c v) cs v) = v_alive v.
Proof.
  revert v. induction cs as [|c cs IH]; intros v; [done|]. cbn [fold_left]. destruct (IH (receive c v)) as [-> ->]. apply receive_stable.
Qed.

(** Chunks of a stream leave the other channels alone. *)
Lemma inbox_other id id' cs vs :
  Forall (fun c => oc_stream_id c = id') cs → id' ≠ id → inbox id (fold_left view_step cs vs) = inbox id vs.
Proof.
  intros Hc Hne. unfold inbox. rewrite (fold_view_step id') by done. unfold update_view. rewrite find_update_first; [done|..].
  - intros v. apply is_view_id, receive_all_stable.
  - unfold is_view. intros v [_ E1%Z.eqb_eq]%andb_true_iff [_ E2%Z.eqb_eq]%andb_true_iff. congruence.
Qed.

Lemma inbox_same id cs vs :
  Forall (fun c => oc_stream_id c = id) cs →
  inbox id (fold_left view_step cs vs) =
    (fun v => v_messages (fold_left (fun v c => receive c v) cs v)) <$> List.find (is_view id) vs.
Proof.
  intros Hc. unfold inbox. rewrite (fold_view_step id) by done. unfold update_view. rewrite find_update_same.
  - by destruct (List.find (is_view id) vs).
  - intros v. apply is_view_id, receive_all_stable.
Qed.

(** A whole message is delivered, a part of one is not. *)
Lemma inbox_message id0 id ppid ssn ordered data cs vs v ms :
  message id ppid ssn ordered data cs → List.find (is_view id) vs = Some v → v_tx v = true →
  inbox id0 vs = Some ms →
  inbox id0 (fold_left view_step cs vs) = Some (ms ++ sent_on id0 [(id, data)]) ∧
  ∀ j, (j < length cs)%nat → inbox id0 (fold_left view_step (take j cs) vs) = Some ms.
Proof.
  intros [Hm Hd Hc _] Hv Htx Hms.
  assert (Forall (fun c => oc_stream_id c = id) cs) as Hid by (eapply Forall_impl; [exact Hc|]; by intros c [? _]).
  assert (∀ j, Forall (fun c => oc_stream_id c = id) (take j cs)) as Hid' by (intros; by apply Forall_take).
  unfold sent_on. rewrite filter_cons, filter_nil. cbn [fst]. destruct (decide (id = id0)) as [->|Hne].
  - unfold inbox in Hms. rewrite Hv in Hms. injection Hms as <-. rewrite !inbox_same by done. rewrite Hv. cbn. split.
    + f_equal. rewrite (receive_marked true) by done. cbn. by rewrite Hd.
    + intros j Hj. rewrite inbox_same, Hv by done. cbn. f_equal. by eapply receive_partial.
  - rewrite (inbox_other id0 id) by done. cbn. rewrite app_nil_r. split; [done|]. intros j Hj. by rewrite (inbox_other id0 id).
Qed.

Lemma sent_on_app id l l' : sent_on id (l ++ l') = sent_on id l ++ sent_on id l'.
Proof. unfold sent_on. by rewrite filter_app, fmap_app. Qed.

Lemma find_fold id cs vs v :
  List.find (is_view id) vs = Some v → ∃ v', List.find (is_view id) (fold_left view_step cs vs) = Some v' ∧ v_tx v' = v_tx v.
Proof.
  intros Hf. destruct (find_static _ _ _ _ (static_fold cs vs) Hf) as (v' & Hv' & Es). exists v'. split; [done|]. by injection Es.
Qed.

Lemma cut_all v0 l chs id ms : cut v0 l chs → inbox id v0 = Some ms →
  inbox id (fold_left view_step chs v0) = Some (ms ++ sent_on id l).
Proof.
  intros Hc Hi. induction Hc as [|l chs id' ppid ssn ordered data cs v Hc IH Hm Hv Htx]; [by rewrite app_nil_r|].
  rewrite fold_left_app. destruct (find_fold id' chs v0 v Hv) as (v' & Hv' & Htx').
  destruct (inbox_message id id' ppid ssn ordered data cs _ v' _ Hm Hv' (eq_trans Htx' Htx) IH) as [E _].
  by rewrite E, sent_on_app, app_assoc.
Qed.

(** Processing the first [n] chunks delivers the first [m] messages. *)
Lemma cut_prefix v0 l chs n : cut v0 l chs → (n ≤ length chs)%nat →
  ∃ m, (m ≤ length l)%nat ∧ (n = length chs → m = length l) ∧
    ∀ id ms, inbox id v0 = Some ms → inbox id (fold_left view_step (take n chs) v0) = Some (ms ++ sent_on id (take m l)).
Proof.
  intros Hc. revert n. induction Hc as [|l chs id ppid ssn ordered data cs v Hc IH Hm Hv Htx]; intros n Hn.
  { exists 0%nat. split; [done|]. split; [done|]. intros id ms Hi. rewrite take_nil. cbn. by rewrite app_nil_r. }
  rewrite length_app in *. destruct (decide (n < length chs)%nat) as [Hlt|Hge].
  - destruct (IH n) as (m & Hml & _ & Hi); [lia|]. exists m. rewrite length_app. split; [lia|]. split; [lia|].
    intros id0 ms Hid. rewrite (take_app_le chs) by lia. rewrite (take_app_le l) by lia. by apply Hi.
  - rewrite take_app_ge by lia. set (j := (n - length chs)%nat).
    destruct (find_fold id chs v0 v Hv) as (v' & Hv' & Htx'). rewrite Htx in Htx'.
    destruct (decide (j < length cs)%nat) as [Hj|Hj].
    + exists (length l). rewrite length_app. split; [lia|]. split; [lia|]. intros id0 ms Hid. rewrite fold_left_app.
      rewrite (take_app_le l), firstn_all by lia. by apply (inbox_message id0 id ppid ssn ordered data cs _ v' _ Hm Hv' Htx'
        (cut_all _ _ _ _ _ Hc Hid)).
    + exists (length (l ++ [(id, data)])). split; [rewrite !length_app; lia|]. split; [rewrite !length_app; lia|]. intros id0 ms Hid. rewrite firstn_all.
      rewrite (take_ge cs) by lia. apply cut_all; [|done]. by eapply cut_snoc.
Qed.

(** ** Channels that both sides have *)

(** The channels to send on: reliable, and known to the peer, whose channels are [v0] *)
Definition chan_ok (v0 : list View) (chs : list OutboundChunk) (sv : list Sending) : Prop :=
  ∀ id d, List.find (is_sending id) sv = Some d →
    u16 id ∧ 1 ≤ sd_size d ∧ sd_retransmits d = None ∧ sd_life_time d = None ∧
    (sd_ordered d = true → sd_ssn d = as_u16 (ssn_count id chs)) ∧
    ∃ v, List.find (is_view id) v0 = Some v ∧ v_ordered v = sd_ordered d ∧ v_tx v = true.

Lemma ssn_count_app id cs cs' : ssn_count id (cs ++ cs') = ssn_count id cs + ssn_count id cs'.
Proof. unfold ssn_count. rewrite filter_app, length_app. lia. Qed.

Lemma ssn_count_none id cs : Forall (fun c => completes id c = false) cs → ssn_count id cs = 0.
Proof.
  induction 1 as [|c cs Hc _ IH]; [done|]. unfold ssn_count in *. rewrite filter_cons, decide_False by congruence. done.
Qed.

Lemma ssn_count_marked first id cs :
  marked first cs → Forall (fun c => oc_stream_id c = id ∧ ordered_chunk c = true) cs → ssn_count id cs = 1.
Proof.
  revert first. induction cs as [|c cs IH]; intros first Hm Hc; [done|]. apply Forall_cons in Hc as [[E1 E2] Hc].
  destruct Hm as [_ Hm]. unfold ssn_count. rewrite filter_cons. destruct cs as [|c' cs].
  - rewrite decide_True by (unfold completes; by rewrite E2, Hm, E1, Z.eqb_refl). done.
  - destruct Hm as [Hl Hm]. rewrite decide_False by (unfold completes; by rewrite Hl, andb_false_r). by apply (IH false).
Qed.

Section channels.
Context (v0 : list View) (chs : list OutboundChunk) (id ppid : Z) (data : list Z) (d : Sending) (l : list OutboundChunk).
Context (Hmsg : message id ppid (if sd_ordered d then sd_ssn d else 0) (sd_ordered d) data l).

Lemma message_stream : Forall (fun c => oc_stream_id c = id) l.
Proof. eapply Forall_impl; [apply Hmsg|]. by intros c [? _]. Qed.

Lemma completes_other id' c : id' ≠ id → oc_stream_id c = id → completes id' c = false.
Proof. intros Hne <-. unfold completes. by rewrite (proj2 (Z.eqb_neq _ _) Hne), andb_false_r. Qed.

Lemma chan_ok_sent sv :
  chan_ok v0 chs sv → List.find (is_sending id) sv = Some d →
  chan_ok v0 (chs ++ l) (update_first (is_sending id) bump sv).
Proof.
  assert (∀ id' v, is_sending id' (bump v) = is_sending id' v) as Hb by (intros; unfold bump; by destruct (sd_ordered v)).
  intros Hc Hd id' d' Hf. destruct (decide (id' = id)) as [->|Hne].
  - rewrite find_update_same in Hf by apply Hb. rewrite Hd in Hf. injection Hf as <-.
    destruct (Hc id d Hd) as (H1 & H2 & H3 & H4 & H5 & v & H6 & H7 & H8).
    assert (sd_ordered (bump d) = sd_ordered d ∧ sd_size (bump d) = sd_size d ∧ sd_retransmits (bump d) = None ∧
      sd_life_time (bump d) = None) as (E1 & E2 & E3 & E4) by (unfold bump; destruct (sd_ordered d) eqn:Eo; cbn; auto).
    rewrite E1, E2. split_and!; try done; [|by exists v]. intros Ho. unfold bump. rewrite Ho.
    change (wadd16 (sd_ssn d) 1 = as_u16 (ssn_count id (chs ++ l))). rewrite (H5 Ho), ssn_count_app.
    rewrite (ssn_count_marked true id l); [|apply Hmsg|].
    + unfold wadd16, as_u16. by rewrite Zplus_mod_idemp_l.
    + eapply Forall_impl; [apply Hmsg|]. intros c (F1 & _ & _ & F2 & _). by rewrite F1, F2.
  - rewrite find_update_first in Hf.
    + destruct (Hc id' d' Hf) as (H1 & H2 & H3 & H4 & H5 & H6). split_and!; try done. intros Ho. rewrite (H5 Ho), ssn_count_app.
      rewrite (ssn_count_none id' l); [by rewrite Z.add_0_r|]. eapply Forall_impl; [apply message_stream|].
      intros c Hc'. by apply completes_other.
    + intros; apply Hb.
    + unfold is_sending. intros e [_ E1%Z.eqb_eq]%andb_true_iff [_ E2%Z.eqb_eq]%andb_true_iff. congruence.
Qed.

Lemma data_ok_sent sv :
  data_ok v0 chs → chan_ok v0 chs sv → List.find (is_sending id) sv = Some d → u32 ppid → ppid ≠ DATA_CHANNEL_PPID_DCEP →
  data_ok v0 (chs ++ l).
Proof.
  intros Hok Hc Hd Hp Hp' i c Hi. destruct (Hc id d Hd) as (H1 & H2 & H3 & H4 & H5 & v & H6 & H7 & H8).
  apply lookup_app_Some in Hi as [Hi|[Hge Hi]].
  - destruct (Hok i c Hi) as (A1 & A2 & A3). split; [done|]. split; [done|].
    rewrite take_app_le by (apply lookup_lt_Some in Hi; lia). done.
  - pose proof (proj1 (Forall_lookup _ _) (msg_chunk _ _ _ _ _ _ Hmsg) _ _ Hi) as (F1 & F2 & F3 & F4 & F5 & F6 & _).
    rewrite F1, F4. split; [|split; [by exists v|]].
    + split_and!; try done; [by rewrite F1|rewrite F3|by rewrite F2..].
      destruct (sd_ordered d); [rewrite H5 by done; ulia|done].
    + intros Ho. rewrite F3, Ho, (H5 Ho). rewrite take_app_ge by done. rewrite ssn_count_app.
      rewrite (ssn_count_none id (take _ l)); [by rewrite Z.add_0_r|].
      eapply completes_marked; [apply Hmsg|]. by eapply lookup_lt_Some.
Qed.
End channels.

(** ** The system *)

(** What belongs to an endpoint and does not change *)
Record Party := {
  p_hmac : list Z → list Z → list Z;
  p_random : nat → Z;
  p_config : SctpConfig;
}.

Section system.
Context `{BytesCrate, !BytesLaws}.

(** A step of an endpoint, with the messages it has sent; the packets it is
    given are any of those its peer has ever sent. *)
Inductive party_step (p : Party) (network : list (list Z)) : SctpInner * log → SctpInner * log → Prop :=
| party_send now id ppid data s s' l :
    u32 ppid → ppid ≠ DATA_CHANNEL_PPID_DCEP → is_Some (find_channel id (data_channels s)) →
    send_data_raw (p_config p) now id ppid data s = (s', Ok tt) →
    party_step p network (s, l) (s', l ++ [(id, data)])
| party_prepare now last_heartbeat s l :
    party_step p network (s, l) ((loop_prepare (p_config p) now last_heartbeat s).1, l)
| party_wake wall now last_heartbeat w batch s l :
    (∀ packet, w = Incoming (Some packet) → packet ∈ network) → batch ⊆ network →
    party_step p network (s, l)
      ((loop_wake (p_hmac p) (p_random p) (p_config p) wall now last_heartbeat w batch s).1, l).

Record World := { wa : SctpInner; la : log; wb : SctpInner; lb : log }.

Inductive world_step (pa pb : Party) (w : World) : World → Prop :=
| step_a s l : party_step pa (out (wb w)) (wa w, la w) (s, l) →
    world_step pa pb w {| wa := s; la := l; wb := wb w; lb := lb w |}
| step_b s l : party_step pb (out (wa w)) (wb w, lb w) (s, l) →
    world_step pa pb w {| wa := wa w; la := la w; wb := s; lb := l |}.

(** An upper bound on the chunks of the messages *)
Definition volume (l : log) : Z := Z.of_nat (sum_list_with (fun m => length m.2 + 1)%nat l).

Lemma volume_app l l' : volume (l ++ l') = volume l + volume l'.
Proof. unfold volume. induction l as [|m l IH]; cbn in *; lia. Qed.

Lemma cut_volume v0 l chs : cut v0 l chs → Z.of_nat (length chs) ≤ volume l.
Proof.
  induction 1 as [|l chs id ppid ssn ordered data cs v _ IH Hm _ _]; [done|]. rewrite volume_app, length_app.
  pose proof (msg_length _ _ _ _ _ _ Hm). unfold volume in *. cbn. lia.
Qed.

(** ** The invariant *)

(** What one side has sent, against the channels [v] of the other *)
Record flow (v : list View) (l : log) (chs : list OutboundChunk) (sv : list Sending) : Prop := {
  fl_cut : cut v l chs;
  fl_chan : chan_ok v chs sv;
  fl_data : data_ok v chs;
  fl_reliable : Forall reliable chs;
}.

Definition linked (ta : Z) (va : list View) (tb : Z) (vb : list View) (a : SctpInner) (l : log) (b : SctpInner) (l' : log)
    (ca cb : list OutboundChunk) (ha hb : nat → Prop) (sva svb : list Sending) : Prop :=
  flow vb l ca sva ∧ flow va l' cb svb ∧
  end_ok ta ca tb cb va hb sva ha a ∧ end_ok tb cb ta ca vb ha svb hb b.

Lemma linked_sym ta va tb vb a l b l' ca cb ha hb sva svb :
  linked ta va tb vb a l b l' ca cb ha hb sva svb → linked tb vb ta va b l' a l cb ca hb ha svb sva.
Proof. intros (H1 & H2 & H3 & H4). done. Qed.

Lemma out_packets ta ca tb cb vb ha svb hb b :
  end_ok tb cb ta ca vb ha svb hb b → Forall (packet_ok tb cb ta ca hb) (out b).
Proof. intros (k & n & He). apply He. Qed.

Lemma data_ok_small v chs : data_ok v chs → Forall (fun c => len (oc_payload c) ≤ 1172) chs.
Proof. intros Hd. apply Forall_lookup. intros i c Hc. apply (Hd i c Hc). Qed.

Lemma step_linked pa ta va tb vb a l b l' ca cb ha hb sva svb s m :
  linked ta va tb vb a l b l' ca cb ha hb sva svb → party_step pa (out b) (a, l) (s, m) →
  volume m < 2147483648 → volume l' < 2147483648 →
  ∃ ca' ha' sva', linked ta va tb vb s m b l' ca' cb ha' hb sva' svb.
Proof.
  intros (Ha & Hb & Ea & Eb) Hs Vm Vl'. inversion Hs as [now id ppid data s0 s1 l0 Hp Hp' [dc Hdc] Hsend|now lh s0 l0|wall now lh w batch s0 l0 Hw Hbatch]; subst.
  - destruct Ea as (k & n & Ea). pose proof (e_sv _ _ _ _ _ _ _ _ _ _ _ Ea) as Esv.
    assert (List.find (is_sending id) sva = Some (send_view dc)) as Hd by (by rewrite <- Esv, find_sending, Hdc).
    destruct (fl_chan _ _ _ _ Ha id _ Hd) as (G1 & G2 & G3 & G4 & G5 & v & G6 & G7 & G8).
    destruct (send_data_raw_ok _ _ _ _ _ _ _ _ Hp' Hdc G2 G3 G4 Hsend) as (cs & Hc). pose proof (se_message _ _ _ _ _ _ _ Hc) as Hm.
    exists (ca ++ cs), ha, (update_first (is_sending id) bump sva). split; [split|split; [done|split]].
    + eapply cut_snoc; [apply Ha|done..].
    + eapply (chan_ok_sent _ _ _ ppid data (send_view dc)); [done|apply Ha|done].
    + eapply (data_ok_sent _ _ _ ppid data (send_view dc)); [done|apply Ha|apply Ha|done..].
    + apply Forall_app. split; [apply Ha|]. eapply Forall_impl; [apply Hm|]. by intros c (_ & _ & _ & _ & _ & _ & ?).
    + exists k, n. by eapply end_at_sent.
    + destruct Eb as (k' & n' & Eb). exists k', n'. eapply end_at_peer; [|done]. by apply prefix_app_r.
  - pose proof (loop_prepare_ok (p_config pa) now ta ca tb cb va hb sva ha lh a) as Hprep.
    destruct Hprep as (ha' & Hh & Ea'); [exists ha; done|]. exists ca, ha', sva. split; [done|]. split; [done|]. split; [done|].
    destruct Eb as (k' & n' & Eb). exists k', n'. by eapply end_at_held.
  - pose proof (out_packets _ _ _ _ _ _ _ _ _ Eb) as Hout. rewrite Forall_forall in Hout.
    pose proof (cut_volume _ _ _ (fl_cut _ _ _ _ Ha)). pose proof (cut_volume _ _ _ (fl_cut _ _ _ _ Hb)).
    destruct (loop_wake_ok (p_hmac pa) (p_random pa) (p_config pa) wall now ta ca tb cb va hb sva (data_ok_small _ _ (fl_data _ _ _ _ Ha))
      ltac:(lia) (fl_reliable _ _ _ _ Ha) ltac:(lia) (fl_data _ _ _ _ Hb) ha lh w batch) with (s := a) as (ha' & Hh & Ea').
    + intros p Ep. by apply Hout, Hw.
    + apply Forall_forall. intros p Hp. by apply Hout, Hbatch.
    + exists ha. done.
    + exists ca, ha', sva. split; [done|]. split; [done|]. split; [done|].
      destruct Eb as (k' & n' & Eb). exists k', n'. by eapply end_at_held.
Qed.

Lemma party_volume p network s l s' l' : party_step p network (s, l) (s', l') → volume l ≤ volume l'.
Proof. inversion 1; subst; [|done..]. rewrite volume_app. unfold volume. lia. Qed.

(** ** Established associations *)

Record established (t0 u0 : Z) (s : SctpInner) : Prop := {
  es_next : next_tsn (tx s) = tsn_at t0 0;
  es_sent : sent_queue (tx s) = [];
  es_queue : outbound_queue (tx s) = [];
  es_pr : has_pr_sctp (tx s) = false;
  es_cum : cumulative_tsn_ack (rx s) = tsn_at u0 (-1);
  es_received : received_queue (rx s) = [];
  es_streams : inbound_streams (rx s) = [];
  es_out : out s = [];
  es_open : out_open s = true;
  es_t1 : t1_sent_time (assoc s) = None;
}.

(** The channels of [l], when the peer has the channels [l'] *)
Definition agreed (l l' : list DataChannel) : Prop := ∀ id dc, find_channel id l = Some dc →
  u16 id ∧ 1 ≤ dc_max_payload_size dc ∧ dc_max_retransmits dc = None ∧ dc_max_packet_life_time dc = None ∧
  (dc_ordered dc = true → dc_next_ssn dc = 0) ∧
  ∃ dc', find_channel id l' = Some dc' ∧ dc_ordered dc' = dc_ordered dc ∧ dc_tx dc' = true.

Lemma established_end t0 u0 s v0 held :
  established t0 u0 s → v0 = view <$> data_channels s →
  end_ok t0 [] u0 [] v0 held (send_view <$> data_channels s) (fun _ => False) s.
Proof.
  intros [H1 H2 H3 H4 H5 H6 H7 H8 H9 H10] ->. exists 0%nat, 0%nat. split; try done.
  - split; [done|by rewrite H3| |done]. rewrite H2. split; [done|constructor|done|lia].
  - split; [split|].
    + done.
    + done.
    + rewrite H7. constructor.
    + intros sid. by rewrite H7.
    + done.
    + rewrite H6. split; [split; [constructor|done]|by intros [? ?]].
  - by rewrite H8.
Qed.

Lemma agreed_flow l l' : agreed l l' → flow (view <$> l') [] [] (send_view <$> l).
Proof.
  intros Ha. split; [constructor| |done|constructor]. intros id d. rewrite find_sending. intros (dc & Hdc & ->)%fmap_Some.
  destruct (Ha id dc Hdc) as (H1 & H2 & H3 & H4 & H5 & dc' & H6 & H7 & H8). split_and!; try done.
  exists (view dc'). rewrite find_view, H6. done.
Qed.

Lemma reachable_linked pa pb ta tb w0 w :
  established ta tb (wa w0) → established tb ta (wb w0) →
  agreed (data_channels (wa w0)) (data_channels (wb w0)) → agreed (data_channels (wb w0)) (data_channels (wa w0)) →
  la w0 = [] → lb w0 = [] →
  rtc (world_step pa pb) w0 w → volume (la w) < 2147483648 → volume (lb w) < 2147483648 →
  ∃ ca cb ha hb sva svb,
    linked ta (view <$> data_channels (wa w0)) tb (view <$> data_channels (wb w0)) (wa w) (la w) (wb w) (lb w) ca cb ha hb sva svb.
Proof.
  intros Ea Eb Hab Hba La Lb Hr. revert w Hr.
  match goal with |- ∀ w, rtc _ _ w → @?P w => apply (rtc_ind_r P) end; [intros Va Vb|intros w1 w2 Hr Hs IH Va Vb].
  { exists [], [], (fun _ => False), (fun _ => False), (send_view <$> data_channels (wa w0)), (send_view <$> data_channels (wb w0)).
    rewrite La, Lb. split; [by apply agreed_flow|]. split; [by apply agreed_flow|]. split; by apply established_end. }
  destruct Hs as [s l Hs|s l Hs]; cbn [wa la wb lb] in *; pose proof (party_volume _ _ _ _ _ _ Hs);
    (destruct IH as (ca & cb & ha & hb & sva & svb & IH); [lia|lia|]).
  - destruct (step_linked _ _ _ _ _ _ _ _ _ _ _ _ _ _ _ _ _ IH Hs Va Vb) as (ca' & ha' & sva' & Hl). eauto 10.
  - destruct (step_linked _ _ _ _ _ _ _ _ _ _ _ _ _ _ _ _ _ (linked_sym _ _ _ _ _ _ _ _ _ _ _ _ _ _ IH) Hs Vb Va)
      as (cb' & hb' & svb' & Hl%linked_sym). eauto 10.
Qed.

(** ** Delivery *)

Definition messages (dc : DataChannel) : list (list Z) := omap message_of (dc_events dc).
Definition inbox_of (id : Z) (s : SctpInner) : option (list (list Z)) := messages <$> find_channel id (data_channels s).
Definition idle (s : SctpInner) : Prop := sent_queue (tx s) = [] ∧ outbound_queue (tx s) = [].

(** [b] has received, on every channel, what it had before and then the first
    messages of [l]; all of them when [a] is idle. *)
Definition delivered (l : log) (a b0 b : SctpInner) : Prop :=
  ∃ m, (m ≤ length l)%nat ∧ (idle a → m = length l) ∧
    ∀ id ms, inbox_of id b0 = Some ms → inbox_of id b = Some (ms ++ sent_on id (take m l)).

Lemma inbox_view id s : inbox_of id s = inbox id (view <$> data_channels s).
Proof. unfold inbox_of, inbox. rewrite find_view. by destruct (find_channel id (data_channels s)). Qed.

Lemma idle_all t0 chs held k t :
  tx_ok t0 chs held k t → sent_queue t = [] → outbound_queue t = [] → ∀ i, (i < length chs)%nat → held i.
Proof.
  intros [_ Hq [_ _ _ Hall] _] Es Eo i Hi. rewrite Eo in Hq. symmetry in Hq. apply drop_nil_inv in Hq.
  destruct (Hall i) as [|(r & Hr & _)]; [lia|done|]. by rewrite Es in Hr.
Qed.

Lemma linked_delivered ta va tb vb a l b l' ca cb ha hb sva svb b0 :
  linked ta va tb vb a l b l' ca cb ha hb sva svb → vb = view <$> data_channels b0 → delivered l a b0 b.
Proof.
  intros (Ha & _ & (ka & na & Ea) & (kb & nb & Eb)) ->. pose proof (e_rx _ _ _ _ _ _ _ _ _ _ _ Eb) as (Hp & _ & Hd).
  destruct (cut_prefix _ _ _ nb (fl_cut _ _ _ _ Ha) (pr_le _ _ _ _ _ Hp)) as (m & Hm & Hfull & Hin).
  exists m. split; [done|]. split.
  - intros [Es Eo]. apply Hfull. pose proof (pr_le _ _ _ _ _ Hp). destruct (decide (nb = length ca)) as [|Hne]; [done|].
    destruct (e_has _ _ _ _ _ _ _ _ _ _ _ Eb nb) as [_ [Hlt|Hq]]; [|lia|done].
    eapply (idle_all ta ca hb ka (tx a)); [apply Ea|done..|lia].
  - intros id ms. rewrite !inbox_view. intros Hms. rewrite (pr_views _ _ _ _ _ Hp). by apply Hin.
Qed.

(** C8: Two established SCTP endpoints with the same reliable channels, over a
    network that loses, repeats and reorders packets, in every reachable state
    in which the bytes plus the number of messages sent per direction are below
    2^31: each application has received on each channel exactly the first
    messages sent on it, in order and once, and all of them whenever the sender
    has nothing left unsent or unacknowledged. *)
Theorem sctp_delivery pa pb ta tb w0 w :
  established ta tb (wa w0) → established tb ta (wb w0) →
  agreed (data_channels (wa w0)) (data_channels (wb w0)) → agreed (data_channels (wb w0)) (data_channels (wa w0)) →
  la w0 = [] → lb w0 = [] →
  rtc (world_step pa pb) w0 w → volume (la w) < 2147483648 → volume (lb w) < 2147483648 →
  delivered (la w) (wa w) (wb w0) (wb w) ∧ delivered (lb w) (wb w) (wa w0) (wa w).
Proof.
  intros Ea Eb Hab Hba La Lb Hr Va Vb.
  destruct (reachable_linked _ _ _ _ _ _ Ea Eb Hab Hba La Lb Hr Va Vb) as (ca & cb & ha & hb & sva & svb & Hl).
  split; [by eapply linked_delivered|]. eapply linked_delivered; [|done]. by apply linked_sym.
Qed.

(** C28: In every reachable state of two established SCTP endpoints with the
    same reliable channels, in which the bytes plus the number of messages sent
    per direction are below 2^31, no packet that either has sent, with data,
    acknowledgements or heartbeats, is longer than 1200 bytes. *)
Theorem sctp_packet_size pa pb ta tb w0 w :
  established ta tb (wa w0) → established tb ta (wb w0) →
  agreed (data_channels (wa w0)) (data_channels (wb w0)) → agreed (data_channels (wb w0)) (data_channels (wa w0)) →
  la w0 = [] → lb w0 = [] →
  rtc (world_step pa pb) w0 w → volume (la w) < 2147483648 → volume (lb w) < 2147483648 →
  Forall (fun p => len p ≤ MAX_SCTP_PACKET_SIZE) (out (wa w) ++ out (wb w)).
Proof.
  intros Ea Eb Hab Hba La Lb Hr Va Vb.
  destruct (reachable_linked _ _ _ _ _ _ Ea Eb Hab Hba La Lb Hr Va Vb) as (ca & cb & ha & hb & sva & svb & _ & _ & Ha & Hb).
  apply Forall_app. split; [eapply Forall_impl; [by eapply out_packets|]|eapply Forall_impl; [by eapply out_packets|]];
    intros p Hp; apply Hp.
Qed.
End system.
