(* ===== verification/SctpSetup.v ===== *)
(** * Setting up an association

    The exchange of INIT, INIT ACK, COOKIE ECHO and COOKIE ACK between a client
    and a server, and what a late INIT does. *)
From S2P Require Import Prelude Core BytesCrate BTree Float64 StateRes RecordSet DataChannel SctpQueues Sctp SctpWire SctpRecv SctpSend SctpEnd SctpMessage SctpSystem.

(** What the application sees of a channel that both sides have negotiated *)
Definition opened (dc : DataChannel) : DataChannel := send_event EventOpen (dc <| dc_state := DcOpen |>).

Section setup.
Context `{BytesCrate, !BytesLaws}.

Definition chunk_packet (cfg : SctpConfig) (tag : Z) (c : Chunk) : list Z := packet_bytes cfg tag (chunk_bytes c ++ []).

Definition counted (p : list Z) (s : SctpInner) : SctpInner :=
  s <| stats ::= fun st => st <| stats_bytes_sent ::= fun n => uadd n (len p) |> <| stats_packets_sent ::= fun n => uadd n 1 |> |>
    <| out ::= fun l => l ++ [p] |>.
Definition counted_in (p : list Z) (s : SctpInner) : SctpInner :=
  s <| stats ::= fun st => st <| stats_bytes_received ::= fun n => uadd n (len p) |>
                              <| stats_packets_received ::= fun n => uadd n 1 |> |>.

Lemma send_chunk_eq cfg type_ flags value tag s :
  out_open s = true →
  send_chunk cfg type_ flags value tag s =
    (counted (chunk_packet cfg tag {| ch_type := type_; ch_flags := flags; ch_value := value |}) s, Ok tt).
Proof.
  intros Ho. unfold send_chunk, transmit_chunks_with_tag. cbn [length Nat.eqb batch_loop negb andb app].
  rewrite send_packet_eq, build_chunk_bytes. cbv zeta. cbn [concat].
  change (out_open (s <| stats ::= _ |>)) with (out_open s). by rewrite Ho.
Qed.

Lemma handle_chunk_packet hm rr cfg wall now cfg' tag c s :
  wf_chunk c →
  handle_packet hm rr cfg wall now (chunk_packet cfg' tag c) s =
    handle_chunk hm rr cfg wall now (ch_type c) (ch_flags c) (ch_value c) (counted_in (chunk_packet cfg' tag c) s).
Proof.
  intros Hw. pose proof (handle_packet_chunks hm rr cfg wall now tag cfg' [c] s) as Hp. cbn [fmap list_fmap concat for_each] in Hp.
  unfold chunk_packet. cbv zeta in Hp. rewrite Hp by (by constructor).
  unfold mbind, stM_bind. fold (counted_in (packet_bytes cfg' tag (chunk_bytes c ++ [])) s).
  by destruct (handle_chunk _ _ _ _ _ _ _ _) as [s' [[]|e|]].
Qed.

(** ** The parameters *)

Definition init_value (cfg : SctpConfig) (tag tsn : Z) (params : list Z) : list Z :=
  to_be 4 tag ++ to_be 4 (local_rwnd cfg) ++ to_be 2 10 ++ to_be 2 10 ++ to_be 4 tsn ++ params.
Definition extension_params : list Z := to_be 2 0xC000 ++ to_be 2 4 ++ to_be 2 0x8008 ++ to_be 2 5 ++ [0xC0] ++ [0; 0; 0].
Definition cookie_param (cookie : list Z) : list Z := to_be 2 7 ++ to_be 2 (4 + len cookie) ++ cookie.

Lemma init_prefix_bytes cfg tag tsn : init_prefix cfg tag tsn = init_value cfg tag tsn extension_params.
Proof.
  unfold init_prefix, init_value, extension_params. autorewrite with crate. rewrite <- !app_assoc. cbn [app].
  f_equal. f_equal. apply (to_be_mod 4).
Qed.

Lemma get_init_value cfg tag tsn params s :
  u32 tag → u32 tsn →
  get_init (init_value cfg tag tsn params) s =
    (s, Ok {| init_tag := tag; init_rwnd := as_u32 (local_rwnd cfg); init_tsn := tsn; init_rest := params |}).
Proof.
  intros Ht Hn. unfold get_init, init_value.
  erewrite get_bind by (rewrite get_u32_spec; by apply read_be_32). cbv beta iota.
  erewrite get_bind by (rewrite get_u32_spec; apply read_be_to_be). cbv beta iota.
  erewrite get_bind by (rewrite get_u16_spec; apply read_be_to_be). cbv beta iota.
  erewrite get_bind by (rewrite get_u16_spec; apply read_be_to_be). cbv beta iota.
  erewrite get_bind by (rewrite get_u32_spec; by apply read_be_32). cbv beta iota. done.
Qed.

(** One turn of the parameter loop *)
Lemma cookie_loop_param fuel ty v pad rest c :
  u16 ty → 4 + len v < 65536 → length pad = pad4 (4 + length v) →
  cookie_loop (S fuel) (to_be 2 ty ++ to_be 2 (4 + len v) ++ v ++ pad ++ rest) c =
    cookie_loop fuel rest (if ty =? 7 then Some v else c).
Proof.
  intros Ht Hv Hp. cbn [cookie_loop]. rewrite remaining_spec.
  rewrite (proj2 (Nat.ltb_ge _ _)) by (rewrite !length_app, !length_to_be; lia).
  rewrite get_u16_spec, read_be_16 by done. cbn [or_panic mbind res_bind].
  rewrite get_u16_spec, read_be_16 by (unfold len in *; ulia). cbn [or_panic mbind res_bind].
  replace (Z.to_nat (4 + len v)) with (4 + length v)%nat by (unfold len; lia). rewrite !remaining_spec.
  rewrite (proj2 (Nat.ltb_ge (4 + length v) 4)) by lia.
  rewrite (proj2 (Nat.ltb_ge _ _)) by (rewrite !length_app; lia). cbn [orb].
  rewrite split_to_spec, split_front_app by lia. cbn [or_panic mbind res_bind]. rewrite remaining_spec.
  rewrite (proj2 (Nat.leb_le _ _)) by (rewrite length_app; lia).
  rewrite advance_spec, split_front_app by done. done.
Qed.

Lemma cookie_loop_end fuel c : cookie_loop fuel [] c = Ok c.
Proof. destruct fuel; cbn [cookie_loop]; by rewrite remaining_spec. Qed.

(** The cookie of an INIT ACK is found. *)
Lemma cookie_found fuel cookie :
  length cookie = 28%nat → (3 ≤ fuel)%nat →
  cookie_loop fuel (extension_params ++ cookie_param cookie) None = Ok (Some cookie).
Proof.
  intros Hc Hf. destruct fuel as [|[|[|fuel]]]; [lia..|].
  change (extension_params ++ cookie_param cookie) with
    (to_be 2 0xC000 ++ to_be 2 (4 + len []) ++ [] ++ [] ++
     (to_be 2 0x8008 ++ to_be 2 (4 + len [0xC0]) ++ [0xC0] ++ [0; 0; 0] ++ cookie_param cookie)).
  rewrite cookie_loop_param by (try done; ulia). rewrite cookie_loop_param by (try done; ulia).
  change (0xC000 =? 7) with false. change (0x8008 =? 7) with false. cbv iota.
  unfold cookie_param. rewrite <- (app_nil_r cookie) at 2. rewrite <- (app_nil_r ([] : list Z)) at 1.
  rewrite (cookie_loop_param _ 7 cookie [] []); [apply cookie_loop_end|done|unfold len; rewrite Hc; lia|by rewrite Hc].
Qed.

(** ** Cookies *)

Lemma cookie_valid hm cfg w w' :
  0 ≤ w ≤ w' → w' ≤ w + COOKIE_LIFETIME_MS → w' < 2 ^ 64 → (∀ k d, length (hm k d) = 20%nat) →
  length (generate_cookie hm cfg (Some w)) = 28%nat ∧
  validate_cookie hm cfg (Some w') (generate_cookie hm cfg (Some w)) = true.
Proof.
  intros Hw Hl Hm Hh. unfold generate_cookie, validate_cookie, default.
  assert (length (to_be 8 w ++ hm (cookie_hmac_key cfg) (to_be 8 w)) = 28%nat) as E by (by rewrite length_app, length_to_be, Hh).
  split; [done|]. cbn [id]. rewrite E. cbn [Nat.eqb negb].
  rewrite take_app_length' by done. rewrite drop_app_length' by done.
  rewrite bool_decide_true by done. cbn [negb]. rewrite of_be_to_be_64 by (unfold u64; lia).
  rewrite (proj2 (Z.ltb_ge _ _)) by lia. rewrite (proj2 (Z.ltb_ge _ _)) by lia. done.
Qed.

(** ** The channels that wait are opened. *)

Lemma open_channels_eq cfg now l : ∀ pre s,
  Forall (fun dc => dc_negotiated dc = true) l → data_channels s = pre ++ l →
  for_each (seq (length pre) (length l)) (open_channel cfg now) s = (s <| data_channels := pre ++ (opened <$> l) |>, Ok tt).
Proof.
  induction l as [|dc l IH]; intros pre s Hn Hs.
  { cbn. change (fmap opened []) with ([] : list DataChannel). rewrite <- Hs. by destruct s. }
  apply Forall_cons in Hn as [Hdc Hn]. cbn [length seq for_each].
  set (s1 := s <| data_channels := pre ++ opened dc :: l |>).
  assert (open_channel cfg now (length pre) s = (s1, Ok tt)) as E.
  { unfold open_channel. rewrite (bind_eq get_st _ s s s eq_refl). rewrite Hs, list_lookup_middle, Hdc by done.
    unfold upd_channels, modify, s1. f_equal. unfold set. cbn. rewrite Hs. f_equal.
    rewrite <- (Nat.add_0_r (length pre)). by rewrite alter_app_r. }
  rewrite (bind_eq _ _ _ _ _ E). specialize (IH (pre ++ [opened dc]) s1 Hn). rewrite length_app, Nat.add_comm in IH. cbn [length Nat.add] in IH.
  rewrite IH by (unfold s1; rs; by rewrite <- app_assoc). unfold s1. rewrite <- app_assoc. by destruct s.
Qed.

Lemma connected_eq cfg now s :
  Forall (fun dc => dc_negotiated dc = true) (data_channels s) →
  connected cfg now s =
    (s <| assoc ::= set state (fun _ => Connected) |>
       <| tx ::= fun t => t <| advanced_peer_ack_tsn := wsub32 (next_tsn t) 1 |> |>
       <| data_channels := opened <$> filter (fun dc => dc_alive dc = true) (data_channels s) |>, Ok tt).
Proof.
  intros Hn. unfold connected. set (l := filter (fun dc => dc_alive dc = true) (data_channels s)).
  set (s1 := s <| assoc ::= set state (fun _ => Connected) |>
               <| tx ::= fun t => t <| advanced_peer_ack_tsn := wsub32 (next_tsn t) 1 |> |> <| data_channels := l |>).
  change ((upd_assoc (set state (fun _ => Connected));; _) s) with
    (for_each (seq 0 (length (data_channels s1))) (open_channel cfg now) s1).
  etransitivity; [apply (open_channels_eq cfg now l [] s1); [|done]|by destruct s].
  rewrite Forall_forall in *. intros dc [_ Hin]%list_elem_of_filter. auto.
Qed.

(** ** The four steps *)

Section steps.
Context (p : Party) (wall : option Z) (now : Z).
Abbreviation cfg := (p_config p).
Abbreviation handle_packet := (handle_packet (p_hmac p) (p_random p) cfg wall now).

(** The tag and the initial TSN that are drawn *)
Definition draw_tag (s : SctpInner) : Z := p_random p (draws s).
Definition draw_tsn (s : SctpInner) : Z := p_random p (S (draws s)).
Definition drawn (s : SctpInner) : SctpInner :=
  s <| draws ::= fun n => S (S n) |> <| assoc ::= set verification_tag (fun _ => draw_tag s) |>
    <| tx ::= set next_tsn (fun _ => draw_tsn s) |>.

Definition init_chunk (tag tsn : Z) : Chunk := {| ch_type := CT_INIT; ch_flags := 0;
  ch_value := init_value cfg tag tsn (extension_params ++ to_be 2 12 ++ to_be 2 6 ++ to_be 2 5 ++ to_be 2 0) |}.
Definition init_ack_chunk (tag tsn : Z) (cookie : list Z) : Chunk := {| ch_type := CT_INIT_ACK; ch_flags := 0;
  ch_value := init_value cfg tag tsn (extension_params ++ cookie_param cookie) |}.
Definition cookie_echo_chunk (cookie : list Z) : Chunk := {| ch_type := CT_COOKIE_ECHO; ch_flags := 0; ch_value := cookie |}.
Definition cookie_ack_chunk : Chunk := {| ch_type := CT_COOKIE_ACK; ch_flags := 0; ch_value := [] |}.

Definition t1_running (c : Chunk) (tag : Z) (s : SctpInner) : SctpInner :=
  s <| assoc ::= fun a => a <| t1_chunk := Some (ch_type c, ch_value c, tag) |> <| t1_failures := 0 |>
                            <| t1_sent_time := Some now |> <| t1_active := true |> |>.
Definition t1_stopped (s : SctpInner) : SctpInner :=
  s <| assoc ::= fun a => a <| t1_active := false |> <| t1_chunk := None |> <| t1_sent_time := None |> <| t1_failures := 0 |> |>.
Definition learned (tag rwnd tsn : Z) (s : SctpInner) : SctpInner :=
  s <| cc ::= fun c => c <| peer_rwnd := rwnd |> <| ssthresh := Z.max rwnd SSTHRESH_MIN |> |>
    <| assoc ::= set remote_verification_tag (fun _ => tag) |>
    <| rx ::= set cumulative_tsn_ack (fun _ => wsub32 tsn 1) |>.
Definition now_connected (s : SctpInner) : SctpInner :=
  s <| assoc ::= set state (fun _ => Connected) |>
    <| tx ::= fun t => t <| advanced_peer_ack_tsn := wsub32 (next_tsn t) 1 |> |>
    <| data_channels := opened <$> filter (fun dc => dc_alive dc = true) (data_channels s) |>.

Lemma send_init_eq s :
  out_open s = true →
  let c := init_chunk (draw_tag s) (draw_tsn s) in
  send_init (p_random p) cfg now s = (t1_running c 0 (counted (chunk_packet cfg 0 c) (drawn s)), Ok tt).
Proof.
  intros Ho c. unfold send_init.
  match goal with |- _ = ?r => change
    ((let v := put_u16 (put_u16 (put_u16 (put_u16 (init_prefix cfg (draw_tag s) (draw_tsn s)) 12) 6) 5) 0 in
      send_chunk cfg CT_INIT 0 v 0;; t1_start now CT_INIT v 0) (drawn s) = r) end. cbv zeta.
  rewrite init_prefix_bytes. autorewrite with crate. unfold init_value. rewrite <- !app_assoc.
  fold (init_value cfg (draw_tag s) (draw_tsn s) (extension_params ++ to_be 2 12 ++ to_be 2 6 ++ to_be 2 5 ++ to_be 2 0)).
  by rewrite (bind_eq _ _ _ _ _ (send_chunk_eq cfg CT_INIT 0 _ 0 (drawn s) Ho)).
Qed.

Lemma handle_init_eq cfg' tag tsn params s :
  u32 tag → u32 tsn → out_open s = true →
  let cookie := generate_cookie (p_hmac p) cfg wall in
  length cookie = 28%nat →
  let s1 := learned tag (as_u32 (local_rwnd cfg')) tsn s in
  handle_init (p_hmac p) (p_random p) cfg wall (init_value cfg' tag tsn params) s =
    (counted (chunk_packet cfg tag (init_ack_chunk (draw_tag s) (draw_tsn s) cookie)) (drawn s1), Ok tt).
Proof.
  intros Ht Hn Ho cookie Hl s1. unfold handle_init. rewrite remaining_spec.
  rewrite (proj2 (Nat.ltb_ge _ _)) by (unfold init_value; rewrite !length_app, !length_to_be; lia).
  rewrite (bind_eq _ _ _ _ _ (get_init_value cfg' tag tsn params s Ht Hn)).
  match goal with |- _ = ?r => change
    ((let b := put_u16 (init_prefix cfg (draw_tag s) (draw_tsn s)) 7 in
      let b := put_u16 b (as_u16 (4 + len cookie)) in
      let b := Nat.iter (pad4 (length cookie)) (fun b => put_u8 b 0) (put_slice b cookie) in
      send_chunk cfg CT_INIT_ACK 0 b tag) (drawn s1) = r) end. cbv zeta.
  rewrite init_prefix_bytes. autorewrite with crate. rewrite Hl. cbn [pad4 Nat.iter Nat.modulo Nat.sub].
  rewrite as_u16_to_be. unfold init_value. rewrite <- !app_assoc. change (to_be 2 7 ++ to_be 2 (4 + len cookie) ++ cookie) with (cookie_param cookie).
  fold (init_value cfg (draw_tag s) (draw_tsn s) (extension_params ++ cookie_param cookie)).
  by rewrite send_chunk_eq.
Qed.

Lemma handle_init_ack_eq cfg' tag tsn cookie s :
  u32 tag → u32 tsn → out_open s = true → length cookie = 28%nat →
  let c := cookie_echo_chunk cookie in
  handle_init_ack cfg now (init_value cfg' tag tsn (extension_params ++ cookie_param cookie)) s =
    (t1_running c tag (counted (chunk_packet cfg tag c) (learned tag (as_u32 (local_rwnd cfg')) tsn (t1_stopped s))), Ok tt).
Proof.
  intros Ht Hn Ho Hl c. unfold handle_init_ack. rewrite (bind_eq t1_cancel _ s (t1_stopped s) tt eq_refl). rewrite remaining_spec.
  rewrite (proj2 (Nat.ltb_ge _ _)) by (unfold init_value; rewrite !length_app, !length_to_be; lia).
  rewrite (bind_eq _ _ _ _ _ (get_init_value cfg' tag tsn _ _ Ht Hn)).
  set (s1 := learned tag (as_u32 (local_rwnd cfg')) tsn (t1_stopped s)).
  match goal with |- (learn_init ?q;; _) _ = _ => rewrite (bind_eq (learn_init q) _ (t1_stopped s) s1 tt eq_refl) end. cbn [init_rest].
  rewrite cookie_found by (try done; unfold init_value; rewrite !length_app, !length_to_be; lia).
  rewrite (bind_eq (lift _) _ s1 s1 _ eq_refl). rewrite (bind_eq get_st _ s1 s1 s1 eq_refl).
  change (remote_verification_tag (assoc s1)) with tag. by rewrite (bind_eq _ _ _ _ _ (send_chunk_eq cfg CT_COOKIE_ECHO 0 cookie tag s1 Ho)).
Qed.

Lemma handle_cookie_echo_eq cookie s :
  validate_cookie (p_hmac p) cfg wall cookie = true → out_open s = true →
  Forall (fun dc => dc_negotiated dc = true) (data_channels s) →
  handle_cookie_echo (p_hmac p) cfg wall now cookie s =
    (now_connected (counted (chunk_packet cfg (remote_verification_tag (assoc s)) cookie_ack_chunk) s), Ok tt).
Proof.
  intros Hv Ho Hn. unfold handle_cookie_echo. rewrite Hv. cbn [negb]. rewrite (bind_eq get_st _ s s s eq_refl).
  rewrite (bind_eq _ _ _ _ _ (send_chunk_eq cfg CT_COOKIE_ACK 0 [] _ s Ho)). by apply connected_eq.
Qed.

Lemma handle_cookie_ack_eq s :
  Forall (fun dc => dc_negotiated dc = true) (data_channels s) →
  handle_cookie_ack cfg now s = (now_connected (t1_stopped s), Ok tt).
Proof.
  intros Hn. unfold handle_cookie_ack. rewrite (bind_eq t1_cancel _ s (t1_stopped s) tt eq_refl). by apply connected_eq.
Qed.
End steps.

(** ** The exchange *)

Definition receive_packet (p : Party) (wall : option Z) (now : Z) : list Z → stM SctpInner stop unit :=
  handle_packet (p_hmac p) (p_random p) (p_config p) wall now.

(** The packets of the exchange are in [out]; DTLS takes them from there. *)
Definition taken (s : SctpInner) : SctpInner := s <| out := [] |>.

Record associated (a b : SctpInner) : Prop := {
  as_connected : state (assoc a) = Connected ∧ state (assoc b) = Connected;
  as_tags : remote_verification_tag (assoc a) = verification_tag (assoc b) ∧
            remote_verification_tag (assoc b) = verification_tag (assoc a);
  as_client : established (next_tsn (tx a)) (next_tsn (tx b)) (taken a);
  as_server : established (next_tsn (tx b)) (next_tsn (tx a)) (taken b);
}.

Lemma tsn_at_0 t : u32 t → tsn_at t 0 = t.
Proof. unfold tsn_at. ulia. Qed.

Lemma init_chunk_wf p tag tsn : wf_chunk (init_chunk p tag tsn).
Proof.
  split; [done|]. split; [done|]. unfold init_chunk, init_value, extension_params, len. cbn [ch_value].
  rewrite !length_app, !length_to_be. cbn. lia.
Qed.

Lemma init_ack_chunk_wf p tag tsn cookie : length cookie = 28%nat → wf_chunk (init_ack_chunk p tag tsn cookie).
Proof.
  intros Hc. split; [done|]. split; [done|]. unfold init_ack_chunk, init_value, extension_params, cookie_param, len. cbn [ch_value].
  rewrite !length_app, !length_to_be, Hc. cbn. lia.
Qed.

(** C9: A client and a server all of whose channels are negotiated ahead
    exchange INIT, INIT ACK, COOKIE ECHO and COOKIE ACK, delivered once each and
    within the lifetime of the cookie: both end connected, with matching tags
    and initial numbers, and their channels open. *)
Theorem sctp_handshake pa pb w1 w2 wall wall' n0 n1 n2 n3 n4 n5 chA chB :
  is_client (p_config pa) = true → is_client (p_config pb) = false →
  (∀ n, u32 (p_random pa n)) → (∀ n, u32 (p_random pb n)) → (∀ k d, length (p_hmac pb k d) = 20%nat) →
  0 ≤ w1 ≤ w2 → w2 ≤ w1 + COOKIE_LIFETIME_MS → w2 < 2 ^ 64 →
  Forall (fun dc => dc_negotiated dc = true) (chA ++ chB) →
  let a0 := SctpInner_new (p_config pa) n0 chA in
  let b0 := (loop_start (p_random pb) (p_config pb) n0 (SctpInner_new (p_config pb) n0 chB)).1 in
  ∃ a1 b1 a2 b2 a3 init init_ack cookie_echo cookie_ack,
    loop_start (p_random pa) (p_config pa) n1 a0 = (a1, Ok tt) ∧ out a1 = [init] ∧
    receive_packet pb (Some w1) n2 init b0 = (b1, Ok tt) ∧ out b1 = [init_ack] ∧
    receive_packet pa wall n3 init_ack a1 = (a2, Ok tt) ∧ out a2 = [init; cookie_echo] ∧
    receive_packet pb (Some w2) n4 cookie_echo b1 = (b2, Ok tt) ∧ out b2 = [init_ack; cookie_ack] ∧
    receive_packet pa wall' n5 cookie_ack a2 = (a3, Ok tt) ∧
    associated a3 b2 ∧
    data_channels a3 = opened <$> filter (fun dc => dc_alive dc = true) chA ∧
    data_channels b2 = opened <$> filter (fun dc => dc_alive dc = true) chB.
Proof.
  intros Ca Cb Ra Rb Hh Hw1 Hw2 Hw3 [Na Nb]%Forall_app. cbv zeta.
  replace ((loop_start (p_random pb) (p_config pb) n0 (SctpInner_new (p_config pb) n0 chB)).1) with
    (SctpInner_new (p_config pb) n0 chB <| assoc ::= set state (fun _ => Connecting) |>)
    by (unfold loop_start; by rewrite Cb).
  set (a0 := SctpInner_new (p_config pa) n0 chA). set (b0 := SctpInner_new _ _ _ <| assoc ::= _ |>).
  destruct (cookie_valid (p_hmac pb) (p_config pb) w1 w2 Hw1 Hw2 Hw3 Hh) as [Hlen Hvalid].
  set (cookie := generate_cookie (p_hmac pb) (p_config pb) (Some w1)) in *.
  set (ta := draw_tag pa a0). set (na := draw_tsn pa a0). set (tb := draw_tag pb b0). set (nb := draw_tsn pb b0).
  set (c1 := init_chunk pa ta na). set (p1 := chunk_packet (p_config pa) 0 c1).
  set (c2 := init_ack_chunk pb tb nb cookie). set (p2 := chunk_packet (p_config pb) ta c2).
  set (c3 := cookie_echo_chunk cookie). set (p3 := chunk_packet (p_config pa) tb c3).
  set (p4 := chunk_packet (p_config pb) ta cookie_ack_chunk).
  set (a1 := t1_running n1 c1 0 (counted p1 (drawn pa (a0 <| assoc ::= set state (fun _ => Connecting) |>)))).
  set (b1 := counted p2 (drawn pb (learned ta (as_u32 (local_rwnd (p_config pa))) na (counted_in p1 b0)))).
  set (a2 := t1_running n3 c3 tb (counted p3 (learned tb (as_u32 (local_rwnd (p_config pb))) nb (t1_stopped (counted_in p2 a1))))).
  set (b2 := now_connected (counted p4 (counted_in p3 b1))).
  exists a1, b1, a2, b2, (now_connected (t1_stopped (counted_in p4 a2))), p1, p2, p3, p4.
  split.
  { unfold loop_start. rewrite Ca. rewrite (bind_eq (set_state _) _ a0 (a0 <| assoc ::= set state (fun _ => Connecting) |>) tt eq_refl).
    unfold when, logged, try_catch. by rewrite send_init_eq. }
  split; [done|]. split.
  { unfold receive_packet, p1. rewrite handle_chunk_packet by apply init_chunk_wf. fold p1.
    change (handle_init (p_hmac pb) (p_random pb) (p_config pb) (Some w1)
      (init_value (p_config pa) ta na (extension_params ++ to_be 2 12 ++ to_be 2 6 ++ to_be 2 5 ++ to_be 2 0)) (counted_in p1 b0) = (b1, Ok tt)).
    by rewrite handle_init_eq by (done || apply Ra). }
  split; [done|]. split.
  { unfold receive_packet, p2. rewrite handle_chunk_packet by (by apply init_ack_chunk_wf). fold p2.
    change (handle_init_ack (p_config pa) n3 (init_value (p_config pb) tb nb (extension_params ++ cookie_param cookie)) (counted_in p2 a1) = (a2, Ok tt)).
    by rewrite handle_init_ack_eq by (done || apply Rb). }
  split; [done|]. split.
  { unfold receive_packet, p3. rewrite handle_chunk_packet by (split; [done|split; [done|cbn; unfold len; rewrite Hlen; lia]]). fold p3.
    change (handle_cookie_echo (p_hmac pb) (p_config pb) (Some w2) n4 cookie (counted_in p3 b1) = (b2, Ok tt)).
    by rewrite handle_cookie_echo_eq. }
  split; [done|]. split.
  { unfold receive_packet, p4. rewrite handle_chunk_packet by done. fold p4.
    change (handle_cookie_ack (p_config pa) n5 (counted_in p4 a2) = (now_connected (t1_stopped (counted_in p4 a2)), Ok tt)).
    by rewrite handle_cookie_ack_eq. }
  split; [|done]. split; [done..| |].
  - split; try done. change (na = tsn_at na 0). symmetry. apply tsn_at_0, Ra.
  - split; try done. change (nb = tsn_at nb 0). symmetry. apply tsn_at_0, Rb.
Qed.
End setup.
