(* ===== verification/SctpExample.v ===== *)
(** * A concrete association

    Two endpoints with one ordered channel, their handshake, and a message of
    three bytes that crosses in a packet delivered twice. *)
From stdpp Require Import relations.
From S2P Require Import Prelude Core BytesCrate BTree Float64 StateRes RecordSet DataChannel SctpQueues Sctp SctpWire SctpRecv SctpSend SctpEnd SctpMessage SctpSystem SctpSetup.

#[local] Instance crate : BytesCrate := vec_crate.
#[local] Instance laws : BytesLaws := vec_laws.

Definition ex_config (client : bool) : SctpConfig := {|
  local_port := 5000; remote_port := 5000; is_client := client; has_listener := true; cookie_hmac_key := [1];
  local_rwnd := 131072; max_association_retransmits := 20; heartbeat_interval := secs 15; max_tsn_retransmits := 8;
  max_burst_packets := 0; max_cwnd := 262144; max_buffered_amount := 262144; cfg_rto_initial := secs 3;
  cfg_rto_min := millis 200; cfg_rto_max := secs 60 |}.

(** A channel that both sides negotiated beforehand *)
Definition ex_channel : DataChannel := DataChannel_new 1 {|
  cfg_label := []; cfg_protocol := []; cfg_ordered := true; cfg_max_retransmits := None; cfg_max_packet_life_time := None;
  cfg_max_payload_size := None; cfg_negotiated := Some 1; cfg_buffered_amount_low_threshold := 0 |}.

Definition ex_client : Party :=
  {| p_hmac := fun _ _ => replicate 20 7; p_random := fun n => 1000 + Z.of_nat (n `min` 9); p_config := ex_config true |}.
Definition ex_server : Party :=
  {| p_hmac := fun _ _ => replicate 20 7; p_random := fun n => 4294967280 + Z.of_nat (n `min` 9); p_config := ex_config false |}.

Lemma sctp_handshake_witness :
  let b0 := (loop_start (p_random ex_server) (ex_config false) 0 (SctpInner_new (ex_config false) 0 [ex_channel])).1 in
  ∃ a b init, (loop_start (p_random ex_client) (ex_config true) 1 (SctpInner_new (ex_config true) 0 [ex_channel])).1.(out) = [init] ∧
    (receive_packet ex_server (Some 5) 2 init b0).2 = Ok tt ∧ associated a b ∧ data_channels b = [opened ex_channel].
Proof.
  destruct (sctp_handshake ex_client ex_server 5 6 None None 0 1 2 3 4 5 [ex_channel] [ex_channel])
    as (a1 & b1 & a2 & b2 & a3 & init & init_ack & cookie_echo & cookie_ack & E1 & O1 & E2 & O2 & E3 & O3 & E4 & O4 & E5 & Ha & Ca & Cb);
    [done|done|intros; cbn; ulia|intros; cbn; ulia|done|lia|done|lia|by repeat constructor|].
  exists a3, b2, init. cbn [p_config ex_client ex_server] in *. rewrite E1, E2. done.
Defined.

(** The endpoints after the handshake, once its packets have been taken *)
Definition ex_established (next cum : Z) : SctpInner :=
  let s := SctpInner_new (ex_config true) 0 [opened ex_channel] in
  s <| assoc ::= fun a => a <| state := Connected |> <| verification_tag := 1000 |> <| remote_verification_tag := 1000 |> |>
    <| tx ::= set next_tsn (fun _ => next) |> <| rx ::= set cumulative_tsn_ack (fun _ => cum) |>.
Definition ex_world : World :=
  {| wa := ex_established 1001 4294967280; la := []; wb := ex_established 4294967281 1000; lb := [] |}.

Definition ex_sent : SctpInner :=
  (send_data_raw (p_config ex_client) 0 1 DATA_CHANNEL_PPID_BINARY [1; 2; 3] (wa ex_world)).1.
Definition ex_world1 : World := {| wa := ex_sent; la := [(1, [1; 2; 3])]; wb := wb ex_world; lb := lb ex_world |}.
Definition ex_transmitted : SctpInner :=
  (loop_wake (p_hmac ex_client) (p_random ex_client) (p_config ex_client) None 0 0 Woken [] (wa ex_world1)).1.
Definition ex_packet : list Z := default [] (head (out ex_transmitted)).
Lemma ex_sending : send_data_raw (p_config ex_client) 0 1 DATA_CHANNEL_PPID_BINARY [1; 2; 3] (wa ex_world) = (ex_sent, Ok tt).
Proof.
  assert ((send_data_raw (p_config ex_client) 0 1 DATA_CHANNEL_PPID_BINARY [1; 2; 3] (wa ex_world)).2 = Ok tt) as E
    by (vm_compute; reflexivity).
  unfold ex_sent. destruct (send_data_raw _ _ _ _ _ _) as [s r]. cbn [fst snd] in *. by rewrite E.
Qed.

Definition ex_world2 : World := {| wa := ex_transmitted; la := la ex_world1; wb := wb ex_world1; lb := lb ex_world1 |}.
Definition ex_received : SctpInner :=
  (loop_wake (p_hmac ex_server) (p_random ex_server) (p_config ex_server) None 0 0 (Incoming (Some ex_packet)) [ex_packet] (wb ex_world2)).1.
Definition ex_world3 : World := {| wa := wa ex_world2; la := la ex_world2; wb := ex_received; lb := lb ex_world2 |}.

Lemma ex_step_send : party_step ex_client (out (wb ex_world)) (wa ex_world, la ex_world) (ex_sent, [(1, [1; 2; 3])]).
Proof.
  refine (party_send ex_client _ 0 1 DATA_CHANNEL_PPID_BINARY [1; 2; 3] _ ex_sent [] _ _ _ ex_sending); [done|done|by eexists].
Qed.

Lemma wake_step p network w batch s s' l :
  (loop_wake (p_hmac p) (p_random p) (p_config p) None 0 0 w batch s).1 = s' →
  (∀ packet, w = Incoming (Some packet) → packet ∈ network) → batch ⊆ network → party_step p network (s, l) (s', l).
Proof. intros <-. apply party_wake. Qed.

Lemma ex_step_transmit : party_step ex_client (out (wb ex_world1)) (wa ex_world1, la ex_world1) (ex_transmitted, la ex_world1).
Proof. apply (wake_step ex_client _ Woken [] _ _ _ eq_refl); [by intros packet [=]|set_solver]. Qed.

Lemma ex_step_receive : party_step ex_server (out (wa ex_world2)) (wb ex_world2, lb ex_world2) (ex_received, lb ex_world2).
Proof.
  assert (ex_packet ∈ out (wa ex_world2)) as Hp by (apply list_elem_of_lookup; exists 0%nat; vm_compute; reflexivity).
  apply (wake_step ex_server _ (Incoming (Some ex_packet)) [ex_packet] _ _ _ eq_refl).
  - intros packet [= <-]. exact Hp.
  - intros x ->%list_elem_of_singleton. exact Hp.
Qed.

Lemma ex_run : rtc (world_step ex_client ex_server) ex_world ex_world3.
Proof.
  eapply rtc_l; [exact (step_a _ _ ex_world _ _ ex_step_send)|].
  eapply rtc_l; [exact (step_a _ _ ex_world1 _ _ ex_step_transmit)|].
  apply rtc_once. exact (step_b _ _ ex_world2 _ _ ex_step_receive).
Qed.

Lemma ex_agreed : agreed [opened ex_channel] [opened ex_channel].
Proof.
  intros id dc Hf. assert (dc = opened ex_channel ∧ id = 1) as [-> ->].
  { unfold find_channel in Hf. cbn in Hf. destruct (is_channel id (opened ex_channel)) eqn:E; [|done]. injection Hf as <-.
    split; [done|]. apply andb_true_iff in E as [_ E%Z.eqb_eq]. by rewrite <- E. }
  split; [done|]. split; [done|]. split; [done|]. split; [done|]. split; [done|]. by exists (opened ex_channel).
Qed.

Lemma sctp_delivery_witness :
  delivered (la ex_world3) (wa ex_world3) (wb ex_world) (wb ex_world3) ∧
  inbox_of 1 ex_received = Some [[1; 2; 3]].
Proof.
  destruct (sctp_delivery ex_client ex_server 1001 4294967281 ex_world ex_world3 ltac:(by split) ltac:(by split) ex_agreed ex_agreed
    eq_refl eq_refl ex_run ltac:(done) ltac:(done)) as [Hd _].
  split; [exact Hd|vm_compute; reflexivity].
Defined.

Lemma sctp_packet_size_witness :
  Forall (fun p => len p ≤ MAX_SCTP_PACKET_SIZE) (out (wa ex_world3) ++ out (wb ex_world3)) ∧ ex_packet ∈ out (wa ex_world3).
Proof.
  split; [|apply list_elem_of_lookup; exists 0%nat; vm_compute; reflexivity].
  exact (sctp_packet_size ex_client ex_server 1001 4294967281 ex_world ex_world3 ltac:(by split) ltac:(by split) ex_agreed ex_agreed
    eq_refl eq_refl ex_run ltac:(done) ltac:(done)).
Defined.
