(* ===== verification/SctpFaults.v ===== *)
(** * What breaks an association

    An INIT that arrives again after the association is up, and chunks that are
    given up on a channel with limited retransmissions. *)
From S2P Require Import Prelude Core BytesCrate BTree Float64 StateRes RecordSet DataChannel SctpQueues Sctp SctpWire SctpRecv SctpSend SctpEnd SctpMessage SctpSystem SctpSetup SctpExample.

(** ** A receiver that waits for a chunk that does not come *)

Record stalled (tsn : Z) (dcs : list DataChannel) (s : SctpInner) : Prop := {
  st_cum : cumulative_tsn_ack (rx s) = wsub32 tsn 1;
  st_wf : bt_wf (received_queue (rx s));
  st_missing : bt_get tsn (received_queue (rx s)) = None;
  st_channels : data_channels s = dcs;
}.

Lemma wadd_wsub_32 n : u32 n → wadd32 (wsub32 n 1) 1 = n.
Proof.
  intros Hn. unfold wadd32, wsub32, as_u32. rewrite Zplus_mod_idemp_l. replace (n - 1 + 1) with n by lia.
  apply Z.mod_small. ulia.
Qed.

Lemma wsub_one_eq n m : u32 n → u32 m → wsub32 m (wsub32 n 1) = 1 → m = n.
Proof. intros Hn Hm. unfold wsub32, as_u32. rewrite Zminus_mod_idemp_r. intros E. ulia. Qed.

Section stall.
Context `{BytesCrate, !BytesLaws}.
Context (cfg : SctpConfig) (now : Z) (tsn : Z) (dcs : list DataChannel).
Context (Htsn : u32 tsn).

Lemma preserves_stalled (f : RxState → RxState) :
  (∀ r, cumulative_tsn_ack (f r) = cumulative_tsn_ack r ∧ received_queue (f r) = received_queue r) →
  preserves (stalled tsn dcs) (upd_rx f : stM SctpInner stop unit).
Proof.
  intros Hf. apply preserves_modify. intros s [H1 H2 H3 H4]. destruct (Hf (rx s)) as [E1 E2].
  split; [change (cumulative_tsn_ack (f (rx s)) = wsub32 tsn 1)|change (bt_wf (received_queue (f (rx s))))|
    change (bt_get tsn (received_queue (f (rx s))) = None)|done]; by rewrite ?E1, ?E2.
Qed.

Ltac schedule := unfold schedule_sack_immediate, schedule_sack_delayed;
  apply preserves_stalled; intros []; split; reflexivity.

Lemma queue_other_stalled n e s :
  n ≠ tsn → stalled tsn dcs s →
  stalled tsn dcs (s <| rx ::= fun r => r <| used_rwnd ::= fun k => uadd k (len e.2) |> <| received_queue ::= bt_insert n e |> |>).
Proof.
  intros Hne [H1 H2 H3 H4]. split; rs; [done|by apply bt_insert_wf| |done].
  rewrite bt_get_insert by done. by rewrite (proj2 (Z.eqb_neq _ _)).
Qed.

(** What the slow path does after the chunk is in the queue *)
Lemma drain_stalled :
  preserves (stalled tsn dcs) (s ← get_st;
    let '(to_process, q) := drain_received (length (received_queue (rx s)))
                              (wadd32 (cumulative_tsn_ack (rx s)) 1) (received_queue (rx s)) in
    upd_rx (set received_queue (fun _ => q));;
    for_each to_process (process_drained cfg now);;
    schedule_sack_immediate).
Proof.
  apply preserves_get_bind. intros s Hs. rewrite (st_cum _ _ _ Hs), wadd_wsub_32 by done.
  assert (drain_received (length (received_queue (rx s))) tsn (received_queue (rx s)) = ([], received_queue (rx s))) as ->.
  { destruct (length _); cbn [drain_received]; by rewrite (st_missing _ _ _ Hs). }
  rewrite (bind_eq _ _ s s tt) by (destruct s as [[]]; reflexivity). rewrite (bind_eq _ _ s s tt) by done.
  revert s Hs. schedule.
Qed.

(** No other chunk moves it, or reaches a channel. *)
Lemma handle_data_stalled flags value :
  bytes value → (∀ n rest, get_u32 value = Some (n, rest) → n ≠ tsn) →
  preserves (stalled tsn dcs) (handle_data cfg now flags value).
Proof.
  intros Hb Hne. unfold handle_data. destruct (_ <? 12)%nat; [apply preserves_ret|].
  apply preserves_lift_bind. intros [n rest] Hn. destruct (get_u32 value) as [[n' rest']|] eqn:Eg; [|done].
  injection Hn as -> ->. specialize (Hne n rest eq_refl).
  assert (u32 n) as Hu. { rewrite get_u32_spec in Eg. apply read_be_inv in Eg as (_ & _ & ?); [ulia|done]. }
  apply preserves_get_bind. intros s Hs. cbv zeta. rewrite (st_cum _ _ _ Hs).
  set (diff := wsub32 n (wsub32 tsn 1)). assert ((diff =? 1) = false) as ->.
  { apply Z.eqb_neq. intros E. by apply Hne, wsub_one_eq. }
  destruct (_ || _); cbn [andb].
  { revert s Hs. apply preserves_bind; [schedule|intros _; schedule]. }
  destruct (bt_get n (received_queue (rx s))) as [e|].
  - rewrite (bind_eq _ _ s s tt) by done. by apply drain_stalled.
  - rewrite (bind_eq (upd_rx _) _ s _ tt eq_refl). apply drain_stalled. by apply (queue_other_stalled n (flags, value)).
Qed.
End stall.

(** ** A repeated INIT *)

Section late_init.
Context `{BytesCrate, !BytesLaws}.

(** C39: An INIT that repeats the one that set the association up is answered
    with an INIT ACK in every state, which stays as it is; but the next number
    to send becomes a random one and the last number received the one before the
    first. If the first chunk is not among the received ones and does not come
    again, no DATA chunk that follows reaches a channel or is acknowledged
    cumulatively. *)
Theorem sctp_late_init p q wall now tag tsn vtag s :
  u32 tag → u32 tsn → out_open s = true → length (generate_cookie (p_hmac p) (p_config p) (Some wall)) = 28%nat →
  bt_wf (received_queue (rx s)) → bt_get tsn (received_queue (rx s)) = None →
  ∃ s', receive_packet p (Some wall) now (chunk_packet (p_config q) vtag (init_chunk q tag tsn)) s = (s', Ok tt) ∧
    out s' = out s ++ [chunk_packet (p_config p) tag (init_ack_chunk p (p_random p (draws s)) (p_random p (S (draws s)))
                         (generate_cookie (p_hmac p) (p_config p) (Some wall)))] ∧
    state (assoc s') = state (assoc s) ∧ next_tsn (tx s') = p_random p (S (draws s)) ∧
    outbound_queue (tx s') = outbound_queue (tx s) ∧ sent_queue (tx s') = sent_queue (tx s) ∧
    ∀ chunks : list (Z * list Z),
      Forall (fun chunk => bytes chunk.2 ∧ ∀ n rest, get_u32 chunk.2 = Some (n, rest) → n ≠ tsn) chunks →
      let s'' := (for_each chunks (fun chunk => handle_data (p_config p) now chunk.1 chunk.2) s').1 in
      cumulative_tsn_ack (rx s'') = wsub32 tsn 1 ∧ data_channels s'' = data_channels s.
Proof.
  intros Ht Hn Ho Hl Hw Hq. unfold receive_packet. rewrite handle_chunk_packet by apply init_chunk_wf.
  set (s0 := counted_in _ s). change (handle_chunk _ _ _ _ _ _ _ _ s0) with
    (handle_init (p_hmac p) (p_random p) (p_config p) (Some wall)
       (init_value (p_config q) tag tsn (extension_params ++ to_be 2 12 ++ to_be 2 6 ++ to_be 2 5 ++ to_be 2 0)) s0).
  rewrite handle_init_eq by done. eexists. split; [done|]. do 5 (split; [done|]).
  intros chunks Hc. match goal with |- context [for_each chunks ?f ?x] => set (s1 := x); set (g := f) end.
  assert (stalled tsn (data_channels s) (for_each chunks g s1).1) as [E1 _ _ E2]; [|done].
  apply (preserves_for_each (stalled tsn (data_channels s)) chunks g); [|by split].
  rewrite Forall_forall in Hc. intros chunk [Hb Hne]%Hc. by apply handle_data_stalled.
Qed.
End late_init.

(** ** Chunks that are given up *)

Lemma mark_abandoned_keys l q flight : (mark_abandoned l q flight).1.*1 = q.*1.
Proof.
  revert flight. induction q as [|[tsn r] q IH]; intros flight; [done|]. cbn [mark_abandoned].
  destruct (bool_decide _); match goal with |- context [mark_abandoned l q ?f] => specialize (IH f); destruct (mark_abandoned l q f) end;
    cbn in *; by rewrite IH.
Qed.

Lemma mark_abandoned_elem l q flight tsn r :
  (tsn, r) ∈ q → (cr_stream_id r, cr_ssn r) ∈ l →
  ∃ r', (tsn, r') ∈ (mark_abandoned l q flight).1 ∧ cr_abandoned r' = true ∧ cr_needs_retransmit r' = false.
Proof.
  intros Hq Hl. revert flight. induction q as [|[tsn' r'] q IH]; intros flight; [by apply not_elem_of_nil in Hq|].
  cbn [mark_abandoned]. apply elem_of_cons in Hq as [[= <- <-]|Hq].
  - rewrite bool_decide_true by done. destruct (mark_abandoned l q _) as [q' f']. cbn. eexists. split; [left|done].
  - specialize (IH Hq). destruct (bool_decide _);
      match goal with |- context [mark_abandoned l q ?f] => destruct (IH f) as (r2 & H1 & H2); destruct (mark_abandoned l q f) end;
      exists r2; (split; [right; exact H1|done]).
Qed.

(** The point stays when the chunk after it is not in the queue. *)
Lemma advance_point_stuck q point h : wadd32 point 1 ∉ q.*1 → advance_point q point h = (point, h).
Proof.
  induction q as [|[tsn r] q IH]; intros Hq; [done|]. cbn [fmap list_fmap fst] in Hq. apply not_elem_of_cons in Hq as [H1 H2].
  cbn [advance_point]. rewrite (proj2 (Z.eqb_neq _ _)) by done. cbn [negb andb]. rewrite andb_true_r.
  destruct (negb _); [by apply IH|done].
Qed.

(** A chunk for which nothing is left to do: acknowledged or given up, and not
    marked for retransmission *)
Definition settled (r : ChunkRecord) : Prop := (cr_acked r || cr_abandoned r) = true ∧ cr_needs_retransmit r = false.

Lemma mark_abandoned_settled l q : ∀ flight,
  Forall (fun r => settled r ∨ (cr_stream_id r, cr_ssn r) ∈ l) q.*2 → Forall settled (mark_abandoned l q flight).1.*2.
Proof.
  induction q as [|[tsn r] q IH]; intros flight Hq; [constructor|]. apply Forall_cons in Hq as [Hr Hq]. cbn [mark_abandoned fst snd] in *.
  case_bool_decide as Hl; match goal with |- context [mark_abandoned l q ?f] => specialize (IH f Hq); destruct (mark_abandoned l q f) end;
    (constructor; [|exact IH]).
  - split; [apply orb_true_r|done].
  - by destruct Hr.
Qed.

Lemma mark_abandoned_nil q flight : mark_abandoned [] q flight = (q, flight).
Proof.
  revert flight. induction q as [|[tsn r] q IH]; intros flight; [done|]. cbn [mark_abandoned].
  rewrite bool_decide_false by apply not_elem_of_nil. by rewrite IH.
Qed.

Lemma retransmit_settled now q : ∀ flight, Forall settled q.*2 → retransmit_phase now q flight = (q, flight, []).
Proof.
  induction q as [|[tsn r] q IH]; intros flight Hq; [done|]. apply Forall_cons in Hq as [[_ Hr] Hq]. cbn [retransmit_phase fst snd] in *.
  by rewrite Hr, IH.
Qed.

Lemma settled_none now (q : SentQueue) : Forall settled q.*2 →
  filter (fun r => (negb (cr_acked r || cr_abandoned r) && should_abandon now r) = true) q.*2 = [].
Proof.
  induction 1 as [|r l [Hr _] _ IH]; [done|]. rewrite filter_cons_False; [done|]. by rewrite Hr.
Qed.

(** ** An association that has nothing to say any more *)
Record silent (q : SentQueue) (o : list (list Z)) (s : SctpInner) : Prop := {
  si_queue : sent_queue (tx s) = q;
  si_out : out s = o;
  si_outbound : outbound_queue (tx s) = [];
  si_sack : sack_needed (rx s) = false;
  si_pending : forward_tsn_pending (tx s) = false;
  si_settled : Forall settled q.*2;
  si_point : wadd32 (advanced_peer_ack_tsn (tx s)) 1 ∉ q.*1;
  si_cum : wadd32 (cumulative_tsn_ack (rx s)) 1 ∉ q.*1;
}.

Section forward.
Context `{BytesCrate}.
Context (cfg : SctpConfig).

Lemma update_point_stuck now s :
  let l := (fun r => (cr_stream_id r, cr_ssn r)) <$>
    filter (fun r => (negb (cr_acked r || cr_abandoned r) && should_abandon now r) = true) (sent_queue (tx s)).*2 in
  let m := mark_abandoned l (sent_queue (tx s)) (flight_size (tx s)) in
  wadd32 (advanced_peer_ack_tsn (tx s)) 1 ∉ (sent_queue (tx s)).*1 →
  wadd32 (cumulative_tsn_ack (rx s)) 1 ∉ (sent_queue (tx s)).*1 →
  update_advanced_peer_ack_point now s = (s <| tx ::= fun t => t <| sent_queue := m.1 |> <| flight_size := m.2 |> |>, Ok tt : res stop unit).
Proof.
  intros l m Ha Hc. unfold update_advanced_peer_ack_point. rewrite (bind_eq get_st _ s s s eq_refl). fold l. fold m.
  pose proof (mark_abandoned_keys l (sent_queue (tx s)) (flight_size (tx s))) as Hk. fold m in Hk.
  destruct m as [q flight] eqn:Em. cbn [fst snd] in *. erewrite (bind_eq (upd_tx _)) by reflexivity. rewrite <- Hk in Ha, Hc.
  rewrite advance_point_stuck by (by destruct (tsn_gt _ _)). done.
Qed.

Lemma forward_stuck now s :
  forward_tsn_pending (tx s) = false →
  wadd32 (advanced_peer_ack_tsn (tx s)) 1 ∉ (sent_queue (tx s)).*1 →
  wadd32 (cumulative_tsn_ack (rx s)) 1 ∉ (sent_queue (tx s)).*1 →
  ∃ s1, update_advanced_peer_ack_point now s = (s1, Ok tt) ∧
    transmit_forward_tsn now s = (if has_pr_sctp (tx s) then s1 <| tx ::= set forward_tsn_pending (fun _ => false) |> else s, Ok [] : res stop (list (list Z))).
Proof.
  intros Hf Ha Hc. eexists. split; [by apply update_point_stuck|]. unfold transmit_forward_tsn. rewrite (bind_eq get_st _ s s s eq_refl).
  destruct (has_pr_sctp (tx s)); [|done]. rewrite (bind_eq _ _ _ _ _ (update_point_stuck now s Ha Hc)).
  set (s1 := s <| tx ::= _ |>). rewrite (bind_eq get_st _ s1 s1 s1 eq_refl).
  change (forward_tsn_pending (tx s1)) with (forward_tsn_pending (tx s)). by rewrite Hf.
Qed.

Lemma take_sack_silent q o : yields (silent q o) (take_sack cfg : stM SctpInner stop _) (fun l => l = []).
Proof.
  intros s Hs. unfold take_sack. rewrite (bind_eq get_st _ s s s eq_refl), (si_sack _ _ _ Hs). split; [done|]. by intros ? [= <-].
Qed.

Lemma upd_cc_silent q o f : preserves (silent q o) (upd_cc f : stM SctpInner stop unit).
Proof. apply preserves_modify. intros s []. by split. Qed.
Lemma upd_tx_silent q o f s :
  sent_queue (f (tx s)) = q → outbound_queue (f (tx s)) = [] → forward_tsn_pending (f (tx s)) = forward_tsn_pending (tx s) →
  advanced_peer_ack_tsn (f (tx s)) = advanced_peer_ack_tsn (tx s) → silent q o s → silent q o (s <| tx ::= f |>).
Proof. intros E1 E2 E3 E4 []. split; rs; congruence. Qed.

Lemma retransmissions_silent now q o : yields (silent q o) (transmit_retransmissions now : stM SctpInner stop _) (fun l => l = []).
Proof.
  intros s Hs. unfold transmit_retransmissions. rewrite (bind_eq get_st _ s s s eq_refl).
  rewrite (si_queue _ _ _ Hs), retransmit_settled by apply Hs. erewrite (bind_eq (upd_tx _)) by reflexivity.
  split; [|by intros ? [= <-]]. by apply upd_tx_silent; try apply Hs.
Qed.

Lemma new_silent now window q o : yields (silent q o) (transmit_new now window : stM SctpInner stop _) (fun l => l = []).
Proof.
  intros s Hs. unfold transmit_new. rewrite (bind_eq get_st _ s s s eq_refl), (si_outbound _ _ _ Hs). cbn [take_batch].
  erewrite (bind_eq (upd_cc _)) by reflexivity. cbn [send_batch]. erewrite (bind_eq (upd_tx _)) by reflexivity.
  split; [|by intros ? [= <-]]. eapply upd_tx_silent; try apply Hs; try done. by apply upd_cc_silent.
Qed.

Lemma forward_silent now q o : yields (silent q o) (transmit_forward_tsn now : stM SctpInner stop _) (fun l => l = []).
Proof.
  intros s Hs. pose proof Hs as [Hq _ Ho _ Hp Hset Ha Hc]. rewrite <- Hq in Ha, Hc, Hset.
  destruct (forward_stuck now s Hp Ha Hc) as (s1 & E1 & ->). split; [|by intros ? [= <-]]. cbn [fst]. destruct (has_pr_sctp (tx s)); [|done].
  rewrite update_point_stuck, settled_none, mark_abandoned_nil in E1 by done. injection E1 as <-.
  apply upd_tx_silent; rs; try done. by apply upd_tx_silent.
Qed.

Lemma transmit_silent now q o : preserves (silent q o) (transmit cfg now : stM SctpInner stop unit).
Proof.
  unfold transmit. eapply yields_bind_preserves; [apply take_sack_silent|]. intros ? ->. apply preserves_bind; [apply preserves_get|]. intros s.
  eapply yields_bind_preserves; [apply retransmissions_silent|]. intros ? ->. eapply yields_bind_preserves; [apply new_silent|]. intros ? ->.
  eapply yields_bind_preserves; [apply forward_silent|]. intros ? ->. apply preserves_ret.
Qed.

Lemma timeout_silent now q o : preserves (silent q o) (handle_timeout cfg now : stM SctpInner stop unit).
Proof.
  unfold handle_timeout. apply preserves_get_bind. intros s Hs.
  assert (∀ d, t3_expired now (sent_queue (tx s)) d = false) as Ht.
  { intros d. rewrite (si_queue _ _ _ Hs). destruct Hs as [_ _ _ _ _ Hset _ _]. clear -Hset. unfold t3_expired.
    induction q as [|[tsn r] q IH]; [done|]. apply Forall_cons in Hset as [[Hr _] Hq]. cbn [existsb fst snd] in *.
    rewrite IH by done. destruct (cr_acked r), (cr_abandoned r); done. }
  unfold mbind, stM_bind, lift. destruct (from_secs_f64 _) as [d| |]; [|done..]. rewrite Ht. cbn [negb]. by rewrite orb_true_r.
Qed.

Lemma probe_silent now q o : preserves (silent q o) (maybe_send_tlp_probe now : stM SctpInner stop bool).
Proof.
  unfold maybe_send_tlp_probe. apply preserves_get_bind. intros s Hs. destruct (tlp_probe_sent (cc s)); [done|].
  assert (probe_tail (sent_queue (tx s)) = None) as ->; [|done]. rewrite (si_queue _ _ _ Hs). destruct Hs as [_ _ _ _ _ Hset _ _].
  unfold probe_tail. clear -Hset. assert (filter (fun kv : Z * ChunkRecord => (negb (cr_acked kv.2) && negb (cr_abandoned kv.2)) = true) q = []) as ->; [|done].
  induction q as [|[tsn r] q IH]; [done|]. apply Forall_cons in Hset as [[Hr _] Hq]. cbn [fst snd] in *.
  rewrite filter_cons_False; [by apply IH|]. cbn. destruct (cr_acked r), (cr_abandoned r); done.
Qed.

(** What the sender does of its own accord, at any instants *)
Inductive timer := Transmits | T3Fires | Probes.
Definition run_timer (s : SctpInner) (e : Z * timer) : SctpInner :=
  match e.2 with
  | Transmits => (transmit cfg e.1 s).1
  | T3Fires => (handle_timeout cfg e.1 s).1
  | Probes => (maybe_send_tlp_probe e.1 s).1
  end.

Lemma timers_silent q o events : ∀ s, silent q o s → silent q o (fold_left run_timer events s).
Proof.
  induction events as [|[now []] events IH]; intros s Hs; [done|..]; cbn [fold_left]; apply IH; cbn.
  - by apply transmit_silent.
  - by apply timeout_silent.
  - by apply probe_silent.
Qed.

(** C40: When neither the number after the advanced acknowledgement point nor
    the one after the last number received from the peer is in the queue of sent
    chunks, a transmission marks the chunks whose retransmissions or time are
    used up as abandoned and produces no FORWARD TSN, since the point is
    compared with the numbers received from the peer. If no other chunk is
    outstanding and nothing else is due, then nothing is sent any more, whatever
    transmissions, T3 timeouts and tail loss probes follow: the chunks stay in
    the queue, neither sent again nor skipped. *)
Theorem sctp_forward_tsn_missing now s :
  has_pr_sctp (tx s) = true → forward_tsn_pending (tx s) = false →
  wadd32 (advanced_peer_ack_tsn (tx s)) 1 ∉ (sent_queue (tx s)).*1 →
  wadd32 (cumulative_tsn_ack (rx s)) 1 ∉ (sent_queue (tx s)).*1 →
  ∃ s', transmit_forward_tsn now s = (s', Ok []) ∧
    (sent_queue (tx s')).*1 = (sent_queue (tx s)).*1 ∧
    advanced_peer_ack_tsn (tx s') = advanced_peer_ack_tsn (tx s) ∧ forward_tsn_pending (tx s') = false ∧
    (∀ tsn r, (tsn, r) ∈ sent_queue (tx s) → cr_acked r = false → cr_abandoned r = false → should_abandon now r = true →
      ∃ r', (tsn, r') ∈ sent_queue (tx s') ∧ cr_abandoned r' = true ∧ cr_needs_retransmit r' = false) ∧
    (outbound_queue (tx s) = [] → sack_needed (rx s) = false →
     Forall (fun r => settled r ∨ cr_acked r = false ∧ cr_abandoned r = false ∧ should_abandon now r = true) (sent_queue (tx s)).*2 →
     ∀ events, let s'' := fold_left run_timer events s' in
       out s'' = out s ∧ sent_queue (tx s'') = sent_queue (tx s')).
Proof.
  intros Hp Hf Ha Hc. destruct (forward_stuck now s Hf Ha Hc) as (s1 & E1 & E2). rewrite update_point_stuck in E1 by done. rewrite Hp in E2.
  set (l := (fun r => (cr_stream_id r, cr_ssn r)) <$>
    filter (fun r => (negb (cr_acked r || cr_abandoned r) && should_abandon now r) = true) (sent_queue (tx s)).*2) in *.
  set (m := mark_abandoned l (sent_queue (tx s)) (flight_size (tx s))) in *. injection E1 as <-.
  assert (m.1.*1 = (sent_queue (tx s)).*1) as Hk by apply mark_abandoned_keys.
  assert (∀ r, r ∈ (sent_queue (tx s)).*2 → cr_acked r = false → cr_abandoned r = false → should_abandon now r = true → (cr_stream_id r, cr_ssn r) ∈ l) as Hl.
  { intros r Hr H1 H2 H3. apply list_elem_of_fmap. exists r. split; [done|]. apply list_elem_of_filter. by rewrite H1, H2, H3. }
  eexists. split; [exact E2|]. split; [exact Hk|]. split; [done|]. split; [done|]. split.
  - intros tsn r Hin H1 H2 H3. apply (mark_abandoned_elem l (sent_queue (tx s)) (flight_size (tx s)) tsn r); [done|].
    apply Hl; try done. apply list_elem_of_fmap. by exists (tsn, r).
  - intros Ho Hs Hall events. match goal with |- context [fold_left run_timer events ?x] => set (s2 := x) end.
    assert (silent m.1 (out s) s2) as Hsil; [|by destruct (timers_silent m.1 (out s) events s2 Hsil)].
    split; try done; [|by rewrite Hk..]. apply mark_abandoned_settled. rewrite Forall_forall in *. intros r Hr.
    destruct (Hall r Hr) as [?|(H1 & H2 & H3)]; [by left|right; by apply Hl].
Qed.
End forward.

#[local] Instance crate : BytesCrate := vec_crate.
#[local] Instance laws : BytesLaws := vec_laws.

(** The server of the example when the client's INIT arrives again, after the
    message of the client *)
Lemma sctp_late_init_witness :
  ∃ s', receive_packet ex_server (Some 7) 9 (chunk_packet (ex_config true) 0 (init_chunk ex_client 1000 1001)) ex_received = (s', Ok tt) ∧
    state (assoc s') = Connected ∧ cumulative_tsn_ack (rx ex_received) = 1001 ∧
    cumulative_tsn_ack (rx (for_each [(3, ch_value (data_chunk {| oc_stream_id := 1; oc_ppid := 53; oc_payload := [4; 5];
        oc_flags := 3; oc_ssn := 1; oc_max_retransmits := None; oc_expiry := None |} 1002))]
      (fun chunk => handle_data (ex_config false) 9 chunk.1 chunk.2) s').1) = 1000.
Proof.
  assert (state (assoc ex_received) = Connected ∧ cumulative_tsn_ack (rx ex_received) = 1001 ∧ received_queue (rx ex_received) = [] ∧
    out_open ex_received = true) as (Es & Ec & Eq & Eo) by (vm_compute; done).
  destruct (sctp_late_init ex_server ex_client 7 9 1000 1001 0 ex_received) as (s' & E1 & _ & E2 & _ & _ & _ & E3);
    [ulia|ulia|exact Eo|reflexivity|rewrite Eq; constructor|by rewrite Eq|].
  exists s'. split; [exact E1|]. split; [by rewrite E2|]. split; [exact Ec|]. apply E3.
  apply Forall_singleton. split; [by repeat constructor|]. intros n rest En. vm_compute in En. by injection En as <- <-.
Defined.

(** A chunk that may not be retransmitted is given up after it was sent, and
    the chunk before it is acknowledged. *)
Definition ex_given_up : SctpInner :=
  let record := {| cr_payload := [1; 2; 3]; cr_sent_time := 0; cr_transmit_count := 1; cr_missing_reports := 0;
    cr_abandoned := false; cr_fast_retransmit := false; cr_needs_retransmit := false; cr_fast_retransmit_time := None;
    cr_in_flight := true; cr_acked := false; cr_stream_id := 1; cr_ssn := 0; cr_flags := 7;
    cr_max_retransmits := Some 0; cr_expiry := None |} in
  ex_established 1003 4294967280 <| tx ::= fun t => t <| has_pr_sctp := true |> <| advanced_peer_ack_tsn := 1000 |>
    <| sent_queue := [(1002, record)] |> <| flight_size := 3 |> |>.

(** The chunk is given up and, whatever timers fire, nothing is sent. *)
Lemma sctp_forward_tsn_missing_witness :
  ∃ s', transmit_forward_tsn 1 ex_given_up = (s', Ok []) ∧ (sent_queue (tx s')).*1 = [1002] ∧
    (∃ r, (1002, r) ∈ sent_queue (tx s') ∧ cr_abandoned r = true ∧ cr_needs_retransmit r = false) ∧
    ∀ events, out (fold_left (run_timer (ex_config true)) events s') = out ex_given_up.
Proof.
  destruct (sctp_forward_tsn_missing (ex_config true) 1 ex_given_up) as (s' & E1 & E2 & _ & _ & E3 & E4);
    [done|done|apply not_elem_of_cons; split; [done|apply not_elem_of_nil]..|].
  exists s'. split; [exact E1|]. split; [exact E2|]. split; [eapply E3; [left|done..]|].
  intros events. apply E4; [done|done|]. apply Forall_singleton. by right.
Defined.
