(* ===== verification/Sdp.v ===== *)
(** * Session descriptions

    [sdp.rs]: the description with its session and media sections, its parser
    and printer, and the values of the attributes that other parts read.
    Strings are lists of code points; [write!] into a [String] does not fail. *)
From S2P Require Import Prelude Str Words RecordSet Rtx.

Definition SDES_MID_URI : str := lit "urn:ietf:params:rtp-hdrext:sdes:mid".
Definition ABS_SEND_TIME_URI : str := lit "http://www.webrtc.org/experiments/rtp-hdrext/abs-send-time".
Definition TRANSPORT_CC_URI : str := lit "http://www.ietf.org/id/draft-holmer-rmcat-transport-wide-cc-extensions-01".

Inductive SdpError := MissingLine (line : str) | Unsupported (what : str) | Parse (what : str).

Inductive SdpType := Offer | Answer | Pranswer | Rollback.
#[export] Instance SdpType_eq_dec : EqDecision SdpType.
Proof. solve_decision. Defined.
Definition SdpType_as_str (t : SdpType) : str :=
  match t with
  | Offer => lit "offer" | Answer => lit "answer" | Pranswer => lit "pranswer" | Rollback => lit "rollback"
  end.

(** ** Small values *)

Inductive NetworkType := Internet.
Definition NetworkType_as_str (_ : NetworkType) : str := lit "IN".
Definition NetworkType_from_str (value : str) : res SdpError NetworkType :=
  if bool_decide (value = lit "IN") || bool_decide (value = lit "in") then Ok Internet
  else Err (Unsupported (lit "network type " ++ value)).

Inductive AddressType := Ipv4 | Ipv6.
#[export] Instance AddressType_eq_dec : EqDecision AddressType.
Proof. solve_decision. Defined.
Definition AddressType_as_str (t : AddressType) : str :=
  match t with Ipv4 => lit "IP4" | Ipv6 => lit "IP6" end.
Definition AddressType_from_str `{Unicode} (value : str) : res SdpError AddressType :=
  let value := to_uppercase value in
  if bool_decide (value = lit "IP4") then Ok Ipv4 else
  if bool_decide (value = lit "IP6") then Ok Ipv6 else
  Err (Unsupported (lit "address type " ++ value)).

Inductive MediaKind := Audio | Video | Application | Image.
#[export] Instance MediaKind_eq_dec : EqDecision MediaKind.
Proof. solve_decision. Defined.
Definition MediaKind_as_str (k : MediaKind) : str :=
  match k with
  | Audio => lit "audio" | Video => lit "video" | Application => lit "application" | Image => lit "image"
  end.
Definition MediaKind_from_str (value : str) : res SdpError MediaKind :=
  if bool_decide (value = lit "audio") then Ok Audio else
  if bool_decide (value = lit "video") then Ok Video else
  if bool_decide (value = lit "application") then Ok Application else
  if bool_decide (value = lit "image") then Ok Image else
  Err (Unsupported (lit "media kind " ++ value)).

Inductive Direction := SendRecv | SendOnly | RecvOnly | Inactive.
#[export] Instance Direction_eq_dec : EqDecision Direction.
Proof. solve_decision. Defined.
Definition Direction_as_str (d : Direction) : str :=
  match d with
  | SendRecv => lit "sendrecv" | SendOnly => lit "sendonly" | RecvOnly => lit "recvonly" | Inactive => lit "inactive"
  end.
Definition Direction_from_attribute (key : str) : option Direction :=
  if bool_decide (key = lit "sendrecv") then Some SendRecv else
  if bool_decide (key = lit "sendonly") then Some SendOnly else
  if bool_decide (key = lit "recvonly") then Some RecvOnly else
  if bool_decide (key = lit "inactive") then Some Inactive else None.

(** ** Attributes *)

Definition Attribute_new (k : str) (v : option str) : Attribute := {| key := k; value := v |}.

(** [line.find(':')] and the two slices around it *)
Definition Attribute_from_line (line : str) : Attribute :=
  match split_once 58 line with
  | Some (k, v) => Attribute_new k (Some v)
  | None => Attribute_new line None
  end.

Definition CRLF : str := [13; 10].
Definition Attribute_write_line (a : Attribute) : str :=
  match value a with
  | Some v => lit "a=" ++ key a ++ lit ":" ++ v ++ CRLF
  | None => lit "a=" ++ key a ++ CRLF
  end.

Record Simulcast := { sim_send : list str; sim_recv : list str }.

Inductive sim_dir := NoDir | SendDir | RecvDir.
Fixpoint simulcast_parts (parts : list str) (dir : sim_dir) (s : Simulcast) : Simulcast :=
  match parts with
  | [] => s
  | part :: parts =>
      if bool_decide (part = lit "send") then simulcast_parts parts SendDir s else
      if bool_decide (part = lit "recv") then simulcast_parts parts RecvDir s else
      simulcast_parts parts dir
        match dir with
        | SendDir => {| sim_send := sim_send s ++ split_char 59 part; sim_recv := sim_recv s |}
        | RecvDir => {| sim_send := sim_send s; sim_recv := sim_recv s ++ split_char 59 part |}
        | NoDir => s
        end
  end.
Definition Simulcast_parse (value : str) : option Simulcast :=
  let s := simulcast_parts (split_whitespace value) NoDir {| sim_send := []; sim_recv := [] |} in
  if (length (sim_send s) =? 0)%nat && (length (sim_recv s) =? 0)%nat then None else Some s.

Record Rid := { rid_id : str; rid_direction : Direction; rid_params : list (str * str) }.
Definition Rid_parse (value : str) : option Rid :=
  match split_whitespace value with
  | id :: direction_str :: rest =>
      direction ← Direction_from_attribute direction_str;
      let params := match rest with
                    | params_str :: _ =>
                        (fun p => match split_once 61 p with Some kv => kv | None => (p, []) end) <$> split_char 59 params_str
                    | [] => []
                    end in
      Some {| rid_id := id; rid_direction := direction; rid_params := params |}
  | _ => None
  end.

Record CryptoAttribute := {
  crypto_tag : Z; crypto_suite : str; crypto_key_params : str; crypto_session_params : option str;
}.
Definition CryptoAttribute_parse (value : str) : option CryptoAttribute :=
  match split_whitespace value with
  | tag :: rest =>
      tag ← parse_uint 65536 tag;
      match rest with
      | suite :: key_params :: rest =>
          let session_params := join (lit " ") rest in
          Some {| crypto_tag := tag; crypto_suite := suite; crypto_key_params := key_params;
                  crypto_session_params := if (length session_params =? 0)%nat then None else Some session_params |}
      | _ => None
      end
  | [] => None
  end.

(** ** Fingerprints *)

Record SdpFingerprint := { fp_algorithm : str; fp_value : str }.
#[export] Instance SdpFingerprint_eq_dec : EqDecision SdpFingerprint.
Proof. solve_decision. Defined.

(** [chunks(2)], joined with colons *)
Fixpoint colon_pairs (s : str) : list str :=
  match s with
  | a :: b :: r => [a; b] :: colon_pairs r
  | [a] => [[a]]
  | [] => []
  end.

Definition normalize_fingerprint_value (value : str) : res SdpError str :=
  let normalized := to_ascii_uppercase (filter (fun c => negb (is_ascii_whitespace c) && negb (c =? 58) = true) value) in
  if (length normalized =? 0)%nat || negb (str_len normalized mod 2 =? 0) then
    Err (Parse (lit "fingerprint hex length is invalid")) else
  if negb (forallb is_ascii_hexdigit normalized) then Err (Parse (lit "fingerprint contains non-hex characters")) else
  Ok (join (lit ":") (colon_pairs normalized)).

Definition SdpFingerprint_parse (value : str) : res SdpError SdpFingerprint :=
  match split_whitespace value with
  | [] => Err (Parse (lit "fingerprint missing algorithm"))
  | [_] => Err (Parse (lit "fingerprint missing value"))
  | [algorithm; value] =>
      v ← normalize_fingerprint_value value;
      Ok {| fp_algorithm := to_ascii_lowercase algorithm; fp_value := v |}
  | _ => Err (Parse (lit "fingerprint has unexpected trailing data"))
  end.

Definition collect_dtls_fingerprint (attr : Attribute) (current : option SdpFingerprint)
    : res SdpError (option SdpFingerprint) :=
  if negb (bool_decide (key attr = lit "fingerprint")) then Ok current else
  match value attr with
  | None => Err (Parse (lit "fingerprint attribute missing value"))
  | Some value =>
      parsed ← SdpFingerprint_parse value;
      match current with
      | Some existing =>
          if negb (bool_decide (existing = parsed)) then Err (Parse (lit "conflicting DTLS fingerprint attributes in SDP"))
          else Ok current
      | None => Ok (Some parsed)
      end
  end.

(** ** Session section *)

Record Origin := {
  username : str; session_id : Z; session_version : Z; network_type : NetworkType; address_type : AddressType;
  unicast_address : str;
}.
Definition Origin_default : Origin := {|
  username := lit "-"; session_id := 0; session_version := 0; network_type := Internet; address_type := Ipv4;
  unicast_address := lit "0.0.0.0" |}.

(** [parts.next().ok_or_else(..)?], with the parts that follow *)
Definition next_part (what : string) (parts : list str) : res SdpError (str * list str) :=
  match parts with p :: ps => Ok (p, ps) | [] => Err (Parse (lit what)) end.
(** [.parse().map_err(..)?] *)
Definition parse_or (what : string) (bound : Z) (s : str) : res SdpError Z :=
  match parse_uint bound s with Some n => Ok n | None => Err (Parse (lit what)) end.

Definition U64 : Z := 18446744073709551616.

Definition Origin_parse `{Unicode} (value : str) : res SdpError Origin :=
  let parts := split_whitespace value in
  '(username, parts) ← next_part "origin missing username" parts;
  '(p, parts) ← next_part "origin missing session id" parts;
  session_id ← parse_or "invalid session id" U64 p;
  '(p, parts) ← next_part "origin missing session version" parts;
  session_version ← parse_or "invalid session version" U64 p;
  '(p, parts) ← next_part "origin missing network type" parts;
  network_type ← NetworkType_from_str p;
  '(p, parts) ← next_part "origin missing address type" parts;
  address_type ← AddressType_from_str p;
  '(unicast_address, parts) ← next_part "origin missing address" parts;
  Ok {| username := username; session_id := session_id; session_version := session_version;
        network_type := network_type; address_type := address_type; unicast_address := unicast_address |}.

Record Timing := { start : Z; stop : Z }.
Definition Timing_default : Timing := {| start := 0; stop := 0 |}.
Definition Timing_parse (value : str) : res SdpError Timing :=
  let parts := split_whitespace value in
  '(p, parts) ← next_part "timing missing start" parts;
  start ← parse_or "invalid start" U64 p;
  '(p, parts) ← next_part "timing missing stop" parts;
  stop ← parse_or "invalid stop" U64 p;
  Ok {| start := start; stop := stop |}.

Record SessionSection := {
  version : Z; origin : Origin; name : str; timing : Timing; session_connection : option str;
  session_attributes : list Attribute;
}.
#[export] Instance eta_SessionSection : Settable SessionSection :=
  settable! Build_SessionSection < version; origin; name; timing; session_connection; session_attributes >.
Definition SessionSection_default : SessionSection := {|
  version := 0; origin := Origin_default; name := lit "-"; timing := Timing_default; session_connection := None;
  session_attributes := [] |}.

Definition connection_line (c : option str) : str :=
  match c with Some c => lit "c=" ++ c ++ CRLF | None => [] end.

Definition SessionSection_write_lines (s : SessionSection) : str :=
  let o := origin s in
  lit "v=" ++ show_uint (version s) ++ CRLF ++
  lit "o=" ++ username o ++ lit " " ++ show_uint (session_id o) ++ lit " " ++ show_uint (session_version o) ++ lit " " ++
    NetworkType_as_str (network_type o) ++ lit " " ++ AddressType_as_str (address_type o) ++ lit " " ++
    unicast_address o ++ CRLF ++
  lit "s=" ++ name s ++ CRLF ++
  connection_line (session_connection s) ++
  lit "t=" ++ show_uint (start (timing s)) ++ lit " " ++ show_uint (stop (timing s)) ++ CRLF ++
  concat (Attribute_write_line <$> session_attributes s).

(** ** Media sections *)

Record MediaSection := {
  kind : MediaKind; mid : str; port : Z; protocol : str; formats : list str; direction : Direction;
  attributes : list Attribute; connection : option str;
}.
#[export] Instance eta_MediaSection : Settable MediaSection :=
  settable! Build_MediaSection < kind; mid; port; protocol; formats; direction; attributes; connection >.

Definition MediaSection_new (kind : MediaKind) (mid : str) : MediaSection := {|
  kind := kind; mid := mid; port := 9; protocol := lit "UDP/TLS/RTP/SAVPF"; formats := []; direction := SendRecv;
  attributes := []; connection := None |}.
Definition add_format (fmt : str) (m : MediaSection) : MediaSection := m <| formats ::= fun l => l ++ [fmt] |>.
Definition push_attribute (k : str) (v : option str) (m : MediaSection) : MediaSection :=
  m <| attributes ::= fun l => l ++ [Attribute_new k v] |>.

Definition from_m_line (value : str) : res SdpError MediaSection :=
  let parts := split_whitespace value in
  '(p, parts) ← next_part "media line missing kind" parts;
  kind ← MediaKind_from_str p;
  '(p, parts) ← next_part "media line missing port" parts;
  port ← parse_or "invalid media port" 65536 p;
  '(protocol, formats) ← next_part "media line missing protocol" parts;
  if (length formats =? 0)%nat then Err (Parse (lit "media line missing formats")) else
  Ok {| kind := kind; mid := []; port := port; protocol := protocol; formats := formats; direction := SendRecv;
        attributes := []; connection := None |}.

Definition apply_attribute (attr : Attribute) (m : MediaSection) : MediaSection :=
  match Direction_from_attribute (key attr) with
  | Some d => m <| direction := d |>
  | None =>
      if bool_decide (key attr = lit "mid") then
        match value attr with Some v => m <| mid := v |> | None => m end
      else if bool_decide (key attr = lit "connection") then m <| connection := value attr |>
      else m <| attributes ::= fun l => l ++ [attr] |>
  end.

(** The attributes that are printed before the identification of the section *)
Definition is_transport (a : Attribute) : bool :=
  bool_decide (key a = lit "ice-ufrag") || bool_decide (key a = lit "ice-pwd") || bool_decide (key a = lit "fingerprint") ||
  bool_decide (key a = lit "setup") || bool_decide (key a = lit "candidate").

Definition MediaSection_write_lines (m : MediaSection) : str :=
  lit "m=" ++ MediaKind_as_str (kind m) ++ lit " " ++ show_uint (port m) ++ lit " " ++ protocol m ++ lit " " ++
    join (lit " ") (formats m) ++ CRLF ++
  connection_line (connection m) ++
  concat (Attribute_write_line <$> filter (fun a => is_transport a = true) (attributes m)) ++
  (if negb (length (mid m) =? 0)%nat then lit "a=mid:" ++ mid m ++ CRLF else []) ++
  lit "a=" ++ Direction_as_str (direction m) ++ CRLF ++
  concat (Attribute_write_line <$> filter (fun a => is_transport a = false) (attributes m)).

Definition get_crypto_attributes (m : MediaSection) : list CryptoAttribute :=
  omap (fun a => v ← value a; CryptoAttribute_parse v) (filter (fun a => key a = lit "crypto") (attributes m)).

(** The loop returns at the first element for the URI. *)
Fixpoint extmap_loop (uri : str) (attrs : list Attribute) : option Z :=
  match attrs with
  | [] => None
  | a :: attrs =>
      if bool_decide (key a = lit "extmap") then
        match value a with
        | Some val =>
            match split_whitespace val with
            | id_str :: attr_uri :: _ => if bool_decide (attr_uri = uri) then parse_uint 256 id_str else extmap_loop uri attrs
            | _ => extmap_loop uri attrs
            end
        | None => extmap_loop uri attrs
        end
      else extmap_loop uri attrs
  end.
Definition get_extmap_id (uri : str) (m : MediaSection) : option Z := extmap_loop uri (attributes m).

Definition add_dtls_attributes (fingerprint_hash setup : str) (m : MediaSection) : MediaSection :=
  push_attribute (lit "setup") (Some setup) (push_attribute (lit "fingerprint") (Some (lit "sha-256 " ++ fingerprint_hash)) m).

Definition add_video_extmaps (rid_id repaired_rid_id : option str) (m : MediaSection) : MediaSection :=
  let m := match rid_id with
           | Some id => push_attribute (lit "extmap") (Some (id ++ lit " urn:ietf:params:rtp-hdrext:sdes:rtp-stream-id")) m
           | None => m
           end in
  match repaired_rid_id with
  | Some id => push_attribute (lit "extmap") (Some (id ++ lit " urn:ietf:params:rtp-hdrext:sdes:repaired-rtp-stream-id")) m
  | None => m
  end.

(** ** Descriptions *)

Record SessionDescription := {
  sdp_type : SdpType; session : SessionSection; media_sections : list MediaSection;
}.
#[export] Instance eta_SessionDescription : Settable SessionDescription :=
  settable! Build_SessionDescription < sdp_type; session; media_sections >.
Definition SessionDescription_new (t : SdpType) : SessionDescription :=
  {| sdp_type := t; session := SessionSection_default; media_sections := [] |}.

(** [retain(..)] of everything but candidates, then the new ones *)
Definition replace_candidates (candidates : list str) (m : MediaSection) : MediaSection :=
  m <| attributes ::= fun l =>
         filter (fun a => key a ≠ lit "candidate" ∧ key a ≠ lit "end-of-candidates") l ++
         ((fun c => Attribute_new (lit "candidate") (Some c)) <$> candidates) |>.
Definition add_candidates (candidates : list str) (d : SessionDescription) : SessionDescription :=
  d <| media_sections ::= fmap (fun m => push_attribute (lit "end-of-candidates") None (replace_candidates candidates m)) |>.
Definition add_candidates_incremental (candidates : list str) (d : SessionDescription) : SessionDescription :=
  d <| media_sections ::= fmap (replace_candidates candidates) |>.

(** The variables of the parser *)
Record ParseState := {
  p_session : SessionSection; current_media : option MediaSection; p_media : list MediaSection;
  media_has_direction : list bool; current_has_direction : bool;
  saw_version : bool; saw_origin : bool; saw_name : bool; saw_timing : bool;
}.
#[export] Instance eta_ParseState : Settable ParseState :=
  settable! Build_ParseState < p_session; current_media; p_media; media_has_direction; current_has_direction;
    saw_version; saw_origin; saw_name; saw_timing >.
Definition ParseState_new : ParseState := {|
  p_session := SessionSection_default; current_media := None; p_media := []; media_has_direction := [];
  current_has_direction := false; saw_version := false; saw_origin := false; saw_name := false; saw_timing := false |}.

(** The section that ends is kept. *)
Definition close_media (s : ParseState) : ParseState :=
  match current_media s with
  | Some m => s <| current_media := None |> <| p_media ::= fun l => l ++ [m] |>
                <| media_has_direction ::= fun l => l ++ [current_has_direction s] |>
  | None => s
  end.

Definition is_direction (k : str) : bool := match Direction_from_attribute k with Some _ => true | None => false end.

(** One line: its number, counted from 0, the part before the equals sign and
    the part after it *)
Definition parse_entry `{Unicode} (line_no : nat) (prefix value : str) (s : ParseState) : res SdpError ParseState :=
  if bool_decide (prefix = lit "v") then
    match parse_uint 256 value with
    | Some v => Ok (s <| p_session ::= set version (fun _ => v) |> <| saw_version := true |>)
    | None => Err (Parse (lit "invalid SDP version '" ++ value ++ lit "': line " ++ show_uint (Z.of_nat line_no + 1)))
    end
  else if bool_decide (prefix = lit "o") then
    o ← Origin_parse value;
    Ok (s <| p_session ::= set origin (fun _ => o) |> <| saw_origin := true |>)
  else if bool_decide (prefix = lit "s") then
    Ok (s <| p_session ::= set name (fun _ => value) |> <| saw_name := true |>)
  else if bool_decide (prefix = lit "t") then
    t ← Timing_parse value;
    Ok (s <| p_session ::= set timing (fun _ => t) |> <| saw_timing := true |>)
  else if bool_decide (prefix = lit "c") then
    Ok match current_media s with
       | Some m => s <| current_media := Some (m <| connection := Some value |>) |>
       | None => s <| p_session ::= set session_connection (fun _ => Some value) |>
       end
  else if bool_decide (prefix = lit "a") then
    let attr := Attribute_from_line value in
    Ok match current_media s with
       | Some m => s <| current_has_direction ::= fun b => b || is_direction (key attr) |>
                     <| current_media := Some (apply_attribute attr m) |>
       | None => s <| p_session ::= set session_attributes (fun l => l ++ [attr]) |>
       end
  else if bool_decide (prefix = lit "m") then
    let s := close_media s <| current_has_direction := false |> in
    m ← from_m_line value;
    Ok (s <| current_media := Some m |>)
  else
    Ok (s <| p_session ::= set session_attributes (fun l => l ++ [Attribute_new prefix (Some value)]) |>).

Definition parse_line `{Unicode} (line_no : nat) (raw_line : str) (s : ParseState) : res SdpError ParseState :=
  let line := trim raw_line in
  if (length line =? 0)%nat then Ok s else
  match split_once 61 line with
  | None => Err (Parse (lit "invalid SDP line " ++ show_uint (Z.of_nat line_no + 1) ++ lit ": " ++ line))
  | Some (prefix, value) => parse_entry line_no prefix value s
  end.

Fixpoint parse_lines `{Unicode} (line_no : nat) (ls : list str) (s : ParseState) : res SdpError ParseState :=
  match ls with
  | [] => Ok s
  | l :: ls => s ← parse_line line_no l s; parse_lines (S line_no) ls s
  end.

(** [iter().rev().find_map(..)]: the last direction of the session *)
Definition session_direction (attrs : list Attribute) : option Direction :=
  last (omap (fun a => Direction_from_attribute (key a)) attrs).

Definition is_sctp (m : MediaSection) : bool := bool_decide (kind m = Application) && has_substring (lit "SCTP") (protocol m).
Definition inherit_direction (d : Direction) (m : MediaSection) (has_direction : bool) : MediaSection :=
  if negb has_direction && negb (is_sctp m) then m <| direction := d |> else m.

Definition SessionDescription_parse `{Unicode} (sdp_type : SdpType) (raw : str) : res SdpError SessionDescription :=
  s ← parse_lines 0 (lines raw) ParseState_new;
  let s := close_media s in
  let media := match session_direction (session_attributes (p_session s)) with
               | Some d => zip_with (inherit_direction d) (p_media s) (media_has_direction s)
               | None => p_media s
               end in
  if negb (saw_version s) then Err (MissingLine (lit "v")) else
  if negb (saw_origin s) then Err (MissingLine (lit "o")) else
  if negb (saw_name s) then Err (MissingLine (lit "s")) else
  if negb (saw_timing s) then Err (MissingLine (lit "t")) else
  Ok {| sdp_type := sdp_type; session := p_session s; media_sections := media |}.

Definition to_sdp_string (d : SessionDescription) : str :=
  SessionSection_write_lines (session d) ++ concat (MediaSection_write_lines <$> media_sections d).

Fixpoint collect_all (attrs : list Attribute) (current : option SdpFingerprint) : res SdpError (option SdpFingerprint) :=
  match attrs with
  | [] => Ok current
  | a :: attrs => current ← collect_dtls_fingerprint a current; collect_all attrs current
  end.
Definition dtls_fingerprint (d : SessionDescription) : res SdpError (option SdpFingerprint) :=
  current ← collect_all (session_attributes (session d)) None;
  collect_all (concat (attributes <$> media_sections d)) current.

Definition sections_of (k : MediaKind) (d : SessionDescription) : list MediaSection :=
  filter (fun m => kind m = k) (media_sections d).
Definition video_sections : SessionDescription → list MediaSection := sections_of Video.
Definition audio_sections : SessionDescription → list MediaSection := sections_of Audio.
Definition image_sections : SessionDescription → list MediaSection := sections_of Image.
Definition first_section (k : MediaKind) (d : SessionDescription) : option MediaSection :=
  List.find (fun m => bool_decide (kind m = k)) (media_sections d).
Definition first_video_section : SessionDescription → option MediaSection := first_section Video.
Definition first_audio_section : SessionDescription → option MediaSection := first_section Audio.
Definition first_image_section : SessionDescription → option MediaSection := first_section Image.

(** ** Raw descriptions *)

Definition is_direction_line (line : str) : bool :=
  starts_with (lit "a=sendrecv") line || starts_with (lit "a=sendonly") line ||
  starts_with (lit "a=recvonly") line || starts_with (lit "a=inactive") line.
Fixpoint modify_lines (in_media_section : bool) (direction : str) (ls : list str) : list str :=
  match ls with
  | [] => []
  | line :: ls =>
      if starts_with (lit "m=") line then line :: modify_lines true direction ls else
      if in_media_section && is_direction_line line then (lit "a=" ++ direction) :: modify_lines in_media_section direction ls
      else line :: modify_lines in_media_section direction ls
  end.
Definition modify_sdp_direction (sdp direction : str) : str := join CRLF (modify_lines false direction (lines sdp)).

(** [None] when no line is about telephone events, otherwise what is returned *)
Fixpoint telephone_event_loop (ls : list str) : option (option Z) :=
  match ls with
  | [] => None
  | line :: ls =>
      match strip_prefix (lit "a=rtpmap:") (trim_end_matches 13 line) with
      | Some rest =>
          match split_once 32 rest with
          | Some (pt, spec) =>
              if starts_with (lit "telephone-event") (to_ascii_lowercase spec) then Some (parse_uint 256 (trim pt))
              else telephone_event_loop ls
          | None => telephone_event_loop ls
          end
      | None => telephone_event_loop ls
      end
  end.
Definition telephone_event_pt (sdp : str) : option Z := default None (telephone_event_loop (lines sdp)).

(** The lines after which the new ones are inserted *)
Fixpoint skip_maps (ls : list str) : list str * list str :=
  match ls with
  | line :: ls' =>
      if starts_with (lit "a=rtpmap") line || starts_with (lit "a=fmtp") line || starts_with (lit "a=rtcp") line then
        let '(a, b) := skip_maps ls' in (line :: a, b)
      else ([], ls)
  | [] => ([], [])
  end.
Fixpoint patch_loop (pt : Z) (ls : list str) : option (list str) :=
  match ls with
  | [] => None
  | line :: ls =>
      if starts_with (lit "m=audio") line && negb (has_substring (lit " " ++ show_uint pt) line) then
        let '(maps, rest) := skip_maps ls in
        Some ((line ++ lit " " ++ show_uint pt) :: maps ++
              (lit "a=rtpmap:" ++ show_uint pt ++ lit " telephone-event/8000") ::
              (lit "a=fmtp:" ++ show_uint pt ++ lit " 0-16") :: rest)
      else ls' ← patch_loop pt ls; Some (line :: ls')
  end.
Definition patch_telephone_event (sdp : str) (pt : Z) : str :=
  match telephone_event_pt sdp with
  | Some _ => sdp
  | None =>
      match patch_loop pt (lines sdp) with
      | Some ls => join CRLF ls ++ CRLF
      | None => sdp
      end
  end.

(** [None]: go on with the next line; [Some r]: return [r] *)
Definition non_dtmf_line (te_pt : option Z) (line : str) : option (option Z) :=
  let l := trim_end_matches 13 line in
  if (7 <=? str_len l) && starts_with (lit "m=audio") (to_ascii_lowercase l) then
    match split_whitespace l with
    | _ :: _ :: _ :: parts =>
        match omap (fun p => pt ← parse_uint 256 p; if bool_decide (Some pt = te_pt) then None else Some pt) parts with
        | pt :: _ => Some (Some pt)
        | [] => None
        end
    | _ => Some None
    end
  else None.
Fixpoint non_dtmf_loop (te_pt : option Z) (ls : list str) : option Z :=
  match ls with
  | [] => None
  | line :: ls => match non_dtmf_line te_pt line with Some r => r | None => non_dtmf_loop te_pt ls end
  end.
Definition first_non_dtmf_audio_pt (sdp : str) : option Z := non_dtmf_loop (telephone_event_pt sdp) (lines sdp).

Record BundleState := {
  extmap_id : option Z; audio_mid : option str; video_mid : option str; in_audio : bool; in_video : bool;
}.
#[export] Instance eta_BundleState : Settable BundleState :=
  settable! Build_BundleState < extmap_id; audio_mid; video_mid; in_audio; in_video >.

Definition bundle_line (s : BundleState) (line : str) : BundleState :=
  let line := trim_end_matches 13 line in
  if starts_with (lit "m=audio") line then s <| in_audio := true |> <| in_video := false |> else
  if starts_with (lit "m=video") line then s <| in_audio := false |> <| in_video := true |> else
  if starts_with (lit "m=") line then s <| in_audio := false |> <| in_video := false |> else
  match strip_prefix (lit "a=mid:") line with
  | Some mid =>
      if in_audio s && bool_decide (audio_mid s = None) then s <| audio_mid := Some mid |> else
      if in_video s && bool_decide (video_mid s = None) then s <| video_mid := Some mid |> else s
  | None =>
      if bool_decide (extmap_id s = None) && has_substring (lit "sdes:mid") line then
        match strip_prefix (lit "a=extmap:") line with
        | Some rest =>
            match split_by (fun c => (c =? 32) || (c =? 47)) rest with
            | id_str :: _ => match parse_uint 256 id_str with Some id => s <| extmap_id := Some id |> | None => s end
            | [] => s
            end
        | None => s
        end
      else s
  end.
Definition parse_bundle_mid_info (sdp : str) : option (Z * str * str) :=
  let s := fold_left bundle_line (lines sdp)
             {| extmap_id := None; audio_mid := None; video_mid := None; in_audio := false; in_video := false |} in
  match extmap_id s, audio_mid s, video_mid s with
  | Some id, Some a, Some v => Some (id, a, v)
  | _, _, _ => None
  end.
