(* ===== verification/SdpFacts.v ===== *)
(** * Printing and parsing session descriptions

    A well-formed description is read back from its text, and what the parser
    accepts is well formed. *)
From S2P Require Import Prelude Str Words RecordSet Rtx Sdp.

(** ** Well-formed descriptions *)

Definition wf_attr (a : Attribute) : Prop :=
  no_lf (key a) ∧ Forall (λ c, c ≠ 58) (key a) ∧
  match value a with Some v => clean v | None => clean (key a) end.

Definition wf_origin (o : Origin) : Prop :=
  word (username o) ∧ 0 ≤ session_id o < U64 ∧ 0 ≤ session_version o < U64 ∧ word (unicast_address o).

Definition wf_connection (c : option str) : Prop := match c with Some c => clean c | None => True end.

Record wf_session (s : SessionSection) : Prop := {
  ws_version : u8 (version s);
  ws_origin : wf_origin (origin s);
  ws_name : clean (name s);
  ws_timing : 0 ≤ start (timing s) < U64 ∧ 0 ≤ stop (timing s) < U64;
  ws_connection : wf_connection (session_connection s);
  ws_attributes : Forall wf_attr (session_attributes s);
}.

(** The attributes that a section keeps apart *)
Definition ordinary (a : Attribute) : Prop :=
  Direction_from_attribute (key a) = None ∧ key a ≠ lit "mid" ∧ key a ≠ lit "connection".

Record wf_media (m : MediaSection) : Prop := {
  wm_mid : clean (mid m);
  wm_port : u16 (port m);
  wm_protocol : word (protocol m);
  wm_formats : formats m ≠ [] ∧ Forall word (formats m);
  wm_attributes : Forall (λ a, wf_attr a ∧ ordinary a) (attributes m);
  wm_connection : wf_connection (connection m);
}.

Definition wf_description (d : SessionDescription) : Prop := wf_session (session d) ∧ Forall wf_media (media_sections d).

(** Printing puts the attributes of the transport first. *)
Definition normal_media (m : MediaSection) : MediaSection :=
  m <| attributes ::= fun l => filter (fun a => is_transport a = true) l ++ filter (fun a => is_transport a = false) l |>.
Definition normal (d : SessionDescription) : SessionDescription := d <| media_sections ::= fmap normal_media |>.

Lemma filter_again {A} (f : A → bool) b b' l :
  filter (fun a => f a = b) (filter (fun a => f a = b') l) = if eqb b b' then filter (fun a => f a = b') l else [].
Proof.
  induction l as [|x l IH]; [by destruct (eqb b b')|]. rewrite (filter_cons (fun a => f a = b')).
  destruct (decide (f x = b')) as [E|E]; [|done]. rewrite filter_cons, IH, E. by destruct b, b'.
Qed.

Lemma filter_partition {A} (f : A → bool) b l :
  filter (fun a => f a = b) (filter (fun a => f a = true) l ++ filter (fun a => f a = false) l) = filter (fun a => f a = b) l.
Proof. rewrite filter_app, !filter_again. destruct b; cbn; by rewrite ?app_nil_r. Qed.

Lemma print_normal d : to_sdp_string (normal d) = to_sdp_string d.
Proof.
  unfold to_sdp_string, normal. rs. f_equal. f_equal. rewrite <- list_fmap_compose. apply list_fmap_ext. intros _ m _. cbn.
  unfold MediaSection_write_lines, normal_media. rs. by rewrite !filter_partition.
Qed.

(** ** Reading lines *)

Section read.
Context `{Unicode, !UnicodeLaws}.

Lemma parse_line_entry n p v s :
  is_whitespace p = false → p ≠ 61 → p ≠ 10 → clean v → parse_line n (p :: 61 :: v) s = parse_entry n [p] v s.
Proof.
  intros Hp Hne Hn Hv. unfold parse_line.
  assert (clean (p :: 61 :: v)) as Hc by (apply (clean_app [p] 61 v); [by repeat constructor|done..]).
  rewrite trim_clean_id by done. cbn [length Nat.eqb split_once]. rewrite (proj2 (Z.eqb_neq _ _)) by done. done.
Qed.

(** Reading [txt] takes the parser from [s] to [s']. *)
Definition feeds (txt : str) (s s' : ParseState) : Prop :=
  ∀ n r, ∃ k, parse_lines n (lines (txt ++ r)) s = parse_lines k (lines r) s'.

Lemma feeds_nil s : feeds [] s s.
Proof. intros n r. by exists n. Qed.

Lemma feeds_app a b s s1 s2 : feeds a s s1 → feeds b s1 s2 → feeds (a ++ b) s s2.
Proof.
  intros Ha Hb n r. destruct (Ha n (b ++ r)) as [k E]. destruct (Hb k r) as [k' E']. exists k'. by rewrite <- app_assoc, E.
Qed.

Lemma feeds_line p v s s' :
  is_whitespace p = false → p ≠ 61 → p ≠ 10 → clean v → (∀ n, parse_entry n [p] v s = Ok s') →
  feeds (p :: 61 :: v ++ CRLF) s s'.
Proof.
  intros Hp Hne Hn Hv He n r. exists (S n).
  change ((p :: 61 :: v ++ CRLF) ++ r) with (p :: 61 :: (v ++ CRLF) ++ r). rewrite <- app_assoc.
  change (p :: 61 :: v ++ CRLF ++ r) with ((p :: 61 :: v) ++ 13 :: 10 :: r). rewrite lines_crlf.
  - cbn [parse_lines]. by rewrite parse_line_entry, He.
  - destruct Hv as [Hv _]. by repeat constructor.
Qed.

(** ** The lines of a session *)

Lemma address_type_read t : AddressType_from_str (AddressType_as_str t) = Ok t ∧ word (AddressType_as_str t).
Proof.
  unfold AddressType_from_str. rewrite to_uppercase_ascii by (destruct t; repeat constructor; lia).
  destruct t; (split; [done|by_word]).
Qed.

Lemma parse_or_show what bound n : 0 ≤ n < bound → bound ≤ U64 → parse_or what bound (show_uint n) = Ok n.
Proof. intros Hn Hb. unfold parse_or. rewrite parse_show_uint; [done|unfold U64 in *; lia..]. Qed.

Lemma origin_read o :
  wf_origin o →
  let v := username o ++ lit " " ++ show_uint (session_id o) ++ lit " " ++ show_uint (session_version o) ++ lit " " ++
    NetworkType_as_str (network_type o) ++ lit " " ++ AddressType_as_str (address_type o) ++ lit " " ++ unicast_address o in
  Origin_parse v = Ok o ∧ clean v.
Proof.
  intros (Hu & Hi & Hv & Ha) v. destruct (address_type_read (address_type o)) as [Et Hat].
  set (ws := [username o; show_uint (session_id o); show_uint (session_version o); lit "IN"; AddressType_as_str (address_type o); unicast_address o]).
  assert (v = join [32] ws) as Ev by done.
  assert (Forall word ws) as Hw.
  { unfold ws. repeat (apply Forall_cons; split); try done; try (apply word_show; lia); auto with words. }
  split; [|rewrite Ev; by apply join_words].
  unfold Origin_parse. rewrite Ev, split_whitespace_join by done. unfold ws. cbn [next_part mbind res_bind].
  rewrite !parse_or_show by (unfold U64 in *; lia). cbn [mbind res_bind].
  change (NetworkType_from_str (lit "IN")) with (Ok Internet : res SdpError NetworkType). cbn [mbind res_bind]. rewrite Et. cbn.
  destruct o as [? ? ? []]; done.
Qed.

Lemma feeds_line_app p v t s s' s'' :
  is_whitespace p = false → p ≠ 61 → p ≠ 10 → clean v → (∀ n, parse_entry n [p] v s = Ok s') → feeds t s' s'' →
  feeds (p :: 61 :: v ++ CRLF ++ t) s s''.
Proof.
  intros Hp Hne Hn Hv He Ht. assert (p :: 61 :: v ++ CRLF ++ t = (p :: 61 :: v ++ CRLF) ++ t) as -> by (cbn; by rewrite <- app_assoc).
  eapply feeds_app; [|exact Ht]. by apply feeds_line.
Qed.

Lemma attribute_read a : wf_attr a →
  ∃ v, Attribute_write_line a = 97 :: 61 :: v ++ CRLF ∧ clean v ∧ Attribute_from_line v = a.
Proof.
  intros (Hk & Hc & Hv). unfold Attribute_write_line, Attribute_from_line. destruct a as [k [v|]]; cbn [key value] in *.
  - exists (k ++ 58 :: v). split; [cbn; by rewrite <- app_assoc|]. split; [by apply clean_app|]. by rewrite split_once_app.
  - exists k. split; [done|]. split; [done|]. rewrite split_once_none by done. done.
Qed.

Lemma feeds_attributes (P : ParseState → Prop) (f : ParseState → Attribute → ParseState) attrs : ∀ s,
  Forall wf_attr attrs → P s →
  (∀ a s n v, a ∈ attrs → P s → Attribute_from_line v = a → parse_entry n [97] v s = Ok (f s a) ∧ P (f s a)) →
  feeds (concat (Attribute_write_line <$> attrs)) s (fold_left f attrs s).
Proof.
  induction attrs as [|a attrs IH]; intros s Hw Hs Hf; [apply feeds_nil|].
  apply Forall_cons in Hw as [Ha Hw]. destruct (attribute_read a Ha) as (v & E & Hv & Er).
  cbn [fmap list_fmap concat fold_left]. eapply feeds_app.
  - rewrite E. apply feeds_line; [done..|]. intros n. apply Hf; [left|done..].
  - apply IH; [done| |]; [|intros b t n w Hb; apply Hf; by right]. apply (Hf a s 0%nat v); [left|done..].
Qed.

(** A connection line *)
Definition connected_to (c : option str) (s : ParseState) : ParseState :=
  match c with
  | None => s
  | Some v =>
      match current_media s with
      | Some m => s <| current_media := Some (m <| connection := Some v |>) |>
      | None => s <| p_session ::= set session_connection (fun _ => Some v) |>
      end
  end.
Lemma feeds_connection c s : wf_connection c → feeds (connection_line c) s (connected_to c s).
Proof. destruct c as [v|]; intros Hc; [|apply feeds_nil]. apply (feeds_line 99 v); try done. Qed.

(** The attributes of a session *)
Lemma feeds_session_attributes attrs s :
  Forall wf_attr attrs → current_media s = None →
  feeds (concat (Attribute_write_line <$> attrs)) s (s <| p_session ::= set session_attributes (fun l => l ++ attrs) |>).
Proof.
  intros Hw Hs. set (f := fun s (a : Attribute) => s <| p_session ::= set session_attributes (fun l => l ++ [a]) |>).
  assert (∀ t, fold_left f attrs t = t <| p_session ::= set session_attributes (fun l => l ++ attrs) |>) as Ef.
  { induction attrs as [|a attrs IH]; intros t; cbn [fold_left].
    - destruct t as [[]]. unfold set. cbn. by rewrite app_nil_r.
    - apply Forall_cons in Hw as [_ Hw]. rewrite IH by done. destruct t as [[]]. unfold f, set. cbn. by rewrite <- app_assoc. }
  rewrite <- Ef. apply (feeds_attributes (fun t => current_media t = None)); [done..|].
  intros a t n v _ Ht Ev. split; [|done]. cbv [parse_entry]. rewrite !bool_decide_false by done.
  rewrite bool_decide_true by done. by rewrite Ht, Ev.
Qed.

(** What the parser has read of a session *)
Definition read_session (sec : SessionSection) : ParseState :=
  ParseState_new <| p_session := sec |> <| saw_version := true |> <| saw_origin := true |> <| saw_name := true |> <| saw_timing := true |>.

Lemma session_read sec : wf_session sec → feeds (SessionSection_write_lines sec) ParseState_new (read_session sec).
Proof.
  intros [H1 H2 H3 [H4 H4'] H5 H6]. destruct sec as [ver o nm [t1 t2] c attrs]. cbn in *.
  destruct (origin_read o H2) as [Eo Ho].
  unfold SessionSection_write_lines. cbn [version origin name timing session_connection session_attributes start stop].
  apply (feeds_line_app 118 (show_uint ver)) with
    (s' := ParseState_new <| p_session ::= set version (fun _ => ver) |> <| saw_version := true |>); [done..| | |].
  { apply word_clean, word_show. ulia. }
  { intros n. cbv [parse_entry]. rewrite bool_decide_true by done. rewrite parse_show_uint by ulia. done. }
  match goal with |- feeds ?t _ _ => replace t with (111 :: 61 :: (username o ++ lit " " ++ show_uint (session_id o) ++ lit " " ++
    show_uint (session_version o) ++ lit " " ++ NetworkType_as_str (network_type o) ++ lit " " ++ AddressType_as_str (address_type o) ++
    lit " " ++ unicast_address o) ++ CRLF ++ lit "s=" ++ nm ++ CRLF ++ connection_line c ++ lit "t=" ++ show_uint t1 ++ lit " " ++
    show_uint t2 ++ CRLF ++ concat (Attribute_write_line <$> attrs)) by (rewrite <- !app_assoc; done) end.
  eapply feeds_line_app; [done..|exact Ho| |].
  { intros n. cbv [parse_entry]. rewrite bool_decide_false by done. rewrite bool_decide_true by done. rewrite Eo. reflexivity. }
  apply (feeds_line_app 115 nm) with
    (s' := ParseState_new <| p_session := {| version := ver; origin := o; name := nm; timing := Timing_default;
        session_connection := None; session_attributes := [] |} |>
      <| saw_version := true |> <| saw_origin := true |> <| saw_name := true |>); [done..| |].
  { intros n. reflexivity. }
  eapply feeds_app; [by apply feeds_connection|].
  match goal with |- feeds ?t ?x _ => replace t with (116 :: 61 :: join [32] [show_uint t1; show_uint t2] ++ CRLF ++
    concat (Attribute_write_line <$> attrs)) by (cbn [join]; rewrite <- !app_assoc; done); set (s0 := x) end.
  assert (Forall word [show_uint t1; show_uint t2]) as Hw
    by (repeat (apply Forall_cons; split); [by apply word_show; lia..|apply Forall_nil; done]).
  apply (feeds_line_app 116) with (s' := s0 <| p_session ::= set timing (fun _ => {| start := t1; stop := t2 |}) |> <| saw_timing := true |>);
    [done..|by apply join_words| |].
  { intros n. cbv [parse_entry]. rewrite !bool_decide_false by done. rewrite bool_decide_true by done.
    unfold Timing_parse. rewrite split_whitespace_join by done. cbn [next_part mbind res_bind].
    rewrite !parse_or_show by (unfold U64 in *; lia). reflexivity. }
  match goal with |- feeds _ ?x _ => replace (read_session _) with (x <| p_session ::= set session_attributes (fun l => l ++ attrs) |>) end.
  - apply feeds_session_attributes; [done|by destruct c].
  - by destruct c.
Qed.

(** ** The lines of a media section *)

Definition in_media (m : MediaSection) (b : bool) (s : ParseState) : ParseState :=
  s <| current_has_direction := b |> <| current_media := Some m |>.

Lemma entry_attribute n v s m b a :
  Attribute_from_line v = a →
  parse_entry n [97] v (in_media m b s) = Ok (in_media (apply_attribute a m) (b || is_direction (key a)) s).
Proof.
  intros <-. cbv [parse_entry]. rewrite !bool_decide_false by done. rewrite bool_decide_true by done. done.
Qed.

Lemma feeds_media_attributes attrs m b s :
  Forall (fun a => wf_attr a ∧ ordinary a) attrs →
  feeds (concat (Attribute_write_line <$> attrs)) (in_media m b s) (in_media (m <| attributes ::= fun l => l ++ attrs |>) b s).
Proof.
  revert m. induction attrs as [|a attrs IH]; intros m Hw.
  { replace (m <| attributes ::= _ |>) with m; [apply feeds_nil|]. destruct m. unfold set. cbn. by rewrite app_nil_r. }
  apply Forall_cons in Hw as [[Ha (Hd & Hm & Hc)] Hw]. destruct (attribute_read a Ha) as (v & E & Hv & Er).
  cbn [fmap list_fmap concat]. eapply feeds_app.
  - rewrite E. apply feeds_line; [done..|]. intros n. rewrite (entry_attribute n v s m b a Er). unfold apply_attribute, is_direction.
    rewrite Hd, !bool_decide_false, orb_false_r by done. reflexivity.
  - replace (m <| attributes ::= fun l => l ++ a :: attrs |>) with
      ((m <| attributes ::= fun l => l ++ [a] |>) <| attributes ::= fun l => l ++ attrs |>); [by apply IH|].
    destruct m. unfold set. cbn. by rewrite <- app_assoc.
Qed.

Lemma kind_read k : MediaKind_from_str (MediaKind_as_str k) = Ok k ∧ word (MediaKind_as_str k).
Proof. destruct k; (split; [done|by_word]). Qed.
Lemma direction_read d : Direction_from_attribute (Direction_as_str d) = Some d ∧ word (Direction_as_str d) ∧
  Forall (λ c, c ≠ 58) (Direction_as_str d).
Proof. destruct d; (split; [done|split; [by_word|by repeat constructor]]). Qed.

Lemma m_line_read m : wf_media m →
  let v := MediaKind_as_str (kind m) ++ lit " " ++ show_uint (port m) ++ lit " " ++ protocol m ++ lit " " ++ join (lit " ") (formats m) in
  clean v ∧
  from_m_line v = Ok {| kind := kind m; mid := []; port := port m; protocol := protocol m; formats := formats m;
                        direction := SendRecv; attributes := []; connection := None |}.
Proof.
  intros [_ Hp Hpr [Hf Hfw] _ _] v. destruct (kind_read (kind m)) as [Ek Hk].
  set (ws := MediaKind_as_str (kind m) :: show_uint (port m) :: protocol m :: formats m).
  assert (v = join [32] ws) as Ev.
  { unfold v, ws. cbn [join]. by destruct (formats m). }
  assert (Forall word ws) as Hw. { unfold ws. repeat (apply Forall_cons; split); try done. apply word_show. ulia. }
  rewrite Ev. split; [by apply join_words|]. unfold from_m_line. rewrite split_whitespace_join by done. unfold ws.
  cbn [next_part mbind res_bind]. rewrite Ek. cbn [mbind res_bind]. rewrite parse_or_show by (unfold U64; ulia). cbn [mbind res_bind].
  by destruct (formats m).
Qed.

Lemma mid_read (m : MediaSection) m' b s : clean (mid m) → mid m' = [] →
  feeds (if negb (length (mid m) =? 0)%nat then lit "a=mid:" ++ mid m ++ CRLF else []) (in_media m' b s)
    (in_media (m' <| mid := mid m |>) b s).
Proof.
  intros Hm E. destruct (mid m) as [|c r] eqn:Em; cbn [length Nat.eqb negb].
  { replace (m' <| mid := [] |>) with m'; [apply feeds_nil|]. destruct m'. cbn in *. by subst. }
  apply (feeds_line 97 (lit "mid:" ++ c :: r)); [done..| |].
  - apply (clean_app (lit "mid") 58 (c :: r)); [by repeat constructor|done..].
  - intros n. rewrite (entry_attribute _ _ _ _ _ {| key := lit "mid"; value := Some (c :: r) |}) by done.
    by rewrite orb_false_r.
Qed.

Definition read_media (s : ParseState) (m : MediaSection) : ParseState := in_media (normal_media m) true (close_media s).

Lemma media_read s m : wf_media m → feeds (MediaSection_write_lines m) s (read_media s m).
Proof.
  intros Hm. destruct (m_line_read m Hm) as [Hc Er]. destruct Hm as [H1 H2 H3 H4 H5 H6].
  set (m0 := {| kind := kind m; mid := []; port := port m; protocol := protocol m; formats := formats m;
                direction := SendRecv; attributes := []; connection := None |}) in *.
  assert (∀ b, Forall (fun a => wf_attr a ∧ ordinary a) (filter (fun a => is_transport a = b) (attributes m))) as Hf.
  { intros b. rewrite Forall_forall in *. intros a [_ Ha]%list_elem_of_filter. by apply H5. }
  unfold MediaSection_write_lines.
  match goal with |- feeds (lit "m=" ++ ?a ++ ?b ++ ?c ++ ?d ++ ?e ++ ?f ++ ?g ++ CRLF ++ ?t) _ _ =>
    replace (lit "m=" ++ a ++ b ++ c ++ d ++ e ++ f ++ g ++ CRLF ++ t) with (109 :: 61 :: (a ++ b ++ c ++ d ++ e ++ f ++ g) ++ CRLF ++ t)
      by (rewrite <- !app_assoc; done) end.
  apply (feeds_line_app 109) with (s' := in_media m0 false (close_media s)); [done..|exact Hc| |].
  { intros n. cbv [parse_entry]. rewrite !bool_decide_false by done. rewrite bool_decide_true by done. by rewrite Er. }
  eapply feeds_app; [by apply feeds_connection|].
  assert (connected_to (connection m) (in_media m0 false (close_media s)) =
    in_media (m0 <| connection := connection m |>) false (close_media s)) as -> by (by destruct (connection m)).
  eapply feeds_app; [by apply feeds_media_attributes|]. eapply feeds_app; [by apply mid_read|].
  destruct (direction_read (direction m)) as (Ed & Hd & Hd').
  eapply (feeds_line_app 97 (Direction_as_str (direction m))); [done..|by apply word_clean| |].
  { intros n. rewrite (entry_attribute _ _ _ _ _ {| key := Direction_as_str (direction m); value := None |}).
    - unfold apply_attribute, is_direction. cbn [key]. rewrite Ed. reflexivity.
    - unfold Attribute_from_line. by rewrite split_once_none. }
  unfold read_media. replace (normal_media m) with
    (((m0 <| connection := connection m |> <| attributes ::= fun l => l ++ filter (fun a => is_transport a = true) (attributes m) |>
       <| mid := mid m |> <| direction := direction m |>) <| attributes ::= fun l => l ++ filter (fun a => is_transport a = false) (attributes m) |>))
    by (by destruct m).
  by apply feeds_media_attributes.
Qed.

Lemma medias_read ms : ∀ s, Forall wf_media ms → feeds (concat (MediaSection_write_lines <$> ms)) s (fold_left read_media ms s).
Proof.
  induction ms as [|m ms IH]; intros s Hw; [apply feeds_nil|]. apply Forall_cons in Hw as [Hm Hw].
  cbn [fmap list_fmap concat fold_left]. eapply feeds_app; [by apply media_read|by apply IH].
Qed.

(** ** Descriptions *)

Record reads (sec : SessionSection) (ms : list MediaSection) (s : ParseState) : Prop := {
  rd_session : p_session (close_media s) = sec;
  rd_media : p_media (close_media s) = ms;
  rd_own : media_has_direction (close_media s) = (fun _ => true) <$> ms;
  rd_saw : saw_version s && saw_origin s && saw_name s && saw_timing s = true;
}.

Lemma fold_reads sec ms : ∀ pre s, reads sec (normal_media <$> pre) s →
  reads sec (normal_media <$> pre ++ ms) (fold_left read_media ms s).
Proof.
  induction ms as [|m ms IH]; intros pre s Hs; [by rewrite app_nil_r|]. cbn [fold_left].
  replace (pre ++ m :: ms) with ((pre ++ [m]) ++ ms) by (by rewrite <- app_assoc). apply IH.
  destruct Hs as [H1 H2 H3 H4]. rewrite fmap_app. split.
  - exact H1.
  - change (p_media (close_media s) ++ [normal_media m] = (normal_media <$> pre) ++ [normal_media m]). by rewrite H2.
  - change (media_has_direction (close_media s) ++ [true] = (fun _ => true) <$> (normal_media <$> pre) ++ [normal_media m]).
    by rewrite H3, fmap_app.
  - unfold read_media, close_media. by destruct (current_media s).
Qed.

Lemma inherit_own d ms : zip_with (inherit_direction d) ms ((fun _ => true) <$> ms) = ms.
Proof. induction ms as [|m ms IH]; [done|]. cbn. by rewrite IH. Qed.

Lemma parse_reads t raw s sec ms :
  parse_lines 0 (lines raw) ParseState_new = Ok s → reads sec ms s →
  SessionDescription_parse t raw = Ok {| sdp_type := t; session := sec; media_sections := ms |}.
Proof.
  intros E [H1 H2 H3 H4]. unfold SessionDescription_parse. rewrite E. cbn [mbind res_bind].
  assert (∀ f, (f = saw_version ∨ f = saw_origin ∨ f = saw_name ∨ f = saw_timing) → f (close_media s) = f s) as Hc.
  { intros f Hf. unfold close_media. destruct (current_media s); [|done]. by destruct Hf as [->|[->|[->| ->]]]. }
  rewrite !Hc by auto. apply andb_true_iff in H4 as [[[-> ->]%andb_true_iff ->]%andb_true_iff ->]. cbn [negb].
  rewrite H1, H2, H3. destruct (session_direction _); [by rewrite inherit_own|done].
Qed.

Lemma sdp_print_parse d :
  wf_description d → SessionDescription_parse (sdp_type d) (to_sdp_string d) = Ok (normal d).
Proof.
  intros [Hs Hm].
  assert (feeds (to_sdp_string d) ParseState_new (fold_left read_media (media_sections d) (read_session (session d)))) as Hf
    by (eapply feeds_app; [by apply session_read|by apply medias_read]).
  destruct (Hf 0%nat []) as [k E]. rewrite app_nil_r in E. cbn [lines parse_lines] in E.
  eapply parse_reads; [exact E|]. by apply (fold_reads _ _ []).
Qed.

(** C11: Every well-formed session description is printed to a text that parses
    to the same description, with the transport attributes of each section moved
    to the front as printing does, and which prints to the same text. *)
Theorem sdp_roundtrip d :
  wf_description d →
  SessionDescription_parse (sdp_type d) (to_sdp_string d) = Ok (normal d) ∧ to_sdp_string (normal d) = to_sdp_string d.
Proof. intros Hd. split; [by apply sdp_print_parse|apply print_normal]. Qed.

(** ** What the parser accepts *)

Lemma attribute_wf v : clean v → wf_attr (Attribute_from_line v).
Proof.
  intros Hv. unfold Attribute_from_line. destruct (split_once 58 v) as [[k w]|] eqn:E.
  - apply split_once_inv in E as [-> Hk]. destruct Hv as [Hn Hl]. split; [|split; [done|]]; cbn [key value Attribute_new].
    + by apply Forall_app in Hn as [? _].
    + apply (clean_app_r (k ++ [58])). rewrite <- app_assoc. by split.
  - apply split_once_none_inv in E. split; [apply Hv|]. by split.
Qed.

Lemma next_part_inv what parts p ps : next_part what parts = Ok (p, ps) → parts = p :: ps.
Proof. destruct parts; [done|]. by intros [= -> ->]. Qed.
Lemma parse_or_inv what bound p n : 0 < bound → parse_or what bound p = Ok n → 0 ≤ n < bound.
Proof. intros Hb. unfold parse_or. destruct (parse_uint bound p) eqn:E; [|done]. intros [= <-]. by eapply parse_uint_bound. Qed.

(** One step of a parser that returns at the first error *)
Lemma res_bind_inv {E A B} (m : res E A) (f : A → res E B) b : m ≫= f = Ok b → ∃ a, m = Ok a ∧ f a = Ok b.
Proof. destruct m as [a|e|]; [eauto|done..]. Qed.

Ltac parser_step H :=
  let p := fresh "p" in let ps := fresh "ps" in let E := fresh "E" in
  first [apply res_bind_inv in H as ([p ps] & E & H); apply next_part_inv in E as -> | apply res_bind_inv in H as (p & E & H)].

Lemma origin_wf v o : Origin_parse v = Ok o → wf_origin o.
Proof.
  intros H1. unfold Origin_parse in H1. pose proof (split_whitespace_words v) as Hw.
  destruct (split_whitespace v) as [|w1 [|w2 [|w3 [|w4 [|w5 [|w6 r]]]]]]; cbn [next_part mbind res_bind] in H1;
    repeat (apply res_bind_inv in H1 as (? & ? & H1); cbn [next_part mbind res_bind] in H1); try done.
  injection H1 as <-. rewrite !Forall_cons in Hw. destruct Hw as (W1 & _ & _ & _ & _ & W6 & _).
  split; [done|]. split; [by eapply parse_or_inv|]. split; [by eapply parse_or_inv|]. done.
Qed.

Lemma timing_wf v t : Timing_parse v = Ok t → 0 ≤ start t < U64 ∧ 0 ≤ stop t < U64.
Proof.
  intros H1. unfold Timing_parse in H1.
  destruct (split_whitespace v) as [|w1 [|w2 r]]; cbn [next_part mbind res_bind] in H1;
    repeat (apply res_bind_inv in H1 as (? & ? & H1); cbn [next_part mbind res_bind] in H1); try done.
  injection H1 as <-. split; by eapply parse_or_inv.
Qed.

Lemma m_line_wf v m : from_m_line v = Ok m → wf_media m.
Proof.
  intros H1. unfold from_m_line in H1. pose proof (split_whitespace_words v) as Hw.
  destruct (split_whitespace v) as [|w1 [|w2 [|w3 [|w4 r]]]]; cbn [next_part mbind res_bind] in H1;
    repeat (apply res_bind_inv in H1 as (? & ? & H1); cbn [next_part mbind res_bind length Nat.eqb] in H1); try done.
  injection H1 as <-. rewrite !Forall_cons in Hw. destruct Hw as (_ & _ & W3 & W4 & Wr).
  split; cbn; [apply clean_nil|by eapply parse_or_inv|done|by split; [|constructor]|constructor|done].
Qed.

Lemma apply_attribute_wf a m : wf_attr a → wf_media m → wf_media (apply_attribute a m).
Proof.
  intros Ha [H1 H2 H3 H4 H5 H6]. unfold apply_attribute. destruct (Direction_from_attribute (key a)) eqn:Ed; [by split|].
  case_bool_decide as Em.
  { destruct a as [k [v|]]; [|by split]. destruct Ha as (_ & _ & Hv). by split. }
  case_bool_decide as Ec.
  { split; try done. destruct a as [k [v|]]; [|done]. apply Ha. }
  split; try done. cbn. apply Forall_app. split; [done|]. by apply Forall_singleton.
Qed.

Record parsed_ok (s : ParseState) : Prop := {
  po_session : wf_session (p_session s);
  po_current : match current_media s with Some m => wf_media m | None => True end;
  po_media : Forall wf_media (p_media s);
}.

Lemma close_ok s : parsed_ok s → parsed_ok (close_media s) ∧ current_media (close_media s) = None.
Proof.
  intros [H1 H2 H3]. unfold close_media. destruct (current_media s) eqn:E; [|split; [by split; [|rewrite E|]|done]].
  split; [|done]. split; try done. cbn. apply Forall_app. by split; [|constructor].
Qed.

Lemma keep_ok (f : SessionSection → SessionSection) s s' :
  parsed_ok s → wf_session (f (p_session s)) →
  p_session s' = f (p_session s) → current_media s' = current_media s → p_media s' = p_media s → parsed_ok s'.
Proof. intros [_ H2 H3] Hf E1 E2 E3. split; [by rewrite E1|by rewrite E2|by rewrite E3]. Qed.

Lemma entry_ok n prefix v s s' :
  no_lf prefix → Forall (λ c, c ≠ 58) prefix → clean v → parsed_ok s → parse_entry n prefix v s = Ok s' → parsed_ok s'.
Proof.
  intros Hp Hp' Hv Hs E. pose proof (po_session s Hs) as [S1 S2 S3 S4 S5 S6]. unfold parse_entry in E.
  repeat case_bool_decide.
  - destruct (parse_uint 256 v) eqn:Ev; [|done]. injection E as <-. apply parse_uint_bound in Ev; [|done].
    eapply keep_ok; [exact Hs| |reflexivity..]. by split.
  - apply res_bind_inv in E as (o & Eo & [= <-]). apply origin_wf in Eo. eapply keep_ok; [exact Hs| |reflexivity..]. by split.
  - injection E as <-. eapply keep_ok; [exact Hs| |reflexivity..]. by split.
  - apply res_bind_inv in E as (t & Et & [= <-]). apply timing_wf in Et. eapply keep_ok; [exact Hs| |reflexivity..]. by split.
  - injection E as <-. pose proof (po_current s Hs) as Hm. destruct (current_media s) as [m|].
    + split; [apply Hs| |apply Hs]. destruct Hm. by split.
    + eapply keep_ok; [exact Hs| |reflexivity..]. by split.
  - injection E as <-. pose proof (attribute_wf v Hv) as Ha. pose proof (po_current s Hs) as Hm. destruct (current_media s) as [m|].
    + split; [apply Hs| |apply Hs]. by apply apply_attribute_wf.
    + eapply keep_ok; [exact Hs| |reflexivity..]. split; try done. apply Forall_app. by split; [|constructor].
  - apply res_bind_inv in E as (m & Em & [= <-]). apply m_line_wf in Em. destruct (close_ok s Hs) as [[C1 _ C3] _]. by split.
  - injection E as <-. eapply keep_ok; [exact Hs| |reflexivity..]. split; try done.
    apply Forall_app. split; [done|]. apply Forall_singleton. by split.
Qed.

(** The text before the equals sign of a line has no colon. *)
Definition plain_prefix (line : str) : Prop :=
  match split_once 61 (trim line) with Some (p, _) => Forall (λ c, c ≠ 58) p | None => True end.

Lemma lines_ok ls : ∀ n s s', Forall no_lf ls → Forall plain_prefix ls → parsed_ok s → parse_lines n ls s = Ok s' → parsed_ok s'.
Proof.
  induction ls as [|l ls IH]; intros n s s' Hn Hp Hs E; [by injection E as <-|]. cbn [parse_lines] in E.
  apply Forall_cons in Hn as [Hl Hn]. apply Forall_cons in Hp as [Hpl Hp].
  apply res_bind_inv in E as (s1 & E1 & E). eapply IH; [done..| |exact E]. unfold parse_line in E1. unfold plain_prefix in Hpl.
  destruct (length (trim l) =? 0)%nat; [by injection E1 as <-|]. destruct (split_once 61 (trim l)) as [[p v]|] eqn:Es; [|done].
  apply split_once_inv in Es as [Et _]. pose proof (trim_clean l Hl) as Hc. rewrite Et in Hc.
  assert (clean v) as Hv by (apply (clean_app_r (p ++ [61])); by rewrite <- app_assoc).
  assert (no_lf p) as Hnp by (destruct Hc as [Hc _]; by apply Forall_app in Hc as [? _]).
  by eapply (entry_ok n p v s).
Qed.

Lemma inherit_wf d ms bs : Forall wf_media ms → Forall wf_media (zip_with (inherit_direction d) ms bs).
Proof.
  intros Hm. revert bs. induction Hm as [|m ms Hm Hms IH]; intros [|b bs]; [constructor..|]. cbn. constructor; [|done].
  unfold inherit_direction. destruct (_ && _); [|done]. by destruct Hm; split.
Qed.

(** C13: Whatever text the parser accepts (no colon before the equals sign of a
    line), the description is well formed: numbers within their widths, values
    without line breaks or blanks at the end, sections with formats; so printing
    it and parsing the text gives it back, transport attributes first. *)
Theorem sdp_reparse t raw d :
  Forall plain_prefix (lines raw) → SessionDescription_parse t raw = Ok d →
  wf_description d ∧ SessionDescription_parse t (to_sdp_string d) = Ok (normal d).
Proof.
  intros Hp E. assert (wf_description d ∧ sdp_type d = t) as [Hw <-]; [|split; [done|by apply sdp_print_parse]].
  unfold SessionDescription_parse in E. apply res_bind_inv in E as (s & Es & E).
  eapply lines_ok in Es; [|apply lines_no_lf|done|].
  - destruct (close_ok s Es) as [[C1 _ C3] _].
    repeat match type of E with (if ?b then _ else _) = _ => destruct b; [done|] end. injection E as <-.
    split; [|done]. split; [done|]. cbn. destruct (session_direction _); [by apply inherit_wf|done].
  - split; [|done|constructor]. split; cbn; try done; try (by split; [repeat constructor|intros ? [= <-]]).
    split; [by_word|split; [done|split; [done|by_word]]].
Qed.
End read.

(** ** An offer *)

Definition ex_section : MediaSection := MediaSection_new Audio (lit "0") <| formats := [lit "111"; lit "0"] |>
  <| attributes := [Attribute_new (lit "rtpmap") (Some (lit "111 opus/48000/2")); Attribute_new (lit "ice-ufrag") (Some (lit "abcd"))] |>
  <| connection := Some (lit "IN IP4 0.0.0.0") |>.
Definition ex_offer : SessionDescription := SessionDescription_new Offer <| media_sections := [ex_section] |>.

Lemma clean_lit s c : no_lf (lit s) → last (lit s) = Some c → is_whitespace c = false → clean (lit s).
Proof. intros Hn Hl Hc. split; [done|]. intros d Hd. by rewrite Hl in Hd; injection Hd as <-. Qed.
Ltac by_clean := eapply clean_lit; [by repeat constructor|reflexivity|reflexivity].

Lemma ex_offer_wf : wf_description ex_offer.
Proof.
  split; [split|constructor; [split|constructor]]; cbn -[lit]; try done; try by_clean; try solve [by_word].
  - split; [by_word|]. split; [done|]. split; [done|by_word].
  - split; [done|]. constructor; [by_word|]. constructor; [by_word|constructor].
  - constructor; [|constructor; [|constructor]]; (split; [split; [by repeat constructor|split; [by repeat constructor|by_clean]]|done]).
Qed.

Lemma sdp_roundtrip_witness :
  @SessionDescription_parse ascii_unicode Offer (to_sdp_string ex_offer) = Ok (normal ex_offer) ∧
  to_sdp_string (normal ex_offer) = to_sdp_string ex_offer.
Proof. apply (@sdp_roundtrip ascii_unicode ascii_unicode_laws ex_offer ex_offer_wf). Defined.

(** As a peer may write it: lines without CR, blank lines, other lines *)
Definition ex_raw : str :=
  mjoin ((fun l => l ++ [10]) <$> [lit "v=0"; lit "o=- 7 2 IN IP4 127.0.0.1"; lit "s=call"; lit "t=0 0"; []; lit "a=group:BUNDLE 0";
    lit "a=sendonly"; lit "m=audio 9 UDP/TLS/RTP/SAVPF 111 0 "; lit "b=AS:64"; lit "a=mid:0"; lit "a=rtpmap:111 opus/48000/2"]).
Definition ex_parsed : SessionDescription :=
  Eval vm_compute in match @SessionDescription_parse ascii_unicode Offer ex_raw with Ok d => d | _ => ex_offer end.

Lemma sdp_reparse_witness :
  wf_description ex_parsed ∧ @SessionDescription_parse ascii_unicode Offer (to_sdp_string ex_parsed) = Ok (normal ex_parsed).
Proof.
  apply (@sdp_reparse ascii_unicode ascii_unicode_laws Offer ex_raw ex_parsed).
  - vm_compute. repeat constructor; discriminate.
  - vm_compute. reflexivity.
Defined.
