(* ===== verification/SdpCaps.v ===== *)
(** * Codec capabilities in session descriptions

    The capabilities of [config.rs], how a media section announces them and how
    they are read from one ([sdp.rs]). *)
From S2P Require Import Prelude Str Words RecordSet Rtx Sdp.

(** ** Capabilities *)

Record AudioCapability := {
  ac_payload_type : Z; ac_codec_name : str; ac_clock_rate : Z; ac_channels : Z; ac_fmtp : option str; ac_rtcp_fbs : list str;
}.
#[export] Instance eta_AudioCapability : Settable AudioCapability :=
  settable! Build_AudioCapability < ac_payload_type; ac_codec_name; ac_clock_rate; ac_channels; ac_fmtp; ac_rtcp_fbs >.
Definition AudioCapability_default : AudioCapability := {|
  ac_payload_type := 111; ac_codec_name := lit "opus"; ac_clock_rate := 48000; ac_channels := 2;
  ac_fmtp := Some (lit "minptime=10;useinbandfec=1;stereo=1"); ac_rtcp_fbs := [] |}.
(** [pcmu], [pcma], [g722] and [g729] differ in the number and the name. *)
Definition static_audio (pt : Z) (name : string) : AudioCapability := {|
  ac_payload_type := pt; ac_codec_name := lit name; ac_clock_rate := 8000; ac_channels := 1; ac_fmtp := None; ac_rtcp_fbs := [] |}.
Definition AudioCapability_opus : AudioCapability := AudioCapability_default.
Definition AudioCapability_pcmu : AudioCapability := static_audio 0 "PCMU".
Definition AudioCapability_pcma : AudioCapability := static_audio 8 "PCMA".
Definition AudioCapability_g722 : AudioCapability := static_audio 9 "G722".
Definition AudioCapability_g729 : AudioCapability := static_audio 18 "G729".
Definition AudioCapability_telephone_event : AudioCapability := {|
  ac_payload_type := 101; ac_codec_name := lit "telephone-event"; ac_clock_rate := 8000; ac_channels := 1;
  ac_fmtp := Some (lit "0-16"); ac_rtcp_fbs := [] |}.

Record VideoCapability := {
  vc_payload_type : Z; vc_codec_name : str; vc_clock_rate : Z; vc_fmtp : option str; vc_rtcp_fbs : list str;
  vc_rtx_payload_type : option Z;
}.
#[export] Instance eta_VideoCapability : Settable VideoCapability :=
  settable! Build_VideoCapability < vc_payload_type; vc_codec_name; vc_clock_rate; vc_fmtp; vc_rtcp_fbs; vc_rtx_payload_type >.
Definition VideoCapability_default : VideoCapability := {|
  vc_payload_type := 96; vc_codec_name := lit "VP8"; vc_clock_rate := 90000; vc_fmtp := None;
  vc_rtcp_fbs := [lit "nack"; lit "nack pli"; lit "ccm fir"; lit "goog-remb"; lit "transport-cc"];
  vc_rtx_payload_type := None |}.
Definition VideoCapability_h264 : VideoCapability := {|
  vc_payload_type := 96; vc_codec_name := lit "H264"; vc_clock_rate := 90000;
  vc_fmtp := Some (lit "packetization-mode=1;profile-level-id=42e01f");
  vc_rtcp_fbs := [lit "nack"; lit "nack pli"; lit "ccm fir"]; vc_rtx_payload_type := None |}.
Definition VideoCapability_vp8_with_rtx (pt : Z) : VideoCapability := VideoCapability_default <| vc_rtx_payload_type := Some pt |>.
Definition VideoCapability_vp9 : VideoCapability := {|
  vc_payload_type := 98; vc_codec_name := lit "VP9"; vc_clock_rate := 90000; vc_fmtp := Some (lit "profile-id=0");
  vc_rtcp_fbs := [lit "nack"; lit "nack pli"; lit "ccm fir"; lit "goog-remb"; lit "transport-cc"];
  vc_rtx_payload_type := None |}.
Definition VideoCapability_vp9_with_rtx (pt : Z) : VideoCapability := VideoCapability_vp9 <| vc_rtx_payload_type := Some pt |>.

Inductive T38FaxRateManagement := TransferredTCF | LocalTCF.
Definition T38FaxRateManagement_display (r : T38FaxRateManagement) : str :=
  match r with TransferredTCF => lit "transferredTCF" | LocalTCF => lit "localTCF" end.
Inductive T38UdpEC := T38UDPRedundancy | T38UDPFEC.
Definition T38UdpEC_display (e : T38UdpEC) : str :=
  match e with T38UDPRedundancy => lit "t38UDPRedundancy" | T38UDPFEC => lit "t38UDPFEC" end.

Record T38Capability := {
  tc_payload_type : Z; tc_version : Z; tc_max_bitrate : Z; tc_rate_management : T38FaxRateManagement; tc_max_buffer : Z;
  tc_max_datagram : Z; tc_udp_ec : T38UdpEC; tc_fmtp : option str;
}.
#[export] Instance eta_T38Capability : Settable T38Capability :=
  settable! Build_T38Capability < tc_payload_type; tc_version; tc_max_bitrate; tc_rate_management; tc_max_buffer;
    tc_max_datagram; tc_udp_ec; tc_fmtp >.
Definition T38Capability_default : T38Capability := {|
  tc_payload_type := 98; tc_version := 0; tc_max_bitrate := 14400; tc_rate_management := TransferredTCF;
  tc_max_buffer := 1024; tc_max_datagram := 238; tc_udp_ec := T38UDPRedundancy; tc_fmtp := None |}.

Record MediaCapabilities := {
  caps_audio : list AudioCapability; caps_video : list VideoCapability; caps_sctp_port : option Z; caps_image : list T38Capability;
}.
Definition ApplicationCapability_default_port : Z := 5000.
Definition MediaCapabilities_default : MediaCapabilities := {|
  caps_audio := [AudioCapability_opus; AudioCapability_pcmu]; caps_video := [VideoCapability_default];
  caps_sctp_port := Some ApplicationCapability_default_port; caps_image := [] |}.

Inductive RtcpMuxPolicy := MuxRequire | MuxNegotiate.
#[export] Instance RtcpMuxPolicy_eq_dec : EqDecision RtcpMuxPolicy.
Proof. solve_decision. Defined.
Inductive SdpCompatibilityMode := Standard | LegacySip.
#[export] Instance SdpCompatibilityMode_eq_dec : EqDecision SdpCompatibilityMode.
Proof. solve_decision. Defined.

(** The fields of [RtcConfiguration] that media sections depend on *)
Record MediaConfig := {
  media_capabilities : option MediaCapabilities; rtcp_mux_policy : RtcpMuxPolicy; sdp_compatibility : SdpCompatibilityMode;
}.

(** ** Reading a section *)

(** The rest of an attribute [k] for the payload type [pt] *)
Definition pt_attribute (k : string) (pt : Z) (a : Attribute) : option str :=
  if bool_decide (key a = lit k) then
    v ← value a;
    '(pt_part, rest) ← split_once 32 v;
    n ← parse_uint 256 pt_part;
    if n =? pt then Some rest else None
  else None.

(** [codec_name/clock_rate] with the rate kept when it is missing or not a number *)
Definition rtpmap_step (pt : Z) (acc : str * Z * Z) (a : Attribute) : str * Z * Z :=
  match pt_attribute "rtpmap" pt a with
  | None => acc
  | Some rest =>
      let '(_, rate, channels) := acc in
      let parts := split_char 47 rest in
      let rate := match parts !! 1%nat with Some p => default rate (parse_uint 4294967296 p) | None => rate end in
      let channels := match parts !! 2%nat with Some p => default channels (parse_uint 256 p) | None => channels end in
      (default [] (head parts), rate, channels)
  end.
Definition rtpmap_of (pt rate : Z) (attrs : list Attribute) : str * Z * Z := fold_left (rtpmap_step pt) attrs ([], rate, 1).

Definition fmtp_of (pt : Z) (attrs : list Attribute) : option str := head (omap (pt_attribute "fmtp" pt) attrs).

Definition wildcard_fb (a : Attribute) : option str :=
  if bool_decide (key a = lit "rtcp-fb") then
    v ← value a; '(pt_part, rest) ← split_once 32 v;
    if bool_decide (pt_part = lit "*") then Some rest else None
  else None.

(** [if !contains { push }] *)
Definition push_new (l : list str) (x : str) : list str := if bool_decide (x ∈ l) then l else l ++ [x].

Definition video_guess (pt : Z) : str :=
  if (96 <=? pt) && (pt <=? 98) then lit "VP8" else if (pt =? 99) || (pt =? 100) then lit "H264" else
  if pt =? 101 then lit "VP9" else if pt =? 102 then lit "AV1" else lit "unknown".

(** One format: [None] when it is not a number or a retransmission format *)
Definition video_capability (m : MediaSection) (fmt : str) : option VideoCapability :=
  pt ← parse_uint 256 fmt;
  let '(codec_name, clock_rate, _) := rtpmap_of pt 90000 (attributes m) in
  let codec_name := if (length codec_name =? 0)%nat then video_guess pt else codec_name in
  let rtcp_fbs := fold_left push_new (omap (pt_attribute "rtcp-fb" pt) (attributes m)) (omap wildcard_fb (attributes m)) in
  if eq_ignore_ascii_case codec_name (lit "rtx") then None else
  Some {| vc_payload_type := pt; vc_codec_name := codec_name; vc_clock_rate := clock_rate; vc_fmtp := fmtp_of pt (attributes m);
          vc_rtcp_fbs := rtcp_fbs; vc_rtx_payload_type := None |}.

Definition attach_rtx (apt_map : list (Z * Z)) (c : VideoCapability) : VideoCapability :=
  match rtx_pt_for_primary apt_map (vc_payload_type c) with
  | Some rtx => c <| vc_rtx_payload_type := Some rtx |>
  | None => c
  end.

Definition to_video_capabilities (m : MediaSection) : list VideoCapability :=
  if negb (bool_decide (kind m = Video)) then [] else
  attach_rtx (extract_rtx_apt_map_from_attrs (attributes m)) <$> omap (video_capability m) (formats m).

Definition audio_guess (pt : Z) : str * Z * Z :=
  if pt =? 0 then (lit "PCMU", 8000, 1) else if pt =? 8 then (lit "PCMA", 8000, 1) else
  if pt =? 9 then (lit "G722", 8000, 1) else if pt =? 18 then (lit "G729", 8000, 1) else
  if pt =? 111 then (lit "opus", 48000, 2) else if pt =? 101 then (lit "telephone-event", 8000, 1) else
  (lit "unknown", 8000, 1).

Definition audio_capability (m : MediaSection) (fmt : str) : option AudioCapability :=
  pt ← parse_uint 256 fmt;
  let '(codec_name, clock_rate, channels) := rtpmap_of pt 8000 (attributes m) in
  let '(codec_name, clock_rate, channels) :=
    if (length codec_name =? 0)%nat then audio_guess pt else (codec_name, clock_rate, channels) in
  let fmtp := fmtp_of pt (attributes m) in
  let fmtp := if bool_decide (fmtp = None) && (pt =? 101) then Some (lit "0-16") else fmtp in
  Some {| ac_payload_type := pt; ac_codec_name := codec_name; ac_clock_rate := clock_rate; ac_channels := channels;
          ac_fmtp := fmtp; ac_rtcp_fbs := omap (pt_attribute "rtcp-fb" pt) (attributes m) |}.

Definition to_audio_capabilities (m : MediaSection) : list AudioCapability :=
  if negb (bool_decide (kind m = Audio)) then [] else omap (audio_capability m) (formats m).

Definition t38_step (c : T38Capability) (a : Attribute) : T38Capability :=
  match value a with
  | None => c
  | Some v =>
      if bool_decide (key a = lit "T38FaxVersion") then c <| tc_version := default (tc_version c) (parse_uint 256 v) |> else
      if bool_decide (key a = lit "T38MaxBitRate") then c <| tc_max_bitrate := default (tc_max_bitrate c) (parse_uint 4294967296 v) |> else
      if bool_decide (key a = lit "T38FaxRateManagement") then
        c <| tc_rate_management := if bool_decide (v = lit "localTCF") then LocalTCF else TransferredTCF |> else
      if bool_decide (key a = lit "T38FaxMaxBuffer") then c <| tc_max_buffer := default (tc_max_buffer c) (parse_uint 65536 v) |> else
      if bool_decide (key a = lit "T38FaxMaxDatagram") then c <| tc_max_datagram := default (tc_max_datagram c) (parse_uint 65536 v) |> else
      if bool_decide (key a = lit "T38FaxUdpEC") then
        c <| tc_udp_ec := if bool_decide (v = lit "t38UDPFEC") then T38UDPFEC else T38UDPRedundancy |> else c
  end.
Definition to_image_capabilities (m : MediaSection) : list T38Capability :=
  if negb (bool_decide (kind m = Image)) then [] else
  (fun fmt => fold_left t38_step (attributes m)
     (T38Capability_default <| tc_payload_type := default 98 (parse_uint 256 fmt) |>)) <$> formats m.

(** All sections of a description *)
Definition description_video_capabilities (d : SessionDescription) : list VideoCapability :=
  concat (to_video_capabilities <$> video_sections d).
Definition description_audio_capabilities (d : SessionDescription) : list AudioCapability :=
  concat (to_audio_capabilities <$> audio_sections d).
Definition description_image_capabilities (d : SessionDescription) : list T38Capability :=
  concat (to_image_capabilities <$> image_sections d).

(** ** Announcing capabilities *)

Definition or_default {A} (l : list A) (d : A) : list A := if (length l =? 0)%nat then [d] else l.
Definition configured {A} (f : MediaCapabilities → list A) (d : A) (c : MediaConfig) : list A :=
  match media_capabilities c with Some caps => or_default (f caps) d | None => [d] end.

Definition rtcp_mux (c : MediaConfig) : list Attribute :=
  if bool_decide (rtcp_mux_policy c = MuxRequire) && negb (bool_decide (sdp_compatibility c = LegacySip))
  then [Attribute_new (lit "rtcp-mux") None] else [].

Definition attr (k : string) (v : str) : Attribute := Attribute_new (lit k) (Some v).
Definition pt_attr (k : string) (pt : Z) (v : str) : Attribute := attr k (show_uint pt ++ lit " " ++ v).

Definition audio_attributes (a : AudioCapability) : list Attribute :=
  let rtpmap := ac_codec_name a ++ lit "/" ++ show_uint (ac_clock_rate a) ++
                (if ac_channels a =? 1 then [] else lit "/" ++ show_uint (ac_channels a)) in
  pt_attr "rtpmap" (ac_payload_type a) rtpmap ::
  match ac_fmtp a with Some f => [pt_attr "fmtp" (ac_payload_type a) f] | None => [] end ++
  (pt_attr "rtcp-fb" (ac_payload_type a) <$> ac_rtcp_fbs a).
Definition apply_audio_config (c : MediaConfig) (m : MediaSection) : MediaSection :=
  let caps := configured caps_audio AudioCapability_default c in
  m <| formats := (fun a => show_uint (ac_payload_type a)) <$> caps |>
    <| attributes ::= fun l => l ++ rtcp_mux c ++ concat (audio_attributes <$> caps) |>.

Definition video_attributes (v : VideoCapability) : list Attribute :=
  pt_attr "rtpmap" (vc_payload_type v) (vc_codec_name v ++ lit "/" ++ show_uint (vc_clock_rate v)) ::
  match vc_fmtp v with Some f => [pt_attr "fmtp" (vc_payload_type v) f] | None => [] end ++
  (pt_attr "rtcp-fb" (vc_payload_type v) <$> vc_rtcp_fbs v).
Definition add_video (fa : list str * list Attribute) (v : VideoCapability) : list str * list Attribute :=
  let '(formats, attrs) := fa in
  let attrs := attrs ++ video_attributes v in
  match vc_rtx_payload_type v with
  | Some rtx_pt => append_rtx_to_section formats attrs (vc_payload_type v) rtx_pt (vc_clock_rate v)
  | None => (formats, attrs)
  end.
Definition apply_video_config (c : MediaConfig) (m : MediaSection) : MediaSection :=
  let caps := configured caps_video VideoCapability_default c in
  let '(fs, attrs) := fold_left add_video caps ((fun v => show_uint (vc_payload_type v)) <$> caps, attributes m ++ rtcp_mux c) in
  m <| formats := fs |> <| attributes := attrs |>.

Definition apply_application_config (c : MediaConfig) (m : MediaSection) : MediaSection :=
  let port := match media_capabilities c with
              | Some caps => default ApplicationCapability_default_port (caps_sctp_port caps)
              | None => ApplicationCapability_default_port
              end in
  m <| protocol := lit "UDP/DTLS/SCTP" |> <| formats := [lit "webrtc-datachannel"] |>
    <| attributes ::= fun l => l ++ [attr "sctp-port" (show_uint port)] |>.

Definition t38_attributes (t : T38Capability) : list Attribute :=
  [attr "T38FaxVersion" (show_uint (tc_version t)); attr "T38MaxBitRate" (show_uint (tc_max_bitrate t));
   attr "T38FaxRateManagement" (T38FaxRateManagement_display (tc_rate_management t));
   attr "T38FaxMaxBuffer" (show_uint (tc_max_buffer t)); attr "T38FaxMaxDatagram" (show_uint (tc_max_datagram t));
   attr "T38FaxUdpEC" (T38UdpEC_display (tc_udp_ec t))].
Definition apply_image_config (c : MediaConfig) (m : MediaSection) : MediaSection :=
  let caps := configured caps_image T38Capability_default c in
  m <| protocol := lit "udptl" |> <| formats := (fun t => show_uint (tc_payload_type t)) <$> caps |>
    <| attributes ::= fun l => l ++ concat (t38_attributes <$> caps) |>.

Definition apply_config (c : MediaConfig) (m : MediaSection) : MediaSection :=
  match kind m with
  | Audio => apply_audio_config c m
  | Video => apply_video_config c m
  | Application => apply_application_config c m
  | Image => apply_image_config c m
  end.
