(* ===== verification/SdpCapsFacts.v ===== *)
(** * Announced capabilities are read back

    What [apply_config] writes into a media section, [to_audio_capabilities],
    [to_video_capabilities] and [to_image_capabilities] read from it. *)
From S2P Require Import Prelude Str Words RecordSet BTree Rtx Sdp SdpCaps.

Lemma split_char_app sep a b : Forall (λ c, c ≠ sep) a → split_char sep (a ++ sep :: b) = a :: split_char sep b.
Proof.
  induction 1 as [|c a Hc _ IH]; cbn [app split_char]; [by rewrite Z.eqb_refl|]. by rewrite (proj2 (Z.eqb_neq _ _)), IH.
Qed.

Lemma not_slash : ¬ digit 47.
Proof. unfold digit. lia. Qed.
Lemma digits_not c n : 0 ≤ n → ¬ digit c → Forall (λ d, d ≠ c) (show_uint n).
Proof. intros Hn Hc. eapply Forall_impl; [by apply show_uint_digits|]. by intros d Hd ->. Qed.

Lemma omap_concat {A B} (f : A → option B) (ls : list (list A)) : omap f (concat ls) = concat ((omap f : list A → list B) <$> ls).
Proof. induction ls as [|l ls IH]; [done|]. cbn [concat fmap list_fmap]. by rewrite omap_app, IH. Qed.

Lemma concat_single {A B} (p : A → Z) (f : A → list B) l a :
  NoDup (p <$> l) → a ∈ l → (∀ b, b ∈ l → p b ≠ p a → f b = []) → concat (f <$> l) = f a.
Proof.
  intros Hn Ha Hf. induction l as [|b l IH]; [by apply not_elem_of_nil in Ha|]. cbn [fmap list_fmap concat] in *.
  apply NoDup_cons in Hn as [Hb Hn]. apply elem_of_cons in Ha as [->|Ha].
  - assert (concat (f <$> l) = []) as ->; [|apply app_nil_r].
    assert (∀ c, c ∈ l → f c = []) as Hc.
    { intros c Hc. apply Hf; [by right|]. intros E. apply Hb. rewrite <- E. by apply list_elem_of_fmap_2. }
    clear -Hc. induction l as [|c l IH]; [done|]. cbn [fmap list_fmap concat]. rewrite Hc, IH; [done| |left]. intros d Hd. apply Hc. by right.
  - rewrite (Hf b); [apply IH; try done| |]; [intros c Hc; apply Hf; by right|left|].
    intros E. apply Hb. rewrite E. by apply list_elem_of_fmap_2.
Qed.

Lemma NoDup_omap_inj {A} (f : A → option Z) l a b x :
  NoDup (omap f l) → a ∈ l → b ∈ l → f a = Some x → f b = Some x → a = b.
Proof.
  intros Hn Ha Hb Ea Eb. induction l as [|c l IH]; [by apply not_elem_of_nil in Ha|].
  cbn [omap list_omap] in Hn. assert (∀ d, d ∈ l → f d = Some x → x ∈ omap f l) as Hin by (intros d Hd Ed; apply list_elem_of_omap; by exists d).
  apply elem_of_cons in Ha as [->|Ha]; apply elem_of_cons in Hb as [->|Hb]; [done|..].
  - rewrite Ea in Hn. apply NoDup_cons in Hn as [Hx _]. destruct Hx. by eapply Hin.
  - rewrite Eb in Hn. apply NoDup_cons in Hn as [Hx _]. destruct Hx. by eapply Hin.
  - apply IH; try done. destruct (f c); [by apply NoDup_cons in Hn as [_ ?]|done].
Qed.

(** ** Attributes for a payload type *)

Lemma pt_attribute_pt k k' pt pt' v :
  u8 pt' → pt_attribute k pt (pt_attr k' pt' v) = if bool_decide (lit k' = lit k) && (pt' =? pt) then Some v else None.
Proof.
  intros Hp. unfold pt_attribute, pt_attr, attr. cbn [key value Attribute_new]. case_bool_decide as E; cbn [andb]; [|done].
  cbn [mbind option_bind]. change (lit " " ++ v) with (32 :: v). rewrite (split_once_app 32 (show_uint pt') v) by (apply digits_not; [ulia|unfold digit; lia]).
  cbn [mbind option_bind]. rewrite parse_show_uint by ulia. done.
Qed.

Lemma pt_attribute_other k pt a : key a ≠ lit k → pt_attribute k pt a = None.
Proof. intros Hk. unfold pt_attribute. by rewrite bool_decide_false. Qed.

(** What the section held before does not matter. *)
Definition no_codec (l : list Attribute) : Prop :=
  Forall (fun a => key a ≠ lit "rtpmap" ∧ key a ≠ lit "fmtp" ∧ key a ≠ lit "rtcp-fb") l.

Lemma omap_no_codec k pt l :
  no_codec l → (k = "rtpmap" ∨ k = "fmtp" ∨ k = "rtcp-fb") → omap (pt_attribute k pt) l = [].
Proof.
  intros Hl Hk. induction Hl as [|a l (H1 & H2 & H3) _ IH]; [done|]. cbn [omap list_omap].
  rewrite pt_attribute_other; [exact IH|]. by destruct Hk as [->|[->| ->]].
Qed.

Lemma no_codec_mux c : no_codec (rtcp_mux c).
Proof. unfold rtcp_mux. destruct (_ && _); by repeat constructor. Qed.

Definition rest_step (acc : str * Z * Z) (rest : str) : str * Z * Z :=
  let '(_, rate, channels) := acc in
  let parts := split_char 47 rest in
  let rate := match parts !! 1%nat with Some p => default rate (parse_uint 4294967296 p) | None => rate end in
  let channels := match parts !! 2%nat with Some p => default channels (parse_uint 256 p) | None => channels end in
  (default [] (head parts), rate, channels).

Lemma rtpmap_of_rests pt rate l : rtpmap_of pt rate l = fold_left rest_step (omap (pt_attribute "rtpmap" pt) l) ([], rate, 1).
Proof.
  unfold rtpmap_of. generalize ([] : str, rate, 1). induction l as [|a l IH]; intros acc; [done|]. cbn [fold_left omap list_omap].
  unfold rtpmap_step at 2. destruct (pt_attribute "rtpmap" pt a); cbn [fold_left]; by rewrite IH.
Qed.

(** ** Audio *)

Record wf_audio (a : AudioCapability) : Prop := {
  wa_pt : u8 (ac_payload_type a);
  wa_name : ac_codec_name a ≠ [] ∧ Forall (λ c, c ≠ 47) (ac_codec_name a);
  wa_rate : u32 (ac_clock_rate a);
  wa_channels : u8 (ac_channels a);
}.

(** What is read back: telephone-event (101) without parameters gains them. *)
Definition audio_announced (a : AudioCapability) : AudioCapability :=
  if bool_decide (ac_fmtp a = None) && (ac_payload_type a =? 101) then a <| ac_fmtp := Some (lit "0-16") |> else a.

Definition audio_rtpmap (a : AudioCapability) : str :=
  ac_codec_name a ++ lit "/" ++ show_uint (ac_clock_rate a) ++
  (if ac_channels a =? 1 then [] else lit "/" ++ show_uint (ac_channels a)).

Lemma omap_pts k pt pt' k' l :
  u8 pt' → omap (pt_attribute k pt) (pt_attr k' pt' <$> l) = if bool_decide (lit k' = lit k) && (pt' =? pt) then l else [].
Proof.
  intros Hp. induction l as [|x l IH]; [by destruct (_ && _)|]. cbn [fmap list_fmap omap list_omap].
  rewrite pt_attribute_pt, IH by done. by destruct (_ && _).
Qed.

(** The attributes of one capability, seen from a payload type *)
Lemma audio_attributes_view a pt : u8 (ac_payload_type a) →
  let mine {A} (l : list A) := if ac_payload_type a =? pt then l else [] in
  omap (pt_attribute "rtpmap" pt) (audio_attributes a) = mine [audio_rtpmap a] ∧
  omap (pt_attribute "fmtp" pt) (audio_attributes a) = mine (option_list (ac_fmtp a)) ∧
  omap (pt_attribute "rtcp-fb" pt) (audio_attributes a) = mine (ac_rtcp_fbs a).
Proof.
  intros Hp mine. unfold audio_attributes. fold (audio_rtpmap a). cbn [omap list_omap]. rewrite !omap_app, !omap_pts by done.
  rewrite !pt_attribute_pt by done. unfold mine.
  repeat (rewrite bool_decide_true by done || rewrite bool_decide_false by done). cbn [andb].
  destruct (ac_fmtp a) as [f|]; cbn [omap list_omap]; rewrite ?pt_attribute_pt by done;
    repeat (rewrite bool_decide_true by done || rewrite bool_decide_false by done); cbn [andb];
    destruct (_ =? pt); cbn; rewrite ?app_nil_r; done.
Qed.

Lemma omap_fmap_id_map {A B C} (f : B → option C) (g : A → B) (h : A → C) (l : list A) :
  (∀ a, a ∈ l → f (g a) = Some (h a)) → omap f (g <$> l) = h <$> l.
Proof.
  induction l as [|a l IH]; intros Hf; [done|]. cbn [fmap list_fmap omap list_omap]. rewrite Hf by left.
  f_equal. apply IH. intros b Hb. apply Hf. by right.
Qed.
Lemma omap_fmap_id {A B} (f : B → option A) (g : A → B) (l : list A) :
  (∀ a, a ∈ l → f (g a) = Some a) → omap f (g <$> l) = l.
Proof. intros Hf. rewrite (omap_fmap_id_map f g id) by done. apply list_fmap_id. Qed.

(** The attributes of the capability with the payload type *)
Lemma omap_caps {C} (p : C → Z) (attrs : C → list Attribute) k base caps a v :
  no_codec base → (k = "rtpmap" ∨ k = "fmtp" ∨ k = "rtcp-fb") → NoDup (p <$> caps) → a ∈ caps →
  (∀ b, b ∈ caps → omap (pt_attribute k (p a)) (attrs b) = if p b =? p a then v b else []) →
  omap (pt_attribute k (p a)) (base ++ concat (attrs <$> caps)) = v a.
Proof.
  intros Hb Hk Hn Ha Hv. rewrite omap_app, (omap_no_codec _ _ base) by done. cbn [app]. rewrite omap_concat, <- list_fmap_compose.
  transitivity (concat ((fun b => if p b =? p a then v b else []) <$> caps)).
  - f_equal. apply list_fmap_ext. intros i b Hi. apply Hv. by eapply list_elem_of_lookup_2.
  - rewrite (concat_single p _ caps a Hn Ha); [by rewrite Z.eqb_refl|]. intros b _ Hne. by rewrite (proj2 (Z.eqb_neq _ _)).
Qed.

Lemma rtpmap_audio a rate : wf_audio a →
  fold_left rest_step [audio_rtpmap a] ([], rate, 1) = (ac_codec_name a, ac_clock_rate a, ac_channels a).
Proof.
  intros [_ [Hne Hn] Hr Hc]. cbn [fold_left rest_step]. unfold audio_rtpmap. change (lit "/") with [47]. cbn [app].
  rewrite split_char_app by done.
  destruct (Z.eqb_spec (ac_channels a) 1) as [E|E].
  - rewrite app_nil_r, split_char_none by (apply digits_not; [ulia|apply not_slash]). cbn -[parse_uint show_uint]. rewrite parse_show_uint by ulia. by rewrite E.
  - rewrite split_char_app by (apply digits_not; [ulia|apply not_slash]).
    rewrite split_char_none by (apply digits_not; [ulia|apply not_slash]). cbn -[parse_uint show_uint]. by rewrite !parse_show_uint by ulia.
Qed.

Lemma head_option_list {A} (o : option A) : head (option_list o) = o.
Proof. by destruct o. Qed.

Lemma audio_caps_read c m :
  let caps := configured caps_audio AudioCapability_default c in
  kind m = Audio → no_codec (attributes m) → Forall wf_audio caps → NoDup (ac_payload_type <$> caps) →
  to_audio_capabilities (apply_config c m) = audio_announced <$> caps.
Proof.
  intros caps Hk Hm Hw Hn. unfold to_audio_capabilities, apply_config. rewrite Hk. unfold apply_audio_config. fold caps.
  rewrite bool_decide_true by done. cbn [negb]. rs. apply omap_fmap_id_map. intros a Ha.
  rewrite Forall_forall in Hw. pose proof (Hw a Ha) as Wa. unfold audio_capability. rewrite parse_show_uint by (destruct Wa; ulia).
  cbn [mbind option_bind]. rs. rewrite app_assoc. set (base := attributes m ++ rtcp_mux c).
  assert (no_codec base) as Hb by (apply Forall_app; split; [done|apply no_codec_mux]).
  pose proof (fun b Hb' => audio_attributes_view b (ac_payload_type a) (wa_pt b (Hw b Hb'))) as Hv. cbv zeta in Hv.
  rewrite rtpmap_of_rests. unfold fmtp_of.
  rewrite (omap_caps ac_payload_type _ "rtpmap" base caps a (fun b => [audio_rtpmap b])) by (auto; intros; by apply Hv).
  rewrite (omap_caps ac_payload_type _ "fmtp" base caps a (fun b => option_list (ac_fmtp b))) by (auto; intros; by apply Hv).
  rewrite (omap_caps ac_payload_type _ "rtcp-fb" base caps a ac_rtcp_fbs) by (auto; intros; by apply Hv).
  rewrite rtpmap_audio, head_option_list by done. destruct Wa as [H1 [H2 _] _ _].
  destruct (ac_codec_name a) as [|d w] eqn:En; [done|]. cbn [length Nat.eqb]. rewrite <- En.
  unfold audio_announced. destruct (bool_decide (ac_fmtp a = None) && (ac_payload_type a =? 101)); by destruct a.
Qed.

(** ** Video *)

Record wf_video (v : VideoCapability) : Prop := {
  wv_pt : u8 (vc_payload_type v);
  wv_name : vc_codec_name v ≠ [] ∧ Forall (λ c, c ≠ 47) (vc_codec_name v) ∧ eq_ignore_ascii_case (vc_codec_name v) (lit "rtx") = false;
  wv_rate : u32 (vc_clock_rate v);
  wv_fmtp : match vc_fmtp v with Some f => parse_apt f = None | None => True end;
  wv_rtx : match vc_rtx_payload_type v with Some r => u8 r | None => True end;
}.

Definition video_rtpmap (v : VideoCapability) : str := vc_codec_name v ++ lit "/" ++ show_uint (vc_clock_rate v).
Definition rtx_rtpmap (v : VideoCapability) : str := lit "rtx/" ++ show_uint (vc_clock_rate v).
Definition rtx_attributes (v : VideoCapability) : list Attribute :=
  match vc_rtx_payload_type v with
  | Some r => [pt_attr "rtpmap" r (rtx_rtpmap v); pt_attr "fmtp" r (lit "apt=" ++ show_uint (vc_payload_type v))]
  | None => []
  end.
Definition all_attributes (v : VideoCapability) : list Attribute := video_attributes v ++ rtx_attributes v.

Definition rtx_pts (caps : list VideoCapability) : list Z := omap vc_rtx_payload_type caps.

Lemma show_inj n m : u8 n → u8 m → show_uint n = show_uint m → n = m.
Proof.
  intros Hn Hm E. pose proof (parse_show_uint 256 n ltac:(ulia) ltac:(ulia)) as H1.
  pose proof (parse_show_uint 256 m ltac:(ulia) ltac:(ulia)) as H2. rewrite E in H1. congruence.
Qed.

(** No association is announced twice. *)
Lemma append_rtx_fresh fs attrs pt r clock :
  u8 r → show_uint r ∉ fs → Forall (fun a => pt_attribute "rtpmap" r a = None) attrs →
  append_rtx_to_section fs attrs pt r clock =
    (fs ++ [show_uint r],
     attrs ++ [pt_attr "rtpmap" r (lit "rtx/" ++ show_uint clock); pt_attr "fmtp" r (lit "apt=" ++ show_uint pt)]).
Proof.
  intros Hr Hf Ha. unfold append_rtx_to_section. rewrite bool_decide_false by done. rewrite bool_decide_false; [done|].
  intros (a & Hin & Ek & Ev)%Exists_exists. rewrite Forall_forall in Ha. specialize (Ha a Hin).
  assert (a = pt_attr "rtpmap" r (lit "rtx/" ++ show_uint clock)) as -> by (destruct a; cbn in *; by subst).
  rewrite pt_attribute_pt, Z.eqb_refl in Ha by done. by rewrite bool_decide_true in Ha.
Qed.

Lemma pt_attr_other k p s r : u8 p → p ≠ r → pt_attribute "rtpmap" r (pt_attr k p s) = None.
Proof. intros Hu Hp. rewrite pt_attribute_pt by done. rewrite (proj2 (Z.eqb_neq _ _)) by done. by rewrite andb_false_r. Qed.

Lemma video_attributes_other v r : u8 (vc_payload_type v) → vc_payload_type v ≠ r →
  Forall (fun a => pt_attribute "rtpmap" r a = None) (video_attributes v).
Proof.
  intros Hp Hne. unfold video_attributes. constructor; [by apply pt_attr_other|]. apply Forall_app. split.
  - destruct (vc_fmtp v); repeat constructor; by apply pt_attr_other.
  - apply Forall_fmap, Forall_forall. intros s _. by apply pt_attr_other.
Qed.

Lemma all_attributes_other v r : u8 (vc_payload_type v) → match vc_rtx_payload_type v with Some r => u8 r | None => True end →
  vc_payload_type v ≠ r → vc_rtx_payload_type v ≠ Some r → Forall (fun a => pt_attribute "rtpmap" r a = None) (all_attributes v).
Proof.
  intros Hp Hx Hne Hr. apply Forall_app. split; [by apply video_attributes_other|]. unfold rtx_attributes.
  destruct (vc_rtx_payload_type v) as [r'|]; [|constructor]. assert (r' ≠ r) by congruence. repeat constructor; by apply pt_attr_other.
Qed.

Lemma fold_add_video caps : ∀ fs base,
  Forall wf_video caps → NoDup (rtx_pts caps) →
  (∀ r, r ∈ rtx_pts caps → (show_uint r ∉ fs) ∧ (r ∉ vc_payload_type <$> caps) ∧ Forall (fun a => pt_attribute "rtpmap" r a = None) base) →
  fold_left add_video caps (fs, base) = (fs ++ (show_uint <$> rtx_pts caps), base ++ concat (all_attributes <$> caps)).
Proof.
  induction caps as [|v caps IH]; intros fs base Hw Hn Hr; [by rewrite !app_nil_r|].
  apply Forall_cons in Hw as [Hv Hw]. cbn [fold_left fmap list_fmap concat].
  destruct Hv as [H1 H2 H3 H4 H6].
  assert (∀ r, r ∈ rtx_pts caps → (r ∉ vc_payload_type <$> caps) ∧ Forall (fun a => pt_attribute "rtpmap" r a = None) (base ++ all_attributes v) ∧
    show_uint r ∉ fs) as Hc.
  { intros r Hin. assert (r ∈ rtx_pts (v :: caps)) as Hin'.
    { unfold rtx_pts. cbn. destruct (vc_rtx_payload_type v); [by right|done]. }
    destruct (Hr r Hin') as (F1 & F2 & F3). cbn [fmap list_fmap] in F2. apply not_elem_of_cons in F2 as [F2 F2'].
    split; [done|]. split; [|done]. apply Forall_app. split; [done|]. apply all_attributes_other; [done..|congruence|].
    intros E. unfold rtx_pts in Hn. cbn in Hn. rewrite E in Hn. by apply NoDup_cons in Hn as [? _]. }
  unfold add_video at 2. unfold all_attributes in Hc |- *. unfold rtx_attributes in *. unfold rtx_pts in Hn, Hr |- *.
  cbn [omap list_omap] in *. destruct (vc_rtx_payload_type v) as [r|] eqn:Er.
  - destruct (Hr r ltac:(left)) as (F1 & F2 & F3). apply not_elem_of_cons in F2 as [F2 _]. apply NoDup_cons in Hn as [N1 N2].
    rewrite append_rtx_fresh; [|done|done|].
    + rewrite IH; [|done|done|].
      * cbn [fmap list_fmap]. by rewrite <- !app_assoc.
      * intros r' Hin. destruct (Hc r' Hin) as (G1 & G2 & G3). split; [|split; [done|by rewrite <- app_assoc]].
        intros [?|E%list_elem_of_singleton]%elem_of_app; [done|]. apply show_inj in E as ->; [done| |done].
        clear -Hw Hin. apply list_elem_of_omap in Hin as (b & Hb & Eb). rewrite Forall_forall in Hw. apply Hw in Hb.
        destruct Hb as [_ _ _ _ Hb]. by rewrite Eb in Hb.
    + apply Forall_app. split; [done|]. apply video_attributes_other; [done|congruence].
  - rewrite app_nil_r in *. rewrite IH; [by rewrite <- app_assoc|done|done|].
    intros r Hin. destruct (Hc r Hin) as (G1 & G2 & G3). done.
Qed.

(** What is there under a condition *)
Definition sel {A} (b : bool) (l : list A) : list A := if b then l else [].

Lemma all_attributes_view v pt : wf_video v →
  let mine := vc_payload_type v =? pt in
  let rtx := bool_decide (vc_rtx_payload_type v = Some pt) in
  omap (pt_attribute "rtpmap" pt) (all_attributes v) = sel mine [video_rtpmap v] ++ sel rtx [rtx_rtpmap v] ∧
  omap (pt_attribute "fmtp" pt) (all_attributes v) =
    sel mine (option_list (vc_fmtp v)) ++ sel rtx [lit "apt=" ++ show_uint (vc_payload_type v)] ∧
  omap (pt_attribute "rtcp-fb" pt) (all_attributes v) = sel mine (vc_rtcp_fbs v).
Proof.
  intros [Hp _ _ _ Hr] mine rtx. unfold all_attributes, video_attributes. fold (video_rtpmap v).
  assert (∀ k, omap (pt_attribute k pt) (rtx_attributes v) =
    sel rtx (if bool_decide (lit "rtpmap" = lit k) then [rtx_rtpmap v] else if bool_decide (lit "fmtp" = lit k)
         then [lit "apt=" ++ show_uint (vc_payload_type v)] else [])) as Ex.
  { intros k. unfold rtx_attributes, rtx, sel. destruct (vc_rtx_payload_type v) as [r|]; [|by rewrite bool_decide_false].
    cbn [omap list_omap]. rewrite !pt_attribute_pt by done. destruct (Z.eqb_spec r pt) as [->|Hne].
    - rewrite (bool_decide_true (Some pt = Some pt)) by done. case_bool_decide as E1; [|by case_bool_decide].
      rewrite bool_decide_false; [done|]. rewrite <- E1. done.
    - rewrite !andb_false_r. rewrite bool_decide_false; [done|]. congruence. }
  rewrite !omap_app, !Ex. cbn [omap list_omap]. rewrite !omap_app, !omap_pts by done. rewrite !pt_attribute_pt by done.
  unfold mine, rtx, sel. repeat (rewrite bool_decide_true by done || rewrite bool_decide_false by done). cbn [andb].
  destruct (vc_fmtp v) as [f|]; cbn [omap list_omap option_list]; rewrite ?pt_attribute_pt by done;
    repeat (rewrite (bool_decide_true (lit _ = lit _)) by done || rewrite (bool_decide_false (lit _ = lit _)) by done); cbn [andb];
    destruct (_ =? pt); destruct (bool_decide _); cbn; rewrite ?app_nil_r; done.
Qed.

(** ** The associations *)

Lemma apt_step_pt k pt v m : u8 pt →
  apt_step m (lit k, Some (show_uint pt ++ lit " " ++ v)) =
    if bool_decide (lit k = lit "fmtp") then match parse_apt v with Some p => bt_insert pt p m | None => m end else m.
Proof.
  intros Hp. unfold apt_step. cbn [fst snd]. case_bool_decide as E; cbn [negb]; [|done].
  change (lit " " ++ v) with (32 :: v). rewrite split_once_app by (apply digits_not; [ulia|unfold digit; lia]).
  by rewrite parse_show_uint by ulia.
Qed.

Abbreviation pairs := (fmap (fun a : Attribute => (key a, value a))).

Lemma apt_pts k pt l m : u8 pt → lit k ≠ lit "fmtp" → foldl apt_step m (pairs (pt_attr k pt <$> l)) = m.
Proof.
  intros Hp Hk. induction l as [|v l IH]; [done|]. cbn [fmap list_fmap foldl].
  change (apt_step m (key (pt_attr k pt v), value (pt_attr k pt v))) with (apt_step m (lit k, Some (show_uint pt ++ lit " " ++ v))).
  by rewrite apt_step_pt, bool_decide_false.
Qed.

Definition note_rtx (m : list (Z * Z)) (v : VideoCapability) : list (Z * Z) :=
  match vc_rtx_payload_type v with Some r => bt_insert r (vc_payload_type v) m | None => m end.

Lemma apt_all v m : wf_video v → foldl apt_step m (pairs (all_attributes v)) = note_rtx m v.
Proof.
  intros [Hp _ _ Hf Hr]. unfold all_attributes, video_attributes. rewrite fmap_app. cbn [fmap list_fmap app foldl].
  rewrite foldl_app. change (apt_step m _) with (apt_step m (lit "rtpmap", Some (show_uint (vc_payload_type v) ++ lit " " ++ video_rtpmap v))).
  rewrite apt_step_pt by done. rewrite bool_decide_false by done. rewrite fmap_app, foldl_app, apt_pts by done.
  assert (foldl apt_step m (pairs match vc_fmtp v with Some f => [pt_attr "fmtp" (vc_payload_type v) f] | None => [] end) = m) as ->.
  { destruct (vc_fmtp v) as [f|]; [|done]. cbn [fmap list_fmap foldl].
    change (apt_step m _) with (apt_step m (lit "fmtp", Some (show_uint (vc_payload_type v) ++ lit " " ++ f))).
    rewrite apt_step_pt by done. rewrite bool_decide_true by done. by rewrite Hf. }
  unfold rtx_attributes, note_rtx. destruct (vc_rtx_payload_type v) as [r|]; [|done]. cbn [fmap list_fmap foldl].
  change (apt_step m _) with (apt_step m (lit "rtpmap", Some (show_uint r ++ lit " " ++ rtx_rtpmap v))).
  rewrite apt_step_pt by done. rewrite bool_decide_false by done.
  change (apt_step m _) with (apt_step m (lit "fmtp", Some (show_uint r ++ lit " " ++ lit "apt=" ++ show_uint (vc_payload_type v)))).
  rewrite apt_step_pt by done. rewrite bool_decide_true by done. by rewrite parse_apt_line.
Qed.

Lemma apt_caps caps : ∀ m, Forall wf_video caps → foldl apt_step m (pairs (concat (all_attributes <$> caps))) = fold_left note_rtx caps m.
Proof.
  induction caps as [|v caps IH]; intros m Hw; [done|]. apply Forall_cons in Hw as [Hv Hw].
  cbn [fmap list_fmap concat fold_left]. rewrite fmap_app, foldl_app, apt_all by done. by apply IH.
Qed.

Lemma apt_base base m : no_codec base → foldl apt_step m (pairs base) = m.
Proof.
  intros Hb. induction Hb as [|a l (_ & Hk & _) _ IH]; [done|]. cbn [fmap list_fmap foldl].
  unfold apt_step at 2. cbn [fst snd]. by rewrite bool_decide_false.
Qed.

Lemma note_rtx_get caps : ∀ m r p, bt_wf m → NoDup (rtx_pts caps) →
  bt_get r (fold_left note_rtx caps m) = Some p ↔
    (∃ v, v ∈ caps ∧ vc_rtx_payload_type v = Some r ∧ vc_payload_type v = p) ∨ ((r ∉ rtx_pts caps) ∧ bt_get r m = Some p).
Proof.
  induction caps as [|v caps IH]; intros m r p Hm Hn.
  { cbn. split; [right; split; [apply not_elem_of_nil|done]|]. intros [(v & Hv & _)|[_ ?]]; [by apply not_elem_of_nil in Hv|done]. }
  cbn [fold_left]. unfold note_rtx at 2. unfold rtx_pts in Hn |- *. cbn [omap list_omap] in Hn |- *.
  destruct (vc_rtx_payload_type v) as [r'|] eqn:Er.
  - apply NoDup_cons in Hn as [N1 N2]. rewrite IH by (done || by apply bt_insert_wf). rewrite bt_get_insert by done. split.
    + intros [(w & Hw & E)|[Hr Hg]]; [left; exists w; by split; [right|]|].
      destruct (Z.eqb_spec r r') as [->|Hne]; [left; exists v; split; [left|by simplify_eq]|].
      right. split; [|done]. by apply not_elem_of_cons.
    + intros [(w & [->|Hw]%elem_of_cons & E1 & E2)|[[Hr Hr']%not_elem_of_cons Hg]].
      * right. simplify_eq. split; [done|]. by rewrite Z.eqb_refl.
      * left. by exists w.
      * right. split; [done|]. by rewrite (proj2 (Z.eqb_neq _ _)).
  - rewrite IH by done. split.
    + intros [(w & Hw & E)|[Hr Hg]]; [left; exists w; by split; [right|]|by right].
    + intros [(w & [->|Hw]%elem_of_cons & E1 & E2)|[Hr Hg]]; [congruence|left; by exists w|by right].
Qed.

Lemma rtx_for_primary_get m r p : bt_wf m → rtx_pt_for_primary m p = Some r → bt_get r m = Some p.
Proof.
  induction m as [|[k v] m IH]; [done|]. intros [Hm Hall]%bt_wf_cons. cbn [rtx_pt_for_primary bt_get].
  destruct (Z.eqb_spec v p) as [->|Hne]; [intros [= ->]; by rewrite Z.eqb_refl|]. intros E.
  pose proof (IH Hm E) as Hg. destruct (Z.eqb_spec r k) as [->|]; [|done].
  exfalso. rewrite Forall_forall in Hall. assert (k ∈ m.*1) as Hk by (apply bt_get_elem; by eexists). apply Hall in Hk. lia.
Qed.

Record wf_videos (caps : list VideoCapability) : Prop := {
  wvs_each : Forall wf_video caps;
  wvs_distinct : NoDup ((vc_payload_type <$> caps) ++ rtx_pts caps);
}.

(** [push_new] keeps the first of equal feedbacks. *)
Fixpoint once (l : list str) : list str :=
  match l with
  | [] => []
  | x :: l => x :: filter (λ y, y ≠ x) (once l)
  end.
Definition video_announced (v : VideoCapability) : VideoCapability := v <| vc_rtcp_fbs ::= once |>.

Lemma filter_snoc_ne (x : str) l acc :
  x ∉ acc → x :: filter (λ y, y ∉ acc ++ [x]) l = filter (λ y, y ∉ acc) (x :: filter (λ y, y ≠ x) l).
Proof.
  intros Hx. rewrite filter_cons_True by done. f_equal. rewrite list_filter_filter. apply list_filter_iff. intros y. rewrite not_elem_of_app, list_elem_of_singleton. tauto.
Qed.
Lemma push_new_all l : ∀ acc, fold_left push_new l acc = acc ++ filter (λ y, y ∉ acc) (once l).
Proof.
  induction l as [|x l IH]; intros acc; [by rewrite app_nil_r|]. cbn [fold_left once]. rewrite IH. unfold push_new. case_bool_decide as Hx.
  - f_equal. rewrite filter_cons_False by (intros Hn; by apply Hn). rewrite list_filter_filter. apply list_filter_iff. intros y. split; [|tauto]. intros Hy. split; [done|by intros ->].
  - rewrite <- app_assoc. cbn [app]. by rewrite <- filter_snoc_ne.
Qed.
Lemma push_new_once l : fold_left push_new l [] = once l.
Proof.
  rewrite push_new_all. cbn [app]. induction (once l) as [|y k IH]; [done|]. rewrite filter_cons_True by apply not_elem_of_nil. by rewrite IH.
Qed.

Lemma wildcard_pt k pt v : u8 pt → wildcard_fb (pt_attr k pt v) = None.
Proof.
  intros Hp. unfold wildcard_fb. case_bool_decide; [|done]. cbn [value pt_attr attr Attribute_new mbind option_bind].
  change (lit " " ++ v) with (32 :: v). rewrite split_once_app by (apply digits_not; [ulia|unfold digit; lia]). cbn [mbind option_bind].
  rewrite bool_decide_false; [done|]. intros E. pose proof (show_uint_digits pt ltac:(ulia)) as Hd. rewrite E in Hd.
  apply Forall_cons in Hd as [[Hd _] _]. by destruct (Hd eq_refl).
Qed.

Lemma omap_none {A B} (f : A → option B) l : (∀ a, a ∈ l → f a = None) → omap f l = [].
Proof.
  induction l as [|a l IH]; intros Hf; [done|]. cbn [omap list_omap]. rewrite Hf by left. apply IH. intros b Hb. apply Hf. by right.
Qed.

Lemma wildcard_all v : wf_video v → omap wildcard_fb (all_attributes v) = [].
Proof.
  intros [Hp _ _ _ Hr]. apply omap_none. intros a Ha. unfold all_attributes, video_attributes, rtx_attributes in Ha.
  assert (∃ k pt s, a = pt_attr k pt s ∧ u8 pt) as (k & pt & s & -> & Hpt); [|by apply wildcard_pt].
  apply elem_of_app in Ha as [[->|[Ha|Ha]%elem_of_app]%elem_of_cons|Ha].
  - by do 3 eexists; split; [reflexivity|].
  - destruct (vc_fmtp v); [|by apply not_elem_of_nil in Ha]. apply list_elem_of_singleton in Ha as ->. by do 3 eexists; split; [reflexivity|].
  - apply list_elem_of_fmap in Ha as (s & -> & _). by do 3 eexists; split; [reflexivity|].
  - destruct (vc_rtx_payload_type v); [|by apply not_elem_of_nil in Ha].
    apply elem_of_cons in Ha as [->|Ha%list_elem_of_singleton]; subst; by do 3 eexists; split; [reflexivity|].
Qed.

Lemma wildcard_base l : no_codec l → omap wildcard_fb l = [].
Proof.
  intros Hl. apply omap_none. intros a Ha. unfold no_codec in Hl. rewrite Forall_forall in Hl. apply Hl in Ha as (_ & _ & Hk).
  unfold wildcard_fb. by rewrite bool_decide_false.
Qed.

Section video.
Context (base : list Attribute) (caps : list VideoCapability).
Context (Hb : no_codec base) (Hw : wf_videos caps).

Let attrs := base ++ concat (all_attributes <$> caps).

Lemma caps_wf v : v ∈ caps → wf_video v.
Proof. destruct Hw as [He _]. rewrite Forall_forall in He. apply He. Qed.
Lemma caps_pts : NoDup (vc_payload_type <$> caps) ∧ NoDup (rtx_pts caps) ∧ ∀ pt, pt ∈ vc_payload_type <$> caps → pt ∉ rtx_pts caps.
Proof. destruct Hw as [_ Hd]. apply NoDup_app in Hd as (H1 & H2 & H3). done. Qed.

Lemma not_rtx a v : a ∈ caps → v ∈ caps → bool_decide (vc_rtx_payload_type v = Some (vc_payload_type a)) = false.
Proof.
  intros Ha Hv. apply bool_decide_eq_false_2. intros E. destruct caps_pts as (_ & _ & Hd).
  apply (Hd (vc_payload_type a)); [by apply list_elem_of_fmap_2|]. apply list_elem_of_omap. by exists v.
Qed.

Lemma video_rests a : a ∈ caps →
  omap (pt_attribute "rtpmap" (vc_payload_type a)) attrs = [video_rtpmap a] ∧
  omap (pt_attribute "fmtp" (vc_payload_type a)) attrs = option_list (vc_fmtp a) ∧
  omap (pt_attribute "rtcp-fb" (vc_payload_type a)) attrs = vc_rtcp_fbs a.
Proof.
  intros Ha. destruct caps_pts as (Hn & _ & _). unfold attrs.
  pose proof (fun b Hb' => all_attributes_view b (vc_payload_type a) (caps_wf b Hb')) as Hv. cbv zeta in Hv.
  split_and!;
    [apply (omap_caps vc_payload_type all_attributes "rtpmap" base caps a (fun b => [video_rtpmap b]))
    |apply (omap_caps vc_payload_type all_attributes "fmtp" base caps a (fun b => option_list (vc_fmtp b)))
    |apply (omap_caps vc_payload_type all_attributes "rtcp-fb" base caps a vc_rtcp_fbs)]; auto;
    intros b Hb'; destruct (Hv b Hb') as (E1 & E2 & E3); rewrite ?E1, ?E2, ?E3, ?not_rtx by done; unfold sel; by rewrite ?app_nil_r.
Qed.

Lemma rtx_rests r : r ∈ rtx_pts caps → ∃ v, v ∈ caps ∧ omap (pt_attribute "rtpmap" r) attrs = [rtx_rtpmap v].
Proof.
  intros Hr. destruct caps_pts as (Hn & Hn' & Hd). pose proof Hr as (v & Hv & Ev)%list_elem_of_omap. exists v. split; [done|].
  unfold attrs. rewrite omap_app, (omap_no_codec _ _ base) by auto. cbn [app]. rewrite omap_concat, <- list_fmap_compose.
  assert (∀ b, b ∈ caps → vc_payload_type b ≠ r) as Hne by (intros b Hb' <-; apply (Hd (vc_payload_type b)); [by apply list_elem_of_fmap_2|done]).
  assert (∀ b, b ∈ caps → omap (pt_attribute "rtpmap" r) (all_attributes b) = sel (bool_decide (vc_rtx_payload_type b = Some r)) [rtx_rtpmap b]) as Ho.
  { intros b Hb'. destruct (all_attributes_view b r (caps_wf b Hb')) as (-> & _ & _). rewrite (proj2 (Z.eqb_neq _ _)) by auto. done. }
  rewrite (concat_single vc_payload_type _ caps v Hn Hv).
  - unfold compose. rewrite Ho by done. by rewrite bool_decide_true.
  - intros b Hb' Hne'. unfold compose. rewrite Ho by done. rewrite bool_decide_false; [done|]. intros E.
    by rewrite (NoDup_omap_inj vc_rtx_payload_type caps b v r) in Hne'.
Qed.

Lemma video_attached a : a ∈ caps →
  attach_rtx (extract_rtx_apt_map_from_attrs attrs) (a <| vc_rtx_payload_type := None |>) = a.
Proof.
  intros Ha. destruct caps_pts as (Hn & Hn' & _). unfold extract_rtx_apt_map_from_attrs, extract_rtx_apt_map, attrs.
  rewrite fmap_app, foldl_app, (apt_base base), apt_caps by (done || apply Hw).
  assert (bt_wf (fold_left note_rtx caps [])) as Hm.
  { assert (bt_wf ([] : list (Z * Z))) as Hm by constructor. revert Hm. generalize ([] : list (Z * Z)). clear. induction caps as [|v l IH]; intros m Hm; [done|].
    cbn [fold_left]. apply IH. unfold note_rtx. destruct (vc_rtx_payload_type v); [by apply bt_insert_wf|done]. }
  pose proof (fun r p => note_rtx_get caps [] r p ltac:(constructor) Hn') as Hg.
  unfold attach_rtx. rs. set (m := fold_left note_rtx caps []) in *.
  assert (∀ r, bt_get r m = Some (vc_payload_type a) ↔ vc_rtx_payload_type a = Some r) as Hr.
  { intros r. rewrite Hg. split.
    - intros [(v & Hv & E1 & E2)|[_ ?]]; [|done]. assert (v = a) as ->; [|done].
      apply (NoDup_omap_inj (fun v => Some (vc_payload_type v)) caps v a (vc_payload_type a)); try done; by rewrite E2.
    - intros E. left. by exists a. }
  destruct (rtx_pt_for_primary m (vc_payload_type a)) as [r|] eqn:E.
  - apply rtx_for_primary_get in E; [|done]. apply Hr in E. destruct a. cbn in *. by subst.
  - destruct (vc_rtx_payload_type a) as [r|] eqn:Er; [|by destruct a; cbn in *; subst].
    destruct (rtx_pt_for_primary_spec m r (vc_payload_type a) Hm) as (r' & E' & _); [by apply Hr|]. congruence.
Qed.
End video.

Lemma no_codec_rtpmap r base : no_codec base → Forall (fun a => pt_attribute "rtpmap" r a = None) base.
Proof. intros Hb. eapply Forall_impl; [exact Hb|]. intros a (Hk & _). by apply pt_attribute_other. Qed.

Lemma rtpmap_video v n rate : Forall (λ c, c ≠ 47) n → u32 (vc_clock_rate v) →
  fold_left rest_step [n ++ lit "/" ++ show_uint (vc_clock_rate v)] ([], rate, 1) = (n, vc_clock_rate v, 1).
Proof.
  intros Hn Hr. cbn [fold_left rest_step]. change (lit "/") with [47]. cbn [app]. rewrite split_char_app by done.
  rewrite split_char_none by (apply digits_not; [ulia|apply not_slash]). cbn -[parse_uint show_uint]. by rewrite parse_show_uint by ulia.
Qed.

(** The formats and attributes of the announced section *)
Lemma announced_videos c m :
  let caps := configured caps_video VideoCapability_default c in
  kind m = Video → no_codec (attributes m) → wf_videos caps →
  formats (apply_config c m) = (show_uint <$> (vc_payload_type <$> caps)) ++ (show_uint <$> rtx_pts caps) ∧
  attributes (apply_config c m) = (attributes m ++ rtcp_mux c) ++ concat (all_attributes <$> caps) ∧ kind (apply_config c m) = Video.
Proof.
  intros caps Hk Hm Hw. unfold apply_config. rewrite Hk. unfold apply_video_config. fold caps.
  destruct (caps_pts caps Hw) as (Hn & Hn' & Hd).
  rewrite fold_add_video; [rs; rewrite <- list_fmap_compose; done|apply Hw|done|].
  intros r Hr. split_and!.
  - intros (v & E & Hv)%list_elem_of_fmap. apply show_inj in E.
    + apply (Hd (vc_payload_type v)); [by apply list_elem_of_fmap_2|by rewrite <- E].
    + apply list_elem_of_omap in Hr as (w & Hw' & Er). apply (caps_wf caps Hw) in Hw' as [_ _ _ _ Hx]. by rewrite Er in Hx.
    + apply (caps_wf caps Hw) in Hv as [? _ _ _ _]. done.
  - intros Hr'. by apply (Hd r).
  - apply no_codec_rtpmap, Forall_app. split; [done|apply no_codec_mux].
Qed.

Lemma attach_announced apt_map v : attach_rtx apt_map (video_announced v) = video_announced (attach_rtx apt_map v).
Proof. unfold attach_rtx, video_announced. rs. by destruct (rtx_pt_for_primary _ _). Qed.

Lemma video_caps_read c m :
  let caps := configured caps_video VideoCapability_default c in
  kind m = Video → no_codec (attributes m) → wf_videos caps →
  to_video_capabilities (apply_config c m) = video_announced <$> caps.
Proof.
  intros caps Hk Hm Hw. destruct (announced_videos c m Hk Hm Hw) as (Ef & Ea & Ek). fold caps in Ef, Ea.
  set (base := attributes m ++ rtcp_mux c) in *.
  assert (no_codec base) as Hb by (apply Forall_app; split; [done|apply no_codec_mux]).
  assert (omap wildcard_fb (base ++ concat (all_attributes <$> caps)) = []) as Ew.
  { unfold base. rewrite !omap_app, (wildcard_base (attributes m)), omap_concat, <- list_fmap_compose by done.
    assert (omap wildcard_fb (rtcp_mux c) = []) as -> by (unfold rtcp_mux; by destruct (_ && _)). cbn [app].
    assert (∀ l, Forall wf_video l → concat (omap wildcard_fb ∘ all_attributes <$> l) = []) as Hc; [|apply Hc, Hw].
    clear. intros l. induction 1 as [|v l Hv _ IH]; [done|]. cbn [fmap list_fmap concat compose]. by rewrite wildcard_all. }
  unfold to_video_capabilities. rewrite Ek, Ef. rewrite bool_decide_true by done. cbn [negb]. rewrite omap_app, Ea.
  assert (omap (video_capability (apply_config c m)) (show_uint <$> rtx_pts caps) = []) as ->.
  { apply omap_none. intros s (r & -> & Hr)%list_elem_of_fmap. unfold video_capability. rewrite Ea.
    assert (u8 r) as Hu. { apply list_elem_of_omap in Hr as (w & Hw' & Er). apply (caps_wf caps Hw) in Hw' as [_ _ _ _ Hx]. by rewrite Er in Hx. }
    rewrite parse_show_uint by ulia. cbn [mbind option_bind]. destruct (rtx_rests base caps Hb Hw r Hr) as (v & Hv & Er).
    rewrite rtpmap_of_rests, Er. apply (caps_wf caps Hw) in Hv as [_ _ Hv _ _].
    change (rtx_rtpmap v) with (lit "rtx" ++ lit "/" ++ show_uint (vc_clock_rate v)). rewrite rtpmap_video; [done| |done]. by repeat constructor. }
  rewrite app_nil_r, <- list_fmap_compose.
  rewrite (omap_fmap_id_map (video_capability (apply_config c m)) _ (fun v => video_announced (v <| vc_rtx_payload_type := None |>))).
  - rewrite <- list_fmap_compose. apply list_fmap_ext. intros i v Hi. unfold compose. rewrite attach_announced.
    f_equal. apply (video_attached base caps Hb Hw). by eapply list_elem_of_lookup_2.
  - intros v Hv. destruct (video_rests base caps Hb Hw v Hv) as (E1 & E2 & E3). apply (caps_wf caps Hw) in Hv as [H1 (H2 & H2' & H2'') H3 _ _].
    unfold compose, video_capability. rewrite parse_show_uint by ulia. cbn [mbind option_bind]. unfold fmtp_of. rewrite Ea, rtpmap_of_rests, E1, E2, E3, Ew.
    unfold video_rtpmap. rewrite rtpmap_video by done. rewrite push_new_once, head_option_list.
    destruct (vc_codec_name v) as [|d w] eqn:En; [done|]. cbn [length Nat.eqb]. rewrite <- En in *. rewrite H2''. by destruct v.
Qed.

(** ** Fax *)

Record wf_t38 (t : T38Capability) : Prop := {
  wt_pt : u8 (tc_payload_type t);
  wt_version : u8 (tc_version t);
  wt_bitrate : u32 (tc_max_bitrate t);
  wt_buffer : u16 (tc_max_buffer t);
  wt_datagram : u16 (tc_max_datagram t);
}.

Ltac t38_field :=
  intros; unfold t38_step, attr; cbn [key value Attribute_new T38FaxRateManagement_display T38UdpEC_display];
  repeat match goal with |- context [bool_decide (lit ?a = lit ?b)] =>
    let r := eval vm_compute in (bool_decide (lit a = lit b)) in change (bool_decide (lit a = lit b)) with r; cbv iota end;
  by rewrite ?parse_show_uint by ulia.
Lemma t38_version n c : u8 n → t38_step c (attr "T38FaxVersion" (show_uint n)) = c <| tc_version := n |>.
Proof. t38_field. Qed.
Lemma t38_bitrate n c : u32 n → t38_step c (attr "T38MaxBitRate" (show_uint n)) = c <| tc_max_bitrate := n |>.
Proof. t38_field. Qed.
Lemma t38_buffer n c : u16 n → t38_step c (attr "T38FaxMaxBuffer" (show_uint n)) = c <| tc_max_buffer := n |>.
Proof. t38_field. Qed.
Lemma t38_datagram n c : u16 n → t38_step c (attr "T38FaxMaxDatagram" (show_uint n)) = c <| tc_max_datagram := n |>.
Proof. t38_field. Qed.
Lemma t38_management r c : t38_step c (attr "T38FaxRateManagement" (T38FaxRateManagement_display r)) = c <| tc_rate_management := r |>.
Proof. destruct r; t38_field. Qed.
Lemma t38_ec e c : t38_step c (attr "T38FaxUdpEC" (T38UdpEC_display e)) = c <| tc_udp_ec := e |>.
Proof. destruct e; t38_field. Qed.

(** The attributes of one capability overwrite all values but the format's. *)
Lemma t38_read t c : wf_t38 t → tc_fmtp c = None →
  fold_left t38_step (t38_attributes t) c = t <| tc_payload_type := tc_payload_type c |> <| tc_fmtp := None |>.
Proof.
  intros [_ Hv Hb Hf Hd] Hc. unfold t38_attributes. cbn [fold_left].
  rewrite t38_version, t38_bitrate, t38_management, t38_buffer, t38_datagram, t38_ec by done.
  destruct c, t. cbn in Hc. by subst.
Qed.

Lemma t38_step_keeps a c : tc_fmtp (t38_step c a) = tc_fmtp c ∧ tc_payload_type (t38_step c a) = tc_payload_type c.
Proof. unfold t38_step. destruct (value a); [|done]. by repeat case_bool_decide. Qed.
Lemma t38_steps_keep l : ∀ c, tc_fmtp (fold_left t38_step l c) = tc_fmtp c ∧ tc_payload_type (fold_left t38_step l c) = tc_payload_type c.
Proof.
  induction l as [|a l IH]; intros c; [done|]. cbn [fold_left]. destruct (IH (t38_step c a)) as [-> ->]. apply t38_step_keeps.
Qed.

(** Every format of the section has the values of the last capability, and no
    [fmtp], which is not announced. *)
Definition t38_announced (caps : list T38Capability) : list T38Capability :=
  match last caps with
  | Some t => (fun s => t <| tc_payload_type := tc_payload_type s |> <| tc_fmtp := None |>) <$> caps
  | None => []
  end.

Lemma image_caps_read c m :
  let caps := configured caps_image T38Capability_default c in
  kind m = Image → Forall wf_t38 caps → to_image_capabilities (apply_config c m) = t38_announced caps.
Proof.
  intros caps Hk Hw. unfold to_image_capabilities, apply_config, t38_announced. rewrite Hk. unfold apply_image_config. fold caps. rs.
  rewrite Hk, bool_decide_true by done. cbn [negb]. rewrite <- list_fmap_compose.
  destruct caps as [|s l _] using rev_ind; [done|]. rewrite last_snoc, (fmap_app t38_attributes), concat_app. apply list_fmap_ext. intros i t Ht.
  apply Forall_app in Hw as [Hl [Hs _]%Forall_cons]. unfold compose. cbn [fmap list_fmap concat]. rewrite !fold_left_app.
  set (c0 := T38Capability_default <| tc_payload_type := _ |>).
  destruct (t38_steps_keep (attributes m) c0) as [E1 E2].
  destruct (t38_steps_keep (concat (t38_attributes <$> l)) (fold_left t38_step (attributes m) c0)) as [E1' E2'].
  rewrite t38_read by (done || by rewrite E1', E1). rewrite E2', E2. unfold c0. rs.
  assert (wf_t38 t) as [Hp _ _ _ _]; [|by rewrite parse_show_uint by ulia].
  apply list_elem_of_lookup_2, elem_of_app in Ht as [Ht|Ht%list_elem_of_singleton]; [|by subst]. rewrite Forall_forall in Hl. by apply Hl.
Qed.

(** ** All media *)

Definition audio_of := configured caps_audio AudioCapability_default.
Definition video_of := configured caps_video VideoCapability_default.
Definition image_of := configured caps_image T38Capability_default.

Record wf_config (c : MediaConfig) : Prop := {
  wc_audio : Forall wf_audio (audio_of c) ∧ NoDup (ac_payload_type <$> audio_of c);
  wc_video : wf_videos (video_of c);
  wc_image : Forall wf_t38 (image_of c);
}.

(** C12: For a configuration whose payload types (retransmission formats
    included) are distinct, whose codec names are not empty and have no slash,
    and whose video formats are not called rtx and have no apt parameter: the
    audio and video capabilities that apply_config announces in a section
    without codecs are read from it in order and unchanged, but for repeated
    video feedbacks, which are read once, and the parameters 0-16, which type
    101 gains when it has none. Fax capabilities are read with the values of the
    last one and without their fmtp. *)
Theorem capabilities_roundtrip c m :
  wf_config c → no_codec (attributes m) →
  to_audio_capabilities (apply_config c m) = (if bool_decide (kind m = Audio) then audio_announced <$> audio_of c else []) ∧
  to_video_capabilities (apply_config c m) = (if bool_decide (kind m = Video) then video_announced <$> video_of c else []) ∧
  to_image_capabilities (apply_config c m) = (if bool_decide (kind m = Image) then t38_announced (image_of c) else []).
Proof.
  intros [[Ha Hn] Hv Hi] Hm.
  assert (kind (apply_config c m) = kind m) as Ek.
  { unfold apply_config. destruct (kind m) eqn:E; [done| |done..]. unfold apply_video_config. by destruct (fold_left _ _ _). }
  split_and!; case_bool_decide as E.
  - by apply audio_caps_read.
  - unfold to_audio_capabilities. by rewrite Ek, bool_decide_false.
  - by apply video_caps_read.
  - unfold to_video_capabilities. by rewrite Ek, bool_decide_false.
  - by apply image_caps_read.
  - unfold to_image_capabilities. by rewrite Ek, bool_decide_false.
Qed.

Definition ex_config : MediaConfig := {|
  media_capabilities := Some {|
    caps_audio := [AudioCapability_opus; AudioCapability_pcmu; AudioCapability_g722; AudioCapability_telephone_event];
    caps_video := [VideoCapability_vp8_with_rtx 97; VideoCapability_vp9_with_rtx 99];
    caps_sctp_port := Some 5000; caps_image := [T38Capability_default] |};
  rtcp_mux_policy := MuxRequire; sdp_compatibility := Standard |}.

Lemma ex_config_wf : wf_config ex_config.
Proof.
  split.
  - split; [|apply (bool_decide_unpack _); vm_compute; exact I].
    repeat constructor; cbn -[lit]; try done; repeat constructor; try discriminate; vm_compute; done.
  - split; [|apply (bool_decide_unpack _); vm_compute; exact I].
    constructor; [|constructor; [|constructor]]; split; cbn -[lit]; try done; try (split; [done|split; [by repeat constructor|done]]);
      apply (bool_decide_unpack _); vm_compute; exact I.
  - constructor; [|constructor]. by split.
Qed.

Lemma capabilities_roundtrip_witness :
  to_video_capabilities (apply_config ex_config (MediaSection_new Video (lit "1"))) =
    [VideoCapability_vp8_with_rtx 97; VideoCapability_vp9_with_rtx 99].
Proof.
  apply (capabilities_roundtrip ex_config (MediaSection_new Video (lit "1")) ex_config_wf). constructor.
Defined.
