(* ===== verification/SdpSecurity.v ===== *)
(** * The identity that signalling promises
      ([src/sdp.rs], [src/peer_connection.rs])

    A description carries the digest of a certificate.  What the peer reads
    from it is what the DTLS client requires of its server. *)
From S2P Require Import Prelude Core BytesCrate Str Words StateRes RecordSet Rtx Sdp SdpFacts.
From S2P Require Import DtlsRecord DtlsCrypto DtlsCryptoFacts Dtls DtlsExample DtlsAuth.

(** [apply_remote_description]: the fingerprint to require, in WebRTC mode the
    only kind of description that is accepted.  The algorithm and the error that
    the messages quote are left out. *)
Definition remote_dtls_fingerprint (webrtc : bool) (desc : SessionDescription) : res RtcError (option str) :=
  if webrtc then
    match dtls_fingerprint desc with
    | Ok (Some fingerprint) =>
        if bool_decide (fp_algorithm fingerprint = lit "sha-256") then Ok (Some (fp_value fingerprint))
        else Err (InvalidConfiguration "unsupported DTLS fingerprint algorithm")
    | Ok None => Err (InvalidConfiguration "remote SDP in WebRTC mode must contain a DTLS fingerprint")
    | Err _ => Err (InvalidConfiguration "invalid DTLS fingerprint in remote SDP")
    | Panic => Panic
    end
  else Ok None.

(** ** Digests in hexadecimal *)

(** Upper-case hexadecimal digits *)
Definition hex_char (c : Z) : Prop := 48 ≤ c ≤ 57 ∨ 65 ≤ c ≤ 70.

Lemma hex_digit_char d : 0 ≤ d < 16 → hex_char (hex_digit d).
Proof. intros Hd. unfold hex_char, hex_digit. destruct (Z.ltb_spec d 10); lia. Qed.
Lemma hex_digit_inj d e : 0 ≤ d < 16 → 0 ≤ e < 16 → hex_digit d = hex_digit e → d = e.
Proof. intros Hd He. unfold hex_digit. destruct (Z.ltb_spec d 10), (Z.ltb_spec e 10); lia. Qed.
Lemma hex2_chars b : u8 b → Forall hex_char (hex2 b).
Proof. intros Hb. unfold hex2. constructor; [|constructor; [|constructor]]; apply hex_digit_char; ulia. Qed.
Lemma hex2_inj a b : u8 a → u8 b → hex2 a = hex2 b → a = b.
Proof. intros Ha Hb [= E1%hex_digit_inj E2%hex_digit_inj]; ulia. Qed.

Lemma hex_chars l : bytes l → Forall hex_char (concat (hex2 <$> l)).
Proof. induction 1 as [|b l Hb _ IH]; [constructor|]. cbn [fmap list_fmap concat]. apply Forall_app. split; [by apply hex2_chars|done]. Qed.

Lemma hex_join_inj l : ∀ l', bytes l → bytes l' → join (lit ":") (hex2 <$> l) = join (lit ":") (hex2 <$> l') → l = l'.
Proof.
  assert (∀ b r, join (lit ":") (hex2 <$> b :: r) = hex2 b ++ match r with [] => [] | _ => 58 :: join (lit ":") (hex2 <$> r) end) as Ej
    by (intros b [|c r]; [done|reflexivity]).
  induction l as [|b l IH]; intros [|b' l'] Hl Hl' E; [done|by rewrite Ej in E|by rewrite Ej in E|].
  rewrite !Ej in E. apply Forall_cons in Hl as [Hb Hl]. apply Forall_cons in Hl' as [Hb' Hl'].
  apply app_inj_1 in E as [E1%hex2_inj E2]; [|done..]. subst b'. f_equal. destruct l, l'; try done. apply IH; [done..|]. by injection E2.
Qed.

Abbreviation kept := (fun c => negb (is_ascii_whitespace c) && negb (c =? 58) = true).

Lemma hex_char_facts c : hex_char c →
  kept c ∧ upper c = c ∧ is_ascii_hexdigit c = true ∧ char_len c = 1 ∧ is_whitespace c = false.
Proof.
  intros Hc. unfold hex_char in Hc. split_and!.
  - unfold is_ascii_whitespace. rewrite !(proj2 (Z.eqb_neq _ _)) by lia. done.
  - unfold upper. destruct (Z.leb_spec 97 c); [lia|done].
  - unfold is_ascii_hexdigit. destruct (Z.leb_spec 48 c), (Z.leb_spec c 57), (Z.leb_spec 65 c), (Z.leb_spec c 70); try done; lia.
  - unfold char_len. by rewrite (proj2 (Z.ltb_lt _ _)) by lia.
  - apply not_true_is_false. unfold is_whitespace. intros H. rewrite !orb_true_iff, !andb_true_iff, ?Z.eqb_eq, ?Z.leb_le in H. lia.
Qed.

Lemma hex_filter s : Forall hex_char s → filter kept s = s.
Proof.
  induction 1 as [|c s Hc _ IH]; [done|]. rewrite filter_cons_True by apply (hex_char_facts c Hc). by rewrite IH.
Qed.

Lemma hex_normalized l : bytes l → filter kept (join (lit ":") (hex2 <$> l)) = concat (hex2 <$> l).
Proof.
  induction 1 as [|b l Hb Hl IH]; [done|]. cbn [fmap list_fmap concat].
  assert (filter kept (hex2 b) = hex2 b) as Ef by (by apply hex_filter, hex2_chars).
  destruct l as [|b' l]; [cbn [fmap list_fmap join concat]; by rewrite app_nil_r|].
  change (join (lit ":") (hex2 b :: (hex2 <$> b' :: l))) with (hex2 b ++ [58] ++ join (lit ":") (hex2 <$> b' :: l)).
  rewrite !filter_app, Ef, IH. done.
Qed.

Lemma hex_pairs l : colon_pairs (concat (hex2 <$> l)) = hex2 <$> l.
Proof. induction l as [|b l IH]; [done|]. cbn [fmap list_fmap concat]. unfold hex2 at 1. cbn [app colon_pairs]. by rewrite IH. Qed.

Lemma hex_len l : bytes l → str_len (concat (hex2 <$> l)) = 2 * Z.of_nat (length l).
Proof.
  induction 1 as [|b l Hb _ IH]; [done|]. cbn [fmap list_fmap concat length]. pose proof (hex2_chars b Hb) as Hc.
  change (hex2 b) with [hex_digit (b / 16); hex_digit (b mod 16)] in *.
  apply Forall_cons in Hc as [H1 [H2 _]%Forall_cons]. unfold str_len in *. cbn [app foldr]. rewrite IH.
  destruct (hex_char_facts _ H1) as (_ & _ & _ & -> & _), (hex_char_facts _ H2) as (_ & _ & _ & -> & _). lia.
Qed.

(** A digest is in normal form. *)
Lemma digest_normal l : bytes l → l ≠ [] → normalize_fingerprint_value (join (lit ":") (hex2 <$> l)) = Ok (join (lit ":") (hex2 <$> l)).
Proof.
  intros Hl Hne. unfold normalize_fingerprint_value. rewrite hex_normalized by done. pose proof (hex_chars l Hl) as Hc.
  assert (to_ascii_uppercase (concat (hex2 <$> l)) = concat (hex2 <$> l)) as ->.
  { unfold to_ascii_uppercase. transitivity (id <$> concat (hex2 <$> l)); [|apply list_fmap_id].
    apply list_fmap_ext. intros i c Hi. rewrite Forall_lookup in Hc. apply (hex_char_facts c). by eapply Hc. }
  rewrite hex_len by done. destruct l as [|b l]; [done|]. rewrite Z.mul_comm, Z_mod_mult. cbn [fmap list_fmap concat app hex2 length Nat.eqb orb negb].
  rewrite Z.eqb_refl. cbn [negb]. change (hex_digit _ :: hex_digit _ :: concat _) with (concat (hex2 <$> b :: l)).
  assert (forallb is_ascii_hexdigit (concat (hex2 <$> b :: l)) = true) as ->.
  { apply forallb_forall. intros c Hin%list_elem_of_In. rewrite Forall_forall in Hc. apply (hex_char_facts c). by apply Hc. }
  cbn [negb]. by rewrite hex_pairs.
Qed.

Lemma digest_word l : bytes l → l ≠ [] → word (join (lit ":") (hex2 <$> l)).
Proof.
  intros Hl Hne. split; [by destruct l as [|b [|c l]]|].
  assert (∀ b, u8 b → Forall (λ c, is_whitespace c = false) (hex2 b)) as Hb.
  { intros b Hb. eapply Forall_impl; [by apply hex2_chars|]. intros c Hc%hex_char_facts. apply Hc. }
  clear Hne. induction Hl as [|b l Hu Hl IH]; [constructor|]. destruct l as [|b' l]; [by apply Hb|].
  change (join _ _) with (hex2 b ++ [58] ++ join (lit ":") (hex2 <$> b' :: l)).
  apply Forall_app. split; [by apply Hb|]. by constructor.
Qed.

(** ** Fingerprints of a description *)

Definition all_attrs (d : SessionDescription) : list Attribute :=
  session_attributes (session d) ++ concat (attributes <$> media_sections d).
Definition is_fingerprint (a : Attribute) : Prop := key a = lit "fingerprint".

Lemma collect_app l : ∀ l' cur, collect_all (l ++ l') cur = (c ← collect_all l cur; collect_all l' c).
Proof.
  induction l as [|a l IH]; intros l' cur; [done|]. cbn [app collect_all]. destruct (collect_dtls_fingerprint a cur); cbn; [apply IH|done..].
Qed.
Lemma dtls_fingerprint_all d : dtls_fingerprint d = collect_all (all_attrs d) None.
Proof. unfold dtls_fingerprint, all_attrs. by rewrite collect_app. Qed.

(** All fingerprint attributes say the same. *)
Lemma collect_same v f l : ∀ cur,
  SdpFingerprint_parse v = Ok f → Forall (fun a => is_fingerprint a → value a = Some v) l → cur = None ∨ cur = Some f →
  collect_all l cur = Ok (if bool_decide (Exists is_fingerprint l) then Some f else cur).
Proof.
  intros cur Hv Hl. revert cur. induction Hl as [|a l Ha Hl IH]; intros cur Hc.
  { by rewrite bool_decide_false by (by intros ?%Exists_nil). }
  cbn [collect_all]. unfold collect_dtls_fingerprint. destruct (decide (key a = lit "fingerprint")) as [Hk|Hk].
  - rewrite bool_decide_true by done. cbn [negb]. rewrite (Ha Hk), Hv. cbn [mbind res_bind]. rewrite (bool_decide_true (Exists _ (a :: l))) by (by left).
    assert (match cur with Some existing => if negb (bool_decide (existing = f)) then Err (Parse (lit "conflicting DTLS fingerprint attributes in SDP")) else Ok cur
            | None => Ok (Some f) end = Ok (Some f)) as ->.
    { destruct Hc as [->| ->]; [done|]. by rewrite bool_decide_true. }
    cbn [mbind res_bind]. rewrite IH by (by right). by destruct (bool_decide _).
  - rewrite bool_decide_false by done. cbn [negb mbind res_bind]. rewrite IH by done. erewrite bool_decide_ext; [reflexivity|]. rewrite Exists_cons. unfold is_fingerprint at 2. tauto.
Qed.

(** The description [secured hash setup d] is [d] with the attributes of DTLS in
    all its sections. *)
Definition secured (hash setup : str) (d : SessionDescription) : SessionDescription :=
  d <| media_sections ::= fmap (add_dtls_attributes hash setup) |>.

Lemma add_dtls_eq hash setup m :
  attributes (add_dtls_attributes hash setup m) =
    attributes m ++ [Attribute_new (lit "fingerprint") (Some (lit "sha-256 " ++ hash)); Attribute_new (lit "setup") (Some setup)].
Proof. unfold add_dtls_attributes, push_attribute. rs. by rewrite <- app_assoc. Qed.

Lemma secured_wf hash setup d : word hash → clean setup → wf_description d → wf_description (secured hash setup d).
Proof.
  intros Hh Hs [Hd Hm]. split; [done|]. unfold secured. rs. apply Forall_fmap. eapply Forall_impl; [exact Hm|].
  intros m [H1 H2 H3 H4 H5 H6]. unfold compose. split; try done. rewrite add_dtls_eq. apply Forall_app. split; [done|].
  constructor; [|constructor; [|constructor]].
  - split; [|done]. split; [by repeat constructor|]. split; [by repeat constructor|]. cbn [value Attribute_new].
    change (lit "sha-256 " ++ hash) with (lit "sha-256" ++ 32 :: hash). apply clean_blank; [by repeat constructor|by apply word_clean|apply Hh].
  - split; [|done]. split; [by repeat constructor|]. split; [by repeat constructor|done].
Qed.

Lemma elem_normal a d : a ∈ all_attrs (normal d) ↔ a ∈ all_attrs d.
Proof.
  unfold all_attrs, normal. rs. rewrite !elem_of_app. apply or_iff_compat_l. rewrite <- list_fmap_compose.
  rewrite !list_elem_of_In, !in_concat. split; intros (l & Hl & Ha); apply list_elem_of_In, list_elem_of_fmap in Hl as (m & -> & Hm).
  - exists (attributes m). split; [apply list_elem_of_In; by apply list_elem_of_fmap_2|]. unfold compose, normal_media in Ha. rs in Ha.
    apply list_elem_of_In. apply list_elem_of_In, elem_of_app in Ha. rewrite !list_elem_of_filter in Ha. tauto.
  - eexists. split; [apply list_elem_of_In, list_elem_of_fmap_2; exact Hm|]. unfold compose, normal_media. rs.
    apply list_elem_of_In, elem_of_app. rewrite !list_elem_of_filter. apply list_elem_of_In in Ha. destruct (is_transport a); tauto.
Qed.

Lemma elem_secured hash setup d a : a ∈ all_attrs (secured hash setup d) →
  is_fingerprint a → a ∈ all_attrs d ∨ a = Attribute_new (lit "fingerprint") (Some (lit "sha-256 " ++ hash)).
Proof.
  unfold all_attrs, secured. rs. rewrite !elem_of_app, <- list_fmap_compose. rewrite !list_elem_of_In, !in_concat.
  intros [Ha|(l & Hl & Ha)] Hk; [by left; left|]. apply list_elem_of_In, list_elem_of_fmap in Hl as (m & -> & Hm).
  unfold compose in Ha. rewrite add_dtls_eq in Ha. apply list_elem_of_In, elem_of_app in Ha as [Ha|[->|[->|[]%not_elem_of_nil]%elem_of_cons]%elem_of_cons]; [|by right|done].
  left; right. exists (attributes m). split; [by apply list_elem_of_In, list_elem_of_fmap_2|by apply list_elem_of_In].
Qed.

Section identity.
Context `{Unicode, !UnicodeLaws, BytesCrate, DtlsCrypto, !DtlsCryptoLaws}.

Lemma digest_signalled leaf setup d :
  clean setup → wf_description d → Forall (fun a => ¬ is_fingerprint a) (all_attrs d) → media_sections d ≠ [] →
  ∃ d', SessionDescription_parse (sdp_type d) (to_sdp_string (secured (fingerprint_from_der leaf) setup d)) = Ok d' ∧
    remote_dtls_fingerprint true d' = Ok (Some (fingerprint_from_der leaf)).
Proof.
  intros Hs Hd Hf Hm. set (fp := fingerprint_from_der leaf). set (d1 := secured fp setup d).
  assert (sha256 leaf ≠ []) as Hne by (intros E; pose proof (sha256_length leaf) as L; by rewrite E in L).
  pose proof (digest_word _ (sha256_bytes leaf) Hne) as Hw. fold (fingerprint_from_der leaf) in Hw. fold fp in Hw.
  exists (normal d1). split; [by apply (sdp_print_parse d1), secured_wf|].
  assert (SdpFingerprint_parse (lit "sha-256 " ++ fp) = Ok {| fp_algorithm := lit "sha-256"; fp_value := fp |}) as Hp.
  { unfold SdpFingerprint_parse. change (lit "sha-256 " ++ fp) with (lit "sha-256" ++ 32 :: fp).
    rewrite split_whitespace_cons by by_word. rewrite split_whitespace_one by done.
    unfold fp, fingerprint_from_der. by rewrite digest_normal by (done || apply sha256_bytes). }
  unfold remote_dtls_fingerprint. rewrite dtls_fingerprint_all, (collect_same _ _ _ _ Hp); [|..|by left].
  - rewrite bool_decide_true; [by rewrite bool_decide_true|].
    apply Exists_exists. exists (Attribute_new (lit "fingerprint") (Some (lit "sha-256 " ++ fp))). split; [|done]. apply elem_normal.
    unfold all_attrs, d1, secured. rs. apply elem_of_app. right. destruct (media_sections d) as [|m ms]; [done|].
    cbn [fmap list_fmap concat]. rewrite add_dtls_eq, !elem_of_app. left. right. left.
  - apply Forall_forall. intros a Ha Hk. apply (proj1 (elem_normal a d1)) in Ha. destruct (elem_secured _ _ _ _ Ha Hk) as [Ha'| ->]; [|done].
    rewrite Forall_forall in Hf. by destruct (Hf a Ha').
Qed.

(** Keys derived from our secret and a public key that, together with our random
    value, the key of a certificate with the digest signed *)
Definition keys_vouched_by (digest : list Z) (secret : EcdhSecret) (random : list Z) (k : SessionKeys) : Prop :=
  ∃ leaf vk sr ct nc sig pk z label seed,
    sha256 leaf = digest ∧ certificate_public_key leaf = Ok vk ∧
    verify vk (signed_params random sr ct nc pk) sig = true ∧ shared_secret secret pk = Some z ∧
    (label = lit "extended master secret" ∨ label = lit "master secret") ∧
    prf_sha256 z label seed 48 = Ok (master_secret k) ∧
    client_random k = random ∧ expand_keys (master_secret k) (client_random k) (server_random k) = Ok k.

Lemma vouched_digest leaf0 secret random k :
  vouched_keys (Some (fingerprint_from_der leaf0)) secret random (fun _ => True) k → keys_vouched_by (sha256 leaf0) secret random k.
Proof.
  intros (pk & z & label & seed & (leaf & vk & sr & ct & nc & sig & [E1 E2] & Hv) & Hz & Hl & Hp & Er & He).
  exists leaf, vk, sr, ct, nc, sig, pk, z, label, seed. split_and!; try done; [|by destruct Hl as [[? _]|[? _]]; auto|by rewrite Er].
  apply hex_join_inj; [apply sha256_bytes..|exact E1].
Qed.

(** C10: A description that announces the digest of a certificate in its
    sections is parsed by the peer to a description whose fingerprint it
    accepts, and a DTLS client started with that fingerprint, whatever
    datagrams, timers and socket events it meets, is in state Connected only
    with keys expanded with its own random value and derived from its own secret
    and a public key signed, together with that random value, by the key of a
    certificate with the same SHA-256 digest. *)
Theorem signalled_identity leaf0 setup d :
  clean setup → wf_description d → Forall (fun a => ¬ is_fingerprint a) (all_attrs d) → media_sections d ≠ [] →
  ∃ d' expected,
    SessionDescription_parse (sdp_type d) (to_sdp_string (secured (fingerprint_from_der leaf0) setup d)) = Ok d' ∧
    remote_dtls_fingerprint true d' = Ok expected ∧
    ∀ cert i public secret s0 evs crypto profile,
      ecdh_generate i = Some (public, secret) → Sys_new i expected = Ok s0 →
      s_state (runner cert true evs s0).1 = Connected crypto profile →
      keys_vouched_by (sha256 leaf0) secret (Random_to_bytes (Random_new (unix_ms (S i)) (rng_fill (S i) 28))) (keys crypto).
Proof.
  intros Hs Hd Hf Hm. destruct (digest_signalled leaf0 setup d Hs Hd Hf Hm) as (d' & E1 & E2).
  exists d', (Some (fingerprint_from_der leaf0)). split; [done|]. split; [done|].
  intros cert i public secret s0 evs crypto profile Hg Hn Hc. apply vouched_digest. by eapply client_authenticated.
Qed.
End identity.

Lemma signalled_identity_witness :
  ∃ d' expected,
    @SessionDescription_parse ascii_unicode Offer
      (to_sdp_string (secured (@fingerprint_from_der sum_crypto ex_leaf) (lit "actpass") ex_offer)) = Ok d' ∧
    remote_dtls_fingerprint true d' = Ok expected ∧
    ∀ cert i public secret s0 evs crypto profile,
      @ecdh_generate sum_crypto i = Some (public, secret) → @Sys_new sum_crypto i expected = Ok s0 →
      s_state (@runner vec_crate sum_crypto cert true evs s0).1 = Connected crypto profile →
      @keys_vouched_by sum_crypto (@sha256 sum_crypto ex_leaf) secret
        (@Random_to_bytes vec_crate (Random_new (@unix_ms sum_crypto (S i)) (@rng_fill sum_crypto (S i) 28))) (keys crypto).
Proof.
  apply (@signalled_identity ascii_unicode ascii_unicode_laws vec_crate sum_crypto sum_laws ex_leaf (lit "actpass") ex_offer).
  - apply word_clean. by_word.
  - apply ex_offer_wf.
  - by repeat constructor.
  - done.
Defined.
