(* ===== verification/Parsers.v ===== *)
(** * Parsers of received bytes

    Everything a remote side can send first meets one of these functions.
    None of them indexes, slices or splits out of bounds, whatever the bytes
    are; the two hello messages of DTLS are the exception, on exactly 34 bytes
    (see [DtlsRobust.dtls_hello_abort]). *)
From S2P Require Import Prelude Core BytesCrate Rtp Rtcp RtcpFacts Stun Ifp DtlsRecord DtlsRecordFacts Frame Packetizer Depacketizer PacketizerFacts MediaRobust.

Section parsers.
Context `{BytesCrate, !BytesLaws}.

(** C34: The parsers of RTP, RTCP, STUN, IFP, DTLS records and handshake
    messages and the H.264 and VP9 depacketizers return a result on all bytes
    and from every state: no index, slice or split of them goes out of bounds,
    except that those of ClientHello and ServerHello abort on exactly the inputs
    of 34 bytes. *)
Theorem parsers_return raw dh dv pkt clock_rate addr kind :
  RtpPacket_parse raw ≠ Panic ∧ parse_rtcp_packets raw ≠ Panic ∧
  decode_stun_message raw ≠ Panic ∧ IfpPacket_decode raw ≠ Panic ∧
  DtlsRecord_decode raw ≠ Panic ∧ HandshakeMessage_decode raw ≠ Panic ∧
  HelloVerifyRequest_decode raw ≠ Panic ∧ CertificateMessage_decode raw ≠ Panic ∧
  ServerKeyExchange_decode raw ≠ Panic ∧ ClientKeyExchange_decode raw ≠ Panic ∧
  Finished_decode raw ≠ Panic ∧
  (ClientHello_decode raw = Panic ↔ length raw = 34%nat) ∧ (ServerHello_decode raw = Panic ↔ length raw = 34%nat) ∧
  H264Depacketizer_push dh pkt clock_rate addr kind ≠ Panic ∧
  Vp9Depacketizer_push dv pkt clock_rate addr kind ≠ Panic.
Proof.
  destruct (depacketizers_return dh dv pkt clock_rate addr kind) as [(? & ? & Eh) (? & ? & Ev)].
  split_and!; [apply rtp_parse_no_panic|apply rtcp_parse_no_panic|apply stun_decode_no_panic
    |apply ifp_decode_no_panic|apply DtlsRecord_decode_np|apply HandshakeMessage_decode_np
    |apply HelloVerifyRequest_decode_np|apply CertificateMessage_decode_np
    |apply ServerKeyExchange_decode_np|apply ClientKeyExchange_decode_np|apply Finished_decode_np
    |apply ClientHello_decode_panic|apply ServerHello_decode_panic
    |by rewrite Eh|by rewrite Ev].
Qed.
End parsers.

Definition ex_rtp : RtpPacket := packet_for 7 96 VideoFrame_default 1 [0x5c] true.

Lemma parsers_return_witness :
  @RtpPacket_parse vec_crate [0x80; 0; 0] ≠ Panic ∧ @DtlsRecord_decode vec_crate [22; 254] ≠ Panic.
Proof.
  split; [apply (@parsers_return vec_crate vec_laws [0x80; 0; 0] H264Depacketizer_new Vp9Depacketizer_new ex_rtp 0 no_addr KindVideo)
         |apply (@parsers_return vec_crate vec_laws [22; 254] H264Depacketizer_new Vp9Depacketizer_new ex_rtp 0 no_addr KindVideo)].
Defined.
